(* ===== verification/_CoqProject ===== *)
-Q . S2P
Prelude.v
Value.v
Sha256.v
Apimachinery.v
Reference.v
Types.v
DeepCopy.v
Clients.v
Manifest.v
ManifestProps.v
Order.v
OrderProps.v
Boundary.v
GoPaths.v
TestUtils.v
SourceWorld.v
GitResolver.v
HelmLoader.v
RenderCache.v
RenderCacheProps.v
Applier.v
ApplierProps.v
Glob.v
Transform.v
TransformProps.v
GlobProps.v
Controller.v
SourceRender.v
Outcomes.v
Safety.v
Deliver.v
SourceSafety.v
SourceSim.v
SourceProps.v
LoaderProps.v
SourceCache.v
Equivalence.v
EquivalenceProps.v
GoldenProps.v
Cluster.v
SourceTracks.v
Simulator.v
Bystanders.v
ReconcileProps.v
DeliverProps.v
Readiness.v
DeleteProps.v
Runs.v
Liveness.v
ClusterProps.v
Lifecycle.v
Lost.v
Main.v
