(* ===== verification/Prelude.v ===== *)
(** * dual-deployment-operator: verification development

    ** The program

    The operator delivers one Helm chart or kustomize tree twice, to a seed
    cluster and to a shoot cluster.  [Reconcile]
    (internal/controller/dualdeploymentoperator_controller.go) fetches the
    DualDeploymentOperator, adds a finalizer, has internal/source render the
    source for both modes, applies the transformations of internal/transform,
    sends the objects through the server-side-apply Applier of internal/deliver
    in the order spec.applyOrder asks for, prunes what left the render, and
    records inventories and conditions.  [reconcileDelete] tears down by
    inventory and then releases the finalizer.  internal/equivalence, a test
    harness, compares the operator's renders with a golden chart render.

    ** Files

    - [Prelude], [Value]: automation and lists; JSON-like values, paths, errors.
    - [Apimachinery], [Reference]: the Kubernetes accessor library as classes
      with laws, and reference implementations that meet the laws.
    - [Sha256], [GoPaths], [Glob]: the Go standard library as the code uses it:
      SHA-256 on 32-bit words, strings and paths, path.Match.
    - [Types]: api/v1alpha1, the structs and the admission rules, and the
      admission webhook; [DeepCopy]: the generated deep copies, over values
      whose pointers and slices carry the address of their cell.
    - [Clients]: internal/clients, and the credential parsing of
      internal/source/credentials.go.
    - [Manifest], [ManifestProps]: internal/manifest.
    - [Order], [OrderProps]: internal/deliver/order.go.
    - [Boundary]: the API servers, the clock and the recorder as a class of
      calls over an abstract state; the monad [M] carries the trace of calls.
    - [Applier], [ApplierProps]: the rest of internal/deliver, with the contract
      [ApplierContract] between the applier and the reconciler.
    - [Transform], [TransformProps], [GlobProps]: internal/transform.
    - [SourceWorld]: files, Helm, kustomize, go-git as a class of calls.
    - [GitResolver], [HelmLoader], [RenderCache], [SourceRender]:
      internal/source; [SourceRender] ends with the package as cmd/main.go
      wires it.
    - [RenderCacheProps], [SourceSafety], [SourceProps], [LoaderProps],
      [SourceCache]: their properties; [SourceSim] is a concrete world.
    - [Controller]: the reconciler, one definition per function and per phase of
      Reconcile.  [Outcomes] and [Deliver] state what its loops and its delivery
      half may do as relations and show that the code refines them; [Safety]
      has the invariants of traces.  [ReconcileProps], [DeliverProps] and
      [DeleteProps] are the properties of whole runs, [Runs] tells the phases of a
      run apart and what it sends, [Readiness] what the Ready condition means, [Liveness] what a run achieves when none of its calls
      goes wrong; [Simulator] is an in-memory environment for examples.
    - [Cluster], [ClusterProps]: the stores behind the API calls, for servers
      that are lawful ([LawfulServer]), and what one run leaves in them;
      [SourceTracks] shows that rendering leaves them alone.  [Lifecycle]: runs
      interleaved with outside changes as a step relation, its invariant, and
      what holds in all reachable states; [Bystanders] has other writers for its
      examples.  [Lost] follows an object whose record was refused.
    - [Equivalence], [EquivalenceProps], [GoldenProps]: internal/equivalence.
    - [TestUtils]: test/utils, the helpers of the end-to-end tests.
    - [Main]: cmd/main.go, the options and the order of the set-up.

    ** How the code is modelled

    A Go function is a Rocq function of the same name ([T_Method] for a method
    where the plain name is taken); a loop with early returns is a [Fixpoint] or
    a fold next to the function that runs it.  An error is a value of [error],
    with wrapping and sentinels; [result] is the pair of a value and an error.
    Code that calls out is in [M], a state monad over the environment that also
    returns the list of its calls as [event]s.  Unstructured objects are finite
    maps ([obj]).  Where aliasing matters (the render cache) there is a heap of
    cells; where Go's map order matters (Compare, Scope.Apply) the order is an
    argument.

    Everything outside the repository is a parameter: [Unstructured],
    [ApiErrors], [MetaLib], [PatchLib], [YAMLDecoder], [Boundary],
    [SourceWorld], [NetURL], [LRU].  The theorems on Reconcile assume nothing
    about the API servers unless they name [FaithfulServer]; laws of libraries
    are the separate classes ending in [Laws], all with instances.  The
    reconciler is verified against [ApplierContract] and [SourceContract];
    [ssa_refines_contract] and [production_source_contract] discharge them.

    The theorems of [ClusterProps] and [Lifecycle] speak about stored objects.
    They assume a [LawfulServer]: one object per group, kind, namespace (of a
    namespaced kind) and name; reads answer from the store; a call changes at
    most the object it addresses, and may fail at any time, a failed write of an
    object possibly carried out all the same; a write of the CR is carried out
    exactly when it is accepted.  What the server makes of an applied object,
    with its defaults and the fields of other writers, is the parameter
    [stored_as] of [Storage]; it keeps the owned-by label.  Reads of the CR
    are fresh: the manager's client answers them from its informer cache, and
    what a stale answer would do is not modelled.  Between any two calls others may write:
    [drift] says what.  The theorems of [Lifecycle] on reachable states allow
    everything there, in the middle of a run as between two runs, except that
    somebody else puts the CR's label on an object or takes the CR's finalizer
    or inventories away; [Bystanders] is a simulation with such writers.  The
    theorems on what exactly one run leaves are about runs that are
    [undisturbed]: the ownership check and the write that follows it are two
    calls, and the code has nothing to notice a change between them.  All shoot
    clients reach the same shoot.  Three hypotheses of
    [admissible] bound the runs: the transformed renders are well formed, a
    delivery that sent objects gets its status written
    ([refused_status_write_leaks] shows what happens otherwise), and, for what is
    said of the shoot, no CR read back asks for force-delete.  A crash in the middle of a
    delivery is the same as a lost status write.  CRDs are left out of the
    statements since the retention policy may keep them.

    ** What is shown

    - Ownership and delivery: objects of others are neither deleted nor taken
      over, the seed waits for the shoot, inventories cover all that was sent,
      pruning deletes only orphans, success means convergence, Ready=True means
      that every object was found healthy, and every run is followed by another
      (requeue or error).
    - Deletion: the finalizer goes last, only when all is gone, in the reverse
      order of delivery; read errors keep it.
    - Progress: a run none of whose calls goes wrong reports success, and a
      deletion like that removes the finalizer.
    - The clusters: objects of others survive every run; in all reachable states
      the inventories name every object with the CR's label, success leaves
      exactly the render, each object as the server stores what was rendered and
      marked, and a CR that is gone has left nothing behind.  [Lost] shows where
      that ends: an object applied in a run whose status write was refused, and
      not rendered again, is never touched again.
    - What is sent: an object of this run's transformed render, marked with the
      owner, free of caBundles, otherwise as rendered; identity keys round-trip and are injective.
    - Transformations: Build accepts what admission admits; patches and webhook
      rewriting change exactly their targets; selectors are globs.
    - Sources: credentials come from the CR's secret only, scratch directories
      are removed on all paths, a kustomize render is built from the checkout of
      the pinned revision, by an exact sequence of calls; dependency plans and value
      precedence are spelled out (the plan departs from the documents for vendored
      charts without a lock).
    - The render cache: a hit is the last put, whatever was mutated in between;
      answers have the provenance their key says; size and totality.
    - Equivalence harness: comparison is sound, complete and independent of map
      order; unwrapping is complete; the capture is what the reconciler renders.
    - Deep copies share no memory with their originals.
    - Start-up: the manager runs only fully wired and with guarded options.

    ** Fuel and bounds

    Only [Glob] uses fuel: one more than the length of the pattern (of the
    chunk, of the class).  Each round consumes a byte of it, and [GlobProps]
    shows the outcome to be the same for all larger fuels.  SHA-256 works on
    32-bit words with the wrap-around written out; the cache size is the
    source's 32; float64 values are kept as bit patterns.

    ** Not modelled

    Log lines; SetupWithManager and the registration of the webhook (library
    calls); the zap and kubeconfig flags of cmd/main.go; scheme registration.
    The memory two reconciles share is the render cache only, where their calls
    are interleaved; their effects on the clusters are interleaved in [Lifecycle].
*)

From stdpp Require Export base gmap strings list fin_maps sorting pretty.
From Stdlib Require Export ZArith Lia.

Declare Scope ddo_scope.
Delimit Scope ddo_scope with ddo.
#[global] Open Scope ddo_scope.
#[global] Open Scope string_scope.

(** Hint databases of the development: [ddo] for facts closed by [eauto],
    [ddo_rw] for the rewriting of accessors over constructors. *)
Create HintDb ddo discriminated.
Create Rewrite HintDb ddo_rw.

(** ** Tactics *)

(** Case analysis on the discriminee of a [match] or an [if] in the goal or in
    a hypothesis, keeping the equation. *)
Ltac case_one :=
  match goal with
  | |- context [match ?x with _ => _ end] =>
      lazymatch x with context [match _ with _ => _ end] => fail | _ => destruct x eqn:? end
  | H : context [match ?x with _ => _ end] |- _ =>
      lazymatch x with context [match _ with _ => _ end] => fail | _ => destruct x eqn:? end
  end.

Ltac cases := repeat (case_one; simplify_eq/=).

(** Membership in a list given by conses and appends: case analysis of the
    hypotheses, and a goal that follows from one of them. *)
Ltac in_list :=
  repeat match goal with
  | H : _ ∈ [] |- _ => exfalso; apply elem_of_nil in H; exact H
  | H : _ ∈ _ :: _ |- _ =>
      let Eq := fresh in
      apply elem_of_cons in H as [Eq|H];
      [first [discriminate Eq | injection Eq; clear Eq; intros; subst | subst]|]
  | H : _ ∈ app _ _ |- _ => apply elem_of_app in H as [H|H]
  end.
Ltac solve_or := first [assumption | left; solve_or | right; solve_or].
Ltac in_goal :=
  intros;
  repeat match goal with
  | H : _ ∈ _ :: _ |- _ => rewrite elem_of_cons in H
  | H : _ ∈ app _ _ |- _ => rewrite elem_of_app in H
  | H : _ \/ _ |- _ => destruct H
  end;
  subst; rewrite ?elem_of_cons, ?elem_of_app; first [solve_or | tauto].


(** Splits a conjunction-shaped context and existentials. *)
Ltac crush_ex :=
  repeat match goal with
  | H : exists _, _ |- _ => destruct H
  | H : _ /\ _ |- _ => destruct H
  end; simplify_eq/=.

(** An element after a prefix that has none of its class has the prefix before it. *)
Lemma after_prefix {A} (Q : A -> Prop) (a b t1 t2 : list A) x :
  (a ++ b)%list = (t1 ++ x :: t2)%list -> Forall (fun y => ~ Q y) a -> Q x ->
  exists k, t1 = (a ++ k)%list /\ b = (k ++ x :: t2)%list.
Proof.
  revert t1. induction a as [|y a IH]; cbn; intros t1 Heq Ha Hx; [by exists t1|].
  apply Forall_cons in Ha as [Hy Ha]. destruct t1 as [|z t1]; cbn in Heq; injection Heq as <- Heq.
  - by destruct Hy.
  - destruct (IH t1) as (k & -> & ->); [done..|]. by exists k.
Qed.

(** ** Go strings *)

(** [strings.Join(elems, sep)]. *)
Fixpoint strings_Join (elems : list string) (sep : string) : string :=
  match elems with
  | [] => ""
  | [s] => s
  | s :: rest => s +:+ sep +:+ strings_Join rest sep
  end.

(** [c] does not occur in [s]. *)
Fixpoint lacks (c : Ascii.ascii) (s : string) : bool :=
  match s with
  | EmptyString => true
  | String d s' => negb (Ascii.eqb c d) && lacks c s'
  end.

(** The separator of API groups and of identity keys. *)
Definition slash : Ascii.ascii := Ascii.ascii_of_N 47.
Definition no_slash (s : string) : bool := lacks slash s.

Lemma string_app_cons c (s t : string) : String c s +:+ t = String c (s +:+ t).
Proof. done. Qed.

Lemma string_app_nil_r (s : string) : s +:+ "" = s.
Proof. induction s as [|c s IH]; [done|]. by rewrite string_app_cons, IH. Qed.

Lemma string_app_assoc (a b c : string) : (a +:+ b) +:+ c = a +:+ (b +:+ c).
Proof. induction a as [|x a IH]; [done|]. by rewrite !string_app_cons, IH. Qed.

Lemma lacks_app c a b : lacks c (a +:+ b) = lacks c a && lacks c b.
Proof.
  induction a as [|x a IH]; [done|]. rewrite string_app_cons. cbn. rewrite IH.
  by destruct (Ascii.eqb c x).
Qed.

(** Two strings cut at their first separator: both halves agree. *)
Lemma cut_inj c a a' b b' :
  lacks c a = true -> lacks c a' = true ->
  a +:+ String c b = a' +:+ String c b' -> a = a' /\ b = b'.
Proof.
  revert a'. induction a as [|x a IH]; intros [|x' a'] Ha Ha' H;
    rewrite ?string_app_cons in H; cbn in Ha, Ha'.
  - by injection H.
  - injection H as <- _. by rewrite Ascii.eqb_refl in Ha'.
  - injection H as -> _. by rewrite Ascii.eqb_refl in Ha.
  - apply andb_prop in Ha as [_ Ha]. apply andb_prop in Ha' as [_ Ha'].
    injection H as -> H. destruct (IH a' Ha Ha' H) as [-> ->]. done.
Qed.

(** [strings.Join] over separator-free components is injective, for lists of
    equal length. *)
Lemma strings_Join_inj c (l l' : list string) :
  length l = length l' ->
  Forall (fun s => lacks c s = true) l -> Forall (fun s => lacks c s = true) l' ->
  strings_Join l (String c "") = strings_Join l' (String c "") -> l = l'.
Proof.
  revert l'. induction l as [|s l IH]; intros [|s' l'] Hlen Hl Hl' H; try done.
  inversion Hl; inversion Hl'; subst.
  destruct l as [|t l], l' as [|t' l']; try done.
  - cbn in H. by subst.
  - change (s +:+ String c (strings_Join (t :: l) (String c "")) =
            s' +:+ String c (strings_Join (t' :: l') (String c ""))) in H.
    apply cut_inj in H as [-> H]; [|done..]. f_equal. apply IH; [by injection Hlen as Hlen; cbn; f_equal|done..].
Qed.

(** ** [sort.SliceStable]

    The standard library's contract determines the result: an ascending
    permutation that keeps the order of equivalent elements.  [SliceStable] is
    an executable definition with that contract, [SliceStable_unique] that the
    contract admits no other result. *)
Section SliceStable.
Context {A : Type}.

Fixpoint insertStable (less : A -> A -> bool) (x : A) (l : list A) : list A :=
  match l with
  | [] => [x]
  | y :: l' => if less y x then y :: insertStable less x l' else x :: l
  end.

Fixpoint SliceStable (less : A -> A -> bool) (l : list A) : list A :=
  match l with
  | [] => []
  | x :: l' => insertStable less x (SliceStable less l')
  end.

Lemma insertStable_Permutation less x l : insertStable less x l ≡ₚ x :: l.
Proof.
  induction l as [|y l IH]; cbn; [done|].
  destruct (less y x); [|done]. rewrite IH. apply Permutation_swap.
Qed.

Lemma SliceStable_Permutation less l : SliceStable less l ≡ₚ l.
Proof. induction l as [|x l IH]; cbn; [done|]. by rewrite insertStable_Permutation, IH. Qed.

Lemma SliceStable_length less l : length (SliceStable less l) = length l.
Proof. apply Permutation_length, SliceStable_Permutation. Qed.

Lemma elem_of_SliceStable less l x : x ∈ SliceStable less l <-> x ∈ l.
Proof. by rewrite (SliceStable_Permutation less l). Qed.

(** The comparison of the source is always the comparison of an integer key. *)
Context (key : A -> Z) (less : A -> A -> bool).
Context (less_key : forall x y, less x y = (key x <? key y)%Z).

Abbreviation key_le := (fun x y => (key x <= key y)%Z).

Lemma insertStable_sorted x l :
  StronglySorted key_le l -> StronglySorted key_le (insertStable less x l).
Proof.
  induction 1 as [|y l Hs IH Hy]; cbn; [repeat constructor|].
  rewrite less_key. destruct (Z.ltb_spec (key y) (key x)).
  - constructor; [done|]. rewrite insertStable_Permutation. constructor; [lia|done].
  - constructor; [by constructor|]. constructor; [lia|].
    eapply Forall_impl; [exact Hy|]. cbn. lia.
Qed.

Lemma SliceStable_sorted l : StronglySorted key_le (SliceStable less l).
Proof. induction l; cbn; [constructor|]. by apply insertStable_sorted. Qed.

Lemma insertStable_filter k x l :
  filter (fun y => key y = k) (insertStable less x l) = filter (fun y => key y = k) (x :: l).
Proof.
  induction l as [|y l IH]; [done|]. cbn [insertStable].
  rewrite less_key. destruct (Z.ltb_spec (key y) (key x)); [|done].
  rewrite filter_cons, IH, !filter_cons. repeat case_decide; try done. lia.
Qed.

(** Stability: the elements of each key keep their relative order. *)
Lemma SliceStable_filter k l :
  filter (fun y => key y = k) (SliceStable less l) = filter (fun y => key y = k) l.
Proof.
  induction l as [|x l IH]; [done|]. cbn [SliceStable].
  rewrite insertStable_filter, !filter_cons, IH. done.
Qed.

Lemma sorted_filters_eq l l' :
  StronglySorted key_le l -> StronglySorted key_le l' ->
  (forall k, filter (fun y => key y = k) l = filter (fun y => key y = k) l') -> l = l'.
Proof.
  intros Hs. revert l'. induction Hs as [|x l Hs IH Hx]; intros l' Hs' Hf.
  - destruct l' as [|y l']; [done|]. specialize (Hf (key y)).
    rewrite filter_nil, filter_cons_True in Hf; done.
  - destruct l' as [|y l'].
    { specialize (Hf (key x)). rewrite filter_nil, filter_cons_True in Hf; done. }
    inversion Hs' as [|? ? Hs'' Hy]; subst.
    assert (key x = key y) as Hk.
    { assert (x ∈ filter (fun z => key z = key x) (y :: l')) as Hin.
      { rewrite <- Hf, filter_cons_True by done. left. }
      assert (y ∈ filter (fun z => key z = key y) (x :: l)) as Hin'.
      { rewrite Hf, filter_cons_True by done. left. }
      apply list_elem_of_filter in Hin as [_ Hin]. apply list_elem_of_filter in Hin' as [_ Hin'].
      rewrite Forall_forall in Hx, Hy.
      apply elem_of_cons in Hin as [->|Hin]; [done|].
      apply elem_of_cons in Hin' as [->|Hin']; [done|].
      specialize (Hx y Hin'). specialize (Hy x Hin). cbn in *. lia. }
    pose proof (Hf (key x)) as Hh. rewrite !filter_cons_True in Hh by done.
    injection Hh as -> _. f_equal. apply IH; [done|]. intros k. specialize (Hf k).
    rewrite !filter_cons in Hf. case_decide; [by injection Hf|done].
Qed.

Lemma SliceStable_unique l l' :
  StronglySorted key_le l' ->
  (forall k, filter (fun y => key y = k) l' = filter (fun y => key y = k) l) ->
  l' = SliceStable less l.
Proof.
  intros Hs Hf. apply sorted_filters_eq; [done|apply SliceStable_sorted|].
  intros k. by rewrite Hf, SliceStable_filter.
Qed.
End SliceStable.
