(* ===== verification/Value.v ===== *)
(** Go values of type [any] as the JSON and YAML decoders build them, paths
    through nested [map[string]any] objects, and Go [error] values.

    [vget], [vset] and [vremove] are the vocabulary in which the contracts of
    the accessor library (see [Apimachinery]) are written; nothing in the
    operator's code is modelled here. *)

From S2P Require Import Prelude.

(** ** JSON-like values

    [VFloat] carries the IEEE-754 bits of a [float64]; a Go map is a finite map
    with extensional equality, which is also what [reflect.DeepEqual] compares. *)
Inductive value :=
| VNull
| VBool (b : bool)
| VInt (z : Z)
| VFloat (bits : Z)
| VString (s : string)
| VSlice (l : list value)
| VMap (m : gmap string value).

(** [u.Object] of an [unstructured.Unstructured]. *)
Abbreviation obj := (gmap string value).

(** [v.(map[string]any)] and [v.(string)], with Go's comma-ok result. *)
Definition as_map (v : value) : option obj := match v with VMap m => Some m | _ => None end.
Definition as_string (v : value) : option string := match v with VString s => Some s | _ => None end.

(** [s, _ := m[k].(string)]: the zero value when the key is absent or holds
    another type. *)
Definition string_field (m : obj) (k : string) : string :=
  default "" (m !! k ≫= as_string).

(** ** Paths *)

(** What walking a path meets: a value, an absent key, a [null] on the way, or
    a value on the way that is not an object. *)
Inductive access := Found (v : value) | Missing | NullOnPath | Blocked.

Fixpoint vget (o : obj) (p : list string) : access :=
  match p with
  | [] => Found (VMap o)
  | k :: p' =>
      match o !! k with
      | None => Missing
      | Some v =>
          match p' with
          | [] => Found v
          | _ => match v with VMap m => vget m p' | VNull => NullOnPath | _ => Blocked end
          end
      end
  end.

(** Writing at a path creates the missing intermediate objects and gives up,
    changing nothing, at an intermediate value that is not an object. *)
Fixpoint vset (o : obj) (p : list string) (x : value) : obj :=
  match p with
  | [] => o
  | [k] => <[k := x]> o
  | k :: p' =>
      match o !! k with
      | None => <[k := VMap (vset ∅ p' x)]> o
      | Some (VMap m) => <[k := VMap (vset m p' x)]> o
      | Some _ => o
      end
  end.

Fixpoint settable (o : obj) (p : list string) : bool :=
  match p with
  | [] => false
  | [k] => true
  | k :: p' =>
      match o !! k with
      | None => settable ∅ p'
      | Some (VMap m) => settable m p'
      | Some _ => false
      end
  end.

Fixpoint vremove (o : obj) (p : list string) : obj :=
  match p with
  | [] => o
  | [k] => delete k o
  | k :: p' =>
      match o !! k with
      | Some (VMap m) => <[k := VMap (vremove m p')]> o
      | _ => o
      end
  end.

(** Two paths that part at some segment. *)
Fixpoint diverge (p q : list string) : bool :=
  match p, q with
  | a :: p', b :: q' => negb (bool_decide (a = b)) || diverge p' q'
  | _, _ => false
  end.

Lemma vget_cons2 o k k' p :
  vget o (k :: k' :: p) =
  match o !! k with
  | None => Missing
  | Some (VMap m) => vget m (k' :: p)
  | Some VNull => NullOnPath
  | Some _ => Blocked
  end.
Proof. cbn. by destruct (o !! k) as [[]|]. Qed.

Lemma vset_cons2 o k k' p x :
  vset o (k :: k' :: p) x =
  match o !! k with
  | None => <[k := VMap (vset ∅ (k' :: p) x)]> o
  | Some (VMap m) => <[k := VMap (vset m (k' :: p) x)]> o
  | Some _ => o
  end.
Proof. done. Qed.

Lemma vremove_cons2 o k k' p :
  vremove o (k :: k' :: p) =
  match o !! k with
  | Some (VMap m) => <[k := VMap (vremove m (k' :: p))]> o
  | _ => o
  end.
Proof. done. Qed.

Lemma settable_empty p : p ≠ [] -> settable ∅ p = true.
Proof. induction p as [|k [|k' p] IH]; [done..|]. intros _. cbn. rewrite lookup_empty. by apply IH. Qed.

Lemma vget_vset_eq o p x : settable o p = true -> vget (vset o p x) p = Found x.
Proof.
  revert o. induction p as [|k [|k' p] IH]; intros o Hs; [done|cbn; by rewrite lookup_insert_eq|].
  rewrite vset_cons2, vget_cons2. cbn in Hs.
  destruct (o !! k) as [[]|] eqn:E; try done; rewrite lookup_insert_eq; by apply IH.
Qed.

Lemma vget_empty q : q ≠ [] -> vget ∅ q = Missing.
Proof. destruct q; [done|]. cbn. by rewrite lookup_empty. Qed.

Lemma vget_lookup_ne o o' k q : o !! k = o' !! k -> vget o (k :: q) = vget o' (k :: q).
Proof. intros H. destruct q; [cbn|rewrite !vget_cons2]; by rewrite H. Qed.

Lemma diverge_cons a b p q :
  diverge (a :: p) (b :: q) = true -> a ≠ b \/ (a = b /\ diverge p q = true).
Proof. cbn. case_bool_decide; naive_solver. Qed.

Lemma vget_vset_ne o p q x : diverge p q = true -> vget (vset o p x) q = vget o q.
Proof.
  revert o q. induction p as [|k p IH]; intros o [|j q] Hd; try done.
  apply diverge_cons in Hd as [Hne|[<- Hd]].
  - apply vget_lookup_ne. destruct p; [cbn|rewrite vset_cons2; case_one; try case_one];
      by rewrite ?lookup_insert_ne.
  - destruct p as [|k' p]; [done|]. destruct q as [|j q]; [done|].
    rewrite vset_cons2, vget_cons2. destruct (o !! k) as [[]|] eqn:E;
      rewrite ?lookup_insert_eq, vget_cons2, ?E; try done; rewrite IH by done; done.
Qed.

Lemma vset_lookup_ne o k p x j : j ≠ k -> vset o (k :: p) x !! j = o !! j.
Proof.
  intros. destruct p; cbn; [by rewrite lookup_insert_ne|].
  destruct (o !! k) as [[]|]; by rewrite ?lookup_insert_ne.
Qed.

Lemma vremove_lookup_ne o k p j : j ≠ k -> vremove o (k :: p) !! j = o !! j.
Proof.
  intros. destruct p; cbn; [by rewrite lookup_delete_ne|].
  destruct (o !! k) as [[]|]; by rewrite ?lookup_insert_ne.
Qed.

(** Nothing is left at a removed path. *)
Lemma vget_vremove_eq o p x : p ≠ [] -> vget (vremove o p) p ≠ Found x.
Proof.
  revert o. induction p as [|k [|k' p] IH]; intros o Hp; [done|cbn; by rewrite lookup_delete_eq|].
  rewrite vremove_cons2. destruct (o !! k) as [[| | | | | |m]|] eqn:E; rewrite vget_cons2;
    rewrite ?lookup_insert_eq, ?E; try done. by apply IH.
Qed.

Lemma vget_vremove_ne o p q : diverge p q = true -> vget (vremove o p) q = vget o q.
Proof.
  revert o q. induction p as [|k p IH]; intros o [|j q] Hd; try done.
  apply diverge_cons in Hd as [Hne|[<- Hd]].
  - by apply vget_lookup_ne, vremove_lookup_ne.
  - destruct p as [|k' p]; [done|]. destruct q as [|j q]; [done|].
    rewrite vremove_cons2, !vget_cons2. destruct (o !! k) as [[]|] eqn:E;
      rewrite ?lookup_insert_eq, ?E; try done; by rewrite IH.
Qed.

(** Removing a leaf that is absent changes nothing. *)
Lemma vremove_absent o p : vget o p = Missing -> vremove o p = o.
Proof.
  revert o. induction p as [|k [|k' p] IH]; intros o H; [done| |].
  - cbn in *. destruct (o !! k) eqn:E; [done|]. by apply delete_id.
  - rewrite vget_cons2 in H. rewrite vremove_cons2.
    destruct (o !! k) as [[]|] eqn:E; try done.
    rewrite IH by done. by apply insert_id.
Qed.

Lemma vremove_idemp o p : vremove (vremove o p) p = vremove o p.
Proof.
  revert o. induction p as [|k [|k' p] IH]; intros o; [done| |].
  - cbn. by rewrite delete_id by apply lookup_delete_eq.
  - rewrite !vremove_cons2. destruct (o !! k) as [[]|] eqn:E; rewrite ?lookup_insert_eq, ?E; try done.
    by rewrite insert_insert_eq, IH.
Qed.

(** On a path made of objects, removal leaves the path missing. *)
Lemma vget_vremove_settable o p : settable o p = true -> vget (vremove o p) p = Missing.
Proof.
  revert o. induction p as [|k [|k' p] IH]; intros o H; [done|cbn; by rewrite lookup_delete_eq|].
  rewrite vremove_cons2, vget_cons2. cbn in H.
  destruct (o !! k) as [[]|] eqn:E; rewrite ?lookup_insert_eq, ?E; try done. by apply IH.
Qed.

(** [o'] agrees with [o] on every path that parts from [p]. *)
Definition same_except (p : list string) (o o' : obj) : Prop :=
  forall q, diverge p q = true -> vget o' q = vget o q.

Lemma same_except_vset o p x : same_except p o (vset o p x).
Proof. intros q. apply vget_vset_ne. Qed.

Lemma same_except_vremove o p : same_except p o (vremove o p).
Proof. intros q. apply vget_vremove_ne. Qed.

Lemma same_except_refl p o : same_except p o o.
Proof. done. Qed.

Lemma same_except_trans p o1 o2 o3 :
  same_except p o1 o2 -> same_except p o2 o3 -> same_except p o1 o3.
Proof. intros H1 H2 q Hq. by rewrite H2, H1. Qed.

#[export] Hint Resolve same_except_vset same_except_vremove same_except_refl : ddo.
#[export] Hint Rewrite vset_lookup_ne vremove_lookup_ne using done : ddo_rw.

(** ** Errors

    A Go error is made by code outside this repository ([EExt], with a tag that
    says which), by [errors.New] bound to a package variable ([ESentinel],
    compared by identity), by [errors.New]/[fmt.Errorf] without [%w] ([ENew]), or
    by [fmt.Errorf] with one [%w] ([EWrap], the text before and after it). *)
Inductive error :=
| EExt (tag msg : string)
| ESentinel (name msg : string)
| ENew (msg : string)
| EWrap (pre : string) (e : error) (post : string).

#[export] Instance error_eq_dec : EqDecision error.
Proof. solve_decision. Defined.

(** [err.Error()]. *)
Fixpoint Error (e : error) : string :=
  match e with
  | EExt _ msg | ESentinel _ msg | ENew msg => msg
  | EWrap pre e post => pre +:+ Error e +:+ post
  end.

(** [errors.Is(err, target)] for a [target] that is a package variable. *)
Fixpoint errors_Is (e target : error) : bool :=
  bool_decide (e = target) ||
  match e with EWrap _ e' _ => errors_Is e' target | _ => false end.

(** The (value, error) result of a Go function that uses only one of them. *)
Inductive result (A : Type) := Ok (a : A) | Err (e : error).
Arguments Ok {A} a.
Arguments Err {A} e.

(** [if err != nil { return nil, err }]. *)
Definition rbind {A B} (r : result A) (k : A -> result B) : result B :=
  match r with Ok a => k a | Err e => Err e end.
Notation "'try' x <- r ; k" := (rbind r (fun x => k))
  (at level 10, x pattern, r at level 100, k at level 200) : ddo_scope.

(** [fmt.Errorf(pre + "%w", err)] on the error of a result. *)
Definition wrap_err {A} (pre : string) (r : result A) : result A :=
  match r with Ok a => Ok a | Err e => Err (EWrap pre e "") end.

(** The [%v] rendering of a possibly nil error. *)
Definition fmt_v (e : option error) : string := match e with Some e => Error e | None => "<nil>" end.

(** [%q]: [strconv.Quote], for ASCII and printable UTF-8 text. *)
Definition hex_digit (n : N) : Ascii.ascii :=
  Ascii.ascii_of_N (if (n <? 10)%N then 48 + n else 87 + n)%N.

Definition quote_byte (c : Ascii.ascii) : string :=
  let n := Ascii.N_of_ascii c in
  match n with
  | 34%N => "\" +:+ String c ""
  | 92%N => "\\"
  | 7%N => "\a" | 8%N => "\b" | 9%N => "\t" | 10%N => "\n" | 11%N => "\v" | 12%N => "\f" | 13%N => "\r"
  | _ => if ((n <? 32) || (n =? 127))%N
         then "\x" +:+ String (hex_digit (n / 16)) (String (hex_digit (n mod 16)) "")
         else String c ""
  end.

Fixpoint quote_body (s : string) : string :=
  match s with EmptyString => "" | String c s' => quote_byte c +:+ quote_body s' end.

Definition dquote : string := String (Ascii.ascii_of_N 34) "".
Definition quote (s : string) : string := dquote +:+ quote_body s +:+ dquote.
