(* ===== verification/Sha256.v ===== *)
(** The parts of the Go standard library behind the ownership label and the
    cache keys: [crypto/sha256] on 32-bit words kept in [Z] with explicit
    wrap-around, and [encoding/hex].  The definitions follow FIPS 180-4. *)

From S2P Require Import Prelude Value.
#[local] Open Scope Z_scope.

(** ** 32-bit words *)

Definition mask32 : Z := 4294967295.
Definition w32 (x : Z) : Z := Z.land x mask32.
Definition add32 (x y : Z) : Z := w32 (x + y).
Definition rotr (n x : Z) : Z := Z.lor (Z.shiftr x n) (w32 (Z.shiftl x (32 - n))).
Definition shr (n x : Z) : Z := Z.shiftr x n.
Definition not32 (x : Z) : Z := Z.lxor x mask32.

Definition Ch (x y z : Z) : Z := Z.lxor (Z.land x y) (Z.land (not32 x) z).
Definition Maj (x y z : Z) : Z := Z.lxor (Z.lxor (Z.land x y) (Z.land x z)) (Z.land y z).
Definition Sigma0 (x : Z) : Z := Z.lxor (Z.lxor (rotr 2 x) (rotr 13 x)) (rotr 22 x).
Definition Sigma1 (x : Z) : Z := Z.lxor (Z.lxor (rotr 6 x) (rotr 11 x)) (rotr 25 x).
Definition sigma0 (x : Z) : Z := Z.lxor (Z.lxor (rotr 7 x) (rotr 18 x)) (shr 3 x).
Definition sigma1 (x : Z) : Z := Z.lxor (Z.lxor (rotr 17 x) (rotr 19 x)) (shr 10 x).

Definition K256 : list Z := [
  1116352408; 1899447441; 3049323471; 3921009573; 961987163; 1508970993; 2453635748; 2870763221;
  3624381080; 310598401; 607225278; 1426881987; 1925078388; 2162078206; 2614888103; 3248222580;
  3835390401; 4022224774; 264347078; 604807628; 770255983; 1249150122; 1555081692; 1996064986;
  2554220882; 2821834349; 2952996808; 3210313671; 3336571891; 3584528711; 113926993; 338241895;
  666307205; 773529912; 1294757372; 1396182291; 1695183700; 1986661051; 2177026350; 2456956037;
  2730485921; 2820302411; 3259730800; 3345764771; 3516065817; 3600352804; 4094571909; 275423344;
  430227734; 506948616; 659060556; 883997877; 958139571; 1322822218; 1537002063; 1747873779;
  1955562222; 2024104815; 2227730452; 2361852424; 2428436474; 2756734187; 3204031479; 3329325298 ].

(** The eight working variables. *)
Record hstate := mkH { hA : Z; hB : Z; hC : Z; hD : Z; hE : Z; hF : Z; hG : Z; hH : Z }.

Definition H0 : hstate :=
  mkH 1779033703 3144134277 1013904242 2773480762 1359893119 2600822924 528734635 1541459225.

(** ** Padding and parsing *)

Definition bytes_of_string (s : string) : list Z :=
  map (fun c => Z.of_N (Ascii.N_of_ascii c)) (String.list_ascii_of_string s).

Definition be_bytes (n : nat) (x : Z) : list Z :=
  map (fun i => Z.land (Z.shiftr x (8 * Z.of_nat (n - 1 - i))) 255) (seq 0 n).

Definition pad (msg : list Z) : list Z :=
  let len := Z.of_nat (length msg) in
  (msg ++ [128] ++ replicate (Z.to_nat ((55 - len) mod 64)) 0 ++ be_bytes 8 (8 * len))%list.

Fixpoint words (fuel : nat) (bs : list Z) : list Z :=
  match fuel, bs with
  | S fuel', a :: b :: c :: d :: rest =>
      Z.lor (Z.shiftl a 24) (Z.lor (Z.shiftl b 16) (Z.lor (Z.shiftl c 8) d)) :: words fuel' rest
  | _, _ => []
  end.

(** ** Compression *)

(** The message schedule, kept newest first while it is extended. *)
Fixpoint extend (n : nat) (w : list Z) : list Z :=
  match n with
  | O => w
  | S n' =>
      let at_ i := nth i w 0 in
      extend n' (add32 (add32 (sigma1 (at_ 1%nat)) (at_ 6%nat)) (add32 (sigma0 (at_ 14%nat)) (at_ 15%nat)) :: w)
  end.

Definition schedule (block : list Z) : list Z := reverse (extend 48 (reverse block)).

Definition round (s : hstate) (kw : Z * Z) : hstate :=
  let t1 := add32 (add32 (add32 (hH s) (Sigma1 (hE s))) (Ch (hE s) (hF s) (hG s))) (add32 (fst kw) (snd kw)) in
  let t2 := add32 (Sigma0 (hA s)) (Maj (hA s) (hB s) (hC s)) in
  mkH (add32 t1 t2) (hA s) (hB s) (hC s) (add32 (hD s) t1) (hE s) (hF s) (hG s).

Definition compress (s : hstate) (block : list Z) : hstate :=
  let r := foldl round s (combine K256 (schedule block)) in
  mkH (add32 (hA s) (hA r)) (add32 (hB s) (hB r)) (add32 (hC s) (hC r)) (add32 (hD s) (hD r))
      (add32 (hE s) (hE r)) (add32 (hF s) (hF r)) (add32 (hG s) (hG r)) (add32 (hH s) (hH r)).

Fixpoint blocks (fuel : nat) (ws : list Z) : list (list Z) :=
  match fuel, ws with
  | S fuel', _ :: _ => take 16 ws :: blocks fuel' (drop 16 ws)
  | _, _ => []
  end.

(** [sha256.Sum256]. *)
Definition Sum256 (msg : string) : list Z :=
  let padded := pad (bytes_of_string msg) in
  let ws := words (length padded) padded in
  let r := foldl compress H0 (blocks (length ws) ws) in
  (be_bytes 4 (hA r) ++ be_bytes 4 (hB r) ++ be_bytes 4 (hC r) ++ be_bytes 4 (hD r) ++
   be_bytes 4 (hE r) ++ be_bytes 4 (hF r) ++ be_bytes 4 (hG r) ++ be_bytes 4 (hH r))%list.

(** [hex.EncodeToString]. *)
Fixpoint hex_EncodeToString (bs : list Z) : string :=
  match bs with
  | [] => ""
  | b :: bs' =>
      String (hex_digit (Z.to_N (b / 16))) (String (hex_digit (Z.to_N (b mod 16))) (hex_EncodeToString bs'))
  end.

(** The published test vectors. *)
Example sha256_abc : hex_EncodeToString (Sum256 "abc") =
  "ba7816bf8f01cfea414140de5dae2223b00361a396177a9cb410ff61f20015ad".
Proof. vm_compute. reflexivity. Qed.

Example sha256_two_blocks :
  hex_EncodeToString (Sum256 "abcdbcdecdefdefgefghfghighijhijkijkljklmklmnlmnomnopnopq") =
  "248d6a61d20638b8e5c026930c3e6039a33ce45964ff2167f6ecedd419db06c1".
Proof. vm_compute. reflexivity. Qed.

(** ** Shape of the digest *)

Lemma be_bytes_length n x : length (be_bytes n x) = n.
Proof. unfold be_bytes. by rewrite length_map, length_seq. Qed.

Lemma be_bytes_range n x : Forall (fun b => 0 <= b < 256) (be_bytes n x).
Proof.
  unfold be_bytes. rewrite Forall_map, Forall_forall. intros i _. cbn.
  change 255 with (Z.ones 8). rewrite Z.land_ones by lia. apply Z.mod_pos_bound. lia.
Qed.

Lemma Sum256_length msg : length (Sum256 msg) = 32%nat.
Proof. unfold Sum256. by rewrite !length_app, !be_bytes_length. Qed.

Lemma Sum256_range msg : Forall (fun b => 0 <= b < 256) (Sum256 msg).
Proof. unfold Sum256. rewrite !Forall_app. repeat split; apply be_bytes_range. Qed.

Definition is_hex_digit (c : Ascii.ascii) : bool :=
  let n := Ascii.N_of_ascii c in ((48 <=? n) && (n <=? 57) || (97 <=? n) && (n <=? 102))%N.

Fixpoint all_chars (f : Ascii.ascii -> bool) (s : string) : bool :=
  match s with EmptyString => true | String c s' => f c && all_chars f s' end.

Lemma hex_digit_ok n : (n < 16)%N -> is_hex_digit (hex_digit n) = true.
Proof.
  intros H. assert (exists m, (m < 16)%nat /\ n = N.of_nat m) as (m & Hm & ->)
    by (exists (N.to_nat n); lia).
  do 16 (destruct m as [|m]; [done|]). lia.
Qed.

Lemma hex_length bs : String.length (hex_EncodeToString bs) = (2 * length bs)%nat.
Proof. induction bs as [|b bs IH]; [done|]. cbn [hex_EncodeToString String.length length]. rewrite IH. lia. Qed.

Lemma hex_digits bs :
  Forall (fun b => 0 <= b < 256) bs -> all_chars is_hex_digit (hex_EncodeToString bs) = true.
Proof.
  induction 1 as [|b bs Hb Hbs IH]; [done|]. cbn [hex_EncodeToString all_chars].
  assert (b / 16 < 16) by (apply Z.div_lt_upper_bound; lia).
  assert (0 <= b / 16) by (apply Z.div_pos; lia).
  assert (0 <= b mod 16 < 16) by (apply Z.mod_pos_bound; lia).
  rewrite !hex_digit_ok, IH by lia. done.
Qed.

Lemma substring_prefix_length n s :
  (n <= String.length s)%nat -> String.length (String.substring 0 n s) = n.
Proof.
  revert s. induction n as [|n IH]; intros [|c s] H; cbn in *; try lia.
  rewrite IH; lia.
Qed.

Lemma substring_prefix_chars f n s :
  all_chars f s = true -> all_chars f (String.substring 0 n s) = true.
Proof.
  revert s. induction n as [|n IH]; intros [|c s] H; try done.
  cbn in *. apply andb_prop in H as [-> H]. by apply IH.
Qed.
