(* ===== verification/Apimachinery.v ===== *)
(** The Kubernetes libraries the operator calls (k8s.io/apimachinery and
    sigs.k8s.io/controller-runtime's controllerutil), which are not part of the
    repository: their operations are class parameters of every definition that
    uses them, and what the operator relies on is stated as laws.

    The laws are the documented contracts ("NestedSlice returns a deep copy of
    []interface{} value of a nested field. Returns false if value is not found
    and an error if not a []interface{}."), restricted to well-typed inputs; on
    inputs the documentation is silent about (a [null] in the middle of a path,
    a non-string [kind]) the operations are unconstrained.  [Reference] gives an
    instance of every class, so the laws are satisfiable. *)

From S2P Require Import Prelude Value.

(** ** schema *)

Record GroupVersion := mkGV { gv_Group : string; gv_Version : string }.
Record GroupVersionKind := mkGVK { gvk_Group : string; gvk_Version : string; gvk_Kind : string }.

#[export] Instance GroupVersionKind_eq_dec : EqDecision GroupVersionKind.
Proof. solve_decision. Defined.

(** The text form of a group and version. *)
Definition gv_text (g v : string) : string := if bool_decide (g = "") then v else g +:+ "/" +:+ v.

Record NamespacedName := mkNN { nn_Namespace : string; nn_Name : string }.

(** ** unstructured.Unstructured and the nested-field helpers

    Go's three results (value, found, err) are a triple, with the zero value of
    the type when nothing was found.  A helper that writes into an object
    returns the object. *)
Class Unstructured := {
  GetKind : obj -> string;
  GetAPIVersion : obj -> string;
  GetNamespace : obj -> string;
  GetName : obj -> string;
  SetNamespace : obj -> string -> obj;
  SetName : obj -> string -> obj;
  GetLabels : obj -> option (gmap string string);
  SetLabels : obj -> option (gmap string string) -> obj;
  GetAnnotations : obj -> option (gmap string string);
  SetAnnotations : obj -> option (gmap string string) -> obj;
  GetGroupVersionKind : obj -> GroupVersionKind;
  SetGroupVersionKind : obj -> GroupVersionKind -> obj;
  ParseGroupVersion : string -> GroupVersion * option error;
  NestedSlice : obj -> list string -> list value * bool * option error;
  NestedMap : obj -> list string -> obj * bool * option error;
  NestedString : obj -> list string -> string * bool * option error;
  NestedInt64 : obj -> list string -> Z * bool * option error;
  SetNestedSlice : obj -> list value -> list string -> obj * option error;
  SetNestedMap : obj -> obj -> list string -> obj * option error;
  RemoveNestedField : obj -> list string -> obj;
  DeepCopy : obj -> obj;
}.

(** The string a path holds: the empty string when absent; unspecified when the
    value is not a string or the path is not made of objects. *)
Definition str_at (o : obj) (p : list string) (s : string) : Prop :=
  vget o p = Found (VString s) \/ (vget o p = Missing /\ s = "").

(** The string map a path holds: nil when absent. *)
Definition strmap_at (o : obj) (p : list string) (m : option (gmap string string)) : Prop :=
  match m with
  | Some m => vget o p = Found (VMap (VString <$> m))
  | None => vget o p = Missing
  end.

Abbreviation p_namespace := ["metadata"; "namespace"] (only parsing).
Abbreviation p_name := ["metadata"; "name"] (only parsing).
Abbreviation p_labels := ["metadata"; "labels"] (only parsing).
Abbreviation p_annotations := ["metadata"; "annotations"] (only parsing).

Definition non_slice (v : value) : Prop := match v with VSlice _ => False | _ => True end.
Definition non_map (v : value) : Prop := match v with VMap _ => False | _ => True end.
Definition non_string (v : value) : Prop := match v with VString _ => False | _ => True end.
Definition non_int (v : value) : Prop := match v with VInt _ => False | _ => True end.

(** The path leads to a value of another type than the helper expects. *)
Definition mistyped (bad : value -> Prop) (o : obj) (p : list string) : Prop :=
  vget o p = Blocked \/ exists v, vget o p = Found v /\ bad v.

Class UnstructuredLaws (U : Unstructured) : Prop := {
  GetKind_law o s : str_at o ["kind"] s -> GetKind o = s;
  GetAPIVersion_law o s : str_at o ["apiVersion"] s -> GetAPIVersion o = s;
  GetNamespace_law o s : str_at o p_namespace s -> GetNamespace o = s;
  GetName_law o s : str_at o p_name s -> GetName o = s;
  SetNamespace_law o s : settable o p_namespace = true ->
    SetNamespace o s =
      if bool_decide (s = "") then vremove o p_namespace else vset o p_namespace (VString s);
  SetName_law o s : settable o p_name = true ->
    SetName o s = if bool_decide (s = "") then vremove o p_name else vset o p_name (VString s);
  GetLabels_law o m : strmap_at o p_labels m -> GetLabels o = m;
  GetAnnotations_law o m : strmap_at o p_annotations m -> GetAnnotations o = m;
  SetLabels_some o m : settable o p_labels = true ->
    SetLabels o (Some m) = vset o p_labels (VMap (VString <$> m));
  SetLabels_none o : SetLabels o None = vremove o p_labels;
  SetAnnotations_some o m : settable o p_annotations = true ->
    SetAnnotations o (Some m) = vset o p_annotations (VMap (VString <$> m));
  SetAnnotations_none o : SetAnnotations o None = vremove o p_annotations;
  ParseGroupVersion_bare v : no_slash v = true -> ParseGroupVersion v = (mkGV "" v, None);
  ParseGroupVersion_pair g v : no_slash g = true -> no_slash v = true ->
    ParseGroupVersion (g +:+ "/" +:+ v) = (mkGV g v, None);
  ParseGroupVersion_many a b c :
    exists gv e, ParseGroupVersion (a +:+ "/" +:+ b +:+ "/" +:+ c) = (gv, Some e);
  GetGroupVersionKind_ok o gv : ParseGroupVersion (GetAPIVersion o) = (gv, None) ->
    GetGroupVersionKind o = mkGVK (gv_Group gv) (gv_Version gv) (GetKind o);
  GetGroupVersionKind_err o gv e : ParseGroupVersion (GetAPIVersion o) = (gv, Some e) ->
    GetGroupVersionKind o = mkGVK "" "" "";
  SetGroupVersionKind_law o g v k :
    SetGroupVersionKind o (mkGVK g v k) =
      vset (vset o ["apiVersion"] (VString (gv_text g v))) ["kind"] (VString k);
  NestedSlice_found o p l : vget o p = Found (VSlice l) -> NestedSlice o p = (l, true, None);
  NestedSlice_missing o p : vget o p = Missing -> NestedSlice o p = ([], false, None);
  NestedSlice_bad o p : mistyped non_slice o p -> exists e, NestedSlice o p = ([], false, Some e);
  NestedMap_found o p m : vget o p = Found (VMap m) -> NestedMap o p = (m, true, None);
  NestedMap_missing o p : vget o p = Missing -> NestedMap o p = (∅, false, None);
  NestedMap_bad o p : mistyped non_map o p -> exists e, NestedMap o p = (∅, false, Some e);
  NestedString_found o p s : vget o p = Found (VString s) -> NestedString o p = (s, true, None);
  NestedString_missing o p : vget o p = Missing -> NestedString o p = ("", false, None);
  NestedString_bad o p : mistyped non_string o p -> exists e, NestedString o p = ("", false, Some e);
  NestedInt64_found o p z : vget o p = Found (VInt z) -> NestedInt64 o p = (z, true, None);
  NestedInt64_missing o p : vget o p = Missing -> NestedInt64 o p = (0%Z, false, None);
  NestedInt64_bad o p : mistyped non_int o p -> exists e, NestedInt64 o p = (0%Z, false, Some e);
  SetNestedSlice_law o l p : settable o p = true -> SetNestedSlice o l p = (vset o p (VSlice l), None);
  SetNestedMap_law o m p : settable o p = true -> SetNestedMap o m p = (vset o p (VMap m), None);
  RemoveNestedField_law o p : p ≠ [] -> RemoveNestedField o p = vremove o p;
  DeepCopy_law o : DeepCopy o = o;
}.

(** ** API errors: apierrors.IsNotFound, meta.IsNoMatchError, client.IgnoreNotFound,
    kerrors.NewAggregate *)
Class ApiErrors := {
  IsNotFound : error -> bool;
  IsNoMatchError : error -> bool;
  IgnoreNotFound : error -> option error;
  NewAggregate : list (option error) -> option error;
}.

Class ApiErrorsLaws (E : ApiErrors) : Prop := {
  (** "IgnoreNotFound returns nil on NotFound errors. All other values that are
      not NotFound errors or nil are returned unmodified." *)
  IgnoreNotFound_law e : IgnoreNotFound e = if IsNotFound e then None else Some e;
  (** "NewAggregate converts a slice of errors into an Aggregate interface [...]
      If the slice contains nil errors they are removed; if the resulting list
      is empty, nil is returned." *)
  NewAggregate_none es : NewAggregate es = None <-> Forall (fun e => e = None) es;
}.

(** ** metav1.Condition, meta.SetStatusCondition, controllerutil finalizers *)
Record Condition := mkCondition {
  c_Type : string;
  c_Status : string;
  c_Reason : string;
  c_Message : string;
  c_ObservedGeneration : Z;
  c_LastTransitionTime : option Z;
}.

Definition ConditionTrue : string := "True".
Definition ConditionFalse : string := "False".

Definition find_condition (ty : string) (cs : list Condition) : option Condition :=
  head (filter (fun c => c_Type c = ty) cs).

(** Equal up to the transition time, which the library manages. *)
Definition same_condition (c c' : Condition) : Prop :=
  c_Type c = c_Type c' /\ c_Status c = c_Status c' /\ c_Reason c = c_Reason c' /\
  c_Message c = c_Message c' /\ c_ObservedGeneration c = c_ObservedGeneration c'.

Class MetaLib := {
  (** the [Z] is the clock reading the library takes *)
  SetStatusCondition : Z -> list Condition -> Condition -> list Condition;
  ContainsFinalizer : list string -> string -> bool;
  AddFinalizer : list string -> string -> list string;
  RemoveFinalizer : list string -> string -> list string;
}.

Class MetaLibLaws (L : MetaLib) : Prop := {
  SetStatusCondition_same now cs c :
    exists c', find_condition (c_Type c) (SetStatusCondition now cs c) = Some c' /\ same_condition c c';
  SetStatusCondition_other now cs c ty : ty ≠ c_Type c ->
    find_condition ty (SetStatusCondition now cs c) = find_condition ty cs;
  ContainsFinalizer_law fs f : ContainsFinalizer fs f = true <-> f ∈ fs;
  AddFinalizer_law fs f g : g ∈ AddFinalizer fs f <-> g = f \/ g ∈ fs;
  RemoveFinalizer_law fs f g : g ∈ RemoveFinalizer fs f <-> g ≠ f /\ g ∈ fs;
}.

(** ** Lemmas the components share *)
Section UnstructuredFacts.
Context {U : Unstructured} {UL : UnstructuredLaws U}.

(** An object whose identity and metadata fields have the types of the
    Kubernetes API: string kind and apiVersion, [metadata] absent or an object
    with a string name and namespace and string maps of labels and annotations. *)
Record well_typed (o : obj) : Prop := {
  wt_kind : exists s, str_at o ["kind"] s;
  wt_apiVersion : exists s, str_at o ["apiVersion"] s;
  wt_namespace : exists s, str_at o p_namespace s;
  wt_name : exists s, str_at o p_name s;
  wt_labels : exists m, strmap_at o p_labels m;
  wt_annotations : exists m, strmap_at o p_annotations m;
  wt_metadata : settable o p_labels = true;
}.

Lemma settable_metadata o f g :
  settable o ["metadata"; f] = settable o ["metadata"; g].
Proof. cbn. by destruct (o !! "metadata") as [[]|]. Qed.

Lemma str_at_ext o o' p s : vget o p = vget o' p -> str_at o p s <-> str_at o' p s.
Proof. unfold str_at. by intros ->. Qed.

Lemma strmap_at_ext o o' p m : vget o p = vget o' p -> strmap_at o p m <-> strmap_at o' p m.
Proof. unfold strmap_at. by intros ->. Qed.

(** The getters depend only on their own path. *)
Lemma GetKind_ext o o' : well_typed o -> vget o' ["kind"] = vget o ["kind"] -> GetKind o' = GetKind o.
Proof.
  intros [[s Hs] _ _ _ _ _ _] H. rewrite (GetKind_law o s Hs). apply GetKind_law.
  by rewrite (str_at_ext o' o).
Qed.
Lemma GetAPIVersion_ext o o' :
  well_typed o -> vget o' ["apiVersion"] = vget o ["apiVersion"] -> GetAPIVersion o' = GetAPIVersion o.
Proof.
  intros [_ [s Hs] _ _ _ _ _] H. rewrite (GetAPIVersion_law o s Hs). apply GetAPIVersion_law.
  by rewrite (str_at_ext o' o).
Qed.
Lemma GetNamespace_ext o o' :
  well_typed o -> vget o' p_namespace = vget o p_namespace -> GetNamespace o' = GetNamespace o.
Proof.
  intros [_ _ [s Hs] _ _ _ _] H. rewrite (GetNamespace_law o s Hs). apply GetNamespace_law.
  by rewrite (str_at_ext o' o).
Qed.
Lemma GetName_ext o o' :
  well_typed o -> vget o' p_name = vget o p_name -> GetName o' = GetName o.
Proof.
  intros [_ _ _ [s Hs] _ _ _] H. rewrite (GetName_law o s Hs). apply GetName_law.
  by rewrite (str_at_ext o' o).
Qed.
Lemma GetLabels_ext o o' :
  well_typed o -> vget o' p_labels = vget o p_labels -> GetLabels o' = GetLabels o.
Proof.
  intros [_ _ _ _ [m Hm] _ _] H. rewrite (GetLabels_law o m Hm). apply GetLabels_law.
  by rewrite (strmap_at_ext o' o).
Qed.
Lemma GetAnnotations_ext o o' :
  well_typed o -> vget o' p_annotations = vget o p_annotations -> GetAnnotations o' = GetAnnotations o.
Proof.
  intros [_ _ _ _ _ [m Hm] _] H. rewrite (GetAnnotations_law o m Hm). apply GetAnnotations_law.
  by rewrite (strmap_at_ext o' o).
Qed.
Lemma GetGroupVersionKind_ext o o' :
  well_typed o -> vget o' ["kind"] = vget o ["kind"] ->
  vget o' ["apiVersion"] = vget o ["apiVersion"] ->
  GetGroupVersionKind o' = GetGroupVersionKind o.
Proof.
  intros Hw Hk Ha.
  pose proof (GetKind_ext o o' Hw Hk) as Ek. pose proof (GetAPIVersion_ext o o' Hw Ha) as Ea.
  destruct (ParseGroupVersion (GetAPIVersion o)) as [gv [e|]] eqn:E.
  - rewrite (GetGroupVersionKind_err o gv e E). apply (GetGroupVersionKind_err o' gv e). by rewrite Ea.
  - rewrite (GetGroupVersionKind_ok o gv E), <- Ek. apply GetGroupVersionKind_ok. by rewrite Ea.
Qed.

Lemma settable_meta_vset o f g x :
  settable o ["metadata"; f] = true -> settable (vset o ["metadata"; f] x) ["metadata"; g] = true.
Proof. cbn. destruct (o !! "metadata") as [[]|] eqn:E; try done; by rewrite lookup_insert_eq. Qed.

Lemma settable_meta_vremove o f g :
  settable o ["metadata"; f] = true -> settable (vremove o ["metadata"; f]) ["metadata"; g] = true.
Proof. cbn. destruct (o !! "metadata") as [[]|] eqn:E; rewrite ?lookup_insert_eq, ?E; done. Qed.

(** An object that differs from a well-typed one at one metadata field only
    is well-typed when that field is. *)
Lemma well_typed_same_except o o' f :
  well_typed o -> same_except ["metadata"; f] o o' -> settable o' p_labels = true ->
  (f = "namespace" -> exists s, str_at o' p_namespace s) ->
  (f = "name" -> exists s, str_at o' p_name s) ->
  (f = "labels" -> exists m, strmap_at o' p_labels m) ->
  (f = "annotations" -> exists m, strmap_at o' p_annotations m) -> well_typed o'.
Proof.
  intros [[k Hk] [a Ha] [ns Hns] [n Hn] [l Hl] [an Han] _] Hf Hm Xns Xn Xl Xan.
  assert (forall g, f ≠ g -> vget o' ["metadata"; g] = vget o ["metadata"; g]) as Hg.
  { intros g Hne. apply Hf. cbn. by rewrite (bool_decide_eq_false_2 (f = g)). }
  split.
  - exists k. by rewrite (str_at_ext _ o) by by apply Hf.
  - exists a. by rewrite (str_at_ext _ o) by by apply Hf.
  - destruct (decide (f = "namespace")); [auto|]. exists ns. by rewrite (str_at_ext _ o) by auto.
  - destruct (decide (f = "name")); [auto|]. exists n. by rewrite (str_at_ext _ o) by auto.
  - destruct (decide (f = "labels")); [auto|]. exists l. by rewrite (strmap_at_ext _ o) by auto.
  - destruct (decide (f = "annotations")); [auto|]. exists an. by rewrite (strmap_at_ext _ o) by auto.
  - done.
Qed.

(** Writing or removing one metadata field. *)
Definition put_field (o : obj) (p : list string) (x : option value) : obj :=
  match x with Some x => vset o p x | None => vremove o p end.

Lemma same_except_put o p x : same_except p o (put_field o p x).
Proof. destruct x; cbn; auto with ddo. Qed.

Lemma vget_put o p x : settable o p = true ->
  vget (put_field o p x) p = match x with Some v => Found v | None => Missing end.
Proof. destruct x; cbn; [apply vget_vset_eq|apply vget_vremove_settable]. Qed.

Lemma settable_put o f g x :
  settable o ["metadata"; f] = true -> settable (put_field o ["metadata"; f] x) ["metadata"; g] = true.
Proof. destruct x; [apply settable_meta_vset|apply settable_meta_vremove]. Qed.

(** What a metadata setter does: everything else is as before. *)
Lemma SetNamespace_spec o s :
  well_typed o ->
  well_typed (SetNamespace o s) /\ same_except p_namespace o (SetNamespace o s) /\
  GetNamespace (SetNamespace o s) = s.
Proof.
  intros Hw. pose proof (wt_metadata o Hw) as Hm. rewrite (settable_metadata _ _ "namespace") in Hm.
  assert (SetNamespace o s = put_field o p_namespace (if bool_decide (s = "") then None else Some (VString s)))
    as -> by (rewrite SetNamespace_law by done; by case_bool_decide).
  set (o' := put_field _ _ _).
  assert (str_at o' p_namespace s) as Hs.
  { unfold str_at, o'. rewrite vget_put by done. case_bool_decide; auto. }
  split_and!; [|apply same_except_put|by apply GetNamespace_law].
  apply (well_typed_same_except o o' "namespace"); try done; [apply same_except_put|by apply settable_put|eauto].
Qed.

Lemma SetName_spec o s :
  well_typed o ->
  well_typed (SetName o s) /\ same_except p_name o (SetName o s) /\ GetName (SetName o s) = s.
Proof.
  intros Hw. pose proof (wt_metadata o Hw) as Hm. rewrite (settable_metadata _ _ "name") in Hm.
  assert (SetName o s = put_field o p_name (if bool_decide (s = "") then None else Some (VString s)))
    as -> by (rewrite SetName_law by done; by case_bool_decide).
  set (o' := put_field _ _ _).
  assert (str_at o' p_name s) as Hs.
  { unfold str_at, o'. rewrite vget_put by done. case_bool_decide; auto. }
  split_and!; [|apply same_except_put|by apply GetName_law].
  apply (well_typed_same_except o o' "name"); try done; [apply same_except_put|by apply settable_put|eauto].
Qed.

(** A fresh object with only its type set. *)
Lemma SetGroupVersionKind_fresh g v k :
  let u := SetGroupVersionKind ∅ (mkGVK g v k) in
  well_typed u /\ GetKind u = k /\ GetAPIVersion u = gv_text g v.
Proof.
  cbn zeta. rewrite SetGroupVersionKind_law. set (u := vset _ _ _).
  assert (str_at u ["kind"] k) by (left; done).
  assert (str_at u ["apiVersion"] (gv_text g v)) by (left; done).
  split_and!; [|by apply GetKind_law|by apply GetAPIVersion_law].
  split; eauto; try done.
  - exists "". by right.
  - exists "". by right.
  - by exists None.
  - by exists None.
Qed.

Lemma SetLabels_spec o m :
  well_typed o ->
  well_typed (SetLabels o m) /\ same_except p_labels o (SetLabels o m) /\ GetLabels (SetLabels o m) = m.
Proof.
  intros Hw. pose proof (wt_metadata o Hw) as Hm.
  assert (SetLabels o m = put_field o p_labels ((fun m => VMap (VString <$> m)) <$> m)) as ->
    by (destruct m; [by apply SetLabels_some|apply SetLabels_none]).
  set (o' := put_field _ _ _).
  assert (strmap_at o' p_labels m) as Hs.
  { unfold strmap_at, o'. rewrite vget_put by done. by destruct m. }
  split_and!; [|apply same_except_put|by apply GetLabels_law].
  apply (well_typed_same_except o o' "labels"); try done; [apply same_except_put|by apply settable_put|eauto].
Qed.

Lemma SetAnnotations_spec o m :
  well_typed o ->
  well_typed (SetAnnotations o m) /\ same_except p_annotations o (SetAnnotations o m) /\
  GetAnnotations (SetAnnotations o m) = m.
Proof.
  intros Hw. pose proof (wt_metadata o Hw) as Hm. rewrite (settable_metadata _ _ "annotations") in Hm.
  assert (SetAnnotations o m = put_field o p_annotations ((fun m => VMap (VString <$> m)) <$> m)) as ->
    by (destruct m; [by apply SetAnnotations_some|apply SetAnnotations_none]).
  set (o' := put_field _ _ _).
  assert (strmap_at o' p_annotations m) as Hs.
  { unfold strmap_at, o'. rewrite vget_put by done. by destruct m. }
  split_and!; [|apply same_except_put|by apply GetAnnotations_law].
  apply (well_typed_same_except o o' "annotations"); try done; [apply same_except_put|by apply settable_put|eauto].
Qed.
End UnstructuredFacts.

#[export] Hint Resolve GetKind_ext GetAPIVersion_ext GetNamespace_ext GetName_ext GetLabels_ext
  GetAnnotations_ext GetGroupVersionKind_ext : ddo.
