(* ===== verification/Reference.v ===== *)
(** Reference implementations of the library classes of [Apimachinery], with
    their laws: evidence that the laws are satisfiable, and the concrete
    operations on which examples and witnesses are evaluated. *)

From S2P Require Import Prelude Value Apimachinery.

Section Implementation.

Definition ref_str (o : obj) (p : list string) : string :=
  match vget o p with Found (VString s) => s | _ => "" end.

Definition all_strings (m : obj) : bool :=
  bool_decide (map_Forall (fun _ v => is_Some (as_string v)) m).

Definition ref_strmap (o : obj) (p : list string) : option (gmap string string) :=
  match vget o p with
  | Found (VMap m) => if all_strings m then Some (omap as_string m) else None
  | _ => None
  end.

Definition ref_set_str (o : obj) (p : list string) (s : string) : obj :=
  if bool_decide (s = "") then vremove o p else vset o p (VString s).

Definition ref_set_strmap (o : obj) (p : list string) (m : option (gmap string string)) : obj :=
  match m with Some m => vset o p (VMap (VString <$> m)) | None => vremove o p end.

Definition ref_nested {A} (zero : A) (sel : value -> option A) (o : obj) (p : list string)
  : A * bool * option error :=
  match vget o p with
  | Found v => match sel v with
               | Some a => (a, true, None)
               | None => (zero, false, Some (EExt "accessor" "unexpected type"))
               end
  | Missing | NullOnPath => (zero, false, None)
  | Blocked => (zero, false, Some (EExt "accessor" "not an object"))
  end.

Definition ref_set (o : obj) (p : list string) (v : value) : obj * option error :=
  if settable o p then (vset o p v, None)
  else (o, Some (EExt "accessor" "not an object")).

(** The text before and after the first separator. *)
Fixpoint cut_slash (s : string) : option (string * string) :=
  match s with
  | EmptyString => None
  | String c s' =>
      if Ascii.eqb slash c then Some ("", s')
      else match cut_slash s' with Some (a, b) => Some (String c a, b) | None => None end
  end.

Definition ref_ParseGroupVersion (s : string) : GroupVersion * option error :=
  match cut_slash s with
  | None => (mkGV "" s, None)
  | Some (g, v) =>
      if no_slash v then (mkGV g v, None)
      else (mkGV "" "", Some (EExt "schema" ("unexpected GroupVersion string: " +:+ s)))
  end.

Definition ref_GVK (o : obj) : GroupVersionKind :=
  match ref_ParseGroupVersion (ref_str o ["apiVersion"]) with
  | (gv, None) => mkGVK (gv_Group gv) (gv_Version gv) (ref_str o ["kind"])
  | (_, Some _) => mkGVK "" "" ""
  end.

#[local] Instance ref_Unstructured : Unstructured := {|
  GetKind o := ref_str o ["kind"];
  GetAPIVersion o := ref_str o ["apiVersion"];
  GetNamespace o := ref_str o p_namespace;
  GetName o := ref_str o p_name;
  SetNamespace o := ref_set_str o p_namespace;
  SetName o := ref_set_str o p_name;
  GetLabels o := ref_strmap o p_labels;
  SetLabels o := ref_set_strmap o p_labels;
  GetAnnotations o := ref_strmap o p_annotations;
  SetAnnotations o := ref_set_strmap o p_annotations;
  GetGroupVersionKind := ref_GVK;
  SetGroupVersionKind o g :=
    vset (vset o ["apiVersion"] (VString (gv_text (gvk_Group g) (gvk_Version g))))
      ["kind"] (VString (gvk_Kind g));
  ParseGroupVersion := ref_ParseGroupVersion;
  NestedSlice := ref_nested [] (fun v => match v with VSlice l => Some l | _ => None end);
  NestedMap := ref_nested ∅ as_map;
  NestedString := ref_nested "" as_string;
  NestedInt64 := ref_nested 0%Z (fun v => match v with VInt z => Some z | _ => None end);
  SetNestedSlice o l p := ref_set o p (VSlice l);
  SetNestedMap o m p := ref_set o p (VMap m);
  RemoveNestedField := vremove;
  DeepCopy o := o;
|}.

#[local] Instance ref_ApiErrors : ApiErrors := {|
  IsNotFound e := match e with EExt "NotFound" _ => true | _ => false end;
  IsNoMatchError e := match e with EExt "NoMatch" _ => true | _ => false end;
  IgnoreNotFound e := match e with EExt "NotFound" _ => None | _ => Some e end;
  NewAggregate es :=
    match omap (fun e => e) es with
    | [] => None
    | es' => Some (EExt "aggregate" ("[" +:+ strings_Join (Error <$> es') ", " +:+ "]"))
    end;
|}.

Fixpoint ref_set_condition (now : Z) (cs : list Condition) (c : Condition) : list Condition :=
  match cs with
  | [] => [mkCondition (c_Type c) (c_Status c) (c_Reason c) (c_Message c) (c_ObservedGeneration c) (Some now)]
  | c' :: cs' =>
      if bool_decide (c_Type c' = c_Type c) then
        mkCondition (c_Type c) (c_Status c) (c_Reason c) (c_Message c) (c_ObservedGeneration c)
          (if bool_decide (c_Status c' = c_Status c) then c_LastTransitionTime c' else Some now) :: cs'
      else c' :: ref_set_condition now cs' c
  end.

#[local] Instance ref_MetaLib : MetaLib := {|
  SetStatusCondition := ref_set_condition;
  ContainsFinalizer fs f := bool_decide (f ∈ fs);
  AddFinalizer fs f := if bool_decide (f ∈ fs) then fs else (fs ++ [f])%list;
  RemoveFinalizer fs f := filter (fun g => g ≠ f) fs;
|}.

End Implementation.

(** ** The laws hold *)

Lemma ref_str_law o p s : str_at o p s -> ref_str o p = s.
Proof. unfold ref_str. by intros [->|[-> ->]]. Qed.

Lemma omap_as_string_fmap (m : gmap string string) : omap as_string (VString <$> m) = m.
Proof. apply map_eq. intros k. rewrite lookup_omap, lookup_fmap. by destruct (m !! k). Qed.

Lemma all_strings_fmap (m : gmap string string) : all_strings (VString <$> m) = true.
Proof.
  apply bool_decide_eq_true_2. intros k v. rewrite lookup_fmap. destruct (m !! k); [|done].
  cbn. intros [= <-]. by eexists.
Qed.

Lemma all_strings_inv m : all_strings m = true -> exists m', m = VString <$> m'.
Proof.
  unfold all_strings. rewrite bool_decide_eq_true. intros H. exists (omap as_string m).
  apply map_eq. intros k. rewrite lookup_fmap, lookup_omap.
  destruct (m !! k) as [v|] eqn:E; [|done]. destruct (H k v E) as [s Hs].
  by destruct v; simplify_eq/=.
Qed.

Lemma ref_strmap_law o p m : strmap_at o p m -> ref_strmap o p = m.
Proof.
  unfold ref_strmap. destruct m as [m|]; cbn; intros ->; [|done].
  by rewrite all_strings_fmap, omap_as_string_fmap.
Qed.

Lemma cut_slash_app a b : no_slash a = true -> cut_slash (a +:+ "/" +:+ b) = Some (a, b).
Proof.
  unfold no_slash. induction a as [|c a IH]; cbn [lacks]; intros H; [done|].
  apply andb_prop in H as [Hc Ha]. rewrite string_app_cons. cbn [cut_slash].
  apply negb_true_iff in Hc. rewrite Hc, IH; done.
Qed.

Lemma cut_slash_none a : no_slash a = true -> cut_slash a = None.
Proof.
  unfold no_slash. induction a as [|c a IH]; cbn; intros H; [done|].
  apply andb_prop in H as [Hc Ha]. apply negb_true_iff in Hc. by rewrite Hc, IH.
Qed.

Lemma cut_slash_some a b : exists x y, cut_slash (a +:+ "/" +:+ b) = Some (x, y +:+ b) /\
  (y = "" \/ exists z, y = z +:+ "/").
Proof.
  induction a as [|c a [x [y [IH Hy]]]].
  - exists "", "". split; [done|by left].
  - rewrite string_app_cons. cbn [cut_slash]. destruct (Ascii.eqb slash c).
    + exists "", (a +:+ "/"). split; [by rewrite string_app_assoc|right; by eexists].
    + rewrite IH. by exists (String c x), y.
Qed.

#[export] Instance ref_UnstructuredLaws : UnstructuredLaws ref_Unstructured.
Proof.
  split; cbn; intros; unfold ref_nested, ref_set, mistyped in *.
  all: try (by apply ref_str_law); try (by apply ref_strmap_law); try done.
  all: try (match goal with H : vget _ _ = _ |- _ => by rewrite H end).
  all: try (match goal with H : settable _ _ = true |- _ => by rewrite H end).
  - unfold ref_ParseGroupVersion. by rewrite cut_slash_none.
  - unfold ref_ParseGroupVersion. rewrite cut_slash_app by done. by rewrite H0.
  - unfold ref_ParseGroupVersion.
    destruct (cut_slash_some a (b +:+ "/" +:+ c)) as (x & y & -> & _).
    assert (no_slash (y +:+ b +:+ "/" +:+ c) = false) as ->; [|by do 2 eexists].
    unfold no_slash. rewrite !lacks_app. cbn. by rewrite !andb_false_r.
  - unfold ref_GVK. by rewrite H.
  - unfold ref_GVK. by rewrite H.
  - destruct H as [->|(v & -> & Hv)]; [by eexists|]. destruct v; [by eexists..|done|by eexists].
  - destruct H as [->|(v & -> & Hv)]; [by eexists|]. destruct v; try done; by eexists.
  - destruct H as [->|(v & -> & Hv)]; [by eexists|]. destruct v; try done; by eexists.
  - destruct H as [->|(v & -> & Hv)]; [by eexists|]. destruct v; try done; by eexists.
Qed.

#[export] Instance ref_ApiErrorsLaws : ApiErrorsLaws ref_ApiErrors.
Proof.
  split.
  { intros e. cbn. repeat case_match; done. }
  intros es. cbn. induction es as [|[e|] es IH]; cbn.
  - split; [constructor|done].
  - split; [done|]. by inversion 1.
  - split; intros H; [constructor; [done|by apply IH]|]. inversion H; subst. by apply IH.
Qed.

Lemma find_condition_cons ty c cs :
  find_condition ty (c :: cs) = if decide (c_Type c = ty) then Some c else find_condition ty cs.
Proof. unfold find_condition. rewrite filter_cons. by case_decide. Qed.

#[export] Instance ref_MetaLibLaws : MetaLibLaws ref_MetaLib.
Proof.
  split; cbn.
  - intros now cs c. induction cs as [|c' cs IH]; cbn [ref_set_condition].
    + rewrite find_condition_cons. rewrite decide_True by done. eexists. by split.
    + case_bool_decide; rewrite find_condition_cons; case_decide; try done.
      eexists. by split.
  - intros now cs c ty Hne. induction cs as [|c' cs IH]; cbn [ref_set_condition].
    + rewrite find_condition_cons. by rewrite decide_False by done.
    + case_bool_decide; rewrite !find_condition_cons; repeat case_decide; try done.
      all: cbn in *; congruence.
  - intros. by rewrite bool_decide_eq_true.
  - intros. case_bool_decide; [naive_solver|]. rewrite elem_of_app, list_elem_of_singleton. naive_solver.
  - intros. rewrite list_elem_of_filter. naive_solver.
Qed.

(** ** A decidable check for well-typed objects *)

Definition well_typedb (o : obj) : bool :=
  let str p := match vget o p with Found (VString _) | Missing => true | _ => false end in
  let strmap p := match vget o p with Found (VMap m) => all_strings m | Missing => true | _ => false end in
  str ["kind"] && str ["apiVersion"] && str p_namespace && str p_name &&
  strmap p_labels && strmap p_annotations && settable o p_labels.

Lemma well_typedb_sound o : well_typedb o = true -> well_typed o.
Proof.
  unfold well_typedb. rewrite !andb_true_iff. intros ((((((Hk & Ha) & Hns) & Hn) & Hl) & Han) & Hm).
  assert (forall p, match vget o p with Found (VString _) | Missing => true | _ => false end = true ->
                    exists s, str_at o p s) as Hstr.
  { intros p. unfold str_at. destruct (vget o p) as [[]| | |]; try done; intros _; eexists; eauto. }
  assert (forall p, match vget o p with Found (VMap m) => all_strings m | Missing => true | _ => false end
                    = true -> exists m, strmap_at o p m) as Hmap.
  { intros p. unfold strmap_at. destruct (vget o p) as [[]| | |] eqn:E; try done.
    - intros [m' ->]%all_strings_inv. exists (Some m'). done.
    - intros _. exists None. done. }
  split; eauto.
Qed.

Module RefInstances.
#[export] Existing Instances ref_Unstructured ref_ApiErrors ref_MetaLib.
End RefInstances.
