(* ===== verification/Types.v ===== *)
(** The DualDeploymentOperator API (api/v1alpha1/dualdeploymentoperator_types.go):
    one record per Go struct, with the union rules the CRD enforces at admission. *)

From S2P Require Import Prelude Value Apimachinery.

(** [*apiextensionsv1.JSON]: nil, or the raw bytes. *)
Abbreviation JSON := (option string).

(** A [metav1.Time] in nanoseconds since Go's zero time; a [*metav1.Time] is an
    option. *)
Abbreviation Time := Z.

Definition Time_IsZero (t : option Time) : bool :=
  match t with None => true | Some t => (t =? 0)%Z end.

(** ** Source *)

Record SecretReference := mkSecretReference { secretRef_Name : string }.

Record HelmSource := mkHelmSource {
  helm_Repo : string;
  helm_Name : string;
  helm_Version : string;
  helm_Values : JSON;
  helm_SeedValues : JSON;
  helm_ShootValues : JSON;
  helm_AuthSecretRef : option SecretReference;
}.

Record KustomizeSource := mkKustomizeSource {
  kustomize_URL : string;
  kustomize_SeedPath : string;
  kustomize_ShootPath : string;
  kustomize_AuthSecretRef : option SecretReference;
}.

Record Source := mkSource {
  source_Helm : option HelmSource;
  source_Kustomize : option KustomizeSource;
}.

Definition is_set {A} (o : option A) : bool := match o with Some _ => true | None => false end.

(** [has(self.helm) != has(self.kustomize)] *)
Definition Source_admitted (s : Source) : bool :=
  xorb (is_set (source_Helm s)) (is_set (source_Kustomize s)).

(** [self.repo.startsWith('oci://')] *)
Definition HelmSource_admitted (h : HelmSource) : bool := String.prefix "oci://" (helm_Repo h).

Record ShootAccessRef := mkShootAccessRef {
  access_SecretName : string;
  access_Server : string;
  access_TokenKey : string;
  access_CAKey : string;
}.

(** ** Transformations *)

Record Selector := mkSelector { sel_Kind : string; sel_Name : string; sel_Origin : string }.

Record JSONPatchOp := mkJSONPatchOp {
  op_Op : string;
  op_Path : string;
  op_From : string;
  op_Value : JSON;
}.

Record PatchSpec := mkPatchSpec {
  patch_Target : Selector;
  patch_StrategicMerge : JSON;
  patch_JSONPatch : list JSONPatchOp;
}.

Record RewriteWebhookURLSpec := mkRewriteWebhookURLSpec { rewrite_URLPrefix : string }.

Record FilterKindsSpec := mkFilterKindsSpec {
  filter_Kinds : list string;
  filter_Source : string;
}.

Record Transformation := mkTransformation {
  t_Patch : option PatchSpec;
  t_RewriteWebhookURL : option RewriteWebhookURLSpec;
  t_FilterKinds : option FilterKindsSpec;
}.

(** The CRD rule: the number of members set is exactly one. *)
Definition Transformation_admitted (t : Transformation) : bool :=
  Nat.eqb ((if is_set (t_Patch t) then 1 else 0) +
           (if is_set (t_RewriteWebhookURL t) then 1 else 0) +
           (if is_set (t_FilterKinds t) then 1 else 0)) 1.

(** ** Spec, status and the object *)

Record RetentionPolicy := mkRetentionPolicy { retention_CRDs : string }.

Record DualDeploymentOperatorSpec := mkSpec {
  spec_Source : Source;
  spec_ShootAccess : ShootAccessRef;
  spec_ShootNamespace : string;
  spec_Transformations : list Transformation;
  spec_RetentionPolicy : RetentionPolicy;
  spec_ApplyOrder : string;
}.

(** [HealthState] is a Go string type with four constants. *)
Abbreviation HealthState := string.
Definition HealthHealthy : HealthState := "Healthy".
Definition HealthProgressing : HealthState := "Progressing".
Definition HealthDegraded : HealthState := "Degraded".
Definition HealthUnknown : HealthState := "Unknown".

Record ResourceStatus := mkResourceStatus {
  rs_Kind : string;
  rs_APIVersion : string;
  rs_Namespace : string;
  rs_Name : string;
  rs_Health : HealthState;
  rs_LastApplied : option Time;
  rs_Message : string;
}.

#[export] Instance ResourceStatus_eq_dec : EqDecision ResourceStatus.
Proof. solve_decision. Defined.

Record DualDeploymentOperatorStatus := mkStatus {
  status_SeedResources : list ResourceStatus;
  status_ShootResources : list ResourceStatus;
  status_Conditions : list Condition;
  status_LastReconcile : option Time;
}.

(** The fields of [metav1.ObjectMeta] the operator reads or writes. *)
Record ObjectMeta := mkObjectMeta {
  meta_Namespace : string;
  meta_Name : string;
  meta_Generation : Z;
  meta_DeletionTimestamp : option Time;
  meta_Finalizers : list string;
  meta_Annotations : gmap string string;
}.

Record DualDeploymentOperator := mkDDO {
  cr_meta : ObjectMeta;
  cr_Spec : DualDeploymentOperatorSpec;
  cr_Status : DualDeploymentOperatorStatus;
}.

(** Field updates of the Go code. *)
Definition with_Finalizers (cr : DualDeploymentOperator) (fs : list string) : DualDeploymentOperator :=
  let m := cr_meta cr in
  mkDDO (mkObjectMeta (meta_Namespace m) (meta_Name m) (meta_Generation m)
           (meta_DeletionTimestamp m) fs (meta_Annotations m)) (cr_Spec cr) (cr_Status cr).

Definition with_Status (cr : DualDeploymentOperator) (s : DualDeploymentOperatorStatus)
  : DualDeploymentOperator := mkDDO (cr_meta cr) (cr_Spec cr) s.

Definition with_Conditions (cr : DualDeploymentOperator) (cs : list Condition) : DualDeploymentOperator :=
  let s := cr_Status cr in
  with_Status cr (mkStatus (status_SeedResources s) (status_ShootResources s) cs (status_LastReconcile s)).

Definition with_LastReconcile (cr : DualDeploymentOperator) (t : option Time) : DualDeploymentOperator :=
  let s := cr_Status cr in
  with_Status cr (mkStatus (status_SeedResources s) (status_ShootResources s) (status_Conditions s) t).

Definition with_Resources (cr : DualDeploymentOperator) (seed shoot : list ResourceStatus)
  : DualDeploymentOperator :=
  let s := cr_Status cr in
  with_Status cr (mkStatus seed shoot (status_Conditions s) (status_LastReconcile s)).

(** ** Registration and the admission webhook *)

(** [SchemeGroupVersion] (groupversion_info.go). *)
Definition SchemeGroupVersion : GroupVersion := mkGV "dual-deployment-operator.cc.sap" "v1alpha1".

(** DualDeploymentOperatorCustomValidator (internal/webhook/v1alpha1): no warnings and
    no error; all validation is in the CRD rules above. *)
Definition ValidateCreate (_ : DualDeploymentOperator) : list string * option error := ([], None).
Definition ValidateUpdate (_ _ : DualDeploymentOperator) : list string * option error := ([], None).
Definition ValidateDelete (_ : DualDeploymentOperator) : list string * option error := ([], None).
