(* ===== verification/DeepCopy.v ===== *)
(** The generated deep copies (api/v1alpha1/zz_generated.deepcopy.go).

    A value in memory is a tree whose references (pointers, slices) carry the
    address of the cell they point to; [copies] says what a deep copy promises:
    the same contents in cells that were not allocated before.  Each type has its
    in-memory record, ending in [V]. *)

From S2P Require Import Prelude Value Apimachinery Types.
#[local] Open Scope list_scope.

(** ** Memory *)

(** A reference: its address, and what the cell holds. *)
Record ref (T : Type) := mkRef { r_loc : nat; r_val : T }.
Arguments mkRef {T}.
Arguments r_loc {T}.
Arguments r_val {T}.

(** A pointer; nil is [None]. *)
Abbreviation ptr T := (option (ref T)).
(** A slice, by its backing array; nil is [None]. *)
Abbreviation slice T := (option (ref (list T))).

(** Computations that allocate: the state is the next free address. *)
Definition Alloc (T : Type) : Type := nat -> T * nat.
Definition pure {T} (x : T) : Alloc T := fun n => (x, n).
Definition abind {T C} (m : Alloc T) (k : T -> Alloc C) : Alloc C := fun n => let '(x, n') := m n in k x n'.
Definition new : Alloc nat := fun n => (n, S n).

#[local] Notation "'let*' x := m 'in' k" := (abind m (fun x => k)) (at level 200, x name, m at level 100, k at level 200).

Fixpoint each {T} (into : T -> Alloc T) (xs : list T) : Alloc (list T) :=
  match xs with
  | [] => pure []
  | x :: xs' => let* y := into x in let* ys := each into xs' in pure (y :: ys)
  end.

(** A pointer field: if it is set, a new cell filled by DeepCopyInto. *)
Definition new_into {T} (into : T -> Alloc T) (p : ptr T) : Alloc (ptr T) :=
  match p with
  | None => pure None
  | Some r => let* l := new in let* v := into (r_val r) in pure (Some (mkRef l v))
  end.

(** A slice field: if it is set, a new array filled element by element. *)
Definition make_each {T} (into : T -> Alloc T) (s : slice T) : Alloc (slice T) := new_into (each into) s.

(** DeepCopy: nil, or a new cell filled by DeepCopyInto. *)
Definition deep_copy {T} (into : T -> Alloc T) (p : ptr T) : Alloc (ptr T) := new_into into p.

(** ** What a deep copy promises *)

(** The addresses a value refers to, and its contents with all addresses erased. *)
Class Located (T : Type) := { locs : T -> list nat; wipe : T -> T }.

#[export] Instance located_list {T} `{Located T} : Located (list T) :=
  {| locs xs := concat (map locs xs); wipe := map wipe |}.
#[export] Instance located_ref {T} `{Located T} : Located (ref T) :=
  {| locs r := r_loc r :: locs (r_val r); wipe r := mkRef 0 (wipe (r_val r)) |}.
#[export] Instance located_option {T} `{Located T} : Located (option T) :=
  {| locs p := match p with Some r => locs r | None => [] end; wipe := fmap wipe |}.

(** Types without references. *)
Definition plain T : Located T := {| locs _ := []; wipe x := x |}.
#[export] Instance located_string : Located string := plain string.
#[export] Instance located_SecretReference : Located SecretReference := plain _.
#[export] Instance located_RewriteWebhookURLSpec : Located RewriteWebhookURLSpec := plain _.
#[export] Instance located_Selector : Located Selector := plain _.
#[export] Instance located_ShootAccessRef : Located ShootAccessRef := plain _.
#[export] Instance located_RetentionPolicy : Located RetentionPolicy := plain _.

(** Distinct addresses allocated from [n] up to [n']. *)
Definition fresh_in (n n' : nat) (l : list nat) : Prop :=
  n <= n' /\ NoDup l /\ Forall (fun a => n <= a < n') l.

(** The copy has the contents of the original, in cells of its own. *)
Definition copies {T} `{Located T} (into : T -> Alloc T) : Prop :=
  forall x n, let '(y, n') := into x n in wipe y = wipe x /\ fresh_in n n' (locs y).

Lemma fresh_nil n : fresh_in n n [].
Proof. split_and!; [lia|constructor|constructor]. Qed.

Lemma fresh_app n m k l l' : fresh_in n m l -> fresh_in m k l' -> fresh_in n k (l ++ l').
Proof.
  intros (Hn & Hd & Hl) (Hm & Hd' & Hl'). rewrite Forall_forall in Hl, Hl'. split_and!; [lia| |].
  - apply NoDup_app. split_and!; [done| |done]. intros a Ha Ha'. pose proof (Hl _ Ha). pose proof (Hl' _ Ha'). lia.
  - apply Forall_app. split; apply Forall_forall; intros a Ha; [pose proof (Hl _ Ha)|pose proof (Hl' _ Ha)]; lia.
Qed.

Lemma fresh_new n n' l : fresh_in (S n) n' l -> fresh_in n n' (n :: l).
Proof.
  intros H. apply (fresh_app n (S n) n' [n] l); [|done].
  split_and!; [lia|apply NoDup_singleton|apply Forall_singleton; lia].
Qed.

Lemma copies_pure {T} : @copies T (plain T) pure.
Proof. intros x n. split; [done|apply fresh_nil]. Qed.

Lemma copies_each {T} `{Located T} into : copies into -> copies (each into).
Proof.
  intros Hi xs. induction xs as [|x xs IH]; intros n; cbn [each]; [split; [done|apply fresh_nil]|].
  unfold abind. pose proof (Hi x n) as Hx. destruct (into x n) as [y m]. pose proof (IH m) as Hxs.
  destruct (each into xs m) as [ys k]. destruct Hx as [Hw Hf], Hxs as [Hws Hfs]. cbn in *.
  split; [by rewrite Hw, Hws|by eapply fresh_app].
Qed.

Lemma copies_new {T} `{Located T} into : copies into -> copies (new_into into).
Proof.
  intros Hi [[l x]|] n; [|split; [done|apply fresh_nil]]. cbn. unfold abind, new. pose proof (Hi x (S n)) as Hx.
  destruct (into x (S n)) as [y m]. destruct Hx as [Hw Hf]. cbn in *. split; [by rewrite Hw|by apply fresh_new].
Qed.

Create HintDb copies discriminated.
#[export] Hint Resolve copies_pure copies_each copies_new : copies.

(** Step through the fields of a struct: each is copied by a function that copies. *)
Ltac copy_step :=
  match goal with
  | |- context [abind ?m _ ?n] =>
      unfold abind at 1;
      let H := fresh "Hc" in
      lazymatch m with ?into ?x => assert (copies into) as H by eauto with copies; specialize (H x n); destruct (into x n) as [? ?]; destruct H end
  end.
Tactic Notation "copy_struct" reference(into) :=
  intros x n; unfold into; repeat copy_step; destruct x; unfold pure; cbn in *; split; [congruence|];
  repeat first [apply fresh_nil | eapply fresh_app; [eassumption|] | eassumption].

(** ** The types *)

(** The library's types with references, and their copies. *)
Class LibraryTypes := {
  JSONV : Type;
  TimeV : Type;
  ConditionV : Type;
  ObjectMetaV : Type;
  ListMetaV : Type;
  located_JSON :: Located JSONV;
  located_Time :: Located TimeV;
  located_Condition :: Located ConditionV;
  located_ObjectMeta :: Located ObjectMetaV;
  located_ListMeta :: Located ListMetaV;
  JSON_DeepCopyInto : JSONV -> Alloc JSONV;
  Time_DeepCopyInto : TimeV -> Alloc TimeV;
  Condition_DeepCopyInto : ConditionV -> Alloc ConditionV;
  ObjectMeta_DeepCopyInto : ObjectMetaV -> Alloc ObjectMetaV;
  ListMeta_DeepCopyInto : ListMetaV -> Alloc ListMetaV;
}.

(** They deep-copy. *)
Class LibraryCopies (Lib : LibraryTypes) : Prop := {
  JSON_copies : copies JSON_DeepCopyInto;
  Time_copies : copies Time_DeepCopyInto;
  Condition_copies : copies Condition_DeepCopyInto;
  ObjectMeta_copies : copies ObjectMeta_DeepCopyInto;
  ListMeta_copies : copies ListMeta_DeepCopyInto;
}.
#[export] Hint Resolve JSON_copies Time_copies Condition_copies ObjectMeta_copies ListMeta_copies : copies.

(** [metav1.TypeMeta] *)
Record TypeMeta := mkTypeMeta { tm_Kind : string; tm_APIVersion : string }.

Section Copies.
Context {Lib : LibraryTypes}.

(** *** Structs without references: [*out = *in] *)

Definition SecretReference_DeepCopyInto : SecretReference -> Alloc SecretReference := pure.
Definition SecretReference_DeepCopy : ptr SecretReference -> Alloc (ptr SecretReference) := deep_copy SecretReference_DeepCopyInto.
Definition RewriteWebhookURLSpec_DeepCopyInto : RewriteWebhookURLSpec -> Alloc RewriteWebhookURLSpec := pure.
Definition RewriteWebhookURLSpec_DeepCopy : ptr RewriteWebhookURLSpec -> Alloc (ptr RewriteWebhookURLSpec) :=
  deep_copy RewriteWebhookURLSpec_DeepCopyInto.
Definition Selector_DeepCopyInto : Selector -> Alloc Selector := pure.
Definition Selector_DeepCopy : ptr Selector -> Alloc (ptr Selector) := deep_copy Selector_DeepCopyInto.
Definition ShootAccessRef_DeepCopyInto : ShootAccessRef -> Alloc ShootAccessRef := pure.
Definition ShootAccessRef_DeepCopy : ptr ShootAccessRef -> Alloc (ptr ShootAccessRef) := deep_copy ShootAccessRef_DeepCopyInto.
Definition RetentionPolicy_DeepCopyInto : RetentionPolicy -> Alloc RetentionPolicy := pure.
Definition RetentionPolicy_DeepCopy : ptr RetentionPolicy -> Alloc (ptr RetentionPolicy) := deep_copy RetentionPolicy_DeepCopyInto.

(** [copy] of strings into a new array. *)
Definition copy_strings (s : slice string) : Alloc (slice string) := new_into pure s.

(** *** Structs with references *)

Record FilterKindsSpecV := mkFilterKindsSpecV { fk_Kinds : slice string; fk_Source : string }.
#[export] Instance located_FilterKindsSpec : Located FilterKindsSpecV := {|
  locs x := locs (fk_Kinds x);
  wipe x := mkFilterKindsSpecV (wipe (fk_Kinds x)) (fk_Source x);
|}.
Definition FilterKindsSpec_DeepCopyInto (x : FilterKindsSpecV) : Alloc FilterKindsSpecV :=
  let* vKinds := copy_strings (fk_Kinds x) in
  pure (mkFilterKindsSpecV vKinds (fk_Source x)).
Definition FilterKindsSpec_DeepCopy : ptr FilterKindsSpecV -> Alloc (ptr FilterKindsSpecV) := deep_copy FilterKindsSpec_DeepCopyInto.

Record JSONPatchOpV := mkJSONPatchOpV { jp_Op : string; jp_Path : string; jp_From : string; jp_Value : ptr JSONV }.
#[export] Instance located_JSONPatchOp : Located JSONPatchOpV := {|
  locs x := locs (jp_Value x);
  wipe x := mkJSONPatchOpV (jp_Op x) (jp_Path x) (jp_From x) (wipe (jp_Value x));
|}.
Definition JSONPatchOp_DeepCopyInto (x : JSONPatchOpV) : Alloc JSONPatchOpV :=
  let* vValue := new_into JSON_DeepCopyInto (jp_Value x) in
  pure (mkJSONPatchOpV (jp_Op x) (jp_Path x) (jp_From x) vValue).
Definition JSONPatchOp_DeepCopy : ptr JSONPatchOpV -> Alloc (ptr JSONPatchOpV) := deep_copy JSONPatchOp_DeepCopyInto.

Record PatchSpecV := mkPatchSpecV { ps_Target : Selector; ps_StrategicMerge : ptr JSONV; ps_JSONPatch : slice JSONPatchOpV }.
#[export] Instance located_PatchSpec : Located PatchSpecV := {|
  locs x := locs (ps_StrategicMerge x) ++ locs (ps_JSONPatch x);
  wipe x := mkPatchSpecV (ps_Target x) (wipe (ps_StrategicMerge x)) (wipe (ps_JSONPatch x));
|}.
Definition PatchSpec_DeepCopyInto (x : PatchSpecV) : Alloc PatchSpecV :=
  let* vStrategicMerge := new_into JSON_DeepCopyInto (ps_StrategicMerge x) in
  let* vJSONPatch := make_each JSONPatchOp_DeepCopyInto (ps_JSONPatch x) in
  pure (mkPatchSpecV (ps_Target x) vStrategicMerge vJSONPatch).
Definition PatchSpec_DeepCopy : ptr PatchSpecV -> Alloc (ptr PatchSpecV) := deep_copy PatchSpec_DeepCopyInto.

Record TransformationV := mkTransformationV { tr_Patch : ptr PatchSpecV; tr_RewriteWebhookURL : ptr RewriteWebhookURLSpec; tr_FilterKinds : ptr FilterKindsSpecV }.
#[export] Instance located_Transformation : Located TransformationV := {|
  locs x := locs (tr_Patch x) ++ locs (tr_RewriteWebhookURL x) ++ locs (tr_FilterKinds x);
  wipe x := mkTransformationV (wipe (tr_Patch x)) (wipe (tr_RewriteWebhookURL x)) (wipe (tr_FilterKinds x));
|}.
Definition Transformation_DeepCopyInto (x : TransformationV) : Alloc TransformationV :=
  let* vPatch := new_into PatchSpec_DeepCopyInto (tr_Patch x) in
  let* vRewriteWebhookURL := new_into RewriteWebhookURLSpec_DeepCopyInto (tr_RewriteWebhookURL x) in
  let* vFilterKinds := new_into FilterKindsSpec_DeepCopyInto (tr_FilterKinds x) in
  pure (mkTransformationV vPatch vRewriteWebhookURL vFilterKinds).
Definition Transformation_DeepCopy : ptr TransformationV -> Alloc (ptr TransformationV) := deep_copy Transformation_DeepCopyInto.

Record HelmSourceV := mkHelmSourceV { he_Repo : string; he_Name : string; he_Version : string; he_Values : ptr JSONV; he_SeedValues : ptr JSONV; he_ShootValues : ptr JSONV; he_AuthSecretRef : ptr SecretReference }.
#[export] Instance located_HelmSource : Located HelmSourceV := {|
  locs x := locs (he_Values x) ++ locs (he_SeedValues x) ++ locs (he_ShootValues x) ++ locs (he_AuthSecretRef x);
  wipe x := mkHelmSourceV (he_Repo x) (he_Name x) (he_Version x) (wipe (he_Values x)) (wipe (he_SeedValues x)) (wipe (he_ShootValues x)) (wipe (he_AuthSecretRef x));
|}.
Definition HelmSource_DeepCopyInto (x : HelmSourceV) : Alloc HelmSourceV :=
  let* vValues := new_into JSON_DeepCopyInto (he_Values x) in
  let* vSeedValues := new_into JSON_DeepCopyInto (he_SeedValues x) in
  let* vShootValues := new_into JSON_DeepCopyInto (he_ShootValues x) in
  let* vAuthSecretRef := new_into SecretReference_DeepCopyInto (he_AuthSecretRef x) in
  pure (mkHelmSourceV (he_Repo x) (he_Name x) (he_Version x) vValues vSeedValues vShootValues vAuthSecretRef).
Definition HelmSource_DeepCopy : ptr HelmSourceV -> Alloc (ptr HelmSourceV) := deep_copy HelmSource_DeepCopyInto.

Record KustomizeSourceV := mkKustomizeSourceV { ku_URL : string; ku_SeedPath : string; ku_ShootPath : string; ku_AuthSecretRef : ptr SecretReference }.
#[export] Instance located_KustomizeSource : Located KustomizeSourceV := {|
  locs x := locs (ku_AuthSecretRef x);
  wipe x := mkKustomizeSourceV (ku_URL x) (ku_SeedPath x) (ku_ShootPath x) (wipe (ku_AuthSecretRef x));
|}.
Definition KustomizeSource_DeepCopyInto (x : KustomizeSourceV) : Alloc KustomizeSourceV :=
  let* vAuthSecretRef := new_into SecretReference_DeepCopyInto (ku_AuthSecretRef x) in
  pure (mkKustomizeSourceV (ku_URL x) (ku_SeedPath x) (ku_ShootPath x) vAuthSecretRef).
Definition KustomizeSource_DeepCopy : ptr KustomizeSourceV -> Alloc (ptr KustomizeSourceV) := deep_copy KustomizeSource_DeepCopyInto.

Record SourceV := mkSourceV { so_Helm : ptr HelmSourceV; so_Kustomize : ptr KustomizeSourceV }.
#[export] Instance located_Source : Located SourceV := {|
  locs x := locs (so_Helm x) ++ locs (so_Kustomize x);
  wipe x := mkSourceV (wipe (so_Helm x)) (wipe (so_Kustomize x));
|}.
Definition Source_DeepCopyInto (x : SourceV) : Alloc SourceV :=
  let* vHelm := new_into HelmSource_DeepCopyInto (so_Helm x) in
  let* vKustomize := new_into KustomizeSource_DeepCopyInto (so_Kustomize x) in
  pure (mkSourceV vHelm vKustomize).
Definition Source_DeepCopy : ptr SourceV -> Alloc (ptr SourceV) := deep_copy Source_DeepCopyInto.

Record DualDeploymentOperatorSpecV := mkDualDeploymentOperatorSpecV { sp_Source : SourceV; sp_ShootAccess : ShootAccessRef; sp_ShootNamespace : string; sp_Transformations : slice TransformationV; sp_RetentionPolicy : RetentionPolicy; sp_ApplyOrder : string }.
#[export] Instance located_DualDeploymentOperatorSpec : Located DualDeploymentOperatorSpecV := {|
  locs x := locs (sp_Source x) ++ locs (sp_Transformations x);
  wipe x := mkDualDeploymentOperatorSpecV (wipe (sp_Source x)) (sp_ShootAccess x) (sp_ShootNamespace x) (wipe (sp_Transformations x)) (sp_RetentionPolicy x) (sp_ApplyOrder x);
|}.
Definition DualDeploymentOperatorSpec_DeepCopyInto (x : DualDeploymentOperatorSpecV) : Alloc DualDeploymentOperatorSpecV :=
  let* vSource := Source_DeepCopyInto (sp_Source x) in
  let* vTransformations := make_each Transformation_DeepCopyInto (sp_Transformations x) in
  pure (mkDualDeploymentOperatorSpecV vSource (sp_ShootAccess x) (sp_ShootNamespace x) vTransformations (sp_RetentionPolicy x) (sp_ApplyOrder x)).
Definition DualDeploymentOperatorSpec_DeepCopy : ptr DualDeploymentOperatorSpecV -> Alloc (ptr DualDeploymentOperatorSpecV) := deep_copy DualDeploymentOperatorSpec_DeepCopyInto.

Record ResourceStatusV := mkResourceStatusV { re_Kind : string; re_APIVersion : string; re_Namespace : string; re_Name : string; re_Health : string; re_LastApplied : ptr TimeV; re_Message : string }.
#[export] Instance located_ResourceStatus : Located ResourceStatusV := {|
  locs x := locs (re_LastApplied x);
  wipe x := mkResourceStatusV (re_Kind x) (re_APIVersion x) (re_Namespace x) (re_Name x) (re_Health x) (wipe (re_LastApplied x)) (re_Message x);
|}.
Definition ResourceStatus_DeepCopyInto (x : ResourceStatusV) : Alloc ResourceStatusV :=
  let* vLastApplied := deep_copy Time_DeepCopyInto (re_LastApplied x) in
  pure (mkResourceStatusV (re_Kind x) (re_APIVersion x) (re_Namespace x) (re_Name x) (re_Health x) vLastApplied (re_Message x)).
Definition ResourceStatus_DeepCopy : ptr ResourceStatusV -> Alloc (ptr ResourceStatusV) := deep_copy ResourceStatus_DeepCopyInto.

Record DualDeploymentOperatorStatusV := mkDualDeploymentOperatorStatusV { st_SeedResources : slice ResourceStatusV; st_ShootResources : slice ResourceStatusV; st_Conditions : slice ConditionV; st_LastReconcile : ptr TimeV }.
#[export] Instance located_DualDeploymentOperatorStatus : Located DualDeploymentOperatorStatusV := {|
  locs x := locs (st_SeedResources x) ++ locs (st_ShootResources x) ++ locs (st_Conditions x) ++ locs (st_LastReconcile x);
  wipe x := mkDualDeploymentOperatorStatusV (wipe (st_SeedResources x)) (wipe (st_ShootResources x)) (wipe (st_Conditions x)) (wipe (st_LastReconcile x));
|}.
Definition DualDeploymentOperatorStatus_DeepCopyInto (x : DualDeploymentOperatorStatusV) : Alloc DualDeploymentOperatorStatusV :=
  let* vSeedResources := make_each ResourceStatus_DeepCopyInto (st_SeedResources x) in
  let* vShootResources := make_each ResourceStatus_DeepCopyInto (st_ShootResources x) in
  let* vConditions := make_each Condition_DeepCopyInto (st_Conditions x) in
  let* vLastReconcile := deep_copy Time_DeepCopyInto (st_LastReconcile x) in
  pure (mkDualDeploymentOperatorStatusV vSeedResources vShootResources vConditions vLastReconcile).
Definition DualDeploymentOperatorStatus_DeepCopy : ptr DualDeploymentOperatorStatusV -> Alloc (ptr DualDeploymentOperatorStatusV) := deep_copy DualDeploymentOperatorStatus_DeepCopyInto.

Record DualDeploymentOperatorV := mkDualDeploymentOperatorV { dd_TypeMeta : TypeMeta; dd_ObjectMeta : ObjectMetaV; dd_Spec : DualDeploymentOperatorSpecV; dd_Status : DualDeploymentOperatorStatusV }.
#[export] Instance located_DualDeploymentOperator : Located DualDeploymentOperatorV := {|
  locs x := locs (dd_ObjectMeta x) ++ locs (dd_Spec x) ++ locs (dd_Status x);
  wipe x := mkDualDeploymentOperatorV (dd_TypeMeta x) (wipe (dd_ObjectMeta x)) (wipe (dd_Spec x)) (wipe (dd_Status x));
|}.
Definition DualDeploymentOperator_DeepCopyInto (x : DualDeploymentOperatorV) : Alloc DualDeploymentOperatorV :=
  let* vObjectMeta := ObjectMeta_DeepCopyInto (dd_ObjectMeta x) in
  let* vSpec := DualDeploymentOperatorSpec_DeepCopyInto (dd_Spec x) in
  let* vStatus := DualDeploymentOperatorStatus_DeepCopyInto (dd_Status x) in
  pure (mkDualDeploymentOperatorV (dd_TypeMeta x) vObjectMeta vSpec vStatus).
Definition DualDeploymentOperator_DeepCopy : ptr DualDeploymentOperatorV -> Alloc (ptr DualDeploymentOperatorV) := deep_copy DualDeploymentOperator_DeepCopyInto.

Record DualDeploymentOperatorListV := mkDualDeploymentOperatorListV { dl_TypeMeta : TypeMeta; dl_ListMeta : ListMetaV; dl_Items : slice DualDeploymentOperatorV }.
#[export] Instance located_DualDeploymentOperatorList : Located DualDeploymentOperatorListV := {|
  locs x := locs (dl_ListMeta x) ++ locs (dl_Items x);
  wipe x := mkDualDeploymentOperatorListV (dl_TypeMeta x) (wipe (dl_ListMeta x)) (wipe (dl_Items x));
|}.
Definition DualDeploymentOperatorList_DeepCopyInto (x : DualDeploymentOperatorListV) : Alloc DualDeploymentOperatorListV :=
  let* vListMeta := ListMeta_DeepCopyInto (dl_ListMeta x) in
  let* vItems := make_each DualDeploymentOperator_DeepCopyInto (dl_Items x) in
  pure (mkDualDeploymentOperatorListV (dl_TypeMeta x) vListMeta vItems).
Definition DualDeploymentOperatorList_DeepCopy : ptr DualDeploymentOperatorListV -> Alloc (ptr DualDeploymentOperatorListV) := deep_copy DualDeploymentOperatorList_DeepCopyInto.

(** DeepCopyObject: the copy as a [runtime.Object], or the nil interface. *)
Definition DualDeploymentOperator_DeepCopyObject (p : ptr DualDeploymentOperatorV) : Alloc (ptr DualDeploymentOperatorV) :=
  let* c := DualDeploymentOperator_DeepCopy p in pure c.
Definition DualDeploymentOperatorList_DeepCopyObject (p : ptr DualDeploymentOperatorListV)
  : Alloc (ptr DualDeploymentOperatorListV) := let* c := DualDeploymentOperatorList_DeepCopy p in pure c.

(** ** Every copy is deep *)

Context {LC : LibraryCopies Lib}.

Lemma copy_strings_copies : copies copy_strings.
Proof.
  intros [[l x]|] n; cbn; (split; [done|]); [|apply fresh_nil].
  assert (concat (map (fun _ : string => @nil nat) x) = []) as -> by by induction x. apply fresh_new, fresh_nil.
Qed.
Lemma SecretReference_copies : copies SecretReference_DeepCopyInto.
Proof. apply copies_pure. Qed.
Lemma RewriteWebhookURLSpec_copies : copies RewriteWebhookURLSpec_DeepCopyInto.
Proof. apply copies_pure. Qed.
Lemma deep_copy_copies {T} `{Located T} (into : T -> Alloc T) : copies into -> copies (deep_copy into).
Proof. apply copies_new. Qed.
Lemma make_each_copies {T} `{Located T} (into : T -> Alloc T) : copies into -> copies (make_each into).
Proof. intros Hi. by apply copies_new, copies_each. Qed.
Hint Resolve copy_strings_copies SecretReference_copies RewriteWebhookURLSpec_copies deep_copy_copies make_each_copies : copies.

Lemma FilterKindsSpec_copies : copies FilterKindsSpec_DeepCopyInto.
Proof. copy_struct FilterKindsSpec_DeepCopyInto. Qed.
Hint Resolve FilterKindsSpec_copies : copies.
Lemma JSONPatchOp_copies : copies JSONPatchOp_DeepCopyInto.
Proof. copy_struct JSONPatchOp_DeepCopyInto. Qed.
Hint Resolve JSONPatchOp_copies : copies.
Lemma PatchSpec_copies : copies PatchSpec_DeepCopyInto.
Proof. copy_struct PatchSpec_DeepCopyInto. Qed.
Hint Resolve PatchSpec_copies : copies.
Lemma Transformation_copies : copies Transformation_DeepCopyInto.
Proof. copy_struct Transformation_DeepCopyInto. Qed.
Hint Resolve Transformation_copies : copies.
Lemma HelmSource_copies : copies HelmSource_DeepCopyInto.
Proof. copy_struct HelmSource_DeepCopyInto. Qed.
Hint Resolve HelmSource_copies : copies.
Lemma KustomizeSource_copies : copies KustomizeSource_DeepCopyInto.
Proof. copy_struct KustomizeSource_DeepCopyInto. Qed.
Hint Resolve KustomizeSource_copies : copies.
Lemma Source_copies : copies Source_DeepCopyInto.
Proof. copy_struct Source_DeepCopyInto. Qed.
Hint Resolve Source_copies : copies.
Lemma DualDeploymentOperatorSpec_copies : copies DualDeploymentOperatorSpec_DeepCopyInto.
Proof. copy_struct DualDeploymentOperatorSpec_DeepCopyInto. Qed.
Hint Resolve DualDeploymentOperatorSpec_copies : copies.
Lemma ResourceStatus_copies : copies ResourceStatus_DeepCopyInto.
Proof. copy_struct ResourceStatus_DeepCopyInto. Qed.
Hint Resolve ResourceStatus_copies : copies.
Lemma DualDeploymentOperatorStatus_copies : copies DualDeploymentOperatorStatus_DeepCopyInto.
Proof. copy_struct DualDeploymentOperatorStatus_DeepCopyInto. Qed.
Hint Resolve DualDeploymentOperatorStatus_copies : copies.
Lemma DualDeploymentOperator_copies : copies DualDeploymentOperator_DeepCopyInto.
Proof. copy_struct DualDeploymentOperator_DeepCopyInto. Qed.
Hint Resolve DualDeploymentOperator_copies : copies.
Lemma DualDeploymentOperatorList_copies : copies DualDeploymentOperatorList_DeepCopyInto.
Proof. copy_struct DualDeploymentOperatorList_DeepCopyInto. Qed.
Hint Resolve DualDeploymentOperatorList_copies : copies.
End Copies.

(** ** Claims *)

Section Claims.
Context {Lib : LibraryTypes} {LC : LibraryCopies Lib}.

Lemma fresh_disjoint n n' (l l' : list nat) : fresh_in n n' l -> (forall a, a ∈ l' -> a < n) -> forall a, a ∈ l -> a ∉ l'.
Proof. intros (_ & _ & H) Hl a Ha Ha'. rewrite Forall_forall in H. pose proof (H a Ha). pose proof (Hl a Ha'). lia. Qed.

(** C39: deep copies share no memory. The objects the informer cache and the clients hand out are
    copied with DeepCopyObject: the copies of an object and of a list have the same contents, nil
    for nil, and no pointer and no slice of theirs, at any depth, is in a cell of the originals, of each other,
    or twice in the same copy. *)
Theorem deep_copies_share_nothing (p : ptr DualDeploymentOperatorV) (l : ptr DualDeploymentOperatorListV) n :
  (forall a, a ∈ locs p ++ locs l -> a < n) ->
  let '(q, n') := DualDeploymentOperator_DeepCopyObject p n in
  let '(m, _) := DualDeploymentOperatorList_DeepCopyObject l n' in
  wipe q = wipe p /\ wipe m = wipe l /\ NoDup (locs q ++ locs m) /\ forall a, a ∈ locs q ++ locs m -> a ∉ locs p ++ locs l.
Proof.
  intros Hn. unfold DualDeploymentOperator_DeepCopyObject, DualDeploymentOperatorList_DeepCopyObject, abind, pure.
  pose proof (deep_copy_copies _ DualDeploymentOperator_copies p n) as Hp. unfold DualDeploymentOperator_DeepCopy.
  destruct (deep_copy _ p n) as [q n']. destruct Hp as [Hwp Hfp].
  pose proof (deep_copy_copies _ DualDeploymentOperatorList_copies l n') as Hl. unfold DualDeploymentOperatorList_DeepCopy.
  destruct (deep_copy _ l n') as [m k]. destruct Hl as [Hwl Hfl]. pose proof (fresh_app _ _ _ _ _ Hfp Hfl) as Hf.
  split_and!; [done|done|apply Hf|]. by eapply fresh_disjoint.
Qed.
End Claims.

(** ** Witness *)

(** JSON is a byte slice, a time a number; an ObjectMeta has its finalizers and the
    deletion timestamp. *)
Module Ref.
#[export] Instance located_Z : Located Z := plain Z.

Record metaV := mkMetaV { om_Name : string; om_DeletionTimestamp : ptr Z; om_Finalizers : slice string }.
#[export] Instance located_meta : Located metaV := {|
  locs x := locs (om_DeletionTimestamp x) ++ locs (om_Finalizers x);
  wipe x := mkMetaV (om_Name x) (wipe (om_DeletionTimestamp x)) (wipe (om_Finalizers x));
|}.
Definition meta_DeepCopyInto (x : metaV) : Alloc metaV :=
  let* t := new_into pure (om_DeletionTimestamp x) in
  let* fs := copy_strings (om_Finalizers x) in
  pure (mkMetaV (om_Name x) t fs).

Lemma meta_copies : copies meta_DeepCopyInto.
Proof.
  pose proof copy_strings_copies. assert (copies (new_into (T := Z) pure)) by apply (copies_new (T := Z)), copies_pure.
  copy_struct meta_DeepCopyInto.
Qed.

#[export] Instance ref_library : LibraryTypes := {|
  JSONV := ptr string; TimeV := Z; ConditionV := string; ObjectMetaV := metaV; ListMetaV := string;
  JSON_DeepCopyInto := new_into pure; Time_DeepCopyInto := pure; Condition_DeepCopyInto := pure;
  ObjectMeta_DeepCopyInto := meta_DeepCopyInto; ListMeta_DeepCopyInto := pure;
|}.

#[export] Instance ref_library_copies : LibraryCopies ref_library.
Proof.
  split; [apply (copies_new (T := string)), copies_pure|apply copies_pure|apply copies_pure|apply meta_copies|apply copies_pure].
Qed.

(** An object with a deletion timestamp and one recorded resource, and a list of it. *)
Definition an_object : DualDeploymentOperatorV :=
  mkDualDeploymentOperatorV (mkTypeMeta "DualDeploymentOperator" "v1alpha1")
    (mkMetaV "widgets" (Some (mkRef 1 900%Z)) (Some (mkRef 2 ["finalizer"])))
    (mkDualDeploymentOperatorSpecV (mkSourceV None (Some (mkRef 3 (mkKustomizeSourceV "https://git" "seed" "shoot"
       (Some (mkRef 4 (mkSecretReference "cred")))))))
       (mkShootAccessRef "access" "" "" "") "ns" None (mkRetentionPolicy "Retain") "")
    (mkDualDeploymentOperatorStatusV (Some (mkRef 5 [mkResourceStatusV "ConfigMap" "v1" "ns" "settings" "Healthy" None ""]))
       None None None).
Definition a_list : DualDeploymentOperatorListV := mkDualDeploymentOperatorListV (mkTypeMeta "List" "v1") "" (Some (mkRef 7 [an_object])).

Lemma deep_copies_share_nothing_witness :
  let '(q, n') := DualDeploymentOperator_DeepCopyObject (Some (mkRef 6 an_object)) 8 in
  let '(m, _) := DualDeploymentOperatorList_DeepCopyObject (Some (mkRef 0 a_list)) n' in
  locs q = [8; 9; 10; 11; 12; 13] /\ wipe q = wipe (Some (mkRef 6 an_object)) /\
  wipe m = wipe (Some (mkRef 0 a_list)) /\ NoDup (locs q ++ locs m) /\
  forall a, a ∈ locs q ++ locs m -> a ∉ locs (Some (mkRef 6 an_object)) ++ locs (Some (mkRef 0 a_list)).
Proof.
  split; [by vm_compute|].
  exact (deep_copies_share_nothing (Some (mkRef 6 an_object)) (Some (mkRef 0 a_list)) 8
    ltac:(intros a Ha; vm_compute in Ha; rewrite ?elem_of_cons in Ha; set_solver by lia)).
Defined.
End Ref.
