(* ===== verification/Clients.v ===== *)
(** internal/clients/clients.go and internal/source/credentials.go: what is read
    out of Secrets, and the REST configuration of the shoot client. *)

From S2P Require Import Prelude Value.

(** [corev1.Secret]: the data map, its values the raw bytes. *)
Record Secret := mkSecret { secret_Data : gmap string string }.

(** [secret.Data[k]]: a missing key reads as the empty byte slice. *)
Definition secret_get (s : Secret) (k : string) : string := default "" (secret_Data s !! k).

(** ** clients.go *)

(** The fields of [rest.Config] the operator sets; the timeout in seconds. *)
Record RESTConfig := mkRESTConfig {
  cfg_Host : string;
  cfg_BearerToken : string;
  cfg_CAData : string;
  cfg_Timeout : Z;
}.

Definition shootRequestTimeout : Z := 30.

Definition ErrShootCredentialsNotReady : error :=
  ESentinel "clients.ErrShootCredentialsNotReady" "shoot credentials not yet populated".

Definition ShootRESTConfig (secret : Secret) (tokenKey caKey server : string) : result RESTConfig :=
  let tokenKey := if bool_decide (tokenKey = "") then "token" else tokenKey in
  let caKey := if bool_decide (caKey = "") then "bundle.crt" else caKey in
  let token := secret_get secret tokenKey in
  let caData := secret_get secret caKey in
  if (Nat.eqb (String.length token) 0) || (Nat.eqb (String.length caData) 0)
  then Err ErrShootCredentialsNotReady
  else Ok (mkRESTConfig server token caData shootRequestTimeout).

(** ** credentials.go *)

Record creds := mkCreds { creds_user : string; creds_pass : string; creds_ok : bool }.

Definition credsFromSecretData (data : gmap string string) : creds :=
  let user := default "" (data !! "username") in
  let pass := default "" (data !! "password") in
  let tok := default "" (data !! "token") in
  let '(user, pass) :=
    if negb (bool_decide (tok = "")) then
      (if bool_decide (user = "") then "git" else user, tok)
    else (user, pass) in
  mkCreds user pass (negb (bool_decide (pass = ""))).

(** ** Properties *)

Lemma length_zero_iff s : Nat.eqb (String.length s) 0 = bool_decide (s = "").
Proof. destruct s; [done|]. cbn. by rewrite bool_decide_eq_false_2. Qed.

(** The keys actually read. *)
Definition effective_key (k dflt : string) : string := if bool_decide (k = "") then dflt else k.

(** The shoot client is configured exactly when both credentials are there: with a
    non-empty token and CA under the configured keys ("token" and "bundle.crt" when
    unset) the result carries them, the server and the 30 s timeout; otherwise the
    error is ErrShootCredentialsNotReady, which the reconciler waits on. *)
Theorem shoot_config_iff_credentials secret tokenKey caKey server :
  let token := secret_get secret (effective_key tokenKey "token") in
  let ca := secret_get secret (effective_key caKey "bundle.crt") in
  ShootRESTConfig secret tokenKey caKey server =
    (if bool_decide (token ≠ "" /\ ca ≠ "") then Ok (mkRESTConfig server token ca 30)
     else Err ErrShootCredentialsNotReady) /\
  errors_Is ErrShootCredentialsNotReady ErrShootCredentialsNotReady = true.
Proof.
  cbn zeta. split; [|done]. unfold ShootRESTConfig. rewrite !length_zero_iff.
  change (if bool_decide (tokenKey = "") then "token" else tokenKey) with (effective_key tokenKey "token").
  change (if bool_decide (caKey = "") then "bundle.crt" else caKey) with (effective_key caKey "bundle.crt").
  repeat case_bool_decide; cbn; naive_solver.
Qed.

(** Credentials from a Secret: a token takes precedence over a password and goes with
    the user name "git" unless one is given; the credentials are usable exactly when
    the resulting password is non-empty. *)
Theorem creds_from_secret_spec data :
  let c := credsFromSecretData data in
  let field k := default "" (data !! k) in
  (creds_ok c = true <-> field "token" ≠ "" \/ field "password" ≠ "") /\
  (field "token" ≠ "" -> creds_pass c = field "token" /\
     creds_user c = if bool_decide (field "username" = "") then "git" else field "username") /\
  (field "token" = "" -> creds_pass c = field "password" /\ creds_user c = field "username").
Proof.
  cbn zeta. unfold credsFromSecretData.
  set (t := default "" (data !! "token")). set (p := default "" (data !! "password")).
  case_bool_decide as Ht; cbn; rewrite negb_true_iff, bool_decide_eq_false; naive_solver.
Qed.
