(* ===== verification/Manifest.v ===== *)
(** internal/manifest: the Manifest value, ownership and origin marks, the
    multi-document parser and the namespace pass. *)

From S2P Require Import Prelude Value Apimachinery Sha256.

(** ** manifest.go *)

Definition OriginAnnotation : string := "dual-deployment-operator.cc.sap/origin".
Definition OwnedByLabel : string := "dual-deployment-operator.cc.sap/owned-by".

(** [type Origin string]. *)
Abbreviation Origin := string.
Definition OriginUpstream : Origin := "upstream".
Definition OriginAdditions : Origin := "additions".

Record Manifest := mkManifest { m_Unstructured : obj; m_Origin : Origin }.

Definition OwnedByValue (namespace name : string) : string :=
  let sum := Sum256 (namespace +:+ "/" +:+ name) in
  String.substring 0 16 (hex_EncodeToString sum).

(** [m[k]] on a possibly nil [map[string]string]. *)
Definition map_get (m : option (gmap string string)) (k : string) : string :=
  default "" (m ≫= fun m => m !! k).

Section Manifest.
Context {U : Unstructured}.

(** The methods on Manifest mutate the object it points to; the model returns
    the object. *)
Definition StripInternalAnnotations (u : obj) : obj :=
  match GetAnnotations u with
  | None => u
  | Some anns =>
      let anns := delete OriginAnnotation anns in
      if Nat.eqb (size anns) 0 then SetAnnotations u None else SetAnnotations u (Some anns)
  end.

Definition SetOwnedByLabel (u : obj) (ownedBy : string) : obj :=
  let labels := match GetLabels u with None => ∅ | Some labels => labels end in
  SetLabels u (Some (<[OwnedByLabel := ownedBy]> labels)).

(** ** parse.go *)

Definition originOf (u : obj) (fallback : Origin) : Origin :=
  if bool_decide (map_get (GetAnnotations u) OriginAnnotation = OriginAdditions)
  then OriginAdditions else fallback.

Definition doc_error (what : string) (idx : nat) : error :=
  ENew ("manifest: document " +:+ pretty (N.of_nat idx) +:+ " is missing " +:+ what).

(** The loop of Parse over the results of the successive [dec.Decode] calls
    before io.EOF. *)
Fixpoint parse_loop (docs : list (result obj)) (idx : nat) (fallback : Origin) (out : list Manifest)
  : result (list Manifest) :=
  match docs with
  | [] => Ok out
  | Err e :: _ => Err (EWrap ("manifest: decode document " +:+ pretty (N.of_nat idx) +:+ ": ") e "")
  | Ok u :: docs' =>
      if Nat.eqb (size u) 0 then parse_loop docs' (S idx) fallback out
      else if bool_decide (GetAPIVersion u = "") then Err (doc_error "apiVersion" idx)
      else if bool_decide (GetKind u = "") then Err (doc_error "kind" idx)
      else parse_loop docs' (S idx) fallback (out ++ [mkManifest u (originOf u fallback)])
  end.
End Manifest.

(** k8s.io/apimachinery/pkg/util/yaml.NewYAMLOrJSONDecoder: the results of
    decoding the documents of a byte stream one after the other. *)
Class YAMLDecoder := { yaml_documents : string -> list (result obj) }.

Definition Parse {U : Unstructured} {Y : YAMLDecoder} (raw : string) (fallback : Origin)
  : result (list Manifest) := parse_loop (yaml_documents raw) 0 fallback [].

(** ** namespace.go *)

(** The keys of the map. *)
Definition clusterScopedKinds : list string := [
  "CustomResourceDefinition"; "ClusterRole"; "ClusterRoleBinding"; "Namespace"; "PriorityClass";
  "StorageClass"; "ClusterIssuer"; "APIService"; "ValidatingWebhookConfiguration";
  "MutatingWebhookConfiguration"; "PersistentVolume"; "IngressClass"; "RuntimeClass";
  "PriorityLevelConfiguration"; "FlowSchema"; "CSIDriver"; "CSINode"; "VolumeAttachment"; "NodeClass" ].

Definition IsClusterScoped (kind : string) : bool := existsb (String.eqb kind) clusterScopedKinds.

Section Namespace.
Context {U : Unstructured}.

(** The body of the loop of ApplyNamespace, on one object. *)
Definition apply_namespace_one (ns : string) (u : obj) : obj :=
  if IsClusterScoped (GetKind u) then
    if negb (bool_decide (GetNamespace u = "")) then SetNamespace u "" else u
  else if bool_decide (ns = "") then u
  else if negb (bool_decide (GetNamespace u = "")) then u
  else SetNamespace u ns.

Definition ApplyNamespace (manifests : list Manifest) (ns : string) : list Manifest :=
  map (fun m => mkManifest (apply_namespace_one ns (m_Unstructured m)) (m_Origin m)) manifests.
End Namespace.

(** ** Properties *)

Section ManifestProps.
Context {U : Unstructured} {UL : UnstructuredLaws U}.

Lemma StripInternalAnnotations_spec u :
  well_typed u ->
  well_typed (StripInternalAnnotations u) /\
  same_except p_annotations u (StripInternalAnnotations u) /\
  map_get (GetAnnotations (StripInternalAnnotations u)) OriginAnnotation = "" /\
  (forall k, k ≠ OriginAnnotation ->
     map_get (GetAnnotations (StripInternalAnnotations u)) k = map_get (GetAnnotations u) k).
Proof.
  intros Hw. unfold StripInternalAnnotations.
  destruct (GetAnnotations u) as [anns|] eqn:E; [|rewrite E; auto with ddo].
  destruct (Nat.eqb_spec (size (delete OriginAnnotation anns)) 0) as [He|He].
  - apply map_size_empty_iff in He. destruct (SetAnnotations_spec u None Hw) as (? & ? & ->). split_and!; [done..|].
    intros k Hk. cbn. assert (delete OriginAnnotation anns !! k = None) as Hl by by rewrite He.
    rewrite lookup_delete_ne in Hl by done. by rewrite Hl.
  - destruct (SetAnnotations_spec u (Some (delete OriginAnnotation anns)) Hw) as (? & ? & ->).
    split_and!; [done..| |].
    + cbn. by rewrite lookup_delete_eq.
    + intros k Hk. cbn. by rewrite lookup_delete_ne.
Qed.

Lemma SetOwnedByLabel_spec u v :
  well_typed u ->
  well_typed (SetOwnedByLabel u v) /\ same_except p_labels u (SetOwnedByLabel u v) /\
  map_get (GetLabels (SetOwnedByLabel u v)) OwnedByLabel = v /\
  (forall k, k ≠ OwnedByLabel ->
     map_get (GetLabels (SetOwnedByLabel u v)) k = map_get (GetLabels u) k).
Proof.
  intros Hw. unfold SetOwnedByLabel.
  destruct (SetLabels_spec u (Some (<[OwnedByLabel:=v]>
    (match GetLabels u with None => ∅ | Some labels => labels end))) Hw) as (? & ? & ->).
  split_and!; [done..| |].
  - cbn. by rewrite lookup_insert_eq.
  - intros k Hk. cbn. rewrite lookup_insert_ne by done. by destruct (GetLabels u).
Qed.

Lemma apply_namespace_one_spec ns u :
  well_typed u ->
  well_typed (apply_namespace_one ns u) /\ same_except p_namespace u (apply_namespace_one ns u) /\
  GetNamespace (apply_namespace_one ns u) =
    if IsClusterScoped (GetKind u) then ""
    else if bool_decide (GetNamespace u = "") then ns else GetNamespace u.
Proof.
  intros Hw. unfold apply_namespace_one. destruct (IsClusterScoped (GetKind u)).
  - case_bool_decide; cbn; [auto with ddo|]. by apply SetNamespace_spec.
  - case_bool_decide; subst; [case_bool_decide; auto with ddo|].
    case_bool_decide; cbn; [by apply SetNamespace_spec|auto with ddo].
Qed.

Lemma apply_namespace_one_idemp ns u :
  well_typed u -> apply_namespace_one ns (apply_namespace_one ns u) = apply_namespace_one ns u.
Proof.
  intros Hw. destruct (apply_namespace_one_spec ns u Hw) as (Hw' & Hf & Hn).
  assert (GetKind (apply_namespace_one ns u) = GetKind u) as Hk
    by (apply GetKind_ext; [done|by apply Hf]).
  unfold apply_namespace_one at 1. rewrite Hk, Hn. destruct (IsClusterScoped (GetKind u)); [done|].
  repeat (case_bool_decide; cbn; try done).
Qed.
End ManifestProps.

Section ParseProps.
Context {U : Unstructured}.

(** A document that carries an object. *)
Definition real_doc (u : obj) : bool := negb (Nat.eqb (size u) 0).
Definition complete_doc (u : obj) : bool :=
  negb (bool_decide (GetAPIVersion u = "")) && negb (bool_decide (GetKind u = "")).

(** The objects of a stream whose documents all decode. *)
Fixpoint decoded (docs : list (result obj)) : option (list obj) :=
  match docs with
  | [] => Some []
  | Ok u :: docs' => cons u <$> decoded docs'
  | Err _ :: _ => None
  end.

Lemma parse_loop_spec docs idx fb out :
  match parse_loop docs idx fb out with
  | Ok ms => exists us, decoded docs = Some us /\ forallb complete_doc (filter real_doc us) = true /\
      ms = (out ++ map (fun u => mkManifest u (originOf u fb)) (filter real_doc us))%list
  | Err _ => match decoded docs with
             | Some us => forallb complete_doc (filter real_doc us) = false
             | None => True
             end
  end.
Proof.
  revert idx out. induction docs as [|[u|e] docs IH]; intros idx out; cbn [parse_loop decoded].
  - exists []. cbn. by rewrite app_nil_r.
  - destruct (Nat.eqb (size u) 0) eqn:Eu; [|destruct (bool_decide (GetAPIVersion u = "")) eqn:Ea;
      [|destruct (bool_decide (GetKind u = "")) eqn:Ek]].
    + assert (filter real_doc (u :: default [] (decoded docs)) = filter real_doc (default [] (decoded docs)))
        as Hskip by (rewrite filter_cons_False; [done|unfold real_doc; rewrite Eu; intros []]).
      specialize (IH (S idx) out). destruct (parse_loop docs _ _ _) as [ms|].
      * destruct IH as (us & Hd & Hc & ->). exists (u :: us). rewrite Hd in *.
        change (default [] (Some us)) with us in Hskip. by rewrite Hskip.
      * destruct (decoded docs) as [us|]; [|done].
        change (default [] (Some us)) with us in Hskip. cbn [fmap option_fmap option_map]. by rewrite Hskip.
    + destruct (decoded docs) as [us|]; [|done]. cbn [fmap option_fmap option_map].
      rewrite filter_cons_True by (unfold real_doc; by rewrite Eu). cbn. unfold complete_doc. by rewrite Ea.
    + destruct (decoded docs) as [us|]; [|done]. cbn [fmap option_fmap option_map].
      rewrite filter_cons_True by (unfold real_doc; by rewrite Eu). cbn. unfold complete_doc. by rewrite Ea, Ek.
    + assert (filter real_doc (u :: default [] (decoded docs)) = u :: filter real_doc (default [] (decoded docs)))
        as Hkeep by (rewrite filter_cons_True; [done|unfold real_doc; by rewrite Eu]).
      assert (complete_doc u = true) as Hu by (unfold complete_doc; by rewrite Ea, Ek).
      specialize (IH (S idx) (out ++ [mkManifest u (originOf u fb)])%list).
      destruct (parse_loop docs _ _ _) as [ms|].
      * destruct IH as (us & Hd & Hc & ->). exists (u :: us). rewrite Hd in *.
        change (default [] (Some us)) with us in Hkeep.
        rewrite Hkeep. cbn. rewrite Hu, Hc. split_and!; [done..|]. by rewrite <- app_assoc.
      * destruct (decoded docs) as [us|]; [|done].
        change (default [] (Some us)) with us in Hkeep. cbn [fmap option_fmap option_map].
        rewrite Hkeep. cbn. by rewrite Hu, IH.
  - done.
Qed.
End ParseProps.
