(* ===== verification/ManifestProps.v ===== *)
(** Properties of internal/manifest: parsing, namespaces and the ownership value. *)

From S2P Require Import Prelude Value Apimachinery Sha256 Manifest Reference.

(** The owned-by value is a valid label value for every namespace and name: 16
    lowercase hexadecimal digits, the first 8 bytes of the SHA-256 digest of
    "namespace/name". *)
Theorem owned_by_value_is_label namespace name :
  String.length (OwnedByValue namespace name) = 16 /\
  all_chars is_hex_digit (OwnedByValue namespace name) = true /\
  OwnedByValue namespace name =
    String.substring 0 16 (hex_EncodeToString (Sum256 (strings_Join [namespace; name] "/"))).
Proof.
  unfold OwnedByValue. split_and!.
  - apply substring_prefix_length. rewrite hex_length, Sum256_length. lia.
  - apply substring_prefix_chars, hex_digits, Sum256_range.
  - done.
Qed.

Section Namespace.
Context {U : Unstructured} {UL : UnstructuredLaws U}.

Definition in_scope (ns : string) (m m' : Manifest) : Prop :=
  m_Origin m' = m_Origin m /\
  same_except ["metadata"; "namespace"] (m_Unstructured m) (m_Unstructured m') /\
  GetNamespace (m_Unstructured m') =
    if IsClusterScoped (GetKind (m_Unstructured m)) then ""
    else if bool_decide (GetNamespace (m_Unstructured m) = "") then ns
    else GetNamespace (m_Unstructured m).

(** ApplyNamespace puts every object in its scope: a cluster-scoped object
    loses its namespace, a namespaced one keeps the namespace it has or gets the
    target, and nothing but metadata.namespace changes; running it again changes
    nothing. *)
Theorem apply_namespace_scopes ms ns :
  Forall (fun m => well_typed (m_Unstructured m)) ms ->
  Forall2 (in_scope ns) ms (ApplyNamespace ms ns) /\
  ApplyNamespace (ApplyNamespace ms ns) ns = ApplyNamespace ms ns.
Proof.
  intros Hw. unfold ApplyNamespace. split.
  - induction Hw as [|m ms Hm _ IH]; constructor; [|done].
    destruct (apply_namespace_one_spec ns _ Hm) as (_ & Hf & Hn). by split_and!.
  - induction Hw as [|m ms Hm _ IH]; [done|]. cbn [map m_Unstructured m_Origin].
    rewrite apply_namespace_one_idemp by done. f_equal. exact IH.
Qed.
End Namespace.

Section Parse.
Context {U : Unstructured} {Y : YAMLDecoder}.

(** Parse accepts a stream exactly when every document decodes and every
    non-empty one carries apiVersion and kind; it then returns the non-empty
    documents in order, tagged "additions" when annotated so and with the given
    origin otherwise. *)
Theorem parse_accepts_exactly raw fallback ms :
  Parse raw fallback = Ok ms <->
  exists us, decoded (yaml_documents raw) = Some us /\
    (forall u, u ∈ us -> size u ≠ 0 -> GetAPIVersion u ≠ "" /\ GetKind u ≠ "") /\
    ms = map (fun u => mkManifest u
                (if bool_decide (map_get (GetAnnotations u) OriginAnnotation = OriginAdditions)
                 then OriginAdditions else fallback))
           (filter (fun u => size u ≠ 0) us).
Proof.
  assert (forall us, forallb complete_doc (filter real_doc us) = true <->
    forall u, u ∈ us -> size u ≠ 0 -> GetAPIVersion u ≠ "" /\ GetKind u ≠ "") as Hc.
  { intros us. rewrite forallb_forall. split; intros H u Hu.
    - intros Hz. assert (complete_doc u = true) as Hd.
      { apply H, list_elem_of_In, list_elem_of_filter. split; [|done].
        unfold real_doc. apply Nat.eqb_neq in Hz. by rewrite Hz. }
      unfold complete_doc in Hd. rewrite andb_true_iff, !negb_true_iff, !bool_decide_eq_false in Hd. done.
    - apply list_elem_of_In, list_elem_of_filter in Hu as [Hr Hu]. unfold real_doc in Hr.
      destruct (Nat.eqb_spec (size u) 0); [done|]. destruct (H u Hu) as [Ha Hk]; [done|].
      unfold complete_doc. by rewrite !bool_decide_eq_false_2. }
  assert (forall us : list obj, filter real_doc us = filter (fun u => size u ≠ 0) us) as Hf.
  { intros us. apply list_filter_iff. intros u. unfold real_doc.
    by destruct (Nat.eqb_spec (size u) 0). }
  unfold Parse. pose proof (parse_loop_spec (yaml_documents raw) 0 fallback []) as H.
  split.
  - intros Hok. rewrite Hok in H. destruct H as (us & Hd & Hcd & ->). exists us.
    rewrite <- Hf. split_and!; [done|by apply Hc|done].
  - intros (us & Hd & Hcd & ->). apply Hc in Hcd. rewrite <- Hf.
    destruct (parse_loop _ _ _ _) as [ms'|e].
    + destruct H as (us' & Hd' & _ & ->). rewrite Hd in Hd'. by injection Hd' as <-.
    + rewrite Hd in H. congruence.
Qed.
End Parse.

(** ** Witness *)

Import RefInstances.

Lemma apply_namespace_scopes_witness :
  let role := vset (vset ∅ ["kind"] (VString "ClusterRole")) ["metadata"; "namespace"] (VString "stray") in
  let cm := vset ∅ ["kind"] (VString "ConfigMap") in
  let ms := [mkManifest role ""; mkManifest cm OriginAdditions] in
  (Forall2 (in_scope "demo") ms (ApplyNamespace ms "demo") /\
   ApplyNamespace (ApplyNamespace ms "demo") "demo" = ApplyNamespace ms "demo") /\
  map (fun m => GetNamespace (m_Unstructured m)) (ApplyNamespace ms "demo") = [""; "demo"].
Proof.
  intros role cm ms. split; [|by vm_compute].
  apply (apply_namespace_scopes ms "demo").
  repeat apply Forall_cons_2; try apply Forall_nil_2; apply well_typedb_sound; by vm_compute.
Defined.
