(* ===== verification/Order.v ===== *)
(** internal/deliver/order.go: the fixed kind priority, the apply and delete
    orders, and the version-independent identity keys. *)

From S2P Require Import Prelude Value Apimachinery Types Manifest Reference.

(** ** Definitions *)

Definition applyPriority (kind : string) : Z :=
  if bool_decide (kind = "Namespace") then 0
  else if bool_decide (kind = "CustomResourceDefinition") then 1
  else if bool_decide (kind ∈ ["ClusterRole"; "ClusterRoleBinding"; "Role"; "RoleBinding"; "ServiceAccount"]) then 2
  else if bool_decide (kind ∈ ["ValidatingWebhookConfiguration"; "MutatingWebhookConfiguration"]) then 4
  else 3.

(** identityNamespace: empty for cluster-scoped kinds. *)
Definition identityNamespace (kind ns : string) : string :=
  if IsClusterScoped kind then "" else ns.

Definition SortStatusForDelete (prev : list ResourceStatus) : list ResourceStatus :=
  SliceStable (fun a b => applyPriority (rs_Kind b) <? applyPriority (rs_Kind a))%Z prev.

Section Order.
Context {U : Unstructured}.

Definition SortForApply (ms : list Manifest) : list Manifest :=
  SliceStable (fun a b => applyPriority (GetKind (m_Unstructured a)) <?
                          applyPriority (GetKind (m_Unstructured b)))%Z ms.

(** [out[len-1-i] = applied[i]] for every i. *)
Definition SortForDelete (ms : list Manifest) : list Manifest := reverse (SortForApply ms).

(** [schema.ParseGroupVersion] with a failed parse replaced by the zero value. *)
Definition status_gv (apiVersion : string) : GroupVersion :=
  match ParseGroupVersion apiVersion with
  | (gv, None) => gv
  | (_, Some _) => mkGV "" ""
  end.

Definition ManifestFromStatus (rs : ResourceStatus) : Manifest :=
  let gv := status_gv (rs_APIVersion rs) in
  let u := SetGroupVersionKind ∅ (mkGVK (gv_Group gv) (gv_Version gv) (rs_Kind rs)) in
  let u := SetNamespace u (identityNamespace (rs_Kind rs) (rs_Namespace rs)) in
  let u := SetName u (rs_Name rs) in
  mkManifest u "".

Definition StatusIdentityKey (rs : ResourceStatus) : string :=
  let gv := status_gv (rs_APIVersion rs) in
  strings_Join [gv_Group gv; rs_Kind rs; identityNamespace (rs_Kind rs) (rs_Namespace rs); rs_Name rs] "/".

Definition ManifestIdentityKey (m : Manifest) : string :=
  let gvk := GetGroupVersionKind (m_Unstructured m) in
  strings_Join [gvk_Group gvk; gvk_Kind gvk;
                identityNamespace (gvk_Kind gvk) (GetNamespace (m_Unstructured m));
                GetName (m_Unstructured m)] "/".
End Order.

(** ** Ordering *)

(** A list in which the priority never decreases. *)
Definition ascending {A} (kind : A -> string) (l : list A) : Prop :=
  StronglySorted (fun a b => applyPriority (kind a) <= applyPriority (kind b))%Z l.

Definition descending {A} (kind : A -> string) (l : list A) : Prop :=
  StronglySorted (fun a b => applyPriority (kind b) <= applyPriority (kind a))%Z l.

(** The elements of one priority tier, in order. *)
Definition tier {A} (kind : A -> string) (p : Z) (l : list A) : list A :=
  filter (fun a => applyPriority (kind a) = p) l.

Lemma applyPriority_range k : (0 <= applyPriority k <= 4)%Z.
Proof. unfold applyPriority. repeat case_bool_decide; lia. Qed.

Lemma SortStatusForDelete_Permutation l : SortStatusForDelete l ≡ₚ l.
Proof. apply SliceStable_Permutation. Qed.

Lemma elem_of_SortStatusForDelete l x : x ∈ SortStatusForDelete l <-> x ∈ l.
Proof. apply elem_of_SliceStable. Qed.

Lemma neg_key_less (a b : Z) : (b <? a)%Z = (- a <? - b)%Z.
Proof. destruct (Z.ltb_spec b a), (Z.ltb_spec (- a) (- b)); lia. Qed.

Lemma SortStatusForDelete_descending l : descending rs_Kind (SortStatusForDelete l).
Proof.
  pose proof (SliceStable_sorted (fun x => - applyPriority (rs_Kind x))%Z _
    (fun x y => neg_key_less (applyPriority (rs_Kind x)) (applyPriority (rs_Kind y))) l) as H.
  unfold descending, SortStatusForDelete. induction H as [|a l' _ IH Ha]; constructor; [done|].
  eapply Forall_impl; [exact Ha|]. cbn. lia.
Qed.

Lemma SortStatusForDelete_tier p l : tier rs_Kind p (SortStatusForDelete l) = tier rs_Kind p l.
Proof.
  pose proof (SliceStable_filter (fun x => - applyPriority (rs_Kind x))%Z _
    (fun x y => neg_key_less (applyPriority (rs_Kind x)) (applyPriority (rs_Kind y))) (- p) l) as H.
  assert (forall l', tier rs_Kind p l' = filter (fun x => - applyPriority (rs_Kind x) = - p)%Z l') as E
    by (intros; apply list_filter_iff; intros; lia).
  by rewrite !E.
Qed.

Section OrderProps.
Context {U : Unstructured}.
Abbreviation mkind := (fun m => GetKind (m_Unstructured m)).

Lemma SortForApply_Permutation ms : SortForApply ms ≡ₚ ms.
Proof. apply SliceStable_Permutation. Qed.

Lemma elem_of_SortForApply ms m : m ∈ SortForApply ms <-> m ∈ ms.
Proof. apply elem_of_SliceStable. Qed.

Lemma SortForApply_length ms : length (SortForApply ms) = length ms.
Proof. apply SliceStable_length. Qed.

Lemma Forall_SortForApply (Q : Manifest -> Prop) ms : Forall Q ms -> Forall Q (SortForApply ms).
Proof. rewrite !Forall_forall. intros H m Hm. by apply H, elem_of_SortForApply. Qed.

Lemma SortForApply_ascending ms : ascending mkind (SortForApply ms).
Proof. by apply (SliceStable_sorted (fun m => applyPriority (mkind m))). Qed.

Lemma SortForApply_tier p ms : tier mkind p (SortForApply ms) = tier mkind p ms.
Proof. by apply (SliceStable_filter (fun m => applyPriority (mkind m))). Qed.
End OrderProps.

(** ** Identity keys *)

(** The inventory entry [st] names the object [u]. *)
Definition status_of {U : Unstructured} (u : obj) (st : ResourceStatus) : Prop :=
  rs_Kind st = GetKind u /\ rs_APIVersion st = GetAPIVersion u /\
  rs_Namespace st = GetNamespace u /\ rs_Name st = GetName u.

(** Every string has no separator, one, or at least two. *)
Lemma slash_cases s :
  no_slash s = true \/
  (exists g v, s = g +:+ "/" +:+ v /\ no_slash g = true /\ no_slash v = true) \/
  (exists a b c, s = a +:+ "/" +:+ b +:+ "/" +:+ c).
Proof.
  induction s as [|c s IH]; [by left|].
  destruct (Ascii.eqb slash c) eqn:Ec.
  - apply Ascii.eqb_eq in Ec as <-. right. destruct IH as [H|[(g & v & -> & _)|(a & b & d & ->)]].
    + left. by exists "", s.
    + right. by exists "", g, v.
    + right. by exists "", a, (b +:+ "/" +:+ d).
  - assert (forall t, no_slash (String c t) = no_slash t) as Hc
      by (intros; unfold no_slash; cbn [lacks]; by rewrite Ec).
    destruct IH as [H|[(g & v & -> & Hg & Hv)|(a & b & d & ->)]].
    + left. by rewrite Hc.
    + right; left. exists (String c g), v. by rewrite Hc.
    + right; right. by exists (String c a), b, d.
Qed.

Section IdentityProps.
Context {U : Unstructured} {UL : UnstructuredLaws U}.

Lemma status_gv_no_slash a :
  no_slash (gv_Group (status_gv a)) = true /\ no_slash (gv_Version (status_gv a)) = true.
Proof.
  unfold status_gv. destruct (slash_cases a) as [H|[(g & v & -> & Hg & Hv)|(x & y & z & ->)]].
  - by rewrite ParseGroupVersion_bare.
  - by rewrite ParseGroupVersion_pair.
  - by destruct (ParseGroupVersion_many x y z) as (gv & e & ->).
Qed.

(** Printing and parsing a group and version. *)
Lemma ParseGroupVersion_text g v :
  no_slash g = true -> no_slash v = true -> ParseGroupVersion (gv_text g v) = (mkGV g v, None).
Proof.
  intros Hg Hv. unfold gv_text. case_bool_decide; subst.
  - by apply ParseGroupVersion_bare.
  - by apply ParseGroupVersion_pair.
Qed.

(** An entry and the object it names have the same key. *)
Lemma status_of_key u o rs gv :
  status_of u rs -> ParseGroupVersion (GetAPIVersion u) = (gv, None) ->
  StatusIdentityKey rs = ManifestIdentityKey (mkManifest u o).
Proof.
  intros (Hk & Ha & Hns & Hn) Hp. unfold StatusIdentityKey, ManifestIdentityKey, status_gv. cbn.
  by rewrite Ha, Hp, (GetGroupVersionKind_ok u gv Hp), Hk, Hns, Hn.
Qed.

Lemma ManifestFromStatus_spec rs :
  let u := m_Unstructured (ManifestFromStatus rs) in
  let gv := status_gv (rs_APIVersion rs) in
  well_typed u /\ GetKind u = rs_Kind rs /\ GetName u = rs_Name rs /\
  GetNamespace u = identityNamespace (rs_Kind rs) (rs_Namespace rs) /\
  GetGroupVersionKind u = mkGVK (gv_Group gv) (gv_Version gv) (rs_Kind rs).
Proof.
  cbn. set (gv := status_gv _).
  destruct (SetGroupVersionKind_fresh (gv_Group gv) (gv_Version gv) (rs_Kind rs)) as (Hw & Hk & Ha).
  set (u0 := SetGroupVersionKind _ _) in *.
  destruct (SetNamespace_spec u0 (identityNamespace (rs_Kind rs) (rs_Namespace rs)) Hw) as (Hw1 & Hf1 & Hn1).
  set (u1 := SetNamespace _ _) in *.
  destruct (SetName_spec u1 (rs_Name rs) Hw1) as (Hw2 & Hf2 & Hn2). set (u2 := SetName _ _) in *.
  assert (GetKind u2 = rs_Kind rs) as Hk2.
  { rewrite (GetKind_ext u1 u2), (GetKind_ext u0 u1); auto. }
  split_and!; [done..| |].
  - by rewrite (GetNamespace_ext u1 u2) by auto.
  - rewrite <- Hk2. apply GetGroupVersionKind_ok.
    rewrite (GetAPIVersion_ext u1 u2), (GetAPIVersion_ext u0 u1), Ha by auto.
    destruct (status_gv_no_slash (rs_APIVersion rs)).
    unfold gv. rewrite ParseGroupVersion_text by done. by destruct (status_gv _).
Qed.
End IdentityProps.
