(* ===== verification/OrderProps.v ===== *)
(** Properties of internal/deliver/order.go: the apply and delete orders, and the
    identity keys that tie a rendered object to its inventory entry. *)

From S2P Require Import Prelude Value Apimachinery Types Manifest Order Reference.

(** ** Kinds by installation tier *)

Definition rbac_kind (k : string) : Prop :=
  k ∈ ["ClusterRole"; "ClusterRoleBinding"; "Role"; "RoleBinding"; "ServiceAccount"].
Definition webhook_kind (k : string) : Prop :=
  k ∈ ["ValidatingWebhookConfiguration"; "MutatingWebhookConfiguration"].

(** An object of kind [k] may be installed before one of kind [k']. *)
Definition installs_before (k k' : string) : Prop :=
  (k' = "Namespace" -> k = "Namespace") /\
  (k' = "CustomResourceDefinition" -> k ∈ ["Namespace"; "CustomResourceDefinition"]) /\
  (rbac_kind k' -> k ∈ ["Namespace"; "CustomResourceDefinition"] \/ rbac_kind k) /\
  (webhook_kind k -> webhook_kind k').

(** The tiers, by kind. *)
Lemma applyPriority_tiers k :
  (applyPriority k = 0%Z <-> k = "Namespace") /\
  (applyPriority k <= 1 <-> k ∈ ["Namespace"; "CustomResourceDefinition"])%Z /\
  (applyPriority k <= 2 <-> k ∈ ["Namespace"; "CustomResourceDefinition"] \/ rbac_kind k)%Z /\
  (4 <= applyPriority k <-> webhook_kind k)%Z.
Proof.
  unfold rbac_kind, webhook_kind. rewrite !elem_of_cons, !elem_of_nil. unfold applyPriority.
  repeat case_bool_decide; rewrite ?elem_of_cons, ?elem_of_nil in *; split_and!; (split; [intros ?|intros Hk]);
    try lia; try tauto; destruct_or?; subst; naive_solver.
Qed.

Lemma installs_before_spec k k' : (applyPriority k <= applyPriority k')%Z -> installs_before k k'.
Proof.
  intros Hp. destruct (applyPriority_tiers k) as (A0 & A1 & A2 & A4), (applyPriority_tiers k') as (B0 & B1 & B2 & B4).
  pose proof (applyPriority_range k). split_and!; intros Hk.
  - apply A0. apply B0 in Hk. lia.
  - apply A1. assert (k' ∈ ["Namespace"; "CustomResourceDefinition"]) as Hk' by (subst; by repeat constructor).
    apply B1 in Hk'. lia.
  - apply A2. assert (applyPriority k' <= 2)%Z by (apply B2; by right). lia.
  - apply B4. apply A4 in Hk. lia.
Qed.

Lemma StronglySorted_pair {A} (R : A -> A -> Prop) l1 a l2 b l3 :
  StronglySorted R (l1 ++ a :: l2 ++ b :: l3)%list -> R a b.
Proof.
  induction l1 as [|x l1 IH]; cbn; intros H; apply StronglySorted_inv in H as [H Hall]; [|auto].
  rewrite Forall_app, Forall_cons in Hall. tauto.
Qed.

Section Orders.
Context {U : Unstructured}.
Abbreviation mkind := (fun m => GetKind (m_Unstructured m)).

(** SortForApply rearranges the render so that whenever one object is
    applied before another, Namespaces come first, then CRDs, then RBAC and
    service accounts, and webhook configurations last; the render order is kept
    inside a tier, and SortForDelete is the exact reverse. *)
Theorem sort_for_apply_order ms :
  SortForApply ms ≡ₚ ms /\
  (forall l1 a l2 b l3, SortForApply ms = (l1 ++ a :: l2 ++ b :: l3)%list ->
     installs_before (mkind a) (mkind b)) /\
  (forall p, tier mkind p (SortForApply ms) = tier mkind p ms) /\
  reverse (SortForDelete ms) = SortForApply ms.
Proof.
  split_and!; [apply SortForApply_Permutation| |intros; apply SortForApply_tier|apply reverse_involutive].
  intros l1 a l2 b l3 E. apply installs_before_spec.
  pose proof (SortForApply_ascending ms) as H. unfold ascending in H. rewrite E in H.
  by apply StronglySorted_pair in H.
Qed.

(** The inventory is deleted in the opposite tier order (webhook
    configurations first, Namespaces last), no entry lost or duplicated; unlike
    SortForDelete, entries of one tier keep their recorded order. *)
Theorem status_delete_order prev :
  SortStatusForDelete prev ≡ₚ prev /\
  (forall l1 a l2 b l3, SortStatusForDelete prev = (l1 ++ a :: l2 ++ b :: l3)%list ->
     installs_before (rs_Kind b) (rs_Kind a)) /\
  (forall p, tier rs_Kind p (SortStatusForDelete prev) = tier rs_Kind p prev).
Proof.
  split_and!; [apply SortStatusForDelete_Permutation| |intros; apply SortStatusForDelete_tier].
  intros l1 a l2 b l3 E. apply installs_before_spec.
  pose proof (SortStatusForDelete_descending prev) as H. unfold descending in H. rewrite E in H.
  by apply StronglySorted_pair in H.
Qed.
End Orders.

(** ** Identity keys *)

Section Identity.
Context {U : Unstructured} {UL : UnstructuredLaws U}.

(** C32: rebuilding a minimal manifest from an inventory entry and taking its key
    gives the key of the entry, so prune addresses and compares one and the same
    object; the GET and DELETE built from the entry carry its kind, its name and
    the namespace of its scope. *)
Theorem identity_key_round_trip rs :
  ManifestIdentityKey (ManifestFromStatus rs) = StatusIdentityKey rs /\
  GetKind (m_Unstructured (ManifestFromStatus rs)) = rs_Kind rs /\
  GetName (m_Unstructured (ManifestFromStatus rs)) = rs_Name rs /\
  GetNamespace (m_Unstructured (ManifestFromStatus rs)) = identityNamespace (rs_Kind rs) (rs_Namespace rs).
Proof.
  destruct (ManifestFromStatus_spec rs) as (Hw & Hk & Hn & Hns & Hg).
  split_and!; [|done..]. unfold ManifestIdentityKey, StatusIdentityKey. rewrite Hg, Hn, Hns.
  cbn [gvk_Group gvk_Kind]. by destruct (IsClusterScoped (rs_Kind rs)) eqn:Es;
    unfold identityNamespace; rewrite Es.
Qed.

(** The inventory entry of an object that was just applied has the key of
    that object's manifest, so the next prune does not take it for an orphan;
    and the manifest rebuilt from the entry names the same object (same
    group, version and kind; same namespace and name once a cluster-scoped
    object carries no namespace). *)
Theorem recorded_entry_names_object u o rs gv :
  status_of u rs -> ParseGroupVersion (GetAPIVersion u) = (gv, None) ->
  StatusIdentityKey rs = ManifestIdentityKey (mkManifest u o) /\
  GetGroupVersionKind (m_Unstructured (ManifestFromStatus rs)) = GetGroupVersionKind u /\
  GetName (m_Unstructured (ManifestFromStatus rs)) = GetName u /\
  ((IsClusterScoped (GetKind u) = true -> GetNamespace u = "") ->
   GetNamespace (m_Unstructured (ManifestFromStatus rs)) = GetNamespace u).
Proof.
  intros Hr Hp. split; [by eapply status_of_key|]. destruct Hr as (Hk & Ha & Hns & Hn).
  destruct (ManifestFromStatus_spec rs) as (_ & _ & Hn' & Hns' & ->).
  rewrite (GetGroupVersionKind_ok u gv Hp), Hn', Hns'. unfold status_gv. rewrite Ha, Hp, Hk, Hns.
  split_and!; [done..|]. unfold identityNamespace. destruct (IsClusterScoped (GetKind u)); [|done].
  intros H. by rewrite H.
Qed.

(** Two inventory entries have the same key exactly when they name the same
    object: same API group (in whatever version), kind, name, and namespace when
    the kind is namespaced. *)
Theorem identity_key_injective rs rs' :
  Forall (fun s => no_slash s = true)
    [rs_Kind rs; rs_Namespace rs; rs_Name rs; rs_Kind rs'; rs_Namespace rs'; rs_Name rs'] ->
  StatusIdentityKey rs = StatusIdentityKey rs' <->
  gv_Group (status_gv (rs_APIVersion rs)) = gv_Group (status_gv (rs_APIVersion rs')) /\
  rs_Kind rs = rs_Kind rs' /\ rs_Name rs = rs_Name rs' /\
  (IsClusterScoped (rs_Kind rs) = true \/ rs_Namespace rs = rs_Namespace rs').
Proof.
  intros H. repeat (apply Forall_cons in H as [? H]).
  destruct (status_gv_no_slash (rs_APIVersion rs)) as [Hg _], (status_gv_no_slash (rs_APIVersion rs')) as [Hg' _].
  unfold StatusIdentityKey. split.
  - intros E. apply (strings_Join_inj slash) in E; [|done|..].
    + injection E as E1 E2 E3 E4. split_and!; [done..|]. rewrite E2 in *. unfold identityNamespace in E3.
      destruct (IsClusterScoped (rs_Kind rs')); auto.
    + unfold identityNamespace. destruct (IsClusterScoped (rs_Kind rs)); by repeat constructor.
    + unfold identityNamespace. destruct (IsClusterScoped (rs_Kind rs')); by repeat constructor.
  - intros (-> & -> & -> & E). unfold identityNamespace.
    destruct E as [-> | ->]; done.
Qed.
End Identity.

(** ** Witnesses *)

Import RefInstances.

Definition ex_crd_status : ResourceStatus :=
  mkResourceStatus "CustomResourceDefinition" "apiextensions.k8s.io/v1" "stray" "widgets.example.com" HealthHealthy None "".
Definition ex_deploy : obj :=
  vset (vset (vset (vset ∅ ["apiVersion"] (VString "apps/v1")) ["kind"] (VString "Deployment"))
    ["metadata"; "namespace"] (VString "demo")) ["metadata"; "name"] (VString "manager").
Definition ex_deploy_status (version : string) : ResourceStatus :=
  mkResourceStatus "Deployment" version "demo" "manager" HealthHealthy None "".

Lemma identity_key_round_trip_witness :
  ManifestIdentityKey (ManifestFromStatus ex_crd_status) = StatusIdentityKey ex_crd_status /\
  StatusIdentityKey ex_crd_status = "apiextensions.k8s.io/CustomResourceDefinition//widgets.example.com".
Proof. split; [apply (identity_key_round_trip ex_crd_status)|by vm_compute]. Defined.

Lemma recorded_entry_names_object_witness :
  StatusIdentityKey (ex_deploy_status "apps/v1") = ManifestIdentityKey (mkManifest ex_deploy "") /\
  GetGroupVersionKind (m_Unstructured (ManifestFromStatus (ex_deploy_status "apps/v1"))) = GetGroupVersionKind ex_deploy.
Proof.
  destruct (recorded_entry_names_object ex_deploy "" (ex_deploy_status "apps/v1") (mkGV "apps" "v1"))
    as (Hk & Hg & _); [by vm_compute|by vm_compute|]. split; [exact Hk|exact Hg].
Defined.

(** The key ignores the version. *)
Lemma identity_key_injective_witness :
  StatusIdentityKey (ex_deploy_status "apps/v1") = StatusIdentityKey (ex_deploy_status "apps/v1beta1").
Proof.
  apply (identity_key_injective (ex_deploy_status "apps/v1") (ex_deploy_status "apps/v1beta1"));
    [by repeat constructor|]. split_and!; [by vm_compute|done|done|by right].
Defined.
