(* ===== verification/Boundary.v ===== *)
(** The boundary of the operator: the Kubernetes API servers, the event recorder
    and the clock.  None of it is code of the repository, so every call is an
    operation of the class [Boundary] over an abstract environment state; theorems
    that do not assume a lawful environment hold for any behaviour of it, failures
    and interference by other writers included.

    [M A] is a computation of the operator: it threads the environment and returns
    the calls it made, in order, with their results. *)

From S2P Require Import Prelude Value Apimachinery Types Clients.

(** ** Clients *)

(** A [client.Client]: the manager's, or one built for a shoot from a REST
    configuration. *)
Inductive client := SeedClient | ShootClient (cfg : RESTConfig).

Definition on_seed (c : client) : bool := match c with SeedClient => true | ShootClient _ => false end.

(** [client.ObjectKeyFromObject]. *)
Definition ObjectKeyFromObject `{Unstructured} (u : obj) : NamespacedName :=
  mkNN (GetNamespace u) (GetName u).

(** ** The environment *)

Class Boundary := {
  env : Type;
  (** [c.Get(ctx, key, live)] with [live]'s GVK set *)
  client_Get : client -> GroupVersionKind -> NamespacedName -> env -> result obj * env;
  (** server-side apply with ForceOwnership: [u]'s content after the call, and the error *)
  client_Patch : client -> string -> obj -> env -> (obj * option error) * env;
  client_Delete : client -> obj -> env -> option error * env;
  (** the DualDeploymentOperator objects; an update leaves in the object what the
      server returned *)
  cr_Get : NamespacedName -> env -> result DualDeploymentOperator * env;
  cr_Update : DualDeploymentOperator -> env -> (DualDeploymentOperator * option error) * env;
  cr_StatusUpdate : DualDeploymentOperator -> env -> (DualDeploymentOperator * option error) * env;
  secret_Get : NamespacedName -> env -> result Secret * env;
  (** [client.New(cfg, ...)] *)
  client_New : RESTConfig -> env -> option error * env;
  (** [Recorder.Eventf]: event type, reason, action, note *)
  recorder_Eventf : string -> string -> string -> string -> env -> env;
  time_Now : env -> Time * env;
}.

(** What the source package does outside the API servers: its scratch
    directories, its requests to chart registries and git remotes, each with the
    basic-auth credentials it carries, if any, and the renders it runs. *)
Abbreviation basic_auth := (option (string * string)).

(** [plumbing.Reference]: its name and its hash in hex. *)
Record Reference := mkReference { ref_Name : string; ref_Hash : string }.

Inductive source_action :=
| ActMkdirTemp (r : result string)
| ActRemoveAll (dir : string)
| ActPull (auth : basic_auth) (ref version dest : string) (e : option error)
| ActResolveDigest (auth : basic_auth) (ref : string) (r : result string)
| ActBuild (auth : basic_auth) (chartDir : string) (e : option error)
| ActClone (auth : basic_auth) (dir url refName : string) (singleBranch : bool) (depth : Z) (e : option error)
| ActInit (dir : string) (e : option error)
| ActRemote (dir url : string) (e : option error)
| ActFetch (auth : basic_auth) (dir url : string) (refSpecs : list string) (e : option error)
| ActCheckout (dir hash : string) (e : option error)
| ActLsRemote (auth : basic_auth) (url : string) (r : result (list Reference))
| ActInstall (releaseName namespace : string) (values : obj) (r : result string)
| ActKustomize (root : string) (e : option error).

(** A call and its result; for a status update also the object as the call left it. *)
Inductive event :=
| EvGet (c : client) (gvk : GroupVersionKind) (key : NamespacedName) (r : result obj)
| EvPatch (c : client) (sent : obj) (e : option error)
| EvDelete (c : client) (sent : obj) (e : option error)
| EvCRGet (key : NamespacedName) (r : result DualDeploymentOperator)
| EvCRUpdate (sent : DualDeploymentOperator) (e : option error)
| EvStatusUpdate (sent left : DualDeploymentOperator) (e : option error)
| EvSecretGet (key : NamespacedName) (r : result Secret)
| EvClientNew (cfg : RESTConfig) (e : option error)
| EvRecord (type reason action note : string)
| EvSource (a : source_action).

(** ** Computations *)

Section Computations.
Context {B : Boundary}.

Definition M (A : Type) : Type := env -> A * list event * env.

Definition ret {A} (a : A) : M A := fun s => (a, [], s).

Definition bind {A C} (m : M A) (k : A -> M C) : M C := fun s =>
  let '(a, t, s') := m s in
  let '(c, t', s'') := k a s' in
  (c, (t ++ t')%list, s'').

(** The calls. *)
Definition Get (c : client) (gvk : GroupVersionKind) (key : NamespacedName) : M (result obj) :=
  fun s => let '(r, s') := client_Get c gvk key s in (r, [EvGet c gvk key r], s').
Definition Patch (c : client) (fieldManager : string) (u : obj) : M (obj * option error) :=
  fun s => let '(r, s') := client_Patch c fieldManager u s in (r, [EvPatch c u (snd r)], s').
Definition DeleteObj (c : client) (u : obj) : M (option error) :=
  fun s => let '(e, s') := client_Delete c u s in (e, [EvDelete c u e], s').
Definition GetCR (key : NamespacedName) : M (result DualDeploymentOperator) :=
  fun s => let '(r, s') := cr_Get key s in (r, [EvCRGet key r], s').
Definition UpdateCR (cr : DualDeploymentOperator) : M (DualDeploymentOperator * option error) :=
  fun s => let '(r, s') := cr_Update cr s in (r, [EvCRUpdate cr (snd r)], s').
Definition StatusUpdate (cr : DualDeploymentOperator) : M (DualDeploymentOperator * option error) :=
  fun s => let '(r, s') := cr_StatusUpdate cr s in (r, [EvStatusUpdate cr (fst r) (snd r)], s').
Definition GetSecret (key : NamespacedName) : M (result Secret) :=
  fun s => let '(r, s') := secret_Get key s in (r, [EvSecretGet key r], s').
Definition NewClient (cfg : RESTConfig) : M (option error) :=
  fun s => let '(e, s') := client_New cfg s in (e, [EvClientNew cfg e], s').
Definition Eventf (type reason action note : string) : M unit :=
  fun s => (tt, [EvRecord type reason action note], recorder_Eventf type reason action note s).
Definition Now : M Time := fun s => let '(t, s') := time_Now s in (t, [], s').

(** ** Postconditions

    [post m Q]: whatever the environment does, [Q] holds of the result and of
    the calls made. *)
Definition post {A} (m : M A) (Q : A -> list event -> Prop) : Prop :=
  forall s, let '(a, t, _) := m s in Q a t.

Lemma post_ret {A} (a : A) (Q : A -> list event -> Prop) : Q a [] -> post (ret a) Q.
Proof. intros H s. exact H. Qed.

Lemma post_bind {A C} (m : M A) (k : A -> M C) P (Q : C -> list event -> Prop) :
  post m P -> (forall a t, P a t -> post (k a) (fun c t' => Q c (t ++ t')%list)) -> post (bind m k) Q.
Proof.
  intros Hm Hk s. unfold bind. specialize (Hm s). destruct (m s) as [[a t] s'].
  specialize (Hk a t Hm s'). destruct (k a s') as [[c t'] s'']. exact Hk.
Qed.

Lemma post_mono {A} (m : M A) (P Q : A -> list event -> Prop) :
  post m P -> (forall a t, P a t -> Q a t) -> post m Q.
Proof. intros Hm H s. specialize (Hm s). destruct (m s) as [[a t] s']. auto. Qed.

Lemma post_all {A} (m : M A) (Q : A -> list event -> Prop) : (forall a t, Q a t) -> post m Q.
Proof. intros H s. destruct (m s) as [[a t] s']. apply H. Qed.

Lemma post_and {A} (m : M A) (P Q : A -> list event -> Prop) :
  post m P -> post m Q -> post m (fun a t => P a t /\ Q a t).
Proof. intros Hp Hq s. specialize (Hp s). specialize (Hq s). destruct (m s) as [[a t] s']. auto. Qed.

Lemma post_run {A} (m : M A) Q s a t s' : post m Q -> m s = (a, t, s') -> Q a t.
Proof. intros H E. specialize (H s). by rewrite E in H. Qed.

(** A run of two computations, taken apart. *)
Lemma bind_run {A C} (m : M A) (k : A -> M C) s c t s' :
  bind m k s = (c, t, s') -> exists a t1 s1 t2, m s = (a, t1, s1) /\ k a s1 = (c, t2, s') /\ t = (t1 ++ t2)%list.
Proof.
  unfold bind. destruct (m s) as [[a t1] s1]. destruct (k a s1) as [[c' t2] s2] eqn:E2. intros [= <- <- <-].
  by exists a, t1, s1, t2.
Qed.

Lemma post_Get c g k : post (Get c g k) (fun r t => t = [EvGet c g k r]).
Proof. intros s. unfold Get. by destruct (client_Get c g k s). Qed.
Lemma post_Patch c f u :
  post (Patch c f u) (fun r t => t = [EvPatch c u (snd r)] /\ exists s, r = fst (client_Patch c f u s)).
Proof.
  intros s. unfold Patch. destruct (client_Patch c f u s) as [r s'] eqn:E. split; [done|].
  exists s. by rewrite E.
Qed.
Lemma post_DeleteObj c u : post (DeleteObj c u) (fun e t => t = [EvDelete c u e]).
Proof. intros s. unfold DeleteObj. by destruct (client_Delete c u s). Qed.
Lemma post_GetCR k : post (GetCR k) (fun r t => t = [EvCRGet k r]).
Proof. intros s. unfold GetCR. by destruct (cr_Get k s). Qed.
Lemma post_UpdateCR cr : post (UpdateCR cr) (fun r t => t = [EvCRUpdate cr (snd r)]).
Proof. intros s. unfold UpdateCR. by destruct (cr_Update cr s). Qed.
Lemma post_StatusUpdate cr : post (StatusUpdate cr) (fun r t => t = [EvStatusUpdate cr (fst r) (snd r)]).
Proof. intros s. unfold StatusUpdate. by destruct (cr_StatusUpdate cr s). Qed.
Lemma post_GetSecret k : post (GetSecret k) (fun r t => t = [EvSecretGet k r]).
Proof. intros s. unfold GetSecret. by destruct (secret_Get k s). Qed.
Lemma post_NewClient cfg : post (NewClient cfg) (fun e t => t = [EvClientNew cfg e]).
Proof. intros s. unfold NewClient. by destruct (client_New cfg s). Qed.
Lemma post_Eventf a b c d : post (Eventf a b c d) (fun _ t => t = [EvRecord a b c d]).
Proof. by intros s. Qed.
Lemma post_Now : post Now (fun _ t => t = []).
Proof. intros s. unfold Now. by destruct (time_Now s). Qed.
End Computations.

Notation "'do' x <- m ; k" := (bind m (fun x => k))
  (at level 10, x pattern, m at level 100, k at level 200) : ddo_scope.

#[export] Hint Resolve post_Get post_Patch post_DeleteObj post_GetCR post_UpdateCR post_StatusUpdate
  post_GetSecret post_NewClient post_Eventf post_Now : ddo.

(** One step of symbolic execution of a goal [post m Q]. *)
Ltac step :=
  lazymatch goal with
  | |- post (ret _) _ => apply post_ret
  | |- post (bind (ret _) _) _ =>
      eapply post_bind; [apply (post_ret _ (fun a t => a = _ /\ t = [])); split; reflexivity
                        |intros ? ? [-> ->]; cbn beta iota]
  | |- post (bind _ _) _ => eapply post_bind; [solve [eauto with ddo]|cbn beta; intros ? ? ?]
  | |- post (match ?x with _ => _ end) _ => destruct x eqn:?
  end; simplify_eq/=.
