(* ===== verification/GoPaths.v ===== *)
(** The Go standard library as internal/source uses it: [strings], Unix
    [path/filepath], and [net/url] as a class.

    The string and path functions are executable definitions; [net/url], whose
    grammar checks differ between Go releases, is the class [NetURL] with the
    documented shape of a URL as its law. *)

From Stdlib Require Import Ascii.
From S2P Require Import Prelude Value Sha256.

(** ** strings *)

Definition HasPrefix (s prefix : string) : bool := String.prefix prefix s.

Fixpoint string_drop (n : nat) (s : string) : string :=
  match n, s with
  | S n', String _ s' => string_drop n' s'
  | _, _ => s
  end.

Definition TrimPrefix (s prefix : string) : string :=
  if HasPrefix s prefix then string_drop (String.length prefix) s else s.

Fixpoint HasSuffix (s suffix : string) : bool :=
  bool_decide (s = suffix) || match s with String _ s' => HasSuffix s' suffix | EmptyString => false end.

Fixpoint TrimSuffix (s suffix : string) : string :=
  if bool_decide (s = suffix) then ""
  else match s with String c s' => String c (TrimSuffix s' suffix) | EmptyString => "" end.

(** [strings.Cut]: before and after the first occurrence, and whether there is one. *)
Fixpoint strings_Cut (s sep : string) : string * string * bool :=
  if String.prefix sep s then ("", string_drop (String.length sep) s, true)
  else match s with
       | EmptyString => ("", "", false)
       | String c s' => let '(before, after, found) := strings_Cut s' sep in (String c before, after, found)
       end.

(** [strings.Replace(s, old, new, 1)]. *)
Definition Replace1 (s old new : string) : string :=
  let '(before, after, found) := strings_Cut s old in
  if found then before +:+ new +:+ after else s.

(** [strings.Trim(s, "/")]. *)
Fixpoint trim_left_slash (s : string) : string :=
  match s with
  | String c s' => if Ascii.eqb c slash then trim_left_slash s' else s
  | EmptyString => ""
  end.

Fixpoint trim_right_slash (s : string) : string :=
  match s with
  | EmptyString => ""
  | String c s' =>
      let r := trim_right_slash s' in
      if bool_decide (r = "") && Ascii.eqb c slash then "" else String c r
  end.

Definition Trim_slash (s : string) : string := trim_right_slash (trim_left_slash s).

(** ** path/filepath on Unix *)

(** The elements between separators, empty ones included. *)
Fixpoint split_slash (s : string) : list string :=
  match s with
  | EmptyString => [""]
  | String c s' =>
      if Ascii.eqb c slash then "" :: split_slash s'
      else match split_slash s' with
           | w :: ws => String c w :: ws
           | [] => [String c ""]
           end
  end.

(** One path element against the elements kept so far, last one first. *)
Definition clean_step (rooted : bool) (kept : list string) (e : string) : list string :=
  if bool_decide (e = "") || bool_decide (e = ".") then kept
  else if bool_decide (e = "..") then
    match kept with
    | [] => if rooted then [] else [".."]
    | k :: kept' => if bool_decide (k = "..") then ".." :: kept else kept'
    end
  else e :: kept.

Definition Clean (p : string) : string :=
  let rooted := HasPrefix p "/" in
  let out := strings_Join (reverse (foldl (clean_step rooted) [] (split_slash p))) "/" in
  if rooted then "/" +:+ out else if bool_decide (out = "") then "." else out.

Fixpoint filepath_Join (elems : list string) : string :=
  match elems with
  | [] => ""
  | e :: rest => if bool_decide (e = "") then filepath_Join rest else Clean (strings_Join elems "/")
  end.

Example join_cleans : filepath_Join ["/tmp/x/"; ""; "./a//b/../c"] = "/tmp/x/a/c".
Proof. by vm_compute. Qed.
Example join_climbs : filepath_Join ["/tmp/x"; ""; "../../etc"] = "/etc".
Proof. by vm_compute. Qed.

(** ** net/url *)

Class NetURL := {
  URL : Type;
  url_Parse : string -> result URL;
  u_hasUser : URL -> bool;              (** [u.User != nil] *)
  u_Host : URL -> string;
  u_Path : URL -> string;
  u_QueryGet : URL -> string -> string; (** [u.Query().Get(key)] *)
  u_SetRawQuery : URL -> string -> URL;
  u_SetPath : URL -> string -> URL;
  u_String : URL -> string;
}.

Definition at_sign : ascii := Ascii.ascii_of_N 64.

(** What ends the authority of a URL: its end, a path, a query or a fragment. *)
Definition ends_authority (rest : string) : bool :=
  match rest with
  | EmptyString => true
  | String c _ => Ascii.eqb c slash || Ascii.eqb c "?"%char || Ascii.eqb c "#"%char
  end.

(** "The general form represented is [scheme:][//[userinfo@]host][/]path[?query][#fragment]". *)
Class NetURLLaws (N : NetURL) : Prop := {
  parse_userinfo user host rest u :
    lacks slash user = true -> lacks "?"%char user = true -> lacks "#"%char user = true ->
    url_Parse ("https://" +:+ user +:+ String at_sign (host +:+ rest)) = Ok u -> u_hasUser u = true;
}.

(** ** Lemmas *)

Lemma prefix_app a b : String.prefix a (a +:+ b) = true.
Proof.
  induction a as [|x a IH]; [by destruct b|]. rewrite string_app_cons. cbn.
  destruct (ascii_dec x x); [exact IH|done].
Qed.

Lemma string_drop_app a b : string_drop (String.length a) (a +:+ b) = b.
Proof. induction a as [|x a IH]; [done|]. rewrite string_app_cons. exact IH. Qed.

(** A prefix that is found at once. *)
Lemma Cut_head sep s : strings_Cut (sep +:+ s) sep = ("", s, true).
Proof.
  pose proof (prefix_app sep s) as Hp. pose proof (string_drop_app sep s) as Hd.
  destruct (sep +:+ s); cbn [strings_Cut]; by rewrite Hp, Hd.
Qed.

Lemma Replace1_head old new s : Replace1 (old +:+ s) old new = new +:+ s.
Proof. unfold Replace1. by rewrite Cut_head. Qed.

Lemma Cut_skip c sep a s :
  lacks c a = true -> strings_Cut (a +:+ (String c sep +:+ s)) (String c sep) = (a, s, true).
Proof.
  induction a as [|d a IH]; intros Ha; [exact (Cut_head (String c sep) s)|]. cbn [lacks] in Ha. apply andb_prop in Ha as [Hd Ha].
  rewrite (string_app_cons d). cbn [strings_Cut String.prefix].
  destruct (ascii_dec c d) as [->|]; [by rewrite Ascii.eqb_refl in Hd|]. by rewrite IH.
Qed.

(** Without the first character of the separator there is nothing to cut. *)
Lemma Cut_lacks c sep s : lacks c s = true -> strings_Cut s (String c sep) = (s, "", false).
Proof.
  induction s as [|d s IH]; [done|]. cbn. intros [Hd Hs]%andb_prop.
  destruct (ascii_dec c d) as [->|]; [by rewrite Ascii.eqb_refl in Hd|]. by rewrite IH.
Qed.

Lemma TrimPrefix_app p s : TrimPrefix (p +:+ s) p = s.
Proof. unfold TrimPrefix, HasPrefix. by rewrite prefix_app, string_drop_app. Qed.

Lemma HasPrefix_split s p : HasPrefix s p = true -> s = p +:+ TrimPrefix s p.
Proof.
  unfold TrimPrefix. intros H. rewrite H. unfold HasPrefix in H. revert s H.
  induction p as [|x p IH]; intros s H; [by destruct s|].
  destruct s as [|y s]; [done|]. cbn in H. destruct (ascii_dec x y) as [->|]; [|done].
  rewrite string_app_cons. cbn. f_equal. by apply IH.
Qed.

(** *** Paths *)

Lemma split_slash_app a b : split_slash (a +:+ String slash b) = (split_slash a ++ split_slash b)%list.
Proof.
  induction a as [|c a IH]; [done|]. rewrite string_app_cons. cbn [split_slash]. rewrite IH.
  destruct (Ascii.eqb c slash); [done|]. destruct (split_slash a) eqn:E; [|done].
  exfalso. clear -E. destruct a; cbn in E; [done|]. repeat case_match; done.
Qed.

(** The path never climbs above where it starts, [depth] elements further down. *)
Fixpoint confined (depth : nat) (es : list string) : bool :=
  match es with
  | [] => true
  | e :: es' =>
      if bool_decide (e = "") || bool_decide (e = ".") then confined depth es'
      else if bool_decide (e = "..") then match depth with O => false | S d => confined d es' end
      else confined (S depth) es'
  end.

(** Cleaning a confined path keeps the elements below it. *)
Lemma clean_confined below kept es :
  Forall (fun e => e ≠ "..") kept -> confined (length kept) es = true ->
  exists kept', foldl (clean_step true) (kept ++ below)%list es = (kept' ++ below)%list /\
    Forall (fun e => e ≠ "..") kept'.
Proof.
  revert kept. induction es as [|e es IH]; intros kept Hk Hc; [by exists kept|]. cbn in Hc |- *.
  unfold clean_step at 2. destruct (bool_decide (e = "") || bool_decide (e = ".")); [by apply IH|].
  case_bool_decide as He.
  - destruct kept as [|k kept]; [done|]. apply Forall_cons in Hk as [Hk Hks]. cbn in Hc |- *.
    rewrite bool_decide_eq_false_2 by done. by apply IH.
  - apply (IH (e :: kept)); [by constructor|done].
Qed.

(** A path in canonical absolute form: no empty, [.] or [..] elements. *)
Definition plain (e : string) : Prop := e ≠ "" /\ e ≠ "." /\ e ≠ ".." /\ lacks slash e = true.
Definition abs_path (es : list string) : string := "/" +:+ strings_Join es "/".

Lemma split_plain e : lacks slash e = true -> split_slash e = [e].
Proof.
  induction e as [|c e IH]; [done|]. cbn [split_slash lacks]. intros [Hc He]%andb_prop.
  rewrite IH by done. rewrite Ascii.eqb_sym. by destruct (Ascii.eqb slash c).
Qed.

Lemma split_Join es : es ≠ [] -> Forall plain es -> split_slash (strings_Join es "/") = es.
Proof.
  induction es as [|e [|e' es] IH]; intros Hne Hf; [done| |].
  - apply Forall_cons in Hf as [(_ & _ & _ & Hl) _]. by apply split_plain.
  - apply Forall_cons in Hf as [(_ & _ & _ & Hl) Hf].
    change (split_slash (e +:+ String slash (strings_Join (e' :: es) "/")) = e :: e' :: es).
    rewrite split_slash_app, split_plain, IH by done. done.
Qed.

Lemma clean_plain kept es : Forall plain es -> foldl (clean_step true) kept es = (reverse es ++ kept)%list.
Proof.
  revert kept. induction es as [|e es IH]; intros kept Hf; [done|].
  apply Forall_cons in Hf as [(H1 & H2 & H3 & _) Hf]. cbn [foldl]. unfold clean_step at 2.
  rewrite !bool_decide_eq_false_2 by done. cbn [orb]. rewrite IH by done.
  by rewrite reverse_cons, <- (assoc_L (++)%list).
Qed.

(** [filepath.Join(dir, a, b)] stays below [dir] when [a/b] never climbs above
    its start. *)
Lemma Join_confined ds a b :
  ds ≠ [] -> Forall plain ds -> confined 0 (split_slash a ++ split_slash b)%list = true ->
  exists es, filepath_Join [abs_path ds; a; b] = abs_path (ds ++ es)%list.
Proof.
  intros Hne Hds Hc. unfold filepath_Join at 1.
  rewrite bool_decide_eq_false_2 by done.
  change (strings_Join [abs_path ds; a; b] "/")
    with (String slash ((strings_Join ds "/") +:+ String slash (a +:+ String slash b))).
  unfold Clean. set (p := String slash _).
  change (HasPrefix p "/") with (HasPrefix (String slash "" +:+
    (strings_Join ds "/" +:+ String slash (a +:+ String slash b))) (String slash "")).
  unfold HasPrefix. rewrite prefix_app. change (split_slash p) with ("" :: split_slash
    (strings_Join ds "/" +:+ String slash (a +:+ String slash b))).
  rewrite split_slash_app, split_Join, split_slash_app by done.
  change (foldl (clean_step true) [] ("" :: ds ++ split_slash a ++ split_slash b)%list)
    with (foldl (clean_step true) [] (ds ++ split_slash a ++ split_slash b)%list).
  rewrite foldl_app, (clean_plain [] ds) by done. rewrite app_nil_r.
  destruct (clean_confined (reverse ds) [] _ (Forall_nil_2 _) Hc) as (kept & Hk & _).
  cbn [app] in Hk. rewrite Hk. exists (reverse kept). by rewrite reverse_app, reverse_involutive.
Qed.
