(* ===== verification/TestUtils.v ===== *)
(** test/utils/utils.go: the helpers of the end-to-end tests.  Commands, the file
    system and the process environment are parameters. *)

From Stdlib Require Import Ascii.
From S2P Require Import Prelude Value GoPaths.
#[local] Open Scope list_scope.

(** ** Go strings *)

Definition newline : ascii := ascii_of_N 10.
Definition carriage_return : string := String (ascii_of_N 13) "".

Definition strings_Contains (s sub : string) : bool := let '(_, _, found) := strings_Cut s sub in found.

(** [strings.ReplaceAll] for a non-empty [old]: [skip] bytes of a match are still to pass. *)
Fixpoint replace_from (skip : nat) (s old new : string) : string :=
  match s with
  | EmptyString => EmptyString
  | String c s' =>
      match skip with
      | S k => replace_from k s' old new
      | O => if String.prefix old s then new +:+ replace_from (String.length old - 1) s' old new
             else String c (replace_from 0 s' old new)
      end
  end.
Definition strings_ReplaceAll (s old new : string) : string := replace_from 0 s old new.

(** The pieces between the newlines. *)
Fixpoint split_newline (s : string) : list string :=
  match s with
  | EmptyString => [""]
  | String c s' =>
      if Ascii.eqb c newline then "" :: split_newline s'
      else match split_newline s' with
           | e :: es => String c e :: es
           | [] => [String c ""]
           end
  end.

(** [bufio.MaxScanTokenSize] *)
Definition MaxScanTokenSize : N := 65536.

Fixpoint scan_loop (pieces : list string) : list string :=
  match pieces with
  | [] => []
  | p :: rest =>
      if (MaxScanTokenSize <=? N.of_nat (String.length p))%N then []
      else match rest with
           | [] => if bool_decide (p = "") then [] else [TrimSuffix p carriage_return]
           | _ => TrimSuffix p carriage_return :: scan_loop rest
           end
  end.

(** The tokens of a [bufio.Scanner] with [ScanLines]: no empty line at the end, no
    carriage return, and an early end at a line that is too long. *)
Definition ScanLines (s : string) : list string := scan_loop (split_newline s).

(** ** Pure helpers *)

Definition GetNonEmptyLines (output : string) : list string :=
  List.filter (fun element => negb (bool_decide (element = ""))) (split_newline output).

(** The lines of the target, each without its comment prefix. *)
Definition uncommented (target prefix : string) : string :=
  strings_Join (map (fun line => TrimPrefix line prefix) (ScanLines target)) (String newline "").

(** ** The process *)

Record Cmd := mkCmd { Args : list string; Cmd_Dir : string; Cmd_Env : list string }.
Definition exec_Command (name : string) (args : list string) : Cmd := mkCmd (name :: args) "" [].

Class Shell := {
  shell : Type;
  os_Getwd : shell -> string * option error;
  os_Chdir : string -> shell -> option error * shell;
  os_Environ : shell -> list string;
  os_LookupEnv : string -> shell -> option string;
  CombinedOutput : Cmd -> shell -> (string * option error) * shell;
  os_ReadFile : string -> shell -> result string;
  os_WriteFile : string -> string -> shell -> option error * shell;
}.

Section Utils.
Context {Sh : Shell}.

Definition GetProjectDir (s : shell) : string * option error :=
  let '(wd, err) := os_Getwd s in
  match err with
  | Some err => (wd, Some (EWrap "failed to get current working directory: " err ""))
  | None => (strings_ReplaceAll wd "/test/e2e" "", None)
  end.

(** A failing Chdir is only logged. *)
Definition Run (cmd : Cmd) (s : shell) : (string * option error) * shell :=
  let '(dir, err) := GetProjectDir s in
  match err with
  | Some err => (("", Some err), s)
  | None =>
      let '(_, s) := os_Chdir dir s in
      let cmd := mkCmd (Args cmd) dir (os_Environ s ++ ["GO111MODULE=on"]) in
      let command := strings_Join (Args cmd) " " in
      let '((output, err), s) := CombinedOutput cmd s in
      match err with
      | Some err => ((output, Some (EWrap (quote command +:+ " failed with error " +:+ quote output +:+ ": ") err "")), s)
      | None => ((output, None), s)
      end
  end.

Definition certmanagerVersion : string := "v1.20.2".
Definition certmanagerURL : string :=
  "https://github.com/cert-manager/cert-manager/releases/download/" +:+ certmanagerVersion +:+ "/cert-manager.yaml".

(** Commands run one after the other, their errors logged as warnings. *)
Fixpoint run_all (cmds : list Cmd) (s : shell) : shell :=
  match cmds with
  | [] => s
  | cmd :: cmds' => let '(_, s) := Run cmd s in run_all cmds' s
  end.

Definition kubeSystemLeases : list string :=
  ["cert-manager-cainjector-leader-election"; "cert-manager-controller"].

Definition UninstallCertManager (s : shell) : shell :=
  run_all (exec_Command "kubectl" ["delete"; "-f"; certmanagerURL] ::
    map (fun lease => exec_Command "kubectl"
      ["delete"; "lease"; lease; "-n"; "kube-system"; "--ignore-not-found"; "--force"; "--grace-period=0"]) kubeSystemLeases) s.

Definition InstallCertManager (s : shell) : option error * shell :=
  let '((_, err), s) := Run (exec_Command "kubectl" ["apply"; "-f"; certmanagerURL]) s in
  match err with
  | Some err => (Some err, s)
  | None =>
      let '((_, err), s) := Run (exec_Command "kubectl" ["wait"; "deployment.apps/cert-manager-webhook";
        "--for"; "condition=Available"; "--namespace"; "cert-manager"; "--timeout"; "5m"]) s in
      (err, s)
  end.

Definition certManagerCRDs : list string :=
  ["certificates.cert-manager.io"; "issuers.cert-manager.io"; "clusterissuers.cert-manager.io";
   "certificaterequests.cert-manager.io"; "orders.acme.cert-manager.io"; "challenges.acme.cert-manager.io"].

Definition IsCertManagerCRDsInstalled (s : shell) : bool * shell :=
  let '((output, err), s) := Run (exec_Command "kubectl" ["get"; "crds"]) s in
  match err with
  | Some _ => (false, s)
  | None =>
      let crdList := GetNonEmptyLines output in
      (existsb (fun crd => existsb (fun line => strings_Contains line crd) crdList) certManagerCRDs, s)
  end.

Definition LoadImageToKindClusterWithName (name : string) (s : shell) : option error * shell :=
  let cluster := default "kind" (os_LookupEnv "KIND_CLUSTER" s) in
  let kindBinary := default "kind" (os_LookupEnv "KIND" s) in
  let '((_, err), s) := Run (exec_Command kindBinary ["load"; "docker-image"; name; "--name"; cluster]) s in
  (err, s).

Definition UncommentCode (filename target prefix : string) (s : shell) : option error * shell :=
  match os_ReadFile filename s with
  | Err err => (Some (EWrap ("failed to read file " +:+ quote filename +:+ ": ") err ""), s)
  | Ok content =>
      let '(before, after, found) := strings_Cut content target in
      if negb found then (Some (ENew ("unable to find the code " +:+ quote target +:+ " to be uncommented")), s)
      else
        match ScanLines target with
        | [] => (None, s)
        | _ =>
            let '(err, s) := os_WriteFile filename (before +:+ uncommented target prefix +:+ after) s in
            match err with
            | Some err => (Some (EWrap ("failed to write file " +:+ quote filename +:+ ": ") err ""), s)
            | None => (None, s)
            end
        end
  end.
End Utils.

(** ** Uncommenting *)

Lemma split_newline_app a b : lacks newline a = true -> split_newline (a +:+ String newline b) = a :: split_newline b.
Proof.
  induction a as [|c a IH]; [done|]. rewrite string_app_cons. cbn [split_newline lacks]. intros [Hc Ha]%andb_prop.
  rewrite IH, Ascii.eqb_sym by done. by destruct (Ascii.eqb newline c).
Qed.

Lemma split_newline_line a : lacks newline a = true -> split_newline a = [a].
Proof.
  induction a as [|c a IH]; [done|]. cbn [split_newline lacks]. intros [Hc Ha]%andb_prop.
  rewrite IH, Ascii.eqb_sym by done. by destruct (Ascii.eqb newline c).
Qed.

Lemma split_newline_Join ls :
  ls ≠ [] -> Forall (fun l => lacks newline l = true) ls -> split_newline (strings_Join ls (String newline "")) = ls.
Proof.
  intros Hne H. induction H as [|l ls Hl _ IH]; [done|]. destruct ls as [|l' ls]; [by apply split_newline_line|].
  change (strings_Join (l :: l' :: ls) (String newline "")) with (l +:+ String newline (strings_Join (l' :: ls) (String newline ""))).
  rewrite split_newline_app by done. by rewrite IH.
Qed.

(** A line the scanner hands out as it is. *)
Definition scannable (l : string) : Prop :=
  (N.of_nat (String.length l) < MaxScanTokenSize)%N /\ TrimSuffix l carriage_return = l.

Lemma scan_loop_lines ls : Forall scannable ls -> last ls ≠ Some "" -> scan_loop ls = ls.
Proof.
  induction 1 as [|l ls [Hl Hc] _ IH]; intros Hlast; [done|]. cbn [scan_loop].
  destruct (N.leb_spec MaxScanTokenSize (N.of_nat (String.length l))); [lia|]. rewrite Hc.
  destruct ls as [|l' ls]; [|by rewrite IH]. case_bool_decide as He; [by rewrite He in Hlast|done].
Qed.

(** Uncommenting a block of commented lines gives the lines, whatever surrounds the
    block in the file. *)
Lemma UncommentCode_round_trip {Sh : Shell} filename prefix ls before after s :
  let target := strings_Join (map (fun l => prefix +:+ l) ls) (String newline "") in
  ls ≠ [] -> Forall (fun l => lacks newline (prefix +:+ l) = true /\ scannable (prefix +:+ l)) ls ->
  last (map (fun l => prefix +:+ l) ls) ≠ Some "" ->
  os_ReadFile filename s = Ok (before +:+ target +:+ after) ->
  strings_Cut (before +:+ target +:+ after) target = (before, after, true) ->
  snd (UncommentCode filename target prefix s) =
    snd (os_WriteFile filename (before +:+ strings_Join ls (String newline "") +:+ after) s).
Proof.
  intros target Hne Hls Hlast Hread Hcut.
  assert (ScanLines target = map (fun l => prefix +:+ l) ls) as Hscan.
  { unfold ScanLines, target. rewrite split_newline_Join.
    - apply scan_loop_lines; [|done]. apply Forall_map. eapply Forall_impl; [exact Hls|]. by intros l [_ ?].
    - by destruct ls.
    - apply Forall_map. eapply Forall_impl; [exact Hls|]. by intros l [? _]. }
  assert (uncommented target prefix = strings_Join ls (String newline "")) as Hun.
  { unfold uncommented. rewrite Hscan, map_map. f_equal. rewrite <- (map_id ls) at 2. apply map_ext. intros l. apply TrimPrefix_app. }
  unfold UncommentCode. rewrite Hread, Hcut, Hun. cbn [negb]. rewrite Hscan.
  destruct ls as [|l ls]; [done|]. cbn [map]. by destruct (os_WriteFile _ _ s) as [[e|] s'].
Qed.

(** A newline at the end of the target is dropped, so the line after the block joins its last line. *)
Lemma uncommented_drops_newline : uncommented ("#a" +:+ String newline "") "#" = "a".
Proof. done. Qed.
