(* ===== verification/SourceWorld.v ===== *)
(** The world of internal/source: the scratch file system, the Helm, kustomize
    and go-git libraries and, behind them, chart registries and git remotes.

    None of it is code of the repository.  [SourceWorld] has one operation per
    library call over the environment of [Boundary]; the calls that use the
    network, make and remove scratch directories or work on a git repository are
    recorded as [EvSource] events.  Reads of the scratch directory, which only this process writes, are
    functions of the environment. *)

From S2P Require Import Prelude Value Apimachinery Types Clients Boundary.

(** ** Data of the libraries *)

(** [registry.ClientOption]s, as the loader builds them. *)
Inductive ClientOption (HTTP : Type) :=
| ClientOptEnableCache (b : bool)
| ClientOptBasicAuth (user pass : string)
| ClientOptHTTPClient (c : HTTP).
Arguments ClientOptEnableCache {HTTP} b.
Arguments ClientOptBasicAuth {HTTP} user pass.
Arguments ClientOptHTTPClient {HTTP} c.

(** The fields of [cli.EnvSettings] the loader passes on. *)
Record EnvSettings := mkEnvSettings { RepositoryConfig : string; RepositoryCache : string }.

(** [chart.Dependency] and [chart.Metadata], the fields of Chart.yaml that are read. *)
Record Dependency := mkDependency { dep_Name : string; dep_Repository : string }.
Record Metadata := mkMetadata { metadata_Name : string; Dependencies : list Dependency }.

Record DirEntry := mkDirEntry { entry_Name : string; entry_IsDir : bool }.

(** [action.Install] as helmSource fills it. *)
Record Install := mkInstall {
  DryRun : bool; ClientOnly : bool; IncludeCRDs : bool; ReleaseName : string; inst_Namespace : string }.

(** [git.CloneOptions]. *)
Record CloneOptions := mkCloneOptions {
  clone_URL : string; clone_Auth : basic_auth; ReferenceName : string; SingleBranch : bool; Depth : Z }.

(** ** The libraries *)

Class SourceWorld (B : Boundary) := {
  HTTPClient : Type;
  Chart : Type;
  ResMap : Type;
  (** package os *)
  os_MkdirTemp : string -> string -> env -> result string * env;
  os_RemoveAll : string -> env -> env;
  os_MkdirAll : string -> env -> option error * env;
  os_ReadDir : string -> env -> result (list DirEntry);
  os_Open : string -> env -> option error;
  os_Stat_IsDir : string -> env -> result bool;
  os_IsNotExist : error -> bool;
  filepath_Glob : string -> env -> result (list string);
  (** Helm; a registry client is known by the options it was built with *)
  registry_NewClient : list (ClientOption HTTPClient) -> env -> option error * env;
  pull_Run : list (ClientOption HTTPClient) -> EnvSettings -> string -> string -> string -> env -> option error * env;
  registry_Resolve : list (ClientOption HTTPClient) -> string -> env -> result string * env;
  registry_IsOCI : string -> bool;
  chartutil_Expand : string -> string -> env -> option error * env;
  chartutil_LoadChartfile : string -> env -> result Metadata;
  chartutil_CoalesceTables : obj -> obj -> obj;
  (** [downloader.Manager.Build]; the flag is SkipUpdate *)
  manager_Build : list (ClientOption HTTPClient) -> EnvSettings -> bool -> string -> env -> option error * env;
  chart_Name : Chart -> string;
  loader_Load : string -> env -> result Chart;
  install_Run : Install -> Chart -> obj -> env -> result string * env;
  (** go-git: a remote of a repository directory is its URL *)
  git_PlainClone : string -> CloneOptions -> env -> option error * env;
  git_PlainInit : string -> env -> option error * env;
  git_CreateRemote : string -> string -> env -> option error * env;
  git_Fetch : string -> string -> list string -> basic_auth -> env -> option error * env;
  git_Worktree : string -> env -> option error;
  git_Checkout : string -> string -> env -> option error * env;
  (** [plumbing.NewHash]: the hash a hexadecimal text stands for, in hexadecimal *)
  plumbing_NewHash : string -> string;
  git_List : string -> basic_auth -> env -> result (list Reference) * env;
  (** kustomize *)
  kustomize_Run : string -> env -> result ResMap * env;
  ResMap_AsYaml : ResMap -> result string;
  (** encoding/json on [map[string]any] *)
  json_UnmarshalMap : string -> result obj;
  json_MarshalMap : obj -> result string;
}.

(** ** Calls *)

Section Calls.
Context {B : Boundary} {W : SourceWorld B}.

(** A call with an effect outside the process that is not recorded, a read, and
    a recorded call. *)
Definition perform {A} (f : env -> A * env) : M A := fun s => let '(a, s') := f s in (a, [], s').
Definition look {A} (f : env -> A) : M A := fun s => (f s, [], s).
Definition record {A} (act : A -> source_action) (f : env -> A * env) : M A :=
  fun s => let '(a, s') := f s in (a, [EvSource (act a)], s').

Abbreviation options := (list (ClientOption HTTPClient)).

(** The credentials a registry client sends. *)
Definition options_auth (opts : options) : basic_auth :=
  foldr (fun o acc => match o with ClientOptBasicAuth u p => Some (u, p) | _ => acc end) None opts.

Definition MkdirTemp (dir pattern : string) : M (result string) := record ActMkdirTemp (os_MkdirTemp dir pattern).
Definition RemoveAll (dir : string) : M unit := record (fun _ => ActRemoveAll dir) (fun s => (tt, os_RemoveAll dir s)).
Definition Pull (rc : options) (settings : EnvSettings) (version dest ref : string) : M (option error) :=
  record (ActPull (options_auth rc) ref version dest) (pull_Run rc settings version dest ref).
Definition ResolveDigest (rc : options) (ref : string) : M (result string) :=
  record (ActResolveDigest (options_auth rc) ref) (registry_Resolve rc ref).
Definition BuildDeps (rc : options) (settings : EnvSettings) (skipUpdate : bool) (chartDir : string) : M (option error) :=
  record (ActBuild (options_auth rc) chartDir) (manager_Build rc settings skipUpdate chartDir).
Definition PlainClone (dir : string) (o : CloneOptions) : M (option error) :=
  record (ActClone (clone_Auth o) dir (clone_URL o) (ReferenceName o) (SingleBranch o) (Depth o)) (git_PlainClone dir o).
Definition PlainInit (dir : string) : M (option error) := record (ActInit dir) (git_PlainInit dir).
Definition CreateRemote (dir url : string) : M (option error) := record (ActRemote dir url) (git_CreateRemote dir url).
Definition Fetch (dir url : string) (refSpecs : list string) (auth : basic_auth) : M (option error) :=
  record (ActFetch auth dir url refSpecs) (git_Fetch dir url refSpecs auth).
Definition Checkout (dir hash : string) : M (option error) := record (ActCheckout dir hash) (git_Checkout dir hash).
Definition LsRemote (url : string) (auth : basic_auth) : M (result (list Reference)) :=
  record (ActLsRemote auth url) (git_List url auth).

Definition InstallRun (inst : Install) (ch : Chart) (vals : obj) : M (result string) :=
  record (ActInstall (ReleaseName inst) (inst_Namespace inst) vals) (install_Run inst ch vals).
Definition KustomizeRun (root : string) : M (result ResMap) :=
  record (fun r => ActKustomize root (match r with Ok _ => None | Err e => Some e end)) (kustomize_Run root).

(** ** Their postconditions *)

Lemma post_perform {A} (f : env -> A * env) : post (perform f) (fun _ t => t = []).
Proof. intros s. unfold perform. by destruct (f s). Qed.
Lemma post_look {A} (f : env -> A) : post (look f) (fun _ t => t = []).
Proof. by intros s. Qed.
Lemma post_recorded {A} (act : A -> source_action) (f : env -> A * env) :
  post (record act f) (fun a t => t = [EvSource (act a)]).
Proof. intros s. unfold record. by destruct (f s). Qed.

(** ** Error propagation *)

(** [a, err := m; if err != nil { return ..., err }]. *)
Definition try_bind {A C} (m : M (result A)) (k : A -> M (result C)) : M (result C) :=
  bind m (fun r => match r with Ok a => k a | Err e => ret (Err e) end).

(** [if err := m; err != nil { return ..., err }]. *)
Definition must (m : M (option error)) : M (result unit) :=
  bind m (fun e => ret (match e with Some e => Err e | None => Ok tt end)).

(** [fmt.Errorf(pre + "%w", err)] on the error of a call. *)
Definition wrapping {A} (pre : string) (m : M (result A)) : M (result A) :=
  bind m (fun r => ret (wrap_err pre r)).

(** [defer fin()] around the rest of a function. *)
Definition deferring {A} (fin : M unit) (m : M A) : M A :=
  bind m (fun a => bind fin (fun _ => ret a)).

Lemma post_try_bind {A C} (m : M (result A)) (k : A -> M (result C)) P (Q : result C -> list event -> Prop) :
  post m P -> (forall e t, P (Err e) t -> Q (Err e) t) ->
  (forall a t, P (Ok a) t -> post (k a) (fun c t' => Q c (t ++ t')%list)) -> post (try_bind m k) Q.
Proof.
  intros Hm He Hk. eapply post_bind; [exact Hm|]. intros [a|e] t Ht; [by apply Hk|].
  apply post_ret. rewrite app_nil_r. by apply He.
Qed.

Lemma post_must (m : M (option error)) P :
  post m P -> post (must m) (fun r t => P (match r with Ok _ => None | Err e => Some e end) t).
Proof.
  intros Hm. eapply post_bind; [exact Hm|]. intros [e|] t Ht; apply post_ret; by rewrite app_nil_r.
Qed.

Lemma post_wrapping {A} pre (m : M (result A)) P (Q : result A -> list event -> Prop) :
  post m P -> (forall r t, P r t -> Q (wrap_err pre r) t) -> post (wrapping pre m) Q.
Proof.
  intros Hm H. eapply post_bind; [exact Hm|]. intros r t Ht. apply post_ret. rewrite app_nil_r. by apply H.
Qed.

Lemma post_deferring {A} (fin : M unit) (m : M A) P R (Q : A -> list event -> Prop) :
  post m P -> post fin (fun _ => R) -> (forall a t t', P a t -> R t' -> Q a (t ++ t')%list) ->
  post (deferring fin m) Q.
Proof.
  intros Hm Hf H. eapply post_bind; [exact Hm|]. intros a t Ht.
  eapply post_bind; [exact Hf|]. intros u t' Ht'. apply post_ret. rewrite app_nil_r. by apply H.
Qed.

(** ** Successful runs, taken apart *)

Lemma recorded_run {A} (act : A -> source_action) (f : env -> A * env) s a t s' :
  record act f s = (a, t, s') -> f s = (a, s') /\ t = [EvSource (act a)].
Proof. unfold record. destruct (f s). by intros [= <- <- <-]. Qed.

Lemma try_run {A C} (m : M (result A)) (k : A -> M (result C)) s c t s' :
  try_bind m k s = (Ok c, t, s') ->
  exists a t1 s1 t2, m s = (Ok a, t1, s1) /\ k a s1 = (Ok c, t2, s') /\ t = (t1 ++ t2)%list.
Proof. intros ([a|e] & t1 & s1 & t2 & Hm & Hk & ->)%bind_run; [|done]. by exists a, t1, s1, t2. Qed.

Lemma wrapping_run {A} pre (m : M (result A)) s a t s' : wrapping pre m s = (Ok a, t, s') -> m s = (Ok a, t, s').
Proof. intros ([b|e] & t1 & s1 & t2 & Hm & [= <- <- <-] & ->)%bind_run. by rewrite app_nil_r. Qed.

Lemma deferring_run {A} (fin : M unit) (m : M A) s a t s' :
  deferring fin m s = (a, t, s') ->
  exists t1 s1 t2, m s = (a, t1, s1) /\ fin s1 = (tt, t2, s') /\ t = (t1 ++ t2)%list.
Proof.
  intros (b & t1 & s1 & t2 & Hm & (u & t3 & s3 & t4 & Hf & [= <- <- <-] & ->)%bind_run & ->)%bind_run.
  exists t1, s1, t3. rewrite app_nil_r. by destruct u.
Qed.
End Calls.

Notation "'tryM' x <- m ; k" := (try_bind m (fun x => k))
  (at level 10, x pattern, m at level 100, k at level 200) : ddo_scope.

#[export] Hint Resolve post_perform post_look post_recorded : ddo.
#[export] Hint Extern 1 (post (MkdirTemp _ _) _) => apply post_recorded : ddo.
#[export] Hint Extern 1 (post (RemoveAll _) _) => apply post_recorded : ddo.
#[export] Hint Extern 1 (post (Pull _ _ _ _ _) _) => apply post_recorded : ddo.
#[export] Hint Extern 1 (post (ResolveDigest _ _) _) => apply post_recorded : ddo.
#[export] Hint Extern 1 (post (BuildDeps _ _ _ _) _) => apply post_recorded : ddo.
#[export] Hint Extern 1 (post (PlainClone _ _) _) => apply post_recorded : ddo.
#[export] Hint Extern 1 (post (PlainInit _) _) => apply post_recorded : ddo.
#[export] Hint Extern 1 (post (CreateRemote _ _) _) => apply post_recorded : ddo.
#[export] Hint Extern 1 (post (Fetch _ _ _ _) _) => apply post_recorded : ddo.
#[export] Hint Extern 1 (post (Checkout _ _) _) => apply post_recorded : ddo.
#[export] Hint Extern 1 (post (InstallRun _ _ _) _) => apply post_recorded : ddo.
#[export] Hint Extern 1 (post (KustomizeRun _) _) => apply post_recorded : ddo.
#[export] Hint Extern 1 (post (LsRemote _ _) _) => apply post_recorded : ddo.
