(* ===== verification/GitResolver.v ===== *)
(** internal/source/gitresolver.go: the kustomize root resolver, which fetches a
    pinned git reference into a scratch directory and resolves it to a commit. *)

From S2P Require Import Prelude Value Sha256 Apimachinery Types Clients Boundary GoPaths SourceWorld.

(** [shaRe]: [^[0-9a-f]{7,40}$]. *)
Definition shaRe_MatchString (s : string) : bool :=
  (7 <=? String.length s)%nat && (String.length s <=? 40)%nat && all_chars is_hex_digit s.

(** helmloader.go, used for both kinds of source. *)
Definition hostOf {N : NetURL} (raw : string) : string :=
  match url_Parse raw with
  | Ok u => if negb (bool_decide (u_Host u = "")) then u_Host u else raw
  | Err _ => raw
  end.

(** The parts of a kustomize URL: what to clone, the root inside the repository,
    and the pinned reference. *)
Definition splitRef {N : NetURL} (rawURL : string) : result (string * string * string) :=
  match url_Parse rawURL with
  | Err err => Err (EWrap "source: parse kustomize url: " err "")
  | Ok u =>
      if u_hasUser u then
        Err (ENew "source: kustomize url must not embed credentials in the URL; use authSecretRef")
      else
        let ref := u_QueryGet u "ref" in
        if bool_decide (ref = "") then Err (ENew "source: kustomize url missing pinned ?ref=")
        else
          let u := u_SetRawQuery u "" in
          let path := u_Path u in
          let '(before, after, found) := strings_Cut path "//" in
          let '(u, rootSubPath) := if found then (u_SetPath u before, Trim_slash after) else (u, "") in
          Ok (u_String u, rootSubPath, ref)
  end.

Section GitResolver.
Context {B : Boundary} {W : SourceWorld B} {N : NetURL}.

(** [resolve] is nil for anonymous access. *)
Record gitResolver := mkGitResolver { gr_resolve : option (string -> M (result creds)) }.

Definition authFor (r : gitResolver) (base : string) : M (result basic_auth) :=
  match gr_resolve r with
  | None => ret (Ok None)
  | Some resolve =>
      tryM c <- resolve (hostOf base);
      ret (Ok (if negb (creds_ok c) then None else Some (creds_user c, creds_pass c)))
  end.

(** All branches and tags, in full. *)
Definition all_refs : list string := ["+refs/heads/*:refs/heads/*"; "+refs/tags/*:refs/tags/*"].

Definition fetchSHA (dir base sha : string) (auth : basic_auth) : M (option error) :=
  do err <- PlainInit dir;
  match err with Some err => ret (Some err) | None =>
  do err <- CreateRemote dir base;
  match err with Some err => ret (Some err) | None =>
  do err <- Fetch dir base all_refs auth;
  match err with Some err => ret (Some (EWrap ("source: fetch sha " +:+ sha +:+ ": ") err " (fail-closed)")) | None =>
  do err <- look (git_Worktree dir);
  match err with Some err => ret (Some err) | None =>
  do err <- Checkout dir (plumbing_NewHash sha);
  match err with
  | Some err => ret (Some (EWrap ("source: checkout sha " +:+ sha +:+ ": ") err " (fail-closed)"))
  | None => ret None
  end end end end end.

(** The loop of fetchPinned: whether a clone succeeded. *)
Fixpoint clone_first (dir base : string) (auth : basic_auth) (names : list string) : M bool :=
  match names with
  | [] => ret false
  | rn :: names' =>
      do err <- PlainClone dir (mkCloneOptions base auth rn true 1);
      match err with
      | None => ret true
      | Some _ => clone_first dir base auth names'
      end
  end.

Definition tagRef (ref : string) : string := "refs/tags/" +:+ ref.
Definition branchRef (ref : string) : string := "refs/heads/" +:+ ref.

Definition fetchPinned (dir base ref : string) (auth : basic_auth) : M (option error) :=
  if shaRe_MatchString ref then fetchSHA dir base ref auth
  else
    do ok <- clone_first dir base auth [tagRef ref; branchRef ref];
    ret (if ok then None
         else Some (ENew ("source: could not resolve ref " +:+ quote ref +:+ " on " +:+ base +:+ " (fail-closed)"))).

(** RootResolver.Resolve: the path and its cleanup. *)
Definition gitResolver_Resolve (r : gitResolver) (rawURL subPath : string) : M (result (string * M unit)) :=
  match splitRef rawURL with
  | Err err => ret (Err err)
  | Ok (base, rootSubPath, ref) =>
      tryM dir <- MkdirTemp "" "ddo-kustomize-";
      let cleanup := RemoveAll dir in
      do auth <- authFor r base;
      match auth with
      | Err err => do _ <- cleanup; ret (Err (EWrap "source: resolve credentials: " err ""))
      | Ok auth =>
          do err <- fetchPinned dir base ref auth;
          match err with
          | Some err => do _ <- cleanup; ret (Err err)
          | None => ret (Ok (filepath_Join [dir; rootSubPath; subPath], cleanup))
          end
      end
  end.

Definition gitResolver_repoScope (rawURL : string) : result string :=
  try (base, _, _) <- splitRef rawURL;
  Ok ("git:" +:+ hostOf base).

(** [byName]: a later reference of the same name wins. *)
Definition byName (refs : list Reference) : gmap string Reference :=
  foldl (fun m rr => <[ref_Name rr := rr]> m) ∅ refs.

Fixpoint first_candidate (m : gmap string Reference) (cands : list string) : option string :=
  match cands with
  | [] => None
  | c :: cands' => match m !! c with Some rr => Some (ref_Hash rr) | None => first_candidate m cands' end
  end.

Definition gitResolver_ResolveID (r : gitResolver) (rawURL : string) : M (result string) :=
  match splitRef rawURL with
  | Err err => ret (Err err)
  | Ok (base, _, ref) =>
      if shaRe_MatchString ref then ret (Ok ref)
      else
        tryM auth <- wrapping "source: resolve credentials: " (authFor r base);
        tryM refs <- wrapping ("source: ls-remote " +:+ base +:+ ": ") (LsRemote base auth);
        match first_candidate (byName refs)
                [tagRef ref +:+ "^{}"; tagRef ref; branchRef ref] with
        | Some hash => ret (Ok hash)
        | None => ret (Err (ENew ("source: could not resolve ref " +:+ quote ref +:+ " on " +:+ base +:+
                                  " to a commit SHA")))
        end
  end.
End GitResolver.
