(* ===== verification/HelmLoader.v ===== *)
(** internal/source/helmloader.go: the chart loader, which pulls a chart from an
    OCI registry into a scratch directory, resolves its declared dependencies
    and loads it. *)

From S2P Require Import Prelude Value Apimachinery Types Clients Boundary GoPaths SourceWorld GitResolver.

Definition ociHost {N : NetURL} (repoURL : string) : string := hostOf (Replace1 repoURL "oci://" "https://").

Definition rejectURLCredentials {N : NetURL} (repoURL : string) : option error :=
  match url_Parse (Replace1 repoURL "oci://" "https://") with
  | Err _ => Some (ENew "source: chart repo url is not parseable")
  | Ok u =>
      if u_hasUser u
      then Some (ENew "source: chart repo url must not embed credentials in the URL; use authSecretRef")
      else None
  end.

(** The repository part of a chart reference. *)
Definition repo_path (repoURL : string) : string := TrimSuffix (TrimPrefix repoURL "oci://") "/".

Section HelmLoader.
Context {B : Boundary} {W : SourceWorld B} {N : NetURL}.

(** ** Dependencies *)

Definition unpackedSubchartExists (chartDir name : string) (s : env) : bool :=
  match os_Stat_IsDir (filepath_Join [chartDir; "charts"; name]) s with Ok isDir => isDir | Err _ => false end.

Definition vendoredSubchartExists (chartDir name : string) (s : env) : bool :=
  if unpackedSubchartExists chartDir name s then true
  else match filepath_Glob (filepath_Join [chartDir; "charts"; name +:+ "-*.tgz"]) s with
       | Ok matches => negb (Nat.eqb (length matches) 0)
       | Err _ => false
       end.

(** The first loop: whether some dependency must be fetched. *)
Definition must_fetch (chartDir : string) (deps : list Dependency) (s : env) : bool :=
  foldl (fun fetch d => if negb (vendoredSubchartExists chartDir (dep_Name d) s) then true else fetch) false deps.

(** The second loop: the error of the first dependency Build could not handle. *)
Fixpoint check_deps (chartDir chartName : string) (deps : list Dependency) (s : env) : option error :=
  match deps with
  | [] => None
  | d :: deps' =>
      let about := "source: chart " +:+ quote chartName +:+ " dependency " +:+ quote (dep_Name d) in
      if bool_decide (dep_Repository d = "") then
        if negb (unpackedSubchartExists chartDir (dep_Name d) s) then
          Some (ENew (about +:+ " declares no repository but is not vendored as an unpacked charts/" +:+
                      dep_Name d +:+
                      " directory; Build cannot resolve it — provide an oci:// repository or vendor it unpacked"))
        else check_deps chartDir chartName deps' s
      else if negb (HasPrefix (dep_Repository d) "file://") && negb (registry_IsOCI (dep_Repository d)) then
        Some (ENew (about +:+ " uses unsupported repository " +:+ quote (dep_Repository d) +:+
                    "; when any dependency must be fetched, every dependency repository must be oci:// (or file://) because Build re-resolves the whole Chart.lock — vendor all subcharts, or republish this one via OCI"))
      else check_deps chartDir chartName deps' s
  end.

Definition resolveDepsPlan (chartDir : string) (s : env) : result bool :=
  match chartutil_LoadChartfile (filepath_Join [chartDir; "Chart.yaml"]) s with
  | Err err => Err (EWrap "source: read Chart.yaml: " err "")
  | Ok meta =>
      if Nat.eqb (length (Dependencies meta)) 0 then Ok false
      else if negb (must_fetch chartDir (Dependencies meta) s) then Ok false
      else match check_deps chartDir (metadata_Name meta) (Dependencies meta) s with
           | Some err => Err err
           | None =>
               match os_Stat_IsDir (filepath_Join [chartDir; "Chart.lock"]) s with
               | Err err =>
                   if os_IsNotExist err then
                     Err (ENew ("source: chart " +:+ quote (metadata_Name meta) +:+
                                " declares unvendored dependencies but has no Chart.lock; commit Chart.lock for deterministic resolution"))
                   else Err (EWrap "source: stat Chart.lock: " err "")
               | Ok _ => Ok true
               end
           end
  end.

(** ** The loader *)

(** [resolve] nil means anonymous; [httpClient] is set only by tests. *)
Record helmLoader := mkHelmLoader {
  hl_settings : EnvSettings;
  hl_resolve : option (string -> M (result creds));
  hl_httpClient : option HTTPClient;
  hl_scratchDir : string;
}.

Definition newHelmLoader (settings : EnvSettings) (resolve : option (string -> M (result creds))) : helmLoader :=
  mkHelmLoader settings resolve None "".

Definition newScratchDir (l : helmLoader) : M (result string) := MkdirTemp (hl_scratchDir l) "ddo-helm-".

Definition credFor (l : helmLoader) : M (result creds) :=
  match hl_resolve l with
  | None => ret (Ok (mkCreds "" "" false))
  | Some resolve => resolve ""
  end.

(** The options of ociRegistryClient, which resolveOCIDigest builds the same way. *)
Definition registry_options (l : helmLoader) (c : creds) : list (ClientOption HTTPClient) :=
  ([ClientOptEnableCache true] ++
   (if creds_ok c then [ClientOptBasicAuth (creds_user c) (creds_pass c)] else []) ++
   match hl_httpClient l with Some h => [ClientOptHTTPClient h] | None => [] end)%list.

Definition ociRegistryClient (l : helmLoader) (c : creds) : M (result (list (ClientOption HTTPClient))) :=
  let opts := registry_options l c in
  tryM _ <- must (perform (registry_NewClient opts));
  ret (Ok opts).

Fixpoint first_tgz (dest : string) (entries : list DirEntry) : option string :=
  match entries with
  | [] => None
  | e :: entries' =>
      if HasSuffix (entry_Name e) ".tgz" then Some (filepath_Join [dest; entry_Name e]) else first_tgz dest entries'
  end.

Definition findTGZ (dest : string) (s : env) : result string :=
  match os_ReadDir dest s with
  | Err err => Err (EWrap "source: read chart dir: " err "")
  | Ok entries =>
      match first_tgz dest entries with
      | Some p => Ok p
      | None => Err (ENew ("source: no chart tgz found in " +:+ dest))
      end
  end.

Definition pullOCI (l : helmLoader) (repoURL name version dest : string) : M (result string) :=
  tryM c <- wrapping "source: resolve credentials: " (credFor l);
  tryM rc <- ociRegistryClient l c;
  let ref := "oci://" +:+ repo_path repoURL +:+ "/" +:+ name in
  tryM _ <- wrapping ("source: oci pull " +:+ name +:+ "@" +:+ version +:+ ": ")
              (must (Pull rc (hl_settings l) version dest ref));
  look (findTGZ dest).

Fixpoint first_dir (parent : string) (entries : list DirEntry) : option string :=
  match entries with
  | [] => None
  | e :: entries' =>
      if entry_IsDir e then Some (filepath_Join [parent; entry_Name e]) else first_dir parent entries'
  end.

Definition singleChildDir (parent : string) (s : env) : result string :=
  match os_ReadDir parent s with
  | Err err => Err (EWrap "source: read expanded dir: " err "")
  | Ok entries =>
      match first_dir parent entries with
      | Some p => Ok p
      | None => Err (ENew ("source: expanded chart has no directory in " +:+ parent))
      end
  end.

Definition expandAndResolveDeps (l : helmLoader) (chartPath tmp : string) : M (result string) :=
  let unpacked := filepath_Join [tmp; "unpacked"] in
  tryM _ <- must (perform (os_MkdirAll unpacked));
  tryM _ <- must (look (os_Open chartPath));
  tryM _ <- wrapping "source: expand chart: " (must (perform (chartutil_Expand unpacked chartPath)));
  tryM chartDir <- look (singleChildDir unpacked);
  tryM needsBuild <- look (resolveDepsPlan chartDir);
  if negb needsBuild then ret (Ok chartDir)
  else
    tryM c <- wrapping "source: resolve credentials for deps: " (credFor l);
    tryM rc <- ociRegistryClient l c;
    tryM _ <- wrapping "source: build dependencies: " (must (BuildDeps rc (hl_settings l) true chartDir));
    ret (Ok chartDir).

(** ChartLoader.Load; the scratch directory is removed on every return after it
    was made. *)
Definition helmLoader_Load (l : helmLoader) (repoURL name version : string) : M (result Chart) :=
  match rejectURLCredentials repoURL with
  | Some err => ret (Err err)
  | None =>
      tryM tmp <- newScratchDir l;
      deferring (RemoveAll tmp)
        (if HasPrefix repoURL "oci://" then
           tryM chartPath <- pullOCI l repoURL name version tmp;
           tryM chartDir <- expandAndResolveDeps l chartPath tmp;
           look (loader_Load chartDir)
         else ret (Err (ENew "source: unsupported chart repo scheme (only oci:// is supported)")))
  end.

(** ** Cache identity *)

Definition helmLoader_repoScope (repoURL : string) : result string :=
  if HasPrefix repoURL "oci://" then Ok ("oci:" +:+ ociHost repoURL)
  else Err (ENew "source: unsupported chart repo scheme for repoScope (only oci:// is supported)").

Definition resolveOCIDigest (l : helmLoader) (repoURL name version : string) : M (result string) :=
  tryM c <- wrapping "source: resolve credentials: " (credFor l);
  let opts := registry_options l c in
  tryM _ <- must (perform (registry_NewClient opts));
  let ref := repo_path repoURL +:+ "/" +:+ name +:+ ":" +:+ version in
  wrapping ("source: resolve oci digest " +:+ name +:+ ":" +:+ version +:+ ": ") (ResolveDigest opts ref).

Definition helmLoader_ResolveID (l : helmLoader) (repoURL name version : string) : M (result string) :=
  match rejectURLCredentials repoURL with
  | Some err => ret (Err err)
  | None =>
      if HasPrefix repoURL "oci://" then resolveOCIDigest l repoURL name version
      else ret (Err (ENew "source: unsupported chart repo scheme (only oci:// is supported)"))
  end.

End HelmLoader.
