(* ===== verification/RenderCache.v ===== *)
(** internal/source/rendercache.go: the shared render cache.

    Manifests are pointers, and their users change them in place.  So the cache
    is modelled over a store of cells: [get] and [put] copy what they hand over,
    callers write the cells they hold at any time, and the theorems say that the
    cache nevertheless behaves like a map from keys to manifest lists. *)

From S2P Require Import Prelude Value Apimachinery Manifest.
#[local] Open Scope list_scope.

(** ** The store *)

(** An [unstructured.Unstructured] with all that hangs below it, or the backing
    array of a [[]manifest.Manifest]: pointers and origins. *)
Inductive cell := CObj (u : obj) | CSlice (elems : list (nat * Origin)).
Abbreviation heap := (gmap nat cell).

(** A slice value: nil, or its backing array. *)
Abbreviation slice := (option nat).

Definition alloc (h : heap) (c : cell) : heap * nat := let p := fresh (dom h) in (<[p := c]> h, p).

(** What a slice reads as. *)
Fixpoint read_elems (h : heap) (es : list (nat * Origin)) : option (list Manifest) :=
  match es with
  | [] => Some []
  | (p, o) :: es' =>
      match h !! p with
      | Some (CObj u) => ms ← read_elems h es'; Some (mkManifest u o :: ms)
      | _ => None
      end
  end.

Definition read_slice (h : heap) (sl : slice) : option (option (list Manifest)) :=
  match sl with
  | None => Some None
  | Some a =>
      match h !! a with
      | Some (CSlice es) => ms ← read_elems h es; Some (Some ms)
      | _ => None
      end
  end.

(** ** The LRU library *)

(** github.com/hashicorp/golang-lru/v2, for values of type [V]; [contents] and
    [capacity] are what its documentation speaks of. *)
Class LRU (V : Type) := {
  lru : Type;
  lru_New : Z -> result lru;
  lru_Get : string -> lru -> option V * lru;
  lru_Add : string -> V -> lru -> bool * lru;
  lru_contents : lru -> gmap string V;
  lru_capacity : lru -> Z;
}.

Class LRULaws {V} (L : LRU V) : Prop := {
  New_ok n : (0 < n)%Z -> exists l, lru_New n = Ok l /\ lru_contents l = ∅ /\ lru_capacity l = n;
  Get_value k l : fst (lru_Get k l) = lru_contents l !! k;
  Get_contents k l : lru_contents (snd (lru_Get k l)) = lru_contents l;
  Get_capacity k l : lru_capacity (snd (lru_Get k l)) = lru_capacity l;
  Add_value k v l : lru_contents (snd (lru_Add k v l)) !! k = Some v;
  Add_other k v l k' v' : k' ≠ k -> lru_contents (snd (lru_Add k v l)) !! k' = Some v' ->
    lru_contents l !! k' = Some v';
  Add_capacity k v l : lru_capacity (snd (lru_Add k v l)) = lru_capacity l;
  Add_bounded k v l : (0 < lru_capacity l)%Z -> (Z.of_nat (size (lru_contents l)) <= lru_capacity l)%Z ->
    (Z.of_nat (size (lru_contents (snd (lru_Add k v l)))) <= lru_capacity l)%Z;
}.

(** ** rendercache.go *)

Definition defaultRenderCacheSize : Z := 32.

Section RenderCache.
Context {L : LRU slice}.

Record renderCache := mkRenderCache { rc_lru : lru }.

Definition newRenderCache (size : Z) : result renderCache :=
  let size := if (size <=? 0)%Z then defaultRenderCacheSize else size in
  match lru_New size with
  | Err err => Err err
  | Ok c => Ok (mkRenderCache c)
  end.

(** source.go: nil when construction fails. *)
Definition NewRenderCache : option renderCache :=
  match newRenderCache defaultRenderCacheSize with Err _ => None | Ok c => Some c end.

(** The loop of cloneManifests.  [None] is a nil pointer dereference. *)
Fixpoint clone_elems (h : heap) (es : list (nat * Origin)) : option (heap * list (nat * Origin)) :=
  match es with
  | [] => Some (h, [])
  | (p, o) :: es' =>
      match h !! p with
      | Some (CObj u) =>
          let '(h1, p') := alloc h (CObj u) in
          '(h2, out) ← clone_elems h1 es';
          Some (h2, (p', o) :: out)
      | _ => None
      end
  end.

Definition cloneManifests (h : heap) (sl : slice) : option (heap * slice) :=
  match sl with
  | None => Some (h, None)
  | Some a =>
      match h !! a with
      | Some (CSlice es) =>
          '(h1, out) ← clone_elems h es;
          let '(h2, a') := alloc h1 (CSlice out) in
          Some (h2, Some a')
      | _ => None
      end
  end.

(** The slice and whether the key was there, as an option. *)
Definition get (c : renderCache) (key : string) (h : heap) : option (heap * renderCache * option slice) :=
  let '(m, l) := lru_Get key (rc_lru c) in
  match m with
  | None => Some (h, mkRenderCache l, None)
  | Some m =>
      '(h', out) ← cloneManifests h m;
      Some (h', mkRenderCache l, Some out)
  end.

Definition put (c : renderCache) (key : string) (m : slice) (h : heap) : option (heap * renderCache) :=
  '(h', cl) ← cloneManifests h m;
  Some (h', mkRenderCache (snd (lru_Add key cl (rc_lru c)))).
End RenderCache.

(** ** Executions *)

Section Executions.
Context {L : LRU slice}.

Definition obj_at (h : heap) (p : nat) : Prop := exists u, h !! p = Some (CObj u).

(** The cells of a slice. *)
Definition slice_cells (h : heap) (sl : slice) : gset nat :=
  match sl with
  | None => ∅
  | Some a => {[a]} ∪ match h !! a with Some (CSlice es) => list_to_set es.*1 | _ => ∅ end
  end.

(** The process: its store, the cache, and the cells its goroutines hold. *)
Record process := mkProcess { p_heap : heap; p_cache : renderCache; p_held : gset nat }.

(** What an action shows. *)
Inductive label :=
| LCaller
| LPut (k : string) (v : option (list Manifest))
| LGet (k : string) (r : option (option (list Manifest))).

(** A cell a goroutine can write: its pointers are held and lead to objects. *)
Definition writable (h : heap) (held : gset nat) (c : cell) : Prop :=
  match c with
  | CObj _ => True
  | CSlice es => Forall (fun e => e.1 ∈ held /\ obj_at h e.1) es
  end.

Definition same_kind (c c' : cell) : Prop :=
  match c, c' with CObj _, CObj _ | CSlice _, CSlice _ => True | _, _ => False end.

Inductive pstep : process -> label -> process -> Prop :=
| step_alloc h c held v h' p :
    writable h held v -> alloc h v = (h', p) ->
    pstep (mkProcess h c held) LCaller (mkProcess h' c ({[p]} ∪ held))
| step_write h c held p old v :
    p ∈ held -> h !! p = Some old -> same_kind old v -> writable h held v ->
    pstep (mkProcess h c held) LCaller (mkProcess (<[p := v]> h) c held)
| step_put h c held k sl v h' c' :
    (forall a, sl = Some a -> a ∈ held) -> read_slice h sl = Some v ->
    put c k sl h = Some (h', c') ->
    pstep (mkProcess h c held) (LPut k v) (mkProcess h' c' held)
| step_get_hit h c held k h' c' sl v :
    get c k h = Some (h', c', Some sl) -> read_slice h' sl = Some v ->
    pstep (mkProcess h c held) (LGet k (Some v)) (mkProcess h' c' (slice_cells h' sl ∪ held))
| step_get_miss h c held k h' c' :
    get c k h = Some (h', c', None) ->
    pstep (mkProcess h c held) (LGet k None) (mkProcess h' c' held).

(** Executions, with the labels in order. *)
Inductive exec : process -> list label -> process -> Prop :=
| exec_nil p : exec p [] p
| exec_snoc p ls p' l p'' : exec p ls p' -> pstep p' l p'' -> exec p (ls ++ [l]) p''.

(** ** The specification: a map that forgets keys *)

Abbreviation cache_map := (gmap string (option (list Manifest))).

Inductive spec_step : cache_map -> label -> cache_map -> Prop :=
| spec_caller m : spec_step m LCaller m
| spec_put m m' k v :
    m' !! k = Some v -> (forall k' v', k' ≠ k -> m' !! k' = Some v' -> m !! k' = Some v') ->
    spec_step m (LPut k v) m'
| spec_get m k : spec_step m (LGet k (m !! k)) m.

(** What the cache holds, read through the store. *)
Definition cache_view (p : process) : cache_map :=
  omap (read_slice (p_heap p)) (lru_contents (rc_lru (p_cache p))).

(** ** The invariant *)

(** The cells of a cached slice belong to nobody else. *)
Definition private (h : heap) (held : gset nat) (sl : slice) : Prop :=
  forall a, sl = Some a -> a ∉ held /\ exists es, h !! a = Some (CSlice es) /\
    Forall (fun e => e.1 ∉ held /\ obj_at h e.1) es.

Definition held_ok (h : heap) (held : gset nat) : Prop :=
  forall p, p ∈ held -> exists c, h !! p = Some c /\ writable h held c.

Definition cache_inv (p : process) : Prop :=
  held_ok (p_heap p) (p_held p) /\
  forall k sl, lru_contents (rc_lru (p_cache p)) !! k = Some sl -> private (p_heap p) (p_held p) sl.
End Executions.
