(* ===== verification/RenderCacheProps.v ===== *)
(** The render cache refines a map: what its users do to the manifests they put
    in or got out never shows in a later [get]. *)

From S2P Require Import Prelude Value Apimachinery Manifest RenderCache.
#[local] Open Scope list_scope.

(** ** Copies *)

Lemma alloc_spec h c h' p :
  alloc h c = (h', p) -> p ∉ dom h /\ h' = <[p := c]> h /\ h ⊆ h'.
Proof.
  unfold alloc. intros [= <- <-]. pose proof (is_fresh (dom h)) as Hf. split_and!; [done..|].
  by apply insert_subseteq, not_elem_of_dom.
Qed.

Lemma obj_at_mono h h' p : h ⊆ h' -> obj_at h p -> obj_at h' p.
Proof. intros Hs [u Hu]. exists u. by eapply lookup_weaken. Qed.

Lemma subseteq_dom_heap (h h' : heap) p : h ⊆ h' -> p ∉ dom h' -> p ∉ dom h.
Proof. intros Hs%subseteq_dom Hp Hin. apply Hp, Hs, Hin. Qed.

(** Reading depends on the cells of the slice only. *)
Lemma read_elems_agree h h' es :
  Forall (fun e => h' !! e.1 = h !! e.1) es -> read_elems h' es = read_elems h es.
Proof. induction 1 as [|[p o] es Hp _ IH]; [done|]. cbn in *. by rewrite Hp, IH. Qed.

Lemma read_elems_mono h h' es : h ⊆ h' -> Forall (fun e => obj_at h e.1) es -> read_elems h' es = read_elems h es.
Proof.
  intros Hs Hf. apply read_elems_agree. eapply Forall_impl; [exact Hf|].
  intros e [u Hu]. rewrite Hu. by eapply lookup_weaken.
Qed.

Lemma read_elems_total h es : Forall (fun e => obj_at h e.1) es -> is_Some (read_elems h es).
Proof. induction 1 as [|[p o] es [u Hu] _ [ms Hms]]; [done|]. cbn in *. rewrite Hu, Hms. by eexists. Qed.

(** A copy of the elements: fresh cells with the same contents. *)
Lemma clone_elems_spec h es :
  Forall (fun e => obj_at h e.1) es ->
  exists h' out, clone_elems h es = Some (h', out) /\ h ⊆ h' /\ read_elems h' out = read_elems h es /\
    Forall (fun e => e.1 ∉ dom h /\ obj_at h' e.1) out.
Proof.
  intros Hf. revert h Hf. induction es as [|[p o] es IH]; intros h Hf; [by exists h, []|].
  apply Forall_cons in Hf as [[u Hu] Hf]. cbn [clone_elems fst] in Hu |- *. rewrite Hu.
  destruct (alloc h (CObj u)) as [h1 p'] eqn:Ea. apply alloc_spec in Ea as (Hp' & -> & Hs).
  destruct (IH (<[p' := CObj u]> h)) as (h2 & out & Hc & Hs2 & Hr & Ho).
  { eapply Forall_impl; [exact Hf|]. intros e. by apply obj_at_mono. }
  rewrite Hc. eexists _, _. split; [done|]. assert (h2 !! p' = Some (CObj u)) as Hl.
  { eapply lookup_weaken; [apply lookup_insert_eq|done]. }
  split_and!; [by trans (<[p' := CObj u]> h)| |].
  - cbn. by rewrite Hl, Hr, Hu, (read_elems_mono h).
  - constructor; [split; [done|by exists u]|]. eapply Forall_impl; [exact Ho|].
    intros e [He1 He2]. split; [by eapply subseteq_dom_heap|done].
Qed.

(** A slice all of whose cells are there. *)
Definition valid_slice (h : heap) (sl : slice) : Prop :=
  forall a, sl = Some a -> exists es, h !! a = Some (CSlice es) /\ Forall (fun e => obj_at h e.1) es.

(** cloneManifests succeeds on a valid slice: the copy reads the same, lies in
    cells that were free, and no existing cell changes. *)
Lemma cloneManifests_spec h sl :
  valid_slice h sl ->
  exists h' sl', cloneManifests h sl = Some (h', sl') /\ h ⊆ h' /\ read_slice h' sl' = read_slice h sl /\
    is_Some (read_slice h sl) /\ valid_slice h' sl' /\ (forall p, p ∈ slice_cells h' sl' -> p ∉ dom h).
Proof.
  intros Hv. destruct sl as [a|]; [|exists h, None; split_and!; [done..|by intros ?|set_solver]].
  destruct (Hv a eq_refl) as (es & Ha & Hf). cbn [cloneManifests read_slice]. rewrite Ha.
  destruct (clone_elems_spec h es Hf) as (h1 & out & -> & Hs & Hr & Ho). cbn [mbind option_bind].
  destruct (alloc h1 (CSlice out)) as [h2 a'] eqn:Ea. apply alloc_spec in Ea as (Ha' & -> & Hs2).
  assert (Forall (fun e => obj_at (<[a' := CSlice out]> h1) e.1) out) as Hobj.
  { eapply Forall_impl; [exact Ho|]. intros e [_ He]. by eapply obj_at_mono. }
  eexists _, _. split; [done|]. cbn. rewrite lookup_insert_eq. split_and!.
  - by trans h1.
  - rewrite (read_elems_mono h1), Hr; [done..|]. eapply Forall_impl; [exact Ho|]. by intros e [].
  - destruct (read_elems_total h es Hf) as [ms ->]. by eexists.
  - intros ? [= <-]. exists out. by rewrite lookup_insert_eq.
  - intros p [->%elem_of_singleton|Hp]%elem_of_union; [by eapply subseteq_dom_heap|].
    apply elem_of_list_to_set, list_elem_of_fmap in Hp as (e & -> & He).
    rewrite Forall_forall in Ho. by apply Ho.
Qed.

(** ** The invariant is kept *)

Section Invariant.
Context {L : LRU slice} {LL : LRULaws L}.

Lemma private_valid h held sl : private h held sl -> valid_slice h sl.
Proof.
  intros Hp a ->. destruct (Hp a eq_refl) as (_ & es & Ha & Hf). exists es. split; [done|].
  eapply Forall_impl; [exact Hf|]. by intros e [].
Qed.

Lemma held_valid h held sl : held_ok h held -> (forall a, sl = Some a -> a ∈ held) ->
  is_Some (read_slice h sl) -> valid_slice h sl.
Proof.
  intros Hh Hs [v Hr] a ->. destruct (Hh a (Hs a eq_refl)) as ([u|es] & Ha & Hw).
  - cbn in Hr. by rewrite Ha in Hr.
  - exists es. split; [done|]. eapply Forall_impl; [exact Hw|]. by intros e [].
Qed.

(** A private slice keeps its contents when only held or fresh cells change. *)
Lemma private_agree h h' held held' sl :
  private h held sl -> (forall p, p ∉ held -> p ∈ dom h -> h' !! p = h !! p /\ p ∉ held') ->
  private h' held' sl /\ read_slice h' sl = read_slice h sl.
Proof.
  intros Hp Hag. destruct sl as [a|]; [|by split; [intros ?|]].
  destruct (Hp a eq_refl) as (Ha & es & Hl & Hf).
  assert (forall e, e ∈ es -> h' !! e.1 = h !! e.1 /\ e.1 ∉ held') as He.
  { intros e Hin. rewrite Forall_forall in Hf. destruct (Hf e Hin) as (? & u & Hu).
    apply Hag; [done|]. by eapply elem_of_dom_2. }
  destruct (Hag a Ha) as [Hla Ha']; [by eapply elem_of_dom_2|]. split.
  - intros ? [= <-]. split; [done|]. exists es. split; [by rewrite Hla|].
    rewrite Forall_forall in Hf |- *. intros e Hin. destruct (He e Hin) as [Hle ?]. split; [done|].
    destruct (Hf e Hin) as (_ & u & Hu). exists u. by rewrite Hle.
  - cbn. rewrite Hla, Hl. f_equal. apply read_elems_agree, Forall_forall. intros e Hin. by apply He.
Qed.

Lemma writable_mono h h' held held' c :
  (forall p, p ∈ held -> p ∈ held') -> (forall p, p ∈ held -> obj_at h p -> obj_at h' p) ->
  writable h held c -> writable h' held' c.
Proof.
  intros Hi Ho. destruct c as [|es]; [done|]. cbn. intros Hf. eapply Forall_impl; [exact Hf|].
  intros e [? ?]. auto.
Qed.

(** Growing the store keeps what is held. *)
Lemma held_ok_mono h h' held : h ⊆ h' -> held_ok h held -> held_ok h' held.
Proof.
  intros Hs Hh p Hp. destruct (Hh p Hp) as (c & Hc & Hw). exists c. split; [by eapply lookup_weaken|].
  eapply writable_mono; [done| |exact Hw]. intros q _. by apply obj_at_mono.
Qed.

Lemma held_ok_dom h held p : held_ok h held -> p ∈ held -> p ∈ dom h.
Proof. intros Hh Hp. destruct (Hh p Hp) as (c & Hc & _). by eapply elem_of_dom_2. Qed.

(** The view of the cache after a step that leaves the library's contents. *)
Lemma view_eq p p' :
  lru_contents (rc_lru (p_cache p')) = lru_contents (rc_lru (p_cache p)) ->
  (forall k sl, lru_contents (rc_lru (p_cache p)) !! k = Some sl ->
     read_slice (p_heap p') sl = read_slice (p_heap p) sl) ->
  cache_view p' = cache_view p.
Proof.
  intros Hc Hr. apply map_eq. intros k. unfold cache_view. rewrite !lookup_omap, Hc.
  destruct (_ !! k) as [sl|] eqn:E; [|done]. cbn. by eapply Hr.
Qed.

(** A step of a goroutine on its own cells. *)
Lemma caller_step h c held h' held' :
  cache_inv (mkProcess h c held) -> held_ok h' held' ->
  (forall p, p ∉ held -> p ∈ dom h -> h' !! p = h !! p /\ p ∉ held') ->
  cache_inv (mkProcess h' c held') /\ cache_view (mkProcess h' c held') = cache_view (mkProcess h c held).
Proof.
  intros [Hh Hp] Hh' Hag. split.
  - split; [done|]. cbn. intros k sl Hk. eapply private_agree; [by eapply Hp|done].
  - apply view_eq; [done|]. cbn. intros k sl Hk. by eapply private_agree; [eapply Hp|].
Qed.

Lemma held_ok_write h held p old v :
  held_ok h held -> h !! p = Some old -> same_kind old v -> writable h held v ->
  held_ok (<[p := v]> h) held.
Proof.
  intros Hh Hold Hk Hw q Hq.
  assert (forall r, obj_at h r -> obj_at (<[p := v]> h) r) as Ho.
  { intros r [u Hu]. destruct (decide (r = p)) as [->|]; [|exists u; by rewrite lookup_insert_ne].
    simplify_eq. destruct v as [u'|]; [|done]. exists u'. by rewrite lookup_insert_eq. }
  destruct (decide (q = p)) as [->|Hne].
  - exists v. rewrite lookup_insert_eq. split; [done|]. by eapply writable_mono; [..|exact Hw]; auto.
  - destruct (Hh q Hq) as (c & Hc & Hwc). exists c. rewrite lookup_insert_ne by done. split; [done|].
    by eapply writable_mono; [..|exact Hwc]; auto.
Qed.

Lemma held_ok_valid h held sl : held_ok h held -> valid_slice h sl -> held_ok h (slice_cells h sl ∪ held).
Proof.
  intros Hh Hv p Hp. destruct sl as [a|]; cbn in *; [|rewrite (left_id_L ∅ (∪) held) in Hp |- *; by apply Hh].
  destruct (Hv a eq_refl) as (es & Ha & Hf). rewrite Ha in *. rewrite Forall_forall in Hf.
  apply elem_of_union in Hp as [[->%elem_of_singleton|Hp]%elem_of_union|Hp].
  - exists (CSlice es). split; [done|]. cbn. rewrite Forall_forall. intros e He. split; [|by apply Hf].
    apply elem_of_union_l, elem_of_union_r, elem_of_list_to_set, list_elem_of_fmap. by exists e.
  - apply elem_of_list_to_set, list_elem_of_fmap in Hp as (e & -> & He).
    destruct (Hf e He) as [u Hu]. by exists (CObj u).
  - destruct (Hh p Hp) as (c & Hc & Hw). exists c. split; [done|].
    eapply writable_mono; [|by auto|exact Hw]. intros q Hq. by apply elem_of_union_r.
Qed.

Lemma fresh_cells h held sl h' :
  held_ok h held -> (forall p, p ∈ slice_cells h' sl -> p ∉ dom h) ->
  forall p, p ∉ held -> p ∈ dom h -> p ∉ slice_cells h' sl ∪ held.
Proof. intros _ Hf p Hp Hd [Hc|Hc]%elem_of_union; [by apply (Hf p)|done]. Qed.

(** A copy of a slice: the store grows, so nothing that was there changes. *)
Lemma grows_agree (h h' : heap) (held held' : gset nat) :
  h ⊆ h' -> (forall p, p ∉ held -> p ∈ dom h -> p ∉ held') ->
  forall p, p ∉ held -> p ∈ dom h -> h' !! p = h !! p /\ p ∉ held'.
Proof.
  intros Hs Hn p Hp Hd. split; [|by apply Hn]. apply elem_of_dom in Hd as [c Hc]. rewrite Hc.
  by eapply lookup_weaken.
Qed.

Lemma put_step h c held k sl v h' c' :
  cache_inv (mkProcess h c held) -> (forall a, sl = Some a -> a ∈ held) ->
  read_slice h sl = Some v -> put c k sl h = Some (h', c') ->
  cache_inv (mkProcess h' c' held) /\
  spec_step (cache_view (mkProcess h c held)) (LPut k v) (cache_view (mkProcess h' c' held)).
Proof.
  intros [Hh Hp] Hsl Hr Hput. cbn in Hh, Hp. unfold put in Hput.
  destruct (cloneManifests_spec h sl) as (h1 & cl & Hc & Hs & Hrc & _ & Hv & Hfr);
    [by eapply held_valid; [..|eexists]|].
  rewrite Hc in Hput. cbn in Hput. injection Hput as <- <-.
  assert (forall k' sl', k' ≠ k ->
    lru_contents (snd (lru_Add k cl (rc_lru c))) !! k' = Some sl' ->
    private h1 held sl' /\ read_slice h1 sl' = read_slice h sl' /\ lru_contents (rc_lru c) !! k' = Some sl')
    as Hother.
  { intros k' sl' Hne Hk'. apply Add_other in Hk'; [|done].
    destruct (private_agree h h1 held held sl') as [? ?]; [by eapply Hp|by apply grows_agree|done]. }
  split; [split; cbn; [by eapply held_ok_mono|]|].
  - intros k' sl' Hk'. destruct (decide (k' = k)) as [->|Hne]; [|by apply (Hother k')].
    rewrite Add_value in Hk'. injection Hk' as <-. intros a ->.
    destruct (Hv a eq_refl) as (es & Ha & Hf). split; [|exists es; split; [done|]].
    + intros Hin. apply (Hfr a); [cbn; set_solver|by eapply held_ok_dom].
    + rewrite Forall_forall in Hf |- *. intros e He. split; [|by apply Hf]. intros Hin.
      apply (Hfr e.1); [|by eapply held_ok_dom]. cbn. rewrite Ha.
      apply elem_of_union_r, elem_of_list_to_set, list_elem_of_fmap. by exists e.
  - constructor.
    + unfold cache_view. cbn. by rewrite lookup_omap, Add_value, <- Hr, <- Hrc.
    + intros k' v' Hne. unfold cache_view. cbn. rewrite !lookup_omap.
      destruct (lru_contents (snd _) !! k') as [sl'|] eqn:E; [|done]. cbn.
      destruct (Hother k' sl' Hne E) as (_ & -> & ->). done.
Qed.

Lemma get_unfold c k h :
  get c k h = match lru_contents (rc_lru c) !! k with
              | None => Some (h, mkRenderCache (snd (lru_Get k (rc_lru c))), None)
              | Some m => '(h', out) ← cloneManifests h m;
                          Some (h', mkRenderCache (snd (lru_Get k (rc_lru c))), Some out)
              end.
Proof. unfold get. rewrite <- Get_value. by destruct (lru_Get k (rc_lru c)) as [[?|] ?]. Qed.

Lemma get_hit_step h c held k h' c' sl v :
  cache_inv (mkProcess h c held) -> get c k h = Some (h', c', Some sl) -> read_slice h' sl = Some v ->
  cache_inv (mkProcess h' c' (slice_cells h' sl ∪ held)) /\
  spec_step (cache_view (mkProcess h c held)) (LGet k (Some v))
            (cache_view (mkProcess h' c' (slice_cells h' sl ∪ held))) /\
  (forall p, p ∈ slice_cells h' sl -> p ∉ held).
Proof.
  intros [Hh Hp] Hget Hr. cbn in Hh, Hp. rewrite get_unfold in Hget.
  destruct (lru_contents (rc_lru c) !! k) as [m|] eqn:Ek; [|done].
  destruct (cloneManifests_spec h m) as (h1 & out & Hc & Hs & Hrc & _ & Hv & Hfr);
    [by eapply private_valid, Hp|].
  rewrite Hc in Hget. cbn in Hget. injection Hget as <- <- <-.
  pose proof (grows_agree h h1 held (slice_cells h1 out ∪ held) Hs (fresh_cells h held out h1 Hh Hfr)) as Hag.
  assert (cache_view (mkProcess h1 (mkRenderCache (snd (lru_Get k (rc_lru c)))) (slice_cells h1 out ∪ held)) =
          cache_view (mkProcess h c held)) as Hview.
  { apply view_eq; cbn; [by rewrite Get_contents|]. intros k' sl' Hk'.
    by destruct (private_agree h h1 held _ sl' (Hp k' sl' Hk') Hag). }
  split_and!.
  - split; cbn; [apply held_ok_valid; [by eapply held_ok_mono|done]|]. rewrite Get_contents.
    intros k' sl' Hk'. by destruct (private_agree h h1 held _ sl' (Hp k' sl' Hk') Hag).
  - rewrite Hview. assert (cache_view (mkProcess h c held) !! k = Some v) as <- by
      by unfold cache_view; cbn; rewrite lookup_omap, Ek; cbn; rewrite <- Hrc. constructor.
  - intros p Hin Hheld. apply (Hfr p Hin). by eapply held_ok_dom.
Qed.

Lemma get_miss_step h c held k h' c' :
  cache_inv (mkProcess h c held) -> get c k h = Some (h', c', None) ->
  cache_inv (mkProcess h' c' held) /\
  spec_step (cache_view (mkProcess h c held)) (LGet k None) (cache_view (mkProcess h' c' held)).
Proof.
  intros [Hh Hp] Hget. cbn in Hh, Hp. rewrite get_unfold in Hget.
  destruct (lru_contents (rc_lru c) !! k) as [m|] eqn:Ek;
    [by destruct (cloneManifests h m) as [[? ?]|]|]. injection Hget as <- <-.
  split; [split; cbn; [done|by rewrite Get_contents]|].
  rewrite (view_eq (mkProcess h c held) (mkProcess h (mkRenderCache (snd (lru_Get k (rc_lru c)))) held)); cbn; [|by rewrite Get_contents|done].
  assert (cache_view (mkProcess h c held) !! k = None) as <- by
    by unfold cache_view; cbn; rewrite lookup_omap, Ek. constructor.
Qed.

(** One step of the process is one step of the specification. *)
Lemma step_refines p l p' :
  cache_inv p -> pstep p l p' -> cache_inv p' /\ spec_step (cache_view p) l (cache_view p').
Proof.
  intros Hi Hst. destruct Hst as [h c held v h' q Hw Ha|h c held q old v Hq Hold Hk Hw| | |].
  - pose proof (proj1 Hi) as Hh. cbn in Hh. apply alloc_spec in Ha as (Hq & -> & Hs).
    destruct (caller_step h c held (<[q := v]> h) ({[q]} ∪ held) Hi) as [? ->]; [| |split; [done|constructor]].
    + intros r Hr. apply elem_of_union in Hr as [->%elem_of_singleton|Hr].
      * exists v. rewrite lookup_insert_eq. split; [done|]. eapply writable_mono; [| |exact Hw].
        -- intros r. apply elem_of_union_r.
        -- intros r _. by apply obj_at_mono.
      * destruct (Hh r Hr) as (c0 & Hc0 & Hw0). exists c0. split; [by eapply lookup_weaken|].
        eapply writable_mono; [intros ?; apply elem_of_union_r|intros ? _; by apply obj_at_mono|done].
    + apply grows_agree; [done|]. intros r Hr Hd [->%elem_of_singleton|?]%elem_of_union; done.
  - destruct (caller_step h c held (<[q := v]> h) held Hi) as [? ->]; [| |split; [done|constructor]].
    + by eapply held_ok_write; [exact (proj1 Hi)|..].
    + intros r Hr _. rewrite lookup_insert_ne by by intros ->. done.
  - by eapply put_step.
  - edestruct get_hit_step as (? & ? & _); done.
  - by eapply get_miss_step.
Qed.
End Invariant.

(** ** Executions *)

Section Executions.
Context {L : LRU slice} {LL : LRULaws L}.

(** The specification alone: a key that is there was put, with that value, and
    not since. *)
Definition last_put (ls : list label) (k : string) (v : option (list Manifest)) : Prop :=
  exists ls1 ls2, ls = ls1 ++ LPut k v :: ls2 /\ Forall (fun l => forall v', l ≠ LPut k v') ls2.

Lemma last_put_snoc ls l k v :
  last_put ls k v -> (forall v', l ≠ LPut k v') -> last_put (ls ++ [l]) k v.
Proof.
  intros (ls1 & ls2 & -> & Hf) Hl. exists ls1, (ls2 ++ [l]). rewrite <- (assoc_L (++)). split; [done|].
  apply Forall_app. split; [done|by constructor].
Qed.

Lemma spec_last_put m l m' ls :
  spec_step m l m' -> (forall k v, m !! k = Some v -> last_put ls k v) ->
  forall k v, m' !! k = Some v -> last_put (ls ++ [l]) k v.
Proof.
  intros Hs Hm k v Hk. destruct Hs as [m|m m' k' v' Hk' Ho|m k'].
  - by apply last_put_snoc; [apply Hm|].
  - destruct (decide (k = k')) as [->|Hne].
    + simplify_eq. by exists ls, [].
    + apply last_put_snoc; [apply Hm; by eapply Ho|]. intros v'' [= <-]. done.
  - by apply last_put_snoc; [apply Hm|].
Qed.

(** A process that starts with the operator's cache. *)
Definition starts (p : process) : Prop :=
  NewRenderCache = Some (p_cache p) /\ held_ok (p_heap p) (p_held p).

Lemma NewRenderCache_spec :
  exists c, NewRenderCache = Some c /\ lru_contents (rc_lru c) = ∅ /\ lru_capacity (rc_lru c) = defaultRenderCacheSize.
Proof.
  destruct (New_ok defaultRenderCacheSize) as (l & Hl & Hc); [done|].
  exists (mkRenderCache l). unfold NewRenderCache, newRenderCache. cbn zeta.
  change (defaultRenderCacheSize <=? 0)%Z with false. cbv iota. by rewrite Hl.
Qed.

Lemma starts_contents p : starts p ->
  lru_contents (rc_lru (p_cache p)) = ∅ /\ lru_capacity (rc_lru (p_cache p)) = defaultRenderCacheSize.
Proof. intros [Hc _]. destruct NewRenderCache_spec as (c & Hc' & ?). by simplify_eq. Qed.

Lemma exec_refines p ls p' :
  starts p -> exec p ls p' -> cache_inv p' /\ forall k v, cache_view p' !! k = Some v -> last_put ls k v.
Proof.
  intros Hst. induction 1 as [p|p ls p' l p'' _ IH Hs].
  - destruct (starts_contents p Hst) as [He _]. destruct Hst as [_ Hh]. split; [split; [done|]|].
    + by rewrite He.
    + intros k v. unfold cache_view. by rewrite He, lookup_omap, lookup_empty.
  - destruct (IH Hst) as [Hi Hv]. destruct (step_refines p' l p'' Hi Hs) as [Hi' Hsp]. split; [done|].
    by eapply spec_last_put.
Qed.

(** C17: The render cache never leaks a mutation: in any interleaving of [get], [put] and
    in-place writes by the goroutines that hold manifests, a hit returns exactly the
    manifests of the last [put] under that key as they were at the time of that [put],
    and the manifests handed out are cells that no goroutine held before. *)
Theorem cache_returns_last_put p ls p1 k v p2 :
  starts p -> exec p ls p1 -> pstep p1 (LGet k (Some v)) p2 ->
  last_put ls k v /\ exists cells, p_held p2 = cells ∪ p_held p1 /\ cells ## p_held p1.
Proof.
  intros Hst Hex Hs. destruct (exec_refines p ls p1 Hst Hex) as [Hi Hv].
  inversion Hs as [| | |h c held k' h' c' sl v' Hget Hr|]; subst.
  edestruct get_hit_step as (_ & Hsp & Hfr); [exact Hi|exact Hget|exact Hr|]. split.
  - inversion Hsp as [| |m k0 Hk]; subst. by apply Hv.
  - exists (slice_cells h' sl). split; [done|]. cbn. apply elem_of_disjoint. intros q Hq. by apply Hfr.
Qed.

(** C36: Neither call can fail on live data: at any point of any execution, [get] returns for
    every key (a hit exactly when the library holds the key), and [put] of any slice a
    goroutine holds returns and stores it under its key. *)
Theorem cache_calls_total p ls p1 :
  starts p -> exec p ls p1 ->
  (forall k, exists h c r, get (p_cache p1) k (p_heap p1) = Some (h, c, r) /\
     (r = None <-> cache_view p1 !! k = None)) /\
  (forall k sl es, sl ∈ p_held p1 -> p_heap p1 !! sl = Some (CSlice es) ->
     exists h c v, put (p_cache p1) k (Some sl) (p_heap p1) = Some (h, c) /\
       read_slice (p_heap p1) (Some sl) = Some v /\ cache_view (mkProcess h c (p_held p1)) !! k = Some v).
Proof.
  intros Hst Hex. destruct (exec_refines p ls p1 Hst Hex) as [[Hh Hp] _].
  destruct p1 as [h c held]. cbn in *. split.
  - intros k. rewrite get_unfold. unfold cache_view. cbn. rewrite lookup_omap.
    destruct (lru_contents (rc_lru c) !! k) as [m|] eqn:E; [|by eexists _, _, _].
    destruct (cloneManifests_spec h m) as (h1 & out & -> & _ & _ & [v Hv] & _); [by eapply private_valid, Hp|].
    eexists _, _, _. split; [done|]. cbn. by rewrite Hv.
  - intros k a es Ha Hes. destruct (Hh a Ha) as (c0 & Hc0 & Hw). simplify_eq.
    assert (is_Some (read_slice h (Some a))) as [v Hv].
    { cbn. rewrite Hes. destruct (read_elems_total h es) as [ms ->]; [|by eexists].
      eapply Forall_impl; [exact Hw|]. by intros e []. }
    assert (exists h' c', put c k (Some a) h = Some (h', c')) as (h' & c' & Hput).
    { unfold put. destruct (cloneManifests_spec h (Some a)) as (h1 & cl & -> & _); [|by eexists _, _].
      eapply held_valid; [done| |by eexists]. by intros ? [= <-]. }
    exists h', c', v. split_and!; [done..|].
    edestruct (put_step h c held k (Some a) v h' c') as [_ Hsp]; [by split|by intros ? [= <-]|done..|].
    by inversion Hsp.
Qed.

Lemma step_capacity p l p' : pstep p l p' ->
  lru_capacity (rc_lru (p_cache p')) = lru_capacity (rc_lru (p_cache p)).
Proof.
  destruct 1 as [| |h c held k sl v h' c' _ _ Hput|h c held k h' c' sl v Hget _|h c held k h' c' Hget]; cbn; try done.
  - unfold put in Hput. destruct (cloneManifests h sl) as [[h1 cl]|]; [|done]. cbn in Hput. simplify_eq.
    cbn. apply Add_capacity.
  - unfold get in Hget. pose proof (Get_capacity k (rc_lru c)) as Hc. destruct (lru_Get k (rc_lru c)) as [[m|] l']; [|done].
    destruct (cloneManifests h m) as [[? ?]|]; [|done]. cbn in Hget. by simplify_eq.
  - unfold get in Hget. pose proof (Get_capacity k (rc_lru c)) as Hc. destruct (lru_Get k (rc_lru c)) as [[m|] l'].
    + by destruct (cloneManifests h m) as [[? ?]|].
    + by simplify_eq.
Qed.

Lemma step_bounded p l p' : pstep p l p' ->
  (0 < lru_capacity (rc_lru (p_cache p)))%Z ->
  (Z.of_nat (size (lru_contents (rc_lru (p_cache p)))) <= lru_capacity (rc_lru (p_cache p)))%Z ->
  (Z.of_nat (size (lru_contents (rc_lru (p_cache p')))) <= lru_capacity (rc_lru (p_cache p)))%Z.
Proof.
  destruct 1 as [| |h c held k sl v h' c' _ _ Hput|h c held k h' c' sl v Hget _|h c held k h' c' Hget]; cbn; try done.
  - unfold put in Hput. destruct (cloneManifests h sl) as [[h1 cl]|]; [|done]. cbn in Hput. simplify_eq.
    cbn. by apply Add_bounded.
  - rewrite get_unfold in Hget. destruct (_ !! k) as [m|]; [|done].
    destruct (cloneManifests h m) as [[? ?]|]; [|done]. cbn in Hget. simplify_eq. cbn. by rewrite Get_contents.
  - rewrite get_unfold in Hget. destruct (_ !! k) as [m|]; [by destruct (cloneManifests h m) as [[? ?]|]|].
    simplify_eq. cbn. by rewrite Get_contents.
Qed.

(** C35: The operator's cache is always built, and never holds more than
    defaultRenderCacheSize (32) renders, however many are put. *)
Theorem cache_is_bounded p ls p' :
  starts p -> exec p ls p' ->
  (Z.of_nat (size (lru_contents (rc_lru (p_cache p')))) <= defaultRenderCacheSize)%Z /\ is_Some NewRenderCache.
Proof.
  intros Hst Hex. split; [|destruct NewRenderCache_spec as (c & -> & _); by eexists].
  assert (lru_capacity (rc_lru (p_cache p')) = defaultRenderCacheSize /\
    (Z.of_nat (size (lru_contents (rc_lru (p_cache p')))) <= defaultRenderCacheSize)%Z) as [_ H]; [|exact H].
  induction Hex as [p|p ls p' l p'' _ IH Hs].
  - destruct (starts_contents p Hst) as [-> ->]. by rewrite map_size_empty.
  - destruct (IH Hst) as [Hc Hb]. rewrite (step_capacity _ _ _ Hs), <- Hc. split; [done|].
    apply step_bounded with (1 := Hs); rewrite Hc; done.
Qed.
End Executions.

(** ** A least-recently-used list, and an execution on it *)

Section SampleLRU.
Context {V : Type}.

Record lru_list := mkLruList { ll_cap : Z; ll_entries : list (string * V) }.

Definition without (k : string) (es : list (string * V)) : list (string * V) := filter (fun e => e.1 ≠ k) es.

#[export] Instance sample_LRU : LRU V := {|
  lru := lru_list;
  lru_New n := if (n <=? 0)%Z then Err (EExt "lru" "must provide a positive size") else Ok (mkLruList n []);
  lru_Get k l :=
    match list_to_map (M := gmap string V) (ll_entries l) !! k with
    | Some v => (Some v, mkLruList (ll_cap l) ((k, v) :: without k (ll_entries l)))
    | None => (None, l)
    end;
  lru_Add k v l :=
    let es := (k, v) :: without k (ll_entries l) in
    let keep := Nat.max 1 (Z.to_nat (ll_cap l)) in
    (bool_decide (keep < length es)%nat, mkLruList (ll_cap l) (take keep es));
  lru_contents l := list_to_map (ll_entries l);
  lru_capacity := ll_cap;
|}.

Lemma lookup_without k k' es : k' ≠ k ->
  list_to_map (M := gmap string V) (without k es) !! k' = list_to_map (M := gmap string V) es !! k'.
Proof.
  intros Hne. unfold without. induction es as [|[j v] es IH]; [done|]. rewrite filter_cons. cbn.
  destruct (decide (k' = j)) as [->|].
  - rewrite decide_True by done. cbn. by rewrite !lookup_insert_eq.
  - rewrite lookup_insert_ne by done. case_decide; [cbn; by rewrite lookup_insert_ne|done].
Qed.

Lemma lookup_take n (es : list (string * V)) k v :
  list_to_map (M := gmap string V) (take n es) !! k = Some v -> list_to_map (M := gmap string V) es !! k = Some v.
Proof.
  revert n. induction es as [|[j w] es IH]; intros [|n]; [done..|]. cbn.
  destruct (decide (k = j)) as [->|]; [by rewrite !lookup_insert_eq|rewrite !lookup_insert_ne by done; apply IH].
Qed.

Lemma size_le_length (es : list (string * V)) : (size (list_to_map (M := gmap string V) es) <= length es)%nat.
Proof.
  induction es as [|[j w] es IH]; cbn; [by rewrite map_size_empty|].
  rewrite map_size_insert. destruct (_ !! j); unfold id; lia.
Qed.

#[export] Instance sample_LRULaws : LRULaws sample_LRU.
Proof.
  split; cbn.
  - intros n Hn. destruct (Z.leb_spec n 0); [lia|]. by eexists.
  - intros k l. by destruct (_ !! k).
  - intros k l. destruct (_ !! k) as [v|] eqn:E; [|done]. cbn. apply map_eq. intros k'.
    destruct (decide (k' = k)) as [->|]; [by rewrite lookup_insert_eq|].
    rewrite lookup_insert_ne by done. by apply lookup_without.
  - intros k l. by destruct (_ !! k).
  - intros k v l. destruct (Nat.max 1 (Z.to_nat (ll_cap l))) as [|n] eqn:E; [lia|]. cbn. apply lookup_insert_eq.
  - intros k v l k' v' Hne H. destruct (Nat.max 1 (Z.to_nat (ll_cap l))) as [|n] eqn:E; [lia|].
    cbn in H. rewrite lookup_insert_ne in H by done. apply lookup_take in H. by rewrite lookup_without in H.
  - done.
  - intros k v l Hc _. pose proof (size_le_length (take (Nat.max 1 (Z.to_nat (ll_cap l))) ((k, v) :: without k (ll_entries l)))) as Hs.
    rewrite length_take in Hs. lia.
Qed.
End SampleLRU.

(** A render of one object is put in, then changed in place by its owner. *)
Definition x_obj (n : string) : obj := {["kind" := VString n]}.
Definition x_heap : heap := {[ 0 := CObj (x_obj "A"); 1 := CSlice [(0, "")] ]}.
Definition x_cache : renderCache := default (mkRenderCache (mkLruList 0 [])) NewRenderCache.
Definition x_start : process := mkProcess x_heap x_cache {[0; 1]}.
Definition x_put_result : heap * renderCache := default (x_heap, x_cache) (put x_cache "k" (Some 1) x_heap).
Definition x_put : process := mkProcess x_put_result.1 x_put_result.2 {[0; 1]}.
Definition x_dirty : process := mkProcess (<[0 := CObj (x_obj "B")]> (p_heap x_put)) (p_cache x_put) {[0; 1]}.
Definition x_value : option (list Manifest) := Some [mkManifest (x_obj "A") ""].
Definition x_hit_result : heap * renderCache * option slice :=
  default (∅, x_cache, None) (get (p_cache x_dirty) "k" (p_heap x_dirty)).
Definition x_hit : process :=
  mkProcess x_hit_result.1.1 x_hit_result.1.2 (slice_cells x_hit_result.1.1 (default None x_hit_result.2) ∪ {[0; 1]}).

Lemma x_starts : starts x_start.
Proof.
  split; [done|]. intros p Hp. change (p ∈ ({[0; 1]} : gset nat)) in Hp. apply elem_of_union in Hp as [->%elem_of_singleton| ->%elem_of_singleton].
  - by exists (CObj (x_obj "A")).
  - exists (CSlice [(0, "")]). split; [done|]. cbn. constructor; [|constructor].
    split; [by apply elem_of_union_l, elem_of_singleton|by exists (x_obj "A")].
Qed.

Lemma x_puts : put x_cache "k" (Some 1) x_heap = Some (x_put_result.1, x_put_result.2).
Proof. reflexivity. Qed.

Lemma x_exec : exec x_start [LPut "k" x_value; LCaller] x_dirty.
Proof.
  apply (exec_snoc _ [LPut "k" x_value] x_put); [apply (exec_snoc _ [] x_start); [constructor|]|].
  - refine (step_put x_heap x_cache {[0; 1]} "k" (Some 1) x_value _ _ _ _ x_puts); [|by vm_compute].
    intros a [= <-]. by apply elem_of_union_r, elem_of_singleton.
  - refine (step_write x_put_result.1 x_put_result.2 {[0; 1]} 0 (CObj (x_obj "A")) (CObj (x_obj "B")) _ _ I I); [|by vm_compute].
    by apply elem_of_union_l, elem_of_singleton.
Qed.

Lemma x_hits : get (p_cache x_dirty) "k" (p_heap x_dirty) =
  Some (x_hit_result.1.1, x_hit_result.1.2, Some (default None x_hit_result.2)).
Proof. reflexivity. Qed.

Lemma x_gets : pstep x_dirty (LGet "k" (Some x_value)) x_hit.
Proof.
  refine (step_get_hit (p_heap x_dirty) (p_cache x_dirty) {[0; 1]} "k" _ _ _ x_value x_hits _).
  by vm_compute.
Qed.

Lemma cache_returns_last_put_witness :
  last_put [LPut "k" x_value; LCaller] "k" x_value /\
  exists cells, p_held x_hit = cells ∪ p_held x_dirty /\ cells ## p_held x_dirty.
Proof. exact (cache_returns_last_put x_start _ x_dirty "k" x_value x_hit x_starts x_exec x_gets). Defined.

Lemma cache_calls_total_witness :
  (exists h c r, get (p_cache x_dirty) "k" (p_heap x_dirty) = Some (h, c, r) /\
     (r = None <-> cache_view x_dirty !! "k" = None)).
Proof. exact (proj1 (cache_calls_total x_start _ x_dirty x_starts x_exec) "k"). Defined.

Lemma cache_is_bounded_witness :
  (Z.of_nat (size (lru_contents (rc_lru (p_cache x_dirty)))) <= defaultRenderCacheSize)%Z /\
  is_Some (NewRenderCache (L := sample_LRU)).
Proof. exact (cache_is_bounded x_start _ x_dirty x_starts x_exec). Defined.
