(* ===== verification/Applier.v ===== *)
(** internal/deliver: health grading (health.go), the caBundle strip
    (cabundle.go) and the server-side-apply Applier (applier.go), with the
    contract the reconciler relies on. *)

From S2P Require Import Prelude Value Apimachinery Types Clients Manifest Order Boundary Reference.

(** ** health.go *)

Section Health.
Context {U : Unstructured}.

Definition replicaHealth (u : obj) : HealthState :=
  let '(replicas, _, errR) := NestedInt64 u ["spec"; "replicas"] in
  let '(available, _, errA) := NestedInt64 u ["status"; "availableReplicas"] in
  if is_set errR || is_set errA then HealthProgressing
  else if (replicas <=? available)%Z then HealthHealthy
  else HealthProgressing.

(** [cm[k] == want] on an interface value. *)
Definition field_is (cm : obj) (k want : string) : bool :=
  match cm !! k with Some (VString s) => bool_decide (s = want) | _ => false end.

(** The loop over the conditions. *)
Fixpoint established (conds : list value) : bool :=
  match conds with
  | [] => false
  | VMap cm :: conds' =>
      if field_is cm "type" "Established" && field_is cm "status" "True" then true
      else established conds'
  | _ :: conds' => established conds'
  end.

Definition crdHealth (u : obj) : HealthState :=
  match NestedSlice u ["status"; "conditions"] with
  | (_, _, Some _) => HealthProgressing
  | (conds, _, None) => if established conds then HealthHealthy else HealthProgressing
  end.

Definition computeHealth (u : option obj) : HealthState :=
  match u with
  | None => HealthUnknown
  | Some u =>
      let kind := GetKind u in
      if bool_decide (kind ∈ ["Deployment"; "StatefulSet"]) then replicaHealth u
      else if bool_decide (kind = "CustomResourceDefinition") then crdHealth u
      else HealthHealthy
  end.
End Health.

(** ** cabundle.go *)

Section CABundle.
Context {U : Unstructured}.

(** The loop body: only entries that are objects are touched. *)
Definition strip_webhook (w : value) : value :=
  match w with
  | VMap wh => VMap (RemoveNestedField wh ["clientConfig"; "caBundle"])
  | _ => w
  end.

Definition stripCABundleFromWebhooks (u : obj) : obj :=
  match NestedSlice u ["webhooks"] with
  | (_, _, Some _) => u
  | (_, false, None) => u
  | (whs, true, None) => fst (SetNestedSlice u (map strip_webhook whs) ["webhooks"])
  end.

Definition stripCABundleFromCRDConversion (u : obj) : obj :=
  RemoveNestedField u ["spec"; "conversion"; "webhook"; "clientConfig"; "caBundle"].

Definition prepareForApply (u : obj) : obj :=
  let kind := GetKind u in
  if bool_decide (kind ∈ ["ValidatingWebhookConfiguration"; "MutatingWebhookConfiguration"])
  then stripCABundleFromWebhooks u
  else if bool_decide (kind = "CustomResourceDefinition") then stripCABundleFromCRDConversion u
  else u.
End CABundle.

(** ** applier.go *)

(** The Applier interface.  Apply works on the object the manifest points to, so
    it also returns the manifest as it is left. *)
Record Applier {B : Boundary} := mkApplier {
  ap_Apply : Manifest -> string -> M (Manifest * ResourceStatus * option error);
  ap_Delete : Manifest -> string -> M (option error);
  ap_Get : Manifest -> M (result obj);
}.
Arguments Applier : clear implicits.

Record SSAApplier := mkSSAApplier {
  ssa_Client : client;
  ssa_FieldManager : string;
  ssa_Cluster : string;
}.

Section SSA.
Context {U : Unstructured} {E : ApiErrors} {B : Boundary}.

Definition SSA_Get (a : SSAApplier) (m : Manifest) : M (result obj) :=
  let u := m_Unstructured m in
  Get (ssa_Client a) (GetGroupVersionKind u) (ObjectKeyFromObject u).

(** (owner, conflict, err) *)
Definition foreignOwner (a : SSAApplier) (u : obj) (ownedBy : string)
  : M (string * bool * option error) :=
  do r <- Get (ssa_Client a) (GetGroupVersionKind u) (ObjectKeyFromObject u);
  match r with
  | Err getErr =>
      if IsNotFound getErr then ret ("", false, None) else ret ("", false, Some getErr)
  | Ok live =>
      let owner := map_get (GetLabels live) OwnedByLabel in
      ret (owner, negb (bool_decide (owner = "")) && negb (bool_decide (owner = ownedBy)), None)
  end.

Definition degraded (status : ResourceStatus) (h : HealthState) (msg : string) : ResourceStatus :=
  mkResourceStatus (rs_Kind status) (rs_APIVersion status) (rs_Namespace status) (rs_Name status)
    h (rs_LastApplied status) msg.

(** The part of Apply after the conflict guard. *)
Definition apply_patch (a : SSAApplier) (m : Manifest) (u : obj) (status : ResourceStatus)
  : M (Manifest * ResourceStatus * option error) :=
  do (u', err) <- Patch (ssa_Client a) (ssa_FieldManager a) u;
  let m' := mkManifest u' (m_Origin m) in
  match err with
  | Some e => ret (m', degraded status HealthDegraded (Error e), Some e)
  | None =>
      do r <- SSA_Get a m';
      match r with
      | Err e => ret (m', degraded status HealthUnknown
                            ("apply succeeded but read-back GET failed: " +:+ Error e), None)
      | Ok live => ret (m', degraded status (computeHealth (Some live)) (rs_Message status), None)
      end
  end.

(** The in-place preparation at the start of Apply. *)
Definition prepared (u : obj) (ownedBy : string) : obj :=
  prepareForApply (SetOwnedByLabel (StripInternalAnnotations u) ownedBy).

Definition SSA_Apply (a : SSAApplier) (m : Manifest) (ownedBy : string)
  : M (Manifest * ResourceStatus * option error) :=
  let u := prepared (m_Unstructured m) ownedBy in
  let m' := mkManifest u (m_Origin m) in
  do now <- Now;
  let status := mkResourceStatus (GetKind u) (GetAPIVersion u) (GetNamespace u) (GetName u) "" (Some now) "" in
  if IsClusterScoped (GetKind u) then
    do (owner, conflict, err) <- foreignOwner a u ownedBy;
    match err with
    | Some e =>
        ret (m', degraded status HealthDegraded
                   ("cluster-scoped conflict pre-check failed for " +:+ GetKind u +:+ " " +:+
                    quote (GetName u) +:+ ": " +:+ Error e), Some e)
    | None =>
        if conflict : bool then
          let msg := "cluster-scoped " +:+ GetKind u +:+ " " +:+ quote (GetName u) +:+
                     " already owned by CR " +:+ quote owner +:+
                     "; refusing to overwrite (single-install-per-seed)" in
          ret (m', degraded status HealthDegraded msg, Some (ENew msg))
        else apply_patch a m u status
    end
  else apply_patch a m u status.

Definition SSA_Delete (a : SSAApplier) (m : Manifest) (ownedBy : string) : M (option error) :=
  do r <- SSA_Get a m;
  match r with
  | Err e => if IsNotFound e then ret None else ret (Some e)
  | Ok live =>
      if negb (bool_decide (map_get (GetLabels live) OwnedByLabel = ownedBy)) then ret None
      else
        do e <- DeleteObj (ssa_Client a) (m_Unstructured m);
        match e with
        | Some e => if negb (IsNotFound e) then ret (Some e) else ret None
        | None => ret None
        end
  end.

(** [*SSAApplier] as an Applier. *)
Definition SSA (a : SSAApplier) : Applier B := mkApplier B (SSA_Apply a) (SSA_Delete a) (SSA_Get a).
End SSA.

(** ** The contract of an Applier

    What a call does to the cluster, as relations between its result and the API
    calls it made.  The reconciler is verified against these relations only. *)

Section Contract.
Context {U : Unstructured} {E : ApiErrors} {B : Boundary}.

(** The owned-by label of a live object. *)
Definition owner_of (live : obj) : string := map_get (GetLabels live) OwnedByLabel.

(** The guard let the patch through: a namespaced kind is not looked up, a
    cluster-scoped object was absent, unowned or ours. *)
Inductive guard_ok (c : client) (u : obj) (ownedBy : string) : list event -> Prop :=
| guard_namespaced : IsClusterScoped (GetKind u) = false -> guard_ok c u ownedBy []
| guard_absent e : IsClusterScoped (GetKind u) = true -> IsNotFound e = true ->
    guard_ok c u ownedBy [EvGet c (GetGroupVersionKind u) (ObjectKeyFromObject u) (Err e)]
| guard_own live : IsClusterScoped (GetKind u) = true -> (owner_of live = "" \/ owner_of live = ownedBy) ->
    guard_ok c u ownedBy [EvGet c (GetGroupVersionKind u) (ObjectKeyFromObject u) (Ok live)].

(** [u'] is what a patch through [c] leaves in the object [u] it was given. *)
Definition left_by_patch (c : client) (u u' : obj) : Prop :=
  exists fieldManager s, u' = fst (fst (client_Patch c fieldManager u s)).

(** Apply of the prepared object [u]: the error, the health reported, the calls.
    After an accepted patch the object it left is read back and graded. *)
Inductive apply_outcome (c : client) (u : obj) (ownedBy : string)
  : option error -> HealthState -> list event -> Prop :=
| apply_precheck_failed e : IsClusterScoped (GetKind u) = true -> IsNotFound e = false ->
    apply_outcome c u ownedBy (Some e) HealthDegraded
      [EvGet c (GetGroupVersionKind u) (ObjectKeyFromObject u) (Err e)]
| apply_conflict live e : IsClusterScoped (GetKind u) = true ->
    owner_of live ≠ "" -> owner_of live ≠ ownedBy ->
    apply_outcome c u ownedBy (Some e) HealthDegraded
      [EvGet c (GetGroupVersionKind u) (ObjectKeyFromObject u) (Ok live)]
| apply_rejected pre e : guard_ok c u ownedBy pre ->
    apply_outcome c u ownedBy (Some e) HealthDegraded (pre ++ [EvPatch c u (Some e)])
| apply_done pre h u' r : guard_ok c u ownedBy pre -> left_by_patch c u u' ->
    h = match r with Ok live => computeHealth (Some live) | Err _ => HealthUnknown end ->
    apply_outcome c u ownedBy None h
      (pre ++ [EvPatch c u None; EvGet c (GetGroupVersionKind u') (ObjectKeyFromObject u') r]).

(** Delete of the object named by [u]. *)
Inductive delete_outcome (c : client) (u : obj) (ownedBy : string) : option error -> list event -> Prop :=
| delete_absent e : IsNotFound e = true ->
    delete_outcome c u ownedBy None [EvGet c (GetGroupVersionKind u) (ObjectKeyFromObject u) (Err e)]
| delete_get_failed e : IsNotFound e = false ->
    delete_outcome c u ownedBy (Some e) [EvGet c (GetGroupVersionKind u) (ObjectKeyFromObject u) (Err e)]
| delete_foreign live : owner_of live ≠ ownedBy ->
    delete_outcome c u ownedBy None [EvGet c (GetGroupVersionKind u) (ObjectKeyFromObject u) (Ok live)]
| delete_done live e : owner_of live = ownedBy ->
    (e = None \/ exists e', e = Some e' /\ IsNotFound e' = true) ->
    delete_outcome c u ownedBy None
      [EvGet c (GetGroupVersionKind u) (ObjectKeyFromObject u) (Ok live); EvDelete c u e]
| delete_failed live e : owner_of live = ownedBy -> IsNotFound e = false ->
    delete_outcome c u ownedBy (Some e)
      [EvGet c (GetGroupVersionKind u) (ObjectKeyFromObject u) (Ok live); EvDelete c u (Some e)].


(** The manifest after Apply: the prepared object, or what the server returned
    for it. *)
Definition left_by_apply (c : client) (ownedBy : string) (m m' : Manifest) : Prop :=
  m_Origin m' = m_Origin m /\
  (m_Unstructured m' = prepared (m_Unstructured m) ownedBy \/
   left_by_patch c (prepared (m_Unstructured m) ownedBy) (m_Unstructured m')).
End Contract.

(** An Applier that writes through client [c]. *)
Class ApplierContract `{Unstructured} `{ApiErrors} {B : Boundary} (a : Applier B) (c : client) : Prop := {
  contract_Apply m ownedBy :
    post (ap_Apply a m ownedBy) (fun '(m', st, err) t =>
      left_by_apply c ownedBy m m' /\
      status_of (prepared (m_Unstructured m) ownedBy) st /\
      apply_outcome c (prepared (m_Unstructured m) ownedBy) ownedBy err (rs_Health st) t);
  contract_Delete m ownedBy :
    post (ap_Delete a m ownedBy) (fun err t => delete_outcome c (m_Unstructured m) ownedBy err t);
  contract_Get m :
    post (ap_Get a m) (fun r t =>
      t = [EvGet c (GetGroupVersionKind (m_Unstructured m)) (ObjectKeyFromObject (m_Unstructured m)) r]);
}.

(** ** The SSA applier meets the contract *)

Section Refinement.
Context {U : Unstructured} {E : ApiErrors} {B : Boundary}.

Lemma post_SSA_Get a m :
  post (SSA_Get a m) (fun r t =>
    t = [EvGet (ssa_Client a) (GetGroupVersionKind (m_Unstructured m)) (ObjectKeyFromObject (m_Unstructured m)) r]).
Proof. apply post_Get. Qed.

Lemma post_apply_patch a m u ownedBy status pre :
  u = prepared (m_Unstructured m) ownedBy ->
  guard_ok (ssa_Client a) u ownedBy pre -> status_of u status ->
  post (apply_patch a m u status) (fun '(m', st, err) t =>
    left_by_apply (ssa_Client a) ownedBy m m' /\
    status_of u st /\ apply_outcome (ssa_Client a) u ownedBy err (rs_Health st) (pre ++ t)).
Proof.
  intros Hu Hg Hs. unfold apply_patch.
  eapply post_bind; [apply post_Patch|]. cbn beta. intros [u' err] t [-> [s Hp]]. cbn [snd].
  assert (left_by_patch (ssa_Client a) u u') as Hp' by (exists (ssa_FieldManager a), s; by rewrite <- Hp).
  assert (left_by_apply (ssa_Client a) ownedBy m (mkManifest u' (m_Origin m))) as Hl
    by (split; [done|]; right; by rewrite <- Hu).
  destruct err as [e|]; [apply post_ret; split_and!; [done..|by apply apply_rejected]|].
  eapply post_bind; [apply post_SSA_Get|]. cbn beta. intros r t ->.
  destruct r as [live|e]; apply post_ret; (split_and!; [done..|]); rewrite app_nil_r; by eapply apply_done.
Qed.

Lemma post_SSA_Apply a m ownedBy :
  post (SSA_Apply a m ownedBy) (fun '(m', st, err) t =>
    left_by_apply (ssa_Client a) ownedBy m m' /\
    status_of (prepared (m_Unstructured m) ownedBy) st /\
    apply_outcome (ssa_Client a) (prepared (m_Unstructured m) ownedBy) ownedBy err (rs_Health st) t).
Proof.
  unfold SSA_Apply. set (u := prepared _ _).
  assert (left_by_apply (ssa_Client a) ownedBy m (mkManifest u (m_Origin m))) as Hl by (split; [done|by left]).
  eapply post_bind; [apply post_Now|]. cbn beta. intros now t ->. cbn [app].
  destruct (IsClusterScoped (GetKind u)) eqn:Ek.
  2:{ eapply post_mono; [apply (post_apply_patch a m u ownedBy _ []); [done|by constructor|done]|].
      intros [[m' st] err] t. done. }
  unfold foreignOwner.
  eapply post_bind with (P := fun '(owner, conflict, err) t =>
    exists r, t = [EvGet (ssa_Client a) (GetGroupVersionKind u) (ObjectKeyFromObject u) r] /\
      match r with
      | Ok live => err = None /\ conflict =
          negb (bool_decide (owner_of live = "")) && negb (bool_decide (owner_of live = ownedBy))
      | Err e => conflict = false /\ err = if IsNotFound e then None else Some e
      end).
  { eapply post_bind; [apply post_Get|]. cbn beta. intros r t ->.
    destruct r as [live|e]; [|destruct (IsNotFound e) eqn:En]; apply post_ret;
      eexists; (split; [reflexivity|]); cbn; rewrite ?En; done. }
  intros [[owner conflict] err] t (r & -> & Hr). destruct r as [live|e].
  - destruct Hr as [-> Hc]. destruct conflict.
    + symmetry in Hc. apply andb_prop in Hc as [H1 H2].
      rewrite negb_true_iff, bool_decide_eq_false in H1, H2.
      apply post_ret. split_and!; [done..|]. by apply apply_conflict.
    + eapply post_mono; [eapply (post_apply_patch a m u ownedBy)|by intros [[? ?] ?] ?]; [done| |done].
      apply guard_own; [done|]. symmetry in Hc. apply andb_false_iff in Hc as [Hc|Hc];
        rewrite negb_false_iff, bool_decide_eq_true in Hc; auto.
  - destruct Hr as [-> ->]. destruct (IsNotFound e) eqn:En.
    + eapply post_mono; [eapply (post_apply_patch a m u ownedBy)|by intros [[? ?] ?] ?]; [done| |done].
      by apply guard_absent.
    + apply post_ret. split_and!; [done..|]. by apply apply_precheck_failed.
Qed.

Lemma post_SSA_Delete a m ownedBy :
  post (SSA_Delete a m ownedBy) (fun err t => delete_outcome (ssa_Client a) (m_Unstructured m) ownedBy err t).
Proof.
  unfold SSA_Delete. eapply post_bind; [apply post_SSA_Get|]. cbn beta. intros r t ->.
  destruct r as [live|e].
  - case_bool_decide as Ho; cbn [negb].
    + eapply post_bind; [apply post_DeleteObj|]. cbn beta. intros [e|] t ->.
      * destruct (IsNotFound e) eqn:En; cbn [negb]; apply post_ret.
        -- apply delete_done; eauto.
        -- by apply delete_failed.
      * apply post_ret. apply delete_done; auto.
    + apply post_ret. by apply delete_foreign.
  - destruct (IsNotFound e) eqn:En; apply post_ret; [by apply delete_absent|by apply delete_get_failed].
Qed.

#[export] Instance SSA_contract a : ApplierContract (SSA a) (ssa_Client a).
Proof. split; intros; [apply post_SSA_Apply|apply post_SSA_Delete|apply post_SSA_Get]. Qed.
End Refinement.
