(* ===== verification/ApplierProps.v ===== *)
(** Properties of the delivery layer: health grading, the object that is sent,
    and the calls of the SSA applier. *)

From S2P Require Import Prelude Value Apimachinery Types Clients Manifest Order Boundary Applier Reference.

Section Health.
Context {U : Unstructured}.

Lemma replicaHealth_cases u : replicaHealth u = HealthHealthy \/ replicaHealth u = HealthProgressing.
Proof. unfold replicaHealth. repeat case_match; auto. Qed.

Lemma crdHealth_cases u : crdHealth u = HealthHealthy \/ crdHealth u = HealthProgressing.
Proof. unfold crdHealth. repeat case_match; auto. Qed.

(** A live object is Healthy or Progressing. *)
Lemma computeHealth_cases u :
  computeHealth (Some u) = HealthHealthy \/ computeHealth (Some u) = HealthProgressing.
Proof.
  cbn. destruct (replicaHealth_cases u) as [->| ->], (crdHealth_cases u) as [->| ->];
    repeat case_match; by (left + right).
Qed.

Lemma computeHealth_not_degraded u : computeHealth u ≠ HealthDegraded.
Proof. destruct u as [u|]; [|done]. by destruct (computeHealth_cases u) as [->| ->]. Qed.

Lemma established_spec conds :
  established conds = true <->
  exists cm, VMap cm ∈ conds /\ cm !! "type" = Some (VString "Established") /\
             cm !! "status" = Some (VString "True").
Proof.
  assert (forall cm k w, field_is cm k w = true <-> cm !! k = Some (VString w)) as Hf.
  { intros cm k w. unfold field_is. destruct (cm !! k) as [[]|]; try done.
    rewrite bool_decide_eq_true. naive_solver. }
  induction conds as [|v conds IH]; cbn; [split; [done|]; intros (cm & H & _); by apply elem_of_nil in H|].
  destruct v as [| | | | | |m].
  all: try (rewrite IH; split; intros (cm & Hin & Hcm); exists cm;
            (split; [rewrite ?elem_of_cons in *; naive_solver|done])).
  destruct (field_is m "type" "Established" && field_is m "status" "True") eqn:E.
  - apply andb_prop in E as [E1 E2]. rewrite Hf in E1, E2. split; [|done]. intros _.
    exists m. split; [left|done].
  - rewrite IH. split; intros (cm & Hin & H1 & H2); exists cm; (split; [|done]).
    + by right.
    + apply elem_of_cons in Hin as [[= ->]|Hin]; [|done].
      rewrite <- Hf in H1, H2. by rewrite H1, H2 in E.
Qed.
End Health.

(** ** The object that is sent *)

Section Sent.
Context {U : Unstructured} {UL : UnstructuredLaws U}.

Abbreviation p_caBundle := ["clientConfig"; "caBundle"].
Abbreviation p_conversion_ca := ["spec"; "conversion"; "webhook"; "clientConfig"; "caBundle"].

(** Outside the identity and metadata fields nothing can break well-typedness. *)
Lemma well_typed_payload o o' k p :
  k ∉ ["kind"; "apiVersion"; "metadata"] -> same_except (k :: p) o o' -> o' !! "metadata" = o !! "metadata" ->
  well_typed o -> well_typed o'.
Proof.
  intros Hk Hf Hm [[s Hs] [a Ha] [ns Hns] [n Hn] [l Hl] [an Han] Hw].
  assert (forall q j, j ∈ ["kind"; "apiVersion"; "metadata"] -> vget o' (j :: q) = vget o (j :: q)) as Hg.
  { intros q j Hj. apply Hf. cbn. rewrite (bool_decide_eq_false_2 (k = j)); [done|]. by intros ->. }
  assert ("kind" ∈ ["kind"; "apiVersion"; "metadata"]) by set_solver.
  assert ("apiVersion" ∈ ["kind"; "apiVersion"; "metadata"]) by set_solver.
  assert ("metadata" ∈ ["kind"; "apiVersion"; "metadata"]) by set_solver.
  split.
  - exists s. by rewrite (str_at_ext _ o) by auto.
  - exists a. by rewrite (str_at_ext _ o) by auto.
  - exists ns. by rewrite (str_at_ext _ o) by auto.
  - exists n. by rewrite (str_at_ext _ o) by auto.
  - exists l. by rewrite (strmap_at_ext _ o) by auto.
  - exists an. by rewrite (strmap_at_ext _ o) by auto.
  - cbn in *. by rewrite Hm.
Qed.

(** What stripCABundleFromWebhooks does on every shape of [webhooks]. *)
Lemma stripCABundleFromWebhooks_eq u :
  stripCABundleFromWebhooks u =
    match vget u ["webhooks"] with
    | Found (VSlice whs) => vset u ["webhooks"] (VSlice (map strip_webhook whs))
    | _ => u
    end.
Proof.
  unfold stripCABundleFromWebhooks. destruct (vget u ["webhooks"]) as [v| | |] eqn:Ev.
  - destruct v; try (destruct (NestedSlice_bad u ["webhooks"]) as [e ->]; [right; by eexists|done]).
    rewrite (NestedSlice_found _ _ _ Ev). by rewrite SetNestedSlice_law.
  - by rewrite NestedSlice_missing.
  - cbn in Ev. by destruct (u !! "webhooks").
  - cbn in Ev. by destruct (u !! "webhooks").
Qed.

(** No entry of [webhooks] carries a caBundle. *)
Definition webhooks_clean (u : obj) : Prop :=
  forall whs wh v, vget u ["webhooks"] = Found (VSlice whs) -> VMap wh ∈ whs ->
    vget wh p_caBundle ≠ Found v.

Definition conversion_clean (u : obj) : Prop := forall v, vget u p_conversion_ca ≠ Found v.

(** The two entries differ at most in the caBundle leaf. *)
Definition same_webhook (w w' : value) : Prop :=
  match w, w' with
  | VMap wh, VMap wh' => same_except p_caBundle wh wh'
  | _, _ => w' = w
  end.

Lemma strip_webhook_same w : same_webhook w (strip_webhook w).
Proof. destruct w; cbn; try done. rewrite RemoveNestedField_law by done. auto with ddo. Qed.

Lemma stripCABundleFromWebhooks_spec u :
  same_except ["webhooks"] u (stripCABundleFromWebhooks u) /\
  stripCABundleFromWebhooks u !! "metadata" = u !! "metadata" /\
  webhooks_clean (stripCABundleFromWebhooks u) /\
  (forall whs, vget u ["webhooks"] = Found (VSlice whs) ->
     exists whs', vget (stripCABundleFromWebhooks u) ["webhooks"] = Found (VSlice whs') /\
       Forall2 same_webhook whs whs').
Proof.
  rewrite stripCABundleFromWebhooks_eq.
  destruct (vget u ["webhooks"]) as [v| | |] eqn:Ev;
    [destruct v|..]; try (split_and!; [auto with ddo|done|intros ? ? ?; by rewrite Ev|intros ?; by rewrite Ev]).
  split_and!; [auto with ddo|by rewrite vset_lookup_ne| |].
  - intros whs wh v. rewrite vget_vset_eq by done. intros [= <-] Hin.
    apply list_elem_of_In, in_map_iff in Hin as (w & Hw & _). destruct w; cbn in Hw; try done.
    injection Hw as <-. rewrite RemoveNestedField_law by done. by apply vget_vremove_eq.
  - intros whs [= <-]. eexists. rewrite vget_vset_eq by done. split; [done|].
    apply Forall2_fmap_r, Forall_Forall2_diag, Forall_forall. intros w _. apply strip_webhook_same.
Qed.

Lemma stripCABundleFromCRDConversion_spec u :
  same_except p_conversion_ca u (stripCABundleFromCRDConversion u) /\
  stripCABundleFromCRDConversion u !! "metadata" = u !! "metadata" /\
  conversion_clean (stripCABundleFromCRDConversion u).
Proof.
  unfold stripCABundleFromCRDConversion. rewrite RemoveNestedField_law by done.
  split_and!; [auto with ddo|by apply vremove_lookup_ne|]. intros v. by apply vget_vremove_eq.
Qed.

Definition is_webhook_config (kind : string) : bool :=
  bool_decide (kind ∈ ["ValidatingWebhookConfiguration"; "MutatingWebhookConfiguration"]).

Lemma prepareForApply_spec u :
  well_typed u ->
  well_typed (prepareForApply u) /\
  (forall p, diverge ["webhooks"] p = true -> diverge p_conversion_ca p = true ->
     vget (prepareForApply u) p = vget u p) /\
  (is_webhook_config (GetKind u) = true -> webhooks_clean (prepareForApply u)) /\
  (GetKind u = "CustomResourceDefinition" -> conversion_clean (prepareForApply u)).
Proof.
  intros Hw. unfold prepareForApply, is_webhook_config.
  destruct (stripCABundleFromWebhooks_spec u) as (H1 & H2 & H3 & _).
  destruct (stripCABundleFromCRDConversion_spec u) as (C1 & C2 & C3).
  case_bool_decide as Hk; [|case_bool_decide as Hk'].
  - split_and!; [|by intros; apply H1|done|intros HH; rewrite HH in Hk; set_solver].
    eapply (well_typed_payload u); [|exact H1|exact H2|done]. set_solver.
  - split_and!; [|by intros; apply C1|done|done].
    eapply (well_typed_payload u); [|exact C1|exact C2|done]. set_solver.
  - by split_and!.
Qed.

(** Getters whose paths are untouched by the preparation. *)
Lemma prepared_spec u ownedBy :
  well_typed u ->
  let u' := prepared u ownedBy in
  well_typed u' /\
  GetKind u' = GetKind u /\ GetAPIVersion u' = GetAPIVersion u /\
  GetNamespace u' = GetNamespace u /\ GetName u' = GetName u /\
  owner_of u' = ownedBy /\
  map_get (GetAnnotations u') OriginAnnotation = "" /\
  (is_webhook_config (GetKind u) = true -> webhooks_clean u') /\
  (GetKind u = "CustomResourceDefinition" -> conversion_clean u').
Proof.
  intros Hw. unfold prepared. cbn zeta.
  destruct (StripInternalAnnotations_spec u Hw) as (W1 & F1 & A1 & _).
  set (u1 := StripInternalAnnotations u) in *.
  destruct (SetOwnedByLabel_spec u1 ownedBy W1) as (W2 & F2 & L2 & _).
  set (u2 := SetOwnedByLabel u1 ownedBy) in *.
  destruct (prepareForApply_spec u2 W2) as (W3 & F3 & K1 & K2).
  assert (GetKind u2 = GetKind u) as Ek.
  { rewrite (GetKind_ext u1 u2), (GetKind_ext u u1); auto. }
  rewrite Ek in K1, K2. set (u3 := prepareForApply u2) in *.
  split_and!; [done|..|done|done].
  - by rewrite (GetKind_ext u2 u3) by auto.
  - rewrite (GetAPIVersion_ext u2 u3), (GetAPIVersion_ext u1 u2), (GetAPIVersion_ext u u1); auto.
  - rewrite (GetNamespace_ext u2 u3), (GetNamespace_ext u1 u2), (GetNamespace_ext u u1); auto.
  - rewrite (GetName_ext u2 u3), (GetName_ext u1 u2), (GetName_ext u u1); auto.
  - unfold owner_of. by rewrite (GetLabels_ext u2 u3) by auto.
  - by rewrite (GetAnnotations_ext u2 u3), (GetAnnotations_ext u1 u2) by auto.
Qed.
End Sent.

(** ** Claims *)

Section HealthClaims.
Context {U : Unstructured} {UL : UnstructuredLaws U}.

(** The integer a path holds, zero when absent. *)
Definition int_at (u : obj) (p : list string) (z : Z) : Prop :=
  vget u p = Found (VInt z) \/ (vget u p = Missing /\ z = 0%Z).

Lemma NestedInt64_int_at u p z : int_at u p z -> exists found, NestedInt64 u p = (z, found, None).
Proof. intros [H|[H ->]]; [rewrite (NestedInt64_found _ _ _ H)|rewrite (NestedInt64_missing _ _ H)]; by eexists. Qed.

(** Health grading. A Deployment or StatefulSet is Healthy exactly when its
    available replicas reach the desired ones (absent counts read as zero), a CRD
    exactly when a condition says Established=True, any other object always; when
    not Healthy they are Progressing, and no live object is ever graded Degraded. *)
Theorem health_grading u :
  (GetKind u ∈ ["Deployment"; "StatefulSet"] -> forall want have,
     int_at u ["spec"; "replicas"] want -> int_at u ["status"; "availableReplicas"] have ->
     computeHealth (Some u) = if (want <=? have)%Z then HealthHealthy else HealthProgressing) /\
  (GetKind u = "CustomResourceDefinition" -> forall conds,
     vget u ["status"; "conditions"] = Found (VSlice conds) ->
     computeHealth (Some u) = HealthHealthy <->
     exists cm, VMap cm ∈ conds /\ cm !! "type" = Some (VString "Established") /\
                cm !! "status" = Some (VString "True")) /\
  (GetKind u ∉ ["Deployment"; "StatefulSet"; "CustomResourceDefinition"] ->
     computeHealth (Some u) = HealthHealthy) /\
  computeHealth (Some u) ∈ [HealthHealthy; HealthProgressing].
Proof.
  unfold computeHealth. split_and!.
  - intros Hk want have Hw Hh. rewrite bool_decide_eq_true_2 by done. unfold replicaHealth.
    destruct (NestedInt64_int_at _ _ _ Hw) as [f1 ->], (NestedInt64_int_at _ _ _ Hh) as [f2 ->]. done.
  - intros Hk conds Hc. rewrite Hk. rewrite bool_decide_eq_false_2 by (intros Hin; in_list).
    rewrite bool_decide_eq_true_2 by done. unfold crdHealth. rewrite (NestedSlice_found _ _ _ Hc).
    rewrite <- established_spec. by destruct (established conds).
  - intros Hk. rewrite !bool_decide_eq_false_2; [done| |]; intros H; apply Hk; [subst; by rewrite H; repeat constructor|].
    in_goal.
  - destruct (computeHealth_cases u) as [H|H]; unfold computeHealth in H; rewrite H; by repeat constructor.
Qed.

(** The paths an Apply may change in the object it sends. *)
Definition mark_paths : list (list string) :=
  [["metadata"; "annotations"]; ["metadata"; "labels"]; ["webhooks"];
   ["spec"; "conversion"; "webhook"; "clientConfig"; "caBundle"]].

(** C31: preparation leaves the payload alone. Outside labels, annotations, the webhook
    list and the conversion caBundle every field of the object sent is the rendered
    one; all other labels and annotations are kept; and the webhook list is kept
    entry by entry up to the caBundle. *)
Theorem prepared_keeps_payload u ownedBy :
  well_typed u ->
  let u' := prepared u ownedBy in
  (forall p, Forall (fun q => diverge q p = true) mark_paths -> vget u' p = vget u p) /\
  (forall k, k ≠ OriginAnnotation -> map_get (GetAnnotations u') k = map_get (GetAnnotations u) k) /\
  (forall k, k ≠ OwnedByLabel -> map_get (GetLabels u') k = map_get (GetLabels u) k) /\
  (forall whs, vget u ["webhooks"] = Found (VSlice whs) ->
     exists whs', vget u' ["webhooks"] = Found (VSlice whs') /\ Forall2 same_webhook whs whs').
Proof.
  intros Hw. unfold prepared. cbn zeta.
  destruct (StripInternalAnnotations_spec u Hw) as (W1 & F1 & _ & A1).
  set (u1 := StripInternalAnnotations u) in *.
  destruct (SetOwnedByLabel_spec u1 ownedBy W1) as (W2 & F2 & _ & L2).
  set (u2 := SetOwnedByLabel u1 ownedBy) in *.
  destruct (prepareForApply_spec u2 W2) as (W3 & F3 & _ & _). set (u3 := prepareForApply u2) in *.
  split_and!.
  - intros p Hp. repeat (apply Forall_cons in Hp as [? Hp]). rewrite F3, F2, F1; auto.
  - intros k Hk. rewrite (GetAnnotations_ext u2 u3), (GetAnnotations_ext u1 u2) by auto. by apply A1.
  - intros k Hk. rewrite (GetLabels_ext u2 u3) by auto. rewrite L2 by done. by rewrite (GetLabels_ext u u1) by auto.
  - intros whs Hv.
    assert (vget u2 ["webhooks"] = Found (VSlice whs)) as Hv2 by (rewrite F2, F1; done).
    assert (Forall2 same_webhook whs whs) as Hrefl.
    { apply Forall_Forall2_diag, Forall_forall. intros [] _; cbn; auto with ddo. }
    unfold u3, prepareForApply. case_bool_decide; [|case_bool_decide].
    + destruct (stripCABundleFromWebhooks_spec u2) as (_ & _ & _ & H3). by apply H3.
    + exists whs. split; [|done]. destruct (stripCABundleFromCRDConversion_spec u2) as (C1 & _).
      by rewrite C1.
    + by exists whs.
Qed.
End HealthClaims.

Section ApplierClaims.
Context {U : Unstructured} {E : ApiErrors} {B : Boundary}.

(** C14: the server-side-apply applier implements the contract the reconciler is
    verified against: on every branch its Apply, Delete and Get make exactly the
    calls of one of the contract's outcomes and report that outcome. *)
Theorem ssa_refines_contract a : ApplierContract (SSA a) (ssa_Client a).
Proof. apply SSA_contract. Qed.

(** The status Apply reports is honest: it names the object that was sent; its
    health is Degraded exactly when Apply returns an error; and Apply returns no
    error exactly when the server accepted the object. *)
Theorem apply_status_is_honest a m ownedBy :
  post (SSA_Apply a m ownedBy) (fun '(_, st, err) t =>
    status_of (prepared (m_Unstructured m) ownedBy) st /\
    (rs_Health st = HealthDegraded <-> err ≠ None) /\
    (err = None <-> EvPatch (ssa_Client a) (prepared (m_Unstructured m) ownedBy) None ∈ t)).
Proof.
  eapply post_mono; [apply post_SSA_Apply|]. intros [[m' st] err] t (_ & Hs & Ho). split_and!; [done| |].
  - destruct Ho as [| | |pre h u' [live|e] Hg _ ->]; (split; [|done]); try done.
    intros Hd. by destruct (computeHealth_not_degraded (Some live)).
  - set (u := prepared _ _) in *.
    assert (forall pre x, guard_ok (ssa_Client a) u ownedBy pre -> EvPatch (ssa_Client a) u x ∉ pre) as Hg
      by (intros pre x; destruct 1; intros Hin; in_list).
    split.
    + intros ->. inversion Ho; subst. in_goal.
    + destruct Ho as [| |pre e Hok|]; intros Hin; in_list; try done. by eapply Hg in Hin.
Qed.
End ApplierClaims.

(** ** Witnesses *)

Import RefInstances.

Definition ex_deployment (want have : Z) : obj :=
  vset (vset (vset ∅ ["kind"] (VString "Deployment")) ["spec"; "replicas"] (VInt want))
    ["status"; "availableReplicas"] (VInt have).

Lemma health_grading_witness :
  computeHealth (Some (ex_deployment 3 2)) = HealthProgressing /\
  computeHealth (Some (ex_deployment 3 3)) = HealthHealthy.
Proof.
  destruct (health_grading (ex_deployment 3 2)) as (H1 & _), (health_grading (ex_deployment 3 3)) as (H2 & _).
  split; [rewrite (H1 ltac:(by vm_compute; repeat constructor) 3%Z 2%Z)
         |rewrite (H2 ltac:(by vm_compute; repeat constructor) 3%Z 3%Z)]; try done; by left.
Defined.

Definition ex_hook : obj :=
  vset (vset (vset ∅ ["kind"] (VString "MutatingWebhookConfiguration"))
    ["metadata"; "labels"] (VMap {["app" := VString "demo"]}))
    ["webhooks"] (VSlice [VMap {["clientConfig" := VMap {["caBundle" := VString "Q0E="; "url" := VString "u"]}]}]).

Lemma prepared_keeps_payload_witness :
  vget (prepared ex_hook "abc") ["kind"] = vget ex_hook ["kind"] /\
  map_get (GetLabels (prepared ex_hook "abc")) "app" = "demo" /\
  vget (prepared ex_hook "abc") ["webhooks"] =
    Found (VSlice [VMap {["clientConfig" := VMap {["url" := VString "u"]}]}]).
Proof.
  destruct (prepared_keeps_payload ex_hook "abc") as (Hp & _ & Hl & _);
    [apply well_typedb_sound; by vm_compute|].
  split_and!; [apply Hp; by repeat constructor|rewrite Hl; by vm_compute|by vm_compute].
Defined.
