(* ===== verification/Glob.v ===== *)
(** The standard library function [path.Match], with which a Selector matches
    resource names (internal/transform/selector.go): a translation of its chunk
    algorithm.  GlobProps shows that its fuel suffices and what it decides. *)

From Stdlib Require Import Ascii.
From S2P Require Import Prelude Value.

(** ** unicode/utf8 *)

Definition RuneError : N := 65533.

Definition byte_in (lo hi : N) (c : ascii) : bool := ((lo <=? N_of_ascii c) && (N_of_ascii c <=? hi))%N.
Definition cont (c : ascii) : N := N.land (N_of_ascii c) 63.

(** [utf8.DecodeRuneInString]: the rune and its width; an invalid encoding is
    [(RuneError, 1)]. *)
Definition DecodeRuneInString (s : string) : N * nat :=
  match s with
  | EmptyString => (RuneError, 0)
  | String a r =>
      let n := N_of_ascii a in
      if (n <? 128)%N then (n, 1)
      else if byte_in 194 223 a then
        match r with
        | String b _ => if byte_in 128 191 b then ((N.shiftl (N.land n 31) 6 + cont b)%N, 2) else (RuneError, 1)
        | _ => (RuneError, 1)
        end
      else if byte_in 224 239 a then
        match r with
        | String b (String c _) =>
            let lo := if (n =? 224)%N then 160%N else 128%N in
            let hi := if (n =? 237)%N then 159%N else 191%N in
            if byte_in lo hi b && byte_in 128 191 c
            then ((N.shiftl (N.land n 15) 12 + N.shiftl (cont b) 6 + cont c)%N, 3) else (RuneError, 1)
        | _ => (RuneError, 1)
        end
      else if byte_in 240 244 a then
        match r with
        | String b (String c (String d _)) =>
            let lo := if (n =? 240)%N then 144%N else 128%N in
            let hi := if (n =? 244)%N then 143%N else 191%N in
            if byte_in lo hi b && byte_in 128 191 c && byte_in 128 191 d
            then ((N.shiftl (N.land n 7) 18 + N.shiftl (cont b) 12 + N.shiftl (cont c) 6 + cont d)%N, 4)
            else (RuneError, 1)
        | _ => (RuneError, 1)
        end
      else (RuneError, 1)
  end.

Fixpoint str_drop (n : nat) (s : string) : string :=
  match n, s with
  | S n', String _ s' => str_drop n' s'
  | _, _ => s
  end.

Definition is_empty (s : string) : bool := match s with EmptyString => true | _ => false end.

(** ** path/match.go *)

Definition ErrBadPattern : error := ESentinel "path.ErrBadPattern" "syntax error in pattern".

(** [getEsc]: a possibly escaped character of a class; [None] is ErrBadPattern. *)
Definition getEsc (chunk : string) : option (N * string) :=
  let decode chunk :=
    let '(r, n) := DecodeRuneInString chunk in
    if ((r =? RuneError)%N && Nat.eqb n 1) || is_empty (str_drop n chunk) then None
    else Some (r, str_drop n chunk) in
  match chunk with
  | EmptyString => None
  | String c rest =>
      if Ascii.eqb c "-" || Ascii.eqb c "]" then None
      else if Ascii.eqb c "\" then (if is_empty rest then None else decode rest)
      else decode chunk
  end.

(** The loop over the ranges of a class: whether [r] is in one, and the chunk
    after the closing bracket. *)
Fixpoint class_loop (fuel : nat) (chunk : string) (r : N) (matched : bool) (nrange : nat)
  : option (bool * string) :=
  match fuel with
  | O => None
  | S fuel =>
      match chunk, nrange with
      | String "]" rest, S _ => Some (matched, rest)
      | _, _ =>
          match getEsc chunk with
          | None => None
          | Some (lo, rest) =>
              let bounds :=
                match rest with
                | String "-" rest' => getEsc rest'
                | _ => Some (lo, rest)
                end in
              match bounds with
              | None => None
              | Some (hi, rest) =>
                  class_loop fuel rest r (matched || ((lo <=? r) && (r <=? hi))%N) (S nrange)
              end
          end
      end
  end.

Inductive chunk_result := MatchRest (rest : string) | NoMatch | BadPattern.

(** [matchChunk(chunk, s)], after [failed] was set or not. *)
Fixpoint match_chunk (fuel : nat) (chunk s : string) (failed : bool) : chunk_result :=
  match fuel with
  | O => BadPattern
  | S fuel =>
      match chunk with
      | EmptyString => if failed then NoMatch else MatchRest s
      | String c rest =>
          let failed := failed || is_empty s in
          let literal d rest :=
            match failed, s with
            | false, String x s' => match_chunk fuel rest s' (negb (Ascii.eqb d x))
            | _, _ => match_chunk fuel rest s true
            end in
          if Ascii.eqb c "[" then
            let '(r, s) := if failed then (0%N, s)
                           else let '(r, n) := DecodeRuneInString s in (r, str_drop n s) in
            let '(negated, rest) := match rest with
                                    | String "^" rest' => (true, rest')
                                    | _ => (false, rest)
                                    end in
            match class_loop (S (String.length rest)) rest r false 0 with
            | None => BadPattern
            | Some (matched, rest) => match_chunk fuel rest s (failed || Bool.eqb matched negated)
            end
          else if Ascii.eqb c "?" then
            match failed, s with
            | false, String x _ =>
                let '(_, n) := DecodeRuneInString s in
                match_chunk fuel rest (str_drop n s) (Ascii.eqb x "/")
            | _, _ => match_chunk fuel rest s true
            end
          else if Ascii.eqb c "\" then
            match rest with
            | EmptyString => BadPattern
            | String d rest' => literal d rest'
            end
          else literal c rest
      end
  end.

Definition matchChunk (chunk s : string) : chunk_result := match_chunk (S (String.length chunk)) chunk s false.

(** [scanChunk]: strip leading stars, then split before the next star outside a
    class. *)
Fixpoint skip_stars (pattern : string) : bool * string :=
  match pattern with
  | String "*" rest => (true, snd (skip_stars rest))
  | _ => (false, pattern)
  end.

Fixpoint scan (pattern : string) (inrange : bool) : string * string :=
  match pattern with
  | EmptyString => ("", "")
  | String c rest =>
      let add '(a, b) := (String c a, b) in
      if Ascii.eqb c "\" then
        match rest with
        | EmptyString => (pattern, "")
        | String d rest' => let '(a, b) := scan rest' inrange in (String c (String d a), b)
        end
      else if Ascii.eqb c "[" then add (scan rest true)
      else if Ascii.eqb c "]" then add (scan rest false)
      else if Ascii.eqb c "*" && negb inrange then ("", pattern)
      else add (scan rest inrange)
  end.

Definition scanChunk (pattern : string) : bool * string * string :=
  let '(star, pattern) := skip_stars pattern in
  let '(chunk, rest) := scan pattern false in (star, chunk, rest).

(** The inner loop: retry the chunk further to the right, never across a slash. *)
Fixpoint star_loop (chunk : string) (last : bool) (name : string) : chunk_result :=
  match name with
  | EmptyString => NoMatch
  | String c name' =>
      if Ascii.eqb c "/" then NoMatch
      else match matchChunk chunk name' with
           | MatchRest t => if last && negb (is_empty t) then star_loop chunk last name' else MatchRest t
           | NoMatch => star_loop chunk last name'
           | BadPattern => BadPattern
           end
  end.

(** Before a negative answer, the rest of the pattern is checked. *)
Fixpoint check_rest (fuel : nat) (pattern : string) : result bool :=
  match fuel with
  | O => Ok false
  | S fuel =>
      if is_empty pattern then Ok false
      else let '(_, chunk, rest) := scanChunk pattern in
           match matchChunk chunk "" with
           | BadPattern => Err ErrBadPattern
           | _ => check_rest fuel rest
           end
  end.

Definition has_slash (s : string) : bool := negb (no_slash s).

Fixpoint match_loop (fuel : nat) (pattern name : string) : result bool :=
  match fuel with
  | O => Ok false
  | S fuel =>
      if is_empty pattern then Ok (is_empty name)
      else
        let '(star, chunk, rest) := scanChunk pattern in
        if star && is_empty chunk then Ok (negb (has_slash name))
        else
          let retry :=
            if star then
              match star_loop chunk (is_empty rest) name with
              | MatchRest t => match_loop fuel rest t
              | BadPattern => Err ErrBadPattern
              | NoMatch => check_rest (S (String.length rest)) rest
              end
            else check_rest (S (String.length rest)) rest in
          match matchChunk chunk name with
          | MatchRest t =>
              if is_empty t || negb (is_empty rest) then match_loop fuel rest t else retry
          | NoMatch => retry
          | BadPattern => Err ErrBadPattern
          end
  end.

(** [path.Match(pattern, name)]. *)
Definition path_Match (pattern name : string) : result bool :=
  match_loop (S (String.length pattern)) pattern name.

Example glob_1 : path_Match "metal-*-manager" "metal-operator-controller-manager" = Ok true.
Proof. reflexivity. Qed.
Example glob_2 : path_Match "a*b*c" "aXbYbZc" = Ok true. Proof. reflexivity. Qed.
Example glob_3 : path_Match "a*c" "ab/c" = Ok false. Proof. reflexivity. Qed.
Example glob_4 : path_Match "[a-c]?x" "bqx" = Ok true. Proof. reflexivity. Qed.
Example glob_5 : path_Match "[]a]" "]" = Err ErrBadPattern. Proof. reflexivity. Qed.
Example glob_6 : path_Match "a\*b" "a*b" = Ok true. Proof. reflexivity. Qed.
Example glob_7 : path_Match "a[" "a" = Err ErrBadPattern. Proof. reflexivity. Qed.
Example glob_8 : path_Match "a[" "ab" = Err ErrBadPattern. Proof. reflexivity. Qed.
Example glob_9 : path_Match "[x-]" "x" = Err ErrBadPattern. Proof. reflexivity. Qed.
