(* ===== verification/Transform.v ===== *)
(** internal/transform: the selector, the three transformations, and Build.

    Apply never mutates its input in the source (it works on deep copies), so a
    transformation is a function from a render to a render. *)

From S2P Require Import Prelude Value Apimachinery Types Manifest Glob Reference.

(** ** Libraries behind patches

    [encoding/json] on an object and on the patch operations,
    github.com/evanphx/json-patch, k8s strategicpatch, the client-go scheme and
    Unstructured.UnmarshalJSON. *)
Class PatchLib := {
  json_Marshal : obj -> result string;
  json_MarshalOps : list JSONPatchOp -> result string;
  jsonpatch : Type;
  DecodePatch : string -> result jsonpatch;
  jsonpatch_Apply : jsonpatch -> string -> result string;
  MergePatch : string -> string -> result string;
  runtime_Object : Type;
  Scheme_New : GroupVersionKind -> result runtime_Object;
  is_unstructured : runtime_Object -> bool;
  StrategicMergePatch : string -> string -> runtime_Object -> result string;
  UnmarshalJSON : string -> result obj;
}.

(** ** selector.go *)

Section Selector.
Context {U : Unstructured}.

Definition Match (m : Manifest) (sel : Selector) : bool :=
  if negb (bool_decide (sel_Kind sel = "")) &&
     negb (bool_decide (GetKind (m_Unstructured m) = sel_Kind sel)) then false
  else if negb (bool_decide (sel_Name sel = "")) &&
          negb (match path_Match (sel_Name sel) (GetName (m_Unstructured m)) with
                | Ok ok => ok | Err _ => false end) then false
  else if negb (bool_decide (sel_Origin sel = "")) &&
          negb (bool_decide (m_Origin m = sel_Origin sel)) then false
  else true.
End Selector.

(** ** filter_kinds.go *)

Section FilterKinds.
Context {U : Unstructured}.

Definition dropped (spec : FilterKindsSpec) (m : Manifest) : bool :=
  let kindListed := bool_decide (GetKind (m_Unstructured m) ∈ filter_Kinds spec) in
  let originMatch := bool_decide (filter_Source spec = "") || bool_decide (m_Origin m = filter_Source spec) in
  kindListed && originMatch.

Fixpoint filterKinds_Apply (spec : FilterKindsSpec) (manifests : list Manifest) : list Manifest :=
  match manifests with
  | [] => []
  | m :: ms => if dropped spec m then filterKinds_Apply spec ms else m :: filterKinds_Apply spec ms
  end.
End FilterKinds.

(** ** rewrite_webhook_url.go *)

Section RewriteWebhookURL.
Context {U : Unstructured}.

(** The clientConfig as it is left, and whether it changed. *)
Definition rewriteClientConfig (spec : RewriteWebhookURLSpec) (cc : obj) : obj * bool :=
  match cc !! "url" with
  | Some _ => (cc, false)
  | None =>
      match cc !! "service" ≫= as_map with
      | None => (cc, false)
      | Some svc =>
          let pathStr := string_field svc "path" in
          (delete "service" (<["url" := VString (rewrite_URLPrefix spec +:+ pathStr)]> cc), true)
      end
  end.

(** One entry of the webhooks list. *)
Definition rewrite_webhook (spec : RewriteWebhookURLSpec) (w : value) : value * bool :=
  match w with
  | VMap wh =>
      match wh !! "clientConfig" ≫= as_map with
      | None => (w, false)
      | Some cc =>
          let '(cc', changed) := rewriteClientConfig spec cc in
          if changed : bool then (VMap (<["clientConfig" := VMap cc']> wh), true) else (w, false)
      end
  | _ => (w, false)
  end.

(** The object and the error. *)
Definition rewriteWebhookList (spec : RewriteWebhookURLSpec) (u : obj) : obj * option error :=
  match NestedSlice u ["webhooks"] with
  | (_, _, Some e) => (u, Some e)
  | (_, false, None) => (u, None)
  | (whs, true, None) =>
      let whs' := map (rewrite_webhook spec) whs in
      let changed := existsb snd whs' in
      if changed then SetNestedSlice u (map fst whs') ["webhooks"] else (u, None)
  end.

Abbreviation p_clientConfig := ["spec"; "conversion"; "webhook"; "clientConfig"].

Definition rewriteConversion (spec : RewriteWebhookURLSpec) (u : obj) : obj * option error :=
  match NestedString u ["spec"; "conversion"; "strategy"] with
  | (_, _, Some e) => (u, Some e)
  | (strategy, _, None) =>
      if negb (bool_decide (strategy = "Webhook")) then (u, None)
      else match NestedMap u p_clientConfig with
           | (_, _, Some e) => (u, Some e)
           | (_, false, None) => (u, None)
           | (cc, true, None) =>
               let '(cc', changed) := rewriteClientConfig spec cc in
               if changed : bool then SetNestedMap u cc' p_clientConfig else (u, None)
           end
  end.

(** The switch on the kind. *)
Definition rewrite_one (spec : RewriteWebhookURLSpec) (u : obj) : obj * option error :=
  let kind := GetKind u in
  if bool_decide (kind ∈ ["ValidatingWebhookConfiguration"; "MutatingWebhookConfiguration"])
  then rewriteWebhookList spec u
  else if bool_decide (kind = "CustomResourceDefinition") then rewriteConversion spec u
  else (u, None).

Fixpoint rewriteWebhookURL_Apply (spec : RewriteWebhookURLSpec) (manifests : list Manifest)
  : result (list Manifest) :=
  match manifests with
  | [] => Ok []
  | m :: ms =>
      let '(cp, err) := rewrite_one spec (DeepCopy (m_Unstructured m)) in
      match err with
      | Some e => Err (EWrap ("rewriteWebhookURL " +:+ GetKind cp +:+ "/" +:+ GetName cp +:+ ": ") e "")
      | None => try out <- rewriteWebhookURL_Apply spec ms; Ok (mkManifest cp (m_Origin m) :: out)
      end
  end.
End RewriteWebhookURL.

(** ** patch.go *)

Section Patch.
Context {U : Unstructured} {P : PatchLib}.

Definition typedStructFor (gvk : GroupVersionKind) : option runtime_Object :=
  match Scheme_New gvk with
  | Err _ => None
  | Ok obj => if is_unstructured obj then None else Some obj
  end.

Definition strategicMerge (u : obj) (orig patch : string) : result string :=
  match typedStructFor (GetGroupVersionKind u) with
  | Some dataStruct => StrategicMergePatch orig patch dataStruct
  | None => MergePatch orig patch
  end.

Definition applyOne (spec : PatchSpec) (u : obj) : result obj :=
  try orig <- json_Marshal u;
  try result_ <-
    match patch_StrategicMerge spec with
    | Some raw => strategicMerge u orig raw
    | None =>
        try jp <- json_MarshalOps (patch_JSONPatch spec);
        try decoded <- DecodePatch jp;
        jsonpatch_Apply decoded orig
    end;
  UnmarshalJSON result_.

Fixpoint patch_loop (spec : PatchSpec) (manifests : list Manifest) : result (list Manifest) :=
  match manifests with
  | [] => Ok []
  | m :: ms =>
      if negb (Match m (patch_Target spec)) then try out <- patch_loop spec ms; Ok (m :: out)
      else
        match applyOne spec (m_Unstructured m) with
        | Err e => Err (EWrap ("patch " +:+ GetKind (m_Unstructured m) +:+ "/" +:+
                               GetName (m_Unstructured m) +:+ ": ") e "")
        | Ok patched => try out <- patch_loop spec ms; Ok (mkManifest patched (m_Origin m) :: out)
        end
  end.

Definition patch_Apply (spec : PatchSpec) (manifests : list Manifest) : result (list Manifest) :=
  let hasSM := is_set (patch_StrategicMerge spec) in
  let hasJP := Nat.ltb 0 (length (patch_JSONPatch spec)) in
  if Bool.eqb hasSM hasJP then Err (ENew "exactly one of strategicMerge or jsonPatch must be set")
  else patch_loop spec manifests.
End Patch.

(** ** transform.go *)

(** The implementations of the Transformation interface. *)
Inductive transformation :=
| patch (spec : PatchSpec)
| rewriteWebhookURL (spec : RewriteWebhookURLSpec)
| filterKinds (spec : FilterKindsSpec).

Definition transformation_Type (t : transformation) : string :=
  match t with
  | patch _ => "patch"
  | rewriteWebhookURL _ => "rewriteWebhookURL"
  | filterKinds _ => "filterKinds"
  end.

Definition transformation_Apply {U : Unstructured} {P : PatchLib} (t : transformation)
  (manifests : list Manifest) : result (list Manifest) :=
  match t with
  | patch spec => patch_Apply spec manifests
  | rewriteWebhookURL spec => rewriteWebhookURL_Apply spec manifests
  | filterKinds spec => Ok (filterKinds_Apply spec manifests)
  end.

Definition count_set (s : Transformation) : nat :=
  (if is_set (t_Patch s) then 1 else 0) +
  (if is_set (t_RewriteWebhookURL s) then 1 else 0) +
  (if is_set (t_FilterKinds s) then 1 else 0).

Fixpoint build_loop (specs : list Transformation) (out : list transformation)
  : result (list transformation) :=
  match specs with
  | [] => Ok out
  | s :: specs' =>
      if negb (Nat.eqb (count_set s) 1)
      then Err (ENew ("exactly one transformation type must be set per entry, got " +:+
                      pretty (N.of_nat (count_set s))))
      else
        let out :=
          match t_Patch s, t_RewriteWebhookURL s, t_FilterKinds s with
          | Some p, _, _ => (out ++ [patch p])%list
          | None, Some r, _ => (out ++ [rewriteWebhookURL r])%list
          | None, None, Some f => (out ++ [filterKinds f])%list
          | None, None, None => out
          end in
        build_loop specs' out
  end.

Definition Build (specs : list Transformation) : result (list transformation) := build_loop specs [].
