(* ===== verification/TransformProps.v ===== *)
(** Properties of internal/transform: which specs are accepted, and what each
    transformation changes. *)

From S2P Require Import Prelude Value Apimachinery Types Manifest Reference Glob Transform.

(** ** Build *)

(** [t] implements the single member set in [s]. *)
Definition implements (s : Transformation) (t : transformation) : Prop :=
  match t with
  | patch p => t_Patch s = Some p
  | rewriteWebhookURL w => t_RewriteWebhookURL s = Some w
  | filterKinds f => t_FilterKinds s = Some f
  end.

Lemma build_loop_spec specs out :
  match build_loop specs out with
  | Ok ts => Forall (fun s => Transformation_admitted s = true) specs /\
      exists ts', ts = (out ++ ts')%list /\ Forall2 implements specs ts'
  | Err _ => ~ Forall (fun s => Transformation_admitted s = true) specs
  end.
Proof.
  revert out. induction specs as [|s specs IH]; intros out; cbn [build_loop].
  { split; [done|]. exists []. by rewrite app_nil_r. }
  change (Nat.eqb (count_set s) 1) with (Transformation_admitted s).
  destruct (Transformation_admitted s) eqn:Ha; cbn [negb]; [|intros H; inversion H; congruence].
  set (out' := match t_Patch s with Some _ => _ | None => _ end).
  assert (exists t, out' = (out ++ [t])%list /\ implements s t) as (t & Ht & Hi).
  { unfold out', Transformation_admitted in *.
    destruct (t_Patch s) eqn:E1, (t_RewriteWebhookURL s) eqn:E2, (t_FilterKinds s) eqn:E3; try done;
      eexists; (split; [reflexivity|exact E1 || exact E2 || exact E3]). }
  specialize (IH out'). destruct (build_loop specs out') as [ts|e].
  - destruct IH as [Hall (ts' & -> & Hts)]. split; [by constructor|].
    exists (t :: ts'). rewrite Ht, <- app_assoc. split; [done|by constructor].
  - intros H. inversion H; subst. done.
Qed.

(** Build accepts exactly the lists the CRD's union rule admits (one member set
    per entry), and then yields one transformation per entry, in declaration order,
    carrying that member. *)
Theorem build_accepts_admitted specs :
  ((exists ts, Build specs = Ok ts) <-> Forall (fun s => Transformation_admitted s = true) specs) /\
  (forall ts, Build specs = Ok ts -> Forall2 implements specs ts).
Proof.
  unfold Build. pose proof (build_loop_spec specs []) as H. destruct (build_loop specs []) as [ts|e].
  - destruct H as [Ha (ts' & Hts & Hf)]. split; [split; eauto|]. intros ? [= <-]. by rewrite Hts.
  - split; [split; [intros [? [=]]|done]|done].
Qed.

(** ** filterKinds *)

Section FilterKinds.
Context {U : Unstructured}.

(** FilterKinds drops exactly the objects of a listed kind whose origin is the
    configured source (any origin when none is configured); everything else stays,
    unchanged and in order. *)
Theorem filter_kinds_drops_exactly spec ms :
  filterKinds_Apply spec ms =
    filter (fun m => ~ (GetKind (m_Unstructured m) ∈ filter_Kinds spec /\
                        (filter_Source spec = "" \/ m_Origin m = filter_Source spec))) ms.
Proof.
  induction ms as [|m ms IH]; [done|]. cbn [filterKinds_Apply].
  destruct (dropped spec m) eqn:Ed; unfold dropped in Ed.
  - apply andb_prop in Ed as [H1 H2]. rewrite bool_decide_eq_true in H1.
    apply orb_prop in H2. rewrite !bool_decide_eq_true in H2.
    rewrite filter_cons_False; [done|]. intros H. by apply H.
  - rewrite filter_cons_True; [by rewrite IH|]. intros [H1 H2].
    rewrite bool_decide_eq_true_2 in Ed by done.
    destruct H2 as [H2|H2]; rewrite (bool_decide_eq_true_2 _ H2), ?orb_true_r in Ed; done.
Qed.
End FilterKinds.

(** ** patch *)

Section Patch.
Context {U : Unstructured} {P : PatchLib}.

(** A patch touches its targets only: on success every object that matches the
    selector is replaced by its patched form, every other object is returned as it
    was, origins and order are kept; and a spec without exactly one of
    strategicMerge and a non-empty jsonPatch is refused whatever the render. *)
Theorem patch_touches_targets_only spec ms :
  (forall out, patch_Apply spec ms = Ok out ->
     Forall2 (fun m m' => m_Origin m' = m_Origin m /\
       if Match m (patch_Target spec) then applyOne spec (m_Unstructured m) = Ok (m_Unstructured m')
       else m' = m) ms out) /\
  (Bool.eqb (is_set (patch_StrategicMerge spec)) (negb (Nat.eqb (length (patch_JSONPatch spec)) 0)) = true ->
   exists e, patch_Apply spec ms = Err e).
Proof.
  unfold patch_Apply. split.
  - destruct (Bool.eqb _ _); [done|]. induction ms as [|m ms IH]; cbn [patch_loop].
    + intros out [= <-]. constructor.
    + destruct (Match m (patch_Target spec)) eqn:Em; cbn [negb].
      * destruct (applyOne spec (m_Unstructured m)) as [u|e] eqn:Ea; [|done].
        destruct (patch_loop spec ms) as [out'|e]; [|done]. intros out [= <-].
        constructor; [|by apply IH]. by rewrite Em.
      * destruct (patch_loop spec ms) as [out'|e]; [|done]. intros out [= <-].
        constructor; [|by apply IH]. by rewrite Em.
  - intros H. eexists. assert (Nat.ltb 0 (length (patch_JSONPatch spec)) =
      negb (Nat.eqb (length (patch_JSONPatch spec)) 0)) as -> by by destruct (patch_JSONPatch spec).
    by rewrite H.
Qed.
End Patch.

(** ** rewriteWebhookURL *)

Lemma vget_Found_settable o k p x : vget o (k :: p) = Found x -> settable o (k :: p) = true.
Proof.
  revert o k. induction p as [|k' p IH]; intros o k H; [done|].
  rewrite vget_cons2 in H. cbn [settable]. destruct (o !! k) as [[]|]; try done. by apply IH.
Qed.

Lemma vset_Found_id o p x : vget o p = Found x -> vset o p x = o.
Proof.
  revert o. induction p as [|k [|k' p] IH]; intros o H; [done| |].
  - cbn in *. destruct (o !! k) eqn:E; [|done]. injection H as ->. by apply insert_id.
  - rewrite vget_cons2 in H. rewrite vset_cons2. destruct (o !! k) as [[]|] eqn:E; try done.
    rewrite IH by done. by apply insert_id.
Qed.

Section Rewrite.
Context {U : Unstructured}.

(** A clientConfig that addresses a service and has no URL yet. *)
Definition by_service (cc : obj) : Prop :=
  cc !! "url" = None /\ exists svc, cc !! "service" = Some (VMap svc).

(** The service reference replaced by the URL, everything else as it was. *)
Definition config_rewritten (prefix : string) (cc cc' : obj) : Prop :=
  (~ by_service cc /\ cc' = cc) \/
  (exists svc, cc !! "url" = None /\ cc !! "service" = Some (VMap svc) /\
     cc' !! "url" = Some (VString (prefix +:+ string_field svc "path")) /\ cc' !! "service" = None /\
     forall k, k ≠ "url" -> k ≠ "service" -> cc' !! k = cc !! k).

Lemma rewriteClientConfig_spec spec cc :
  let '(cc', changed) := rewriteClientConfig spec cc in
  config_rewritten (rewrite_URLPrefix spec) cc cc' /\ (changed = false -> cc' = cc) /\ ~ by_service cc'.
Proof.
  unfold rewriteClientConfig. destruct (cc !! "url") eqn:Eu.
  { assert (~ by_service cc) by (intros [Hu _]; congruence). split_and!; [by left|done|done]. }
  destruct (cc !! "service") as [[]|] eqn:Es; cbn;
    try (assert (~ by_service cc) by (intros [_ [svc Hs]]; congruence); split_and!; [by left|done|done]).
  split_and!; [|done|].
  - right. exists m. split_and!; [done..| | |].
    + rewrite lookup_delete_ne by done. apply lookup_insert_eq.
    + apply lookup_delete_eq.
    + intros k Hu Hs. by rewrite lookup_delete_ne, lookup_insert_ne.
  - intros [_ [svc Hs]]. by rewrite lookup_delete_eq in Hs.
Qed.

Lemma rewriteClientConfig_done spec cc : ~ by_service cc -> rewriteClientConfig spec cc = (cc, false).
Proof.
  intros H. unfold rewriteClientConfig. destruct (cc !! "url") eqn:Eu; [done|].
  destruct (cc !! "service") as [[]|] eqn:Es; try done. destruct H. split; [done|]. by eexists.
Qed.

(** The clientConfig of an entry of [webhooks], if it has one. *)
Definition config_of (w : value) : option obj := as_map w ≫= fun wh => wh !! "clientConfig" ≫= as_map.

Definition entry_rewritten (prefix : string) (w w' : value) : Prop :=
  match w, config_of w with
  | VMap wh, Some cc => exists cc', w' = VMap (<["clientConfig" := VMap cc']> wh) /\ config_rewritten prefix cc cc'
  | _, _ => w' = w
  end.

(** No entry is left that addresses a service. *)
Definition entry_done (w : value) : Prop := forall cc, config_of w = Some cc -> ~ by_service cc.

Lemma rewrite_webhook_spec spec w :
  entry_rewritten (rewrite_URLPrefix spec) w (fst (rewrite_webhook spec w)) /\
  (snd (rewrite_webhook spec w) = false -> fst (rewrite_webhook spec w) = w) /\
  entry_done (fst (rewrite_webhook spec w)).
Proof.
  destruct w as [| | | | | |wh]; try (by split_and!). unfold rewrite_webhook, entry_rewritten, entry_done, config_of.
  cbn [as_map mbind option_bind]. destruct (wh !! "clientConfig" ≫= as_map) as [cc|] eqn:Ec.
  2:{ split_and!; [done..|]. cbn. by rewrite Ec. }
  pose proof (rewriteClientConfig_spec spec cc) as H. destruct (rewriteClientConfig spec cc) as [cc' changed].
  destruct H as (Hr & Hf & Hn).
  assert (wh !! "clientConfig" = Some (VMap cc)) as Hl by by destruct (wh !! "clientConfig") as [[]|]; simplify_eq/=.
  destruct changed; cbn.
  - split_and!; [by exists cc'|done|]. intros ?. rewrite lookup_insert_eq. cbn. by intros [= <-].
  - rewrite Hf in * by done. split_and!; [|done|].
    + exists cc. by rewrite insert_id.
    + rewrite Ec. by intros ? [= <-].
Qed.

Lemma rewrite_webhook_done spec w : entry_done w -> rewrite_webhook spec w = (w, false).
Proof.
  unfold entry_done, config_of, rewrite_webhook. intros H. destruct w as [| | | | | |wh]; try done. cbn in H.
  destruct (wh !! "clientConfig" ≫= as_map) as [cc|]; [|done]. by rewrite rewriteClientConfig_done by by apply H.
Qed.

Context {UL : UnstructuredLaws U}.

Abbreviation p_strategy := ["spec"; "conversion"; "strategy"].
Abbreviation p_config := ["spec"; "conversion"; "webhook"; "clientConfig"].

(** The paths read are free of [null] intermediates, where the accessors are
    unspecified. *)
Definition definite (u : obj) : Prop := vget u p_strategy ≠ NullOnPath /\ vget u p_config ≠ NullOnPath.

Definition webhook_configuration (u : obj) : Prop :=
  GetKind u ∈ ["ValidatingWebhookConfiguration"; "MutatingWebhookConfiguration"].

(** What the transformation does to one object. *)
Definition object_rewritten (prefix : string) (u u' : obj) : Prop :=
  (webhook_configuration u /\ exists whs whs',
     vget u ["webhooks"] = Found (VSlice whs) /\ u' = vset u ["webhooks"] (VSlice whs') /\
     Forall2 (entry_rewritten prefix) whs whs' /\ Forall entry_done whs') \/
  (GetKind u = "CustomResourceDefinition" /\ vget u p_strategy = Found (VString "Webhook") /\ exists cc cc',
     vget u p_config = Found (VMap cc) /\ u' = vset u p_config (VMap cc') /\
     config_rewritten prefix cc cc' /\ ~ by_service cc') \/
  (u' = u /\
   (webhook_configuration u -> forall whs, vget u ["webhooks"] ≠ Found (VSlice whs)) /\
   (GetKind u = "CustomResourceDefinition" -> vget u p_strategy = Found (VString "Webhook") ->
    forall cc, vget u p_config ≠ Found (VMap cc))).

Lemma rewriteWebhookList_spec spec u u' :
  rewriteWebhookList spec u = (u', None) ->
  (exists whs whs', vget u ["webhooks"] = Found (VSlice whs) /\ u' = vset u ["webhooks"] (VSlice whs') /\
     Forall2 (entry_rewritten (rewrite_URLPrefix spec)) whs whs' /\ Forall entry_done whs') \/
  (u' = u /\ forall whs, vget u ["webhooks"] ≠ Found (VSlice whs)).
Proof.
  unfold rewriteWebhookList. destruct (vget u ["webhooks"]) as [v| | |] eqn:Ev.
  2:{ rewrite NestedSlice_missing by done. intros [= <-]. by right. }
  2,3: cbn in Ev; by destruct (u !! "webhooks").
  destruct v as [| | | | |whs|]; try (destruct (NestedSlice_bad u ["webhooks"]) as [e ->]; [right; by eexists|done]).
  rewrite (NestedSlice_found _ _ _ Ev). intros H. left. exists whs, (map fst (map (rewrite_webhook spec) whs)).
  rewrite map_map in *.
  assert (u' = vset u ["webhooks"] (VSlice (map (fun w => fst (rewrite_webhook spec w)) whs))) as ->.
  { destruct (existsb _ _) eqn:Ex; [rewrite SetNestedSlice_law in H by done; by injection H as <-|].
    injection H as <-. symmetry. replace (map _ whs) with whs; [by apply vset_Found_id|].
    rewrite <- (map_id whs) at 1. apply map_ext_in. intros w Hw. symmetry.
    apply rewrite_webhook_spec. apply not_true_is_false. intros Ht. apply not_true_iff_false in Ex. apply Ex.
    apply existsb_exists. exists (rewrite_webhook spec w). split; [by apply in_map|done]. }
  split_and!; [done..| |].
  - apply Forall2_fmap_r, Forall_Forall2_diag, Forall_forall. intros w _. apply rewrite_webhook_spec.
  - apply Forall_fmap, Forall_forall. intros w _. apply rewrite_webhook_spec.
Qed.

Lemma rewriteConversion_spec spec u u' :
  definite u -> rewriteConversion spec u = (u', None) ->
  (vget u p_strategy = Found (VString "Webhook") /\ exists cc cc',
     vget u p_config = Found (VMap cc) /\ u' = vset u p_config (VMap cc') /\
     config_rewritten (rewrite_URLPrefix spec) cc cc' /\ ~ by_service cc') \/
  (u' = u /\ (vget u p_strategy = Found (VString "Webhook") -> forall cc, vget u p_config ≠ Found (VMap cc))).
Proof.
  intros [Hs Hc]. unfold rewriteConversion. destruct (vget u p_strategy) as [v| | |] eqn:Ev; [| |done|].
  2:{ rewrite NestedString_missing by done. intros [= <-]. by right. }
  2:{ destruct (NestedString_bad u p_strategy) as [e ->]; [by left|done]. }
  destruct v as [| | | |s| |]; try (destruct (NestedString_bad u p_strategy) as [e ->]; [right; by eexists|done]).
  rewrite (NestedString_found _ _ _ Ev). case_bool_decide as Hw; cbn [negb].
  2:{ intros [= <-]. right. split; [done|]. congruence. }
  subst s. destruct (vget u p_config) as [v| | |] eqn:Ec; [| |done|].
  2:{ rewrite NestedMap_missing by done. intros [= <-]. by right. }
  2:{ destruct (NestedMap_bad u p_config) as [e ->]; [by left|done]. }
  destruct v as [| | | | | |cc]; try (destruct (NestedMap_bad u p_config) as [e ->]; [right; by eexists|done]).
  rewrite (NestedMap_found _ _ _ Ec).
  pose proof (rewriteClientConfig_spec spec cc) as Hr. destruct (rewriteClientConfig spec cc) as [cc' changed].
  destruct Hr as (Hr & Hf & Hn). intros H. left. split; [done|]. exists cc, cc'. split_and!; [done| |done|done].
  destruct changed.
  - rewrite SetNestedMap_law in H by by eapply vget_Found_settable. by injection H as <-.
  - injection H as <-. rewrite Hf by done. symmetry. by apply vset_Found_id.
Qed.

Lemma rewrite_one_spec spec u u' :
  definite u -> rewrite_one spec u = (u', None) -> object_rewritten (rewrite_URLPrefix spec) u u'.
Proof.
  intros Hd. unfold rewrite_one. case_bool_decide as Hk; [|case_bool_decide as Hk'].
  - intros [H|[-> H]]%rewriteWebhookList_spec; [by left|]. right; right. split_and!; [done..|].
    intros Hk'. unfold webhook_configuration in *. rewrite Hk' in Hk. in_list.
  - intros [H|[-> H]]%rewriteConversion_spec; [right; left|right; right|done]; [done|]. split_and!; [done|done|auto].
  - intros [= <-]. right; right. by split_and!.
Qed.

(** C33: a successful rewriteWebhookURL rewrites each clientConfig that addresses a
    service (in the webhooks of a webhook configuration, and in the conversion of a
    CRD whose strategy is Webhook) to urlPrefix followed by the service path, and
    drops the service reference; configurations that already have a URL, all other
    fields, all other objects, the origins and the order stay as they were. *)
Theorem rewrite_webhook_url_spec spec ms out :
  Forall (fun m => definite (m_Unstructured m)) ms ->
  rewriteWebhookURL_Apply spec ms = Ok out ->
  Forall2 (fun m m' => m_Origin m' = m_Origin m /\
    object_rewritten (rewrite_URLPrefix spec) (m_Unstructured m) (m_Unstructured m')) ms out.
Proof.
  intros Hd. revert out. induction Hd as [|m ms Hm _ IH]; intros out; cbn [rewriteWebhookURL_Apply].
  { intros [= <-]. constructor. }
  rewrite DeepCopy_law. destruct (rewrite_one spec (m_Unstructured m)) as [u' [e|]] eqn:Er; [done|].
  destruct (rewriteWebhookURL_Apply spec ms) as [out'|e]; [|done]. intros [= <-].
  constructor; [|by apply IH]. split; [done|]. by apply rewrite_one_spec.
Qed.

(** Where there is nothing to rewrite the prefix does not matter. *)
Lemma rewriteWebhookList_other spec spec' u :
  (forall whs, vget u ["webhooks"] ≠ Found (VSlice whs)) -> rewriteWebhookList spec u = rewriteWebhookList spec' u.
Proof.
  unfold rewriteWebhookList. intros H. destruct (vget u ["webhooks"]) as [v| | |] eqn:Ev.
  2:{ by rewrite NestedSlice_missing. }
  2,3: cbn in Ev; by destruct (u !! "webhooks").
  destruct v as [| | | | |whs|]; try (by destruct (NestedSlice_bad u ["webhooks"]) as [e ->]; [right; by eexists|]).
  by destruct (H whs).
Qed.

Lemma rewriteConversion_other spec spec' u :
  definite u -> (vget u p_strategy = Found (VString "Webhook") -> forall cc, vget u p_config ≠ Found (VMap cc)) ->
  rewriteConversion spec u = rewriteConversion spec' u.
Proof.
  intros [Hs Hc] H. unfold rewriteConversion. destruct (NestedString u p_strategy) as [[s f] [e|]] eqn:En; [done|].
  case_bool_decide; [|done]. subst s. cbn [negb].
  destruct (vget u p_config) as [v| | |] eqn:Ec; [| |done|].
  2:{ by rewrite NestedMap_missing. }
  2:{ by destruct (NestedMap_bad u p_config) as [e ->]; [left|]. }
  destruct v as [| | | | | |cc]; try (by destruct (NestedMap_bad u p_config) as [e ->]; [right; by eexists|]).
  destruct (vget u p_strategy) as [v| | |] eqn:Ev; [| |done|].
  2:{ by rewrite NestedString_missing in En. }
  2:{ destruct (NestedString_bad u p_strategy) as [e He]; [by left|congruence]. }
  destruct v as [| | | |s| |]; try (destruct (NestedString_bad u p_strategy) as [e He]; [right; by eexists|congruence]).
  rewrite (NestedString_found _ _ _ Ev) in En. injection En as -> _. by destruct (H eq_refl cc).
Qed.

(** Once rewritten, an object is not rewritten again, whatever the prefix. *)
Lemma rewrite_one_stable spec spec' u u' :
  well_typed u -> definite u -> rewrite_one spec u = (u', None) -> rewrite_one spec' u' = (u', None).
Proof.
  intros Hw Hd Hr. pose proof (rewrite_one_spec _ _ _ Hd Hr) as [(Hk & whs & whs' & Hv & -> & _ & Hdone)
    |[(Hk & Hs & cc & cc' & Hv & -> & _ & Hdone)|(-> & Hl & Hc)]].
  - assert (GetKind (vset u ["webhooks"] (VSlice whs')) = GetKind u) as Hk'
      by (apply GetKind_ext; [done|by apply vget_vset_ne]).
    unfold rewrite_one. rewrite Hk', bool_decide_eq_true_2 by done. unfold rewriteWebhookList.
    rewrite (NestedSlice_found _ _ whs') by by rewrite vget_vset_eq.
    replace (map (rewrite_webhook spec') whs') with (map (fun w => (w, false)) whs').
    + replace (existsb snd (map _ whs')) with false; [done|]. symmetry. apply not_true_is_false.
      intros Ht. apply existsb_exists in Ht as (x & Hx & Hsnd). apply in_map_iff in Hx as (w & <- & _). done.
    + apply map_ext_in. intros w Hin%list_elem_of_In. rewrite Forall_forall in Hdone.
      symmetry. apply rewrite_webhook_done, Hdone, Hin.
  - assert (GetKind (vset u p_config (VMap cc')) = GetKind u) as Hk'
      by (apply GetKind_ext; [done|by apply vget_vset_ne]).
    unfold rewrite_one. rewrite Hk', Hk. rewrite bool_decide_eq_false_2 by (intros Hin; in_list).
    rewrite bool_decide_eq_true_2 by done. unfold rewriteConversion.
    rewrite (NestedString_found _ _ "Webhook") by by rewrite vget_vset_ne. cbn [negb].
    rewrite bool_decide_eq_true_2 by done. cbn [negb].
    rewrite (NestedMap_found _ _ cc') by by rewrite vget_vset_eq by by eapply vget_Found_settable.
    by rewrite rewriteClientConfig_done.
  - unfold rewrite_one in *. case_bool_decide as Hk; [|case_bool_decide as Hk'; [|done]].
    + by rewrite (rewriteWebhookList_other spec' spec) by by apply Hl.
    + by rewrite (rewriteConversion_other spec' spec) by auto.
Qed.

(** Rewriting is idempotent: applying rewriteWebhookURL to a render that it has
    already rewritten succeeds and changes nothing, also with another prefix. *)
Theorem rewrite_webhook_url_idempotent spec spec' ms out :
  Forall (fun m => well_typed (m_Unstructured m) /\ definite (m_Unstructured m)) ms ->
  rewriteWebhookURL_Apply spec ms = Ok out -> rewriteWebhookURL_Apply spec' out = Ok out.
Proof.
  intros Hd. revert out. induction Hd as [|m ms [Hw Hm] _ IH]; intros out; cbn [rewriteWebhookURL_Apply].
  { by intros [= <-]. }
  rewrite DeepCopy_law. destruct (rewrite_one spec (m_Unstructured m)) as [u' [e|]] eqn:Er; [done|].
  destruct (rewriteWebhookURL_Apply spec ms) as [out'|e]; [|done]. intros [= <-].
  cbn [rewriteWebhookURL_Apply m_Unstructured m_Origin]. rewrite DeepCopy_law.
  rewrite (rewrite_one_stable spec spec' _ _ Hw Hm Er). by rewrite (IH out').
Qed.
End Rewrite.

(** ** Witnesses *)

Import RefInstances.

(** A webhook configuration with one entry by service and one by URL. *)
Definition ex_by_service : value :=
  VMap {["clientConfig" := VMap {["caBundle" := VString "Q0E=";
                                  "service" := VMap {["name" := VString "svc"; "path" := VString "/validate"]}]}]}.
Definition ex_by_url : value := VMap {["clientConfig" := VMap {["url" := VString "https://other/x"]}]}.
Definition ex_webhooks (ws : list value) : obj :=
  vset (vset ∅ ["kind"] (VString "ValidatingWebhookConfiguration")) ["webhooks"] (VSlice ws).
Definition ex_render : list Manifest := [mkManifest (ex_webhooks [ex_by_service; ex_by_url]) ""].
Definition ex_rewritten : list Manifest :=
  [mkManifest (ex_webhooks [VMap {["clientConfig" := VMap {["caBundle" := VString "Q0E=";
                                     "url" := VString "https://svc.seed/validate"]}]}; ex_by_url]) ""].
Definition ex_spec : RewriteWebhookURLSpec := mkRewriteWebhookURLSpec "https://svc.seed".

Lemma ex_render_well_typed :
  Forall (fun m => well_typed (m_Unstructured m) /\ definite (m_Unstructured m)) ex_render.
Proof.
  apply Forall_cons_2; [|apply Forall_nil_2].
  split; [apply well_typedb_sound; by vm_compute|by split; vm_compute].
Qed.

Lemma rewrite_webhook_url_spec_witness :
  rewriteWebhookURL_Apply ex_spec ex_render = Ok ex_rewritten /\
  Forall2 (fun m m' => m_Origin m' = m_Origin m /\
    object_rewritten "https://svc.seed" (m_Unstructured m) (m_Unstructured m')) ex_render ex_rewritten.
Proof.
  assert (rewriteWebhookURL_Apply ex_spec ex_render = Ok ex_rewritten) as H by by vm_compute.
  split; [exact H|]. apply (rewrite_webhook_url_spec ex_spec ex_render ex_rewritten); [|exact H].
  eapply Forall_impl; [apply ex_render_well_typed|]. by intros m [_ Hd].
Defined.

Lemma rewrite_webhook_url_idempotent_witness :
  rewriteWebhookURL_Apply (mkRewriteWebhookURLSpec "https://elsewhere") ex_rewritten = Ok ex_rewritten.
Proof.
  apply (rewrite_webhook_url_idempotent ex_spec _ ex_render ex_rewritten); [apply ex_render_well_typed|by vm_compute].
Defined.
