(* ===== verification/GlobProps.v ===== *)
(** What a Selector selects: [path.Match] always returns, and on patterns of
    literals, [?] and [*] it decides the usual reading of a glob. *)

From Stdlib Require Import Ascii.
From S2P Require Import Prelude Value Apimachinery Types Manifest Glob Transform Reference.

(** ** The reading of a pattern

    [?] stands for one byte and [*] for any bytes, neither for a slash; every other
    byte of the pattern stands for itself. *)
Inductive glob : string -> string -> Prop :=
| glob_end : glob "" ""
| glob_star_stop p s : glob p s -> glob (String "*" p) s
| glob_star_go c p s : c ≠ slash -> glob (String "*" p) s -> glob (String "*" p) (String c s)
| glob_any c p s : c ≠ slash -> glob p s -> glob (String "?" p) (String c s)
| glob_literal c p s : c ≠ "*"%char -> c ≠ "?"%char -> glob p s -> glob (String c p) (String c s).

(** Patterns without classes and escapes, and names of ASCII bytes, as
    Kubernetes names are. *)
Definition simple (p : string) : bool := lacks "[" p && lacks "\" p.
Fixpoint ascii_only (s : string) : bool :=
  match s with EmptyString => true | String c s' => (N_of_ascii c <? 128)%N && ascii_only s' end.

(** ** Chunks *)

Definition accepts (d c : ascii) : bool :=
  if Ascii.eqb d "?" then negb (Ascii.eqb c slash) else Ascii.eqb d c.

(** What is left of [s] after the chunk. *)
Fixpoint after_chunk (chunk s : string) : option string :=
  match chunk, s with
  | EmptyString, _ => Some s
  | String d chunk', String c s' => if accepts d c then after_chunk chunk' s' else None
  | _, EmptyString => None
  end.

Lemma lacks_cons c d s : lacks c (String d s) = negb (Ascii.eqb c d) && lacks c s.
Proof. done. Qed.

Lemma simple_cons c p : simple (String c p) = true -> c ≠ "["%char /\ c ≠ "\"%char /\ simple p = true.
Proof.
  unfold simple. rewrite !lacks_cons, !andb_true_iff, !negb_true_iff, !Ascii.eqb_neq. intuition congruence.
Qed.

Lemma simple_app p q : simple (p +:+ q) = true -> simple p = true /\ simple q = true.
Proof. unfold simple. rewrite !lacks_app, !andb_true_iff. tauto. Qed.

Lemma ascii_cons c s : ascii_only (String c s) = true -> DecodeRuneInString (String c s) = (N_of_ascii c, 1) /\ ascii_only s = true.
Proof. cbn [ascii_only]. rewrite andb_true_iff. intros [Hc ?]. split; [|done]. cbn [DecodeRuneInString]. by rewrite Hc. Qed.

Lemma match_chunk_failed fuel chunk s :
  simple chunk = true -> String.length chunk < fuel -> match_chunk fuel chunk s true = NoMatch.
Proof.
  revert chunk s. induction fuel as [|fuel IH]; intros chunk s Hs Hf; [lia|].
  destruct chunk as [|c chunk]; [done|]. apply simple_cons in Hs as (H1 & H2 & Hs). cbn in Hf. cbn [match_chunk orb].
  rewrite (proj2 (Ascii.eqb_neq _ _) H1), (proj2 (Ascii.eqb_neq _ _) H2).
  destruct (Ascii.eqb c "?"); apply IH; try done; lia.
Qed.

Lemma match_chunk_simple fuel chunk s :
  simple chunk = true -> ascii_only s = true -> String.length chunk < fuel ->
  match_chunk fuel chunk s false = match after_chunk chunk s with Some t => MatchRest t | None => NoMatch end.
Proof.
  revert chunk s. induction fuel as [|fuel IH]; intros chunk s Hs Ha Hf; [lia|].
  destruct chunk as [|d chunk]; [done|]. apply simple_cons in Hs as (H1 & H2 & Hs). cbn in Hf.
  cbn [match_chunk]. rewrite (proj2 (Ascii.eqb_neq _ _) H1), (proj2 (Ascii.eqb_neq _ _) H2).
  destruct s as [|c s]; cbn [is_empty orb after_chunk].
  - destruct (Ascii.eqb d "?"); apply match_chunk_failed; try done; lia.
  - apply ascii_cons in Ha as [-> Ha]. cbn [str_drop]. unfold accepts. change slash with "/"%char.
    destruct (Ascii.eqb d "?").
    + destruct (Ascii.eqb c "/"); cbn [negb]; [apply match_chunk_failed|apply IH]; try done; lia.
    + destruct (Ascii.eqb d c); cbn [negb]; [apply IH|apply match_chunk_failed]; try done; lia.
Qed.

Lemma matchChunk_simple chunk s :
  simple chunk = true -> ascii_only s = true ->
  matchChunk chunk s = match after_chunk chunk s with Some t => MatchRest t | None => NoMatch end.
Proof. intros. apply match_chunk_simple; [done|done|lia]. Qed.

Lemma after_chunk_ascii chunk s t : ascii_only s = true -> after_chunk chunk s = Some t -> ascii_only t = true.
Proof.
  revert s. induction chunk as [|d chunk IH]; intros s Ha; [by intros [= <-]|].
  destruct s as [|c s]; [done|]. apply ascii_cons in Ha as [_ Ha]. cbn. destruct (accepts d c); [by apply IH|done].
Qed.

Lemma accepts_any c : c ≠ slash -> accepts "?" c = true.
Proof. intros H%Ascii.eqb_neq. unfold accepts. by rewrite H. Qed.

Lemma accepts_literal d c : d ≠ "?"%char -> accepts d c = Ascii.eqb d c.
Proof. intros H%Ascii.eqb_neq. unfold accepts. by rewrite H. Qed.

(** A byte accepted where a byte other than a slash was accepted is not a slash. *)
Lemma accepts_no_slash d x y : x ≠ slash -> accepts d x = true -> accepts d y = true -> y ≠ slash.
Proof.
  unfold accepts. destruct (Ascii.eqb d "?").
  - intros _ _ ?%negb_true_iff%Ascii.eqb_neq. done.
  - intros Hx ->%Ascii.eqb_eq ->%Ascii.eqb_eq. done.
Qed.

(** The leftmost match of a chunk is the best one: a match further right leaves a
    suffix of what it leaves, with no slash in between. *)
Lemma leftmost_is_best chunk u s t t' :
  no_slash u = true -> after_chunk chunk (u +:+ s) = Some t -> after_chunk chunk s = Some t' ->
  exists w, t = w +:+ t' /\ no_slash w = true.
Proof.
  revert u s. induction chunk as [|d chunk IH]; intros u s Hu Ht Ht'.
  - injection Ht as <-. injection Ht' as <-. by exists u.
  - destruct s as [|y s]; [done|]. cbn in Ht'. destruct (accepts d y) eqn:Ey; [|done].
    destruct u as [|x u].
    + exists "". split; [|done]. change ("" +:+ String y s) with (String y s) in Ht. cbn in Ht. rewrite Ey in Ht. change ("" +:+ t') with t'. congruence.
    + unfold no_slash in Hu. rewrite lacks_cons, andb_true_iff, negb_true_iff, Ascii.eqb_neq in Hu. destruct Hu as [Hx Hu].
      rewrite string_app_cons in Ht. cbn in Ht. destruct (accepts d x) eqn:Ex; [|done].
      assert (y ≠ slash) as Hy by (apply (accepts_no_slash d x y); [congruence|done|done]).
      apply (IH (u +:+ String y "") s); [|by rewrite string_app_assoc|done].
      unfold no_slash in *. rewrite lacks_app, Hu, lacks_cons. cbn [lacks andb]. rewrite andb_true_r.
      apply negb_true_iff, Ascii.eqb_neq. congruence.
Qed.

Lemma string_length_app (a b : string) : String.length (a +:+ b) = String.length a + String.length b.
Proof. induction a as [|c a IH]; [done|]. rewrite string_app_cons. cbn. by rewrite IH. Qed.

(** ** Stars *)

Lemma glob_chunk chunk rest s :
  lacks "*" chunk = true ->
  glob (chunk +:+ rest) s <-> exists t, after_chunk chunk s = Some t /\ glob rest t.
Proof.
  revert s. induction chunk as [|d chunk IH]; intros s Hc.
  - split; [intros H; by exists s|by intros (t & [= <-] & ?)].
  - rewrite lacks_cons, andb_true_iff, negb_true_iff, Ascii.eqb_neq in Hc. destruct Hc as [Hd Hc].
    rewrite string_app_cons. split.
    + inversion 1 as [|p s0|c p s0|c p s0 Hn|c p s0 H1 H2]; subst; try done; cbn [after_chunk].
      * rewrite accepts_any by done. by apply IH.
      * rewrite accepts_literal, Ascii.eqb_refl by done. by apply IH.
    + intros (t & Ht & Hg). destruct s as [|c s]; [done|]. cbn in Ht. unfold accepts in Ht.
      destruct (Ascii.eqb_spec d "?") as [->|Hq].
      * destruct (Ascii.eqb_spec c slash) as [|Hn]; [done|]. apply glob_any; [done|]. apply IH; [done|by exists t].
      * destruct (Ascii.eqb_spec d c) as [<-|]; [|done]. apply glob_literal; [congruence|done|]. apply IH; [done|by exists t].
Qed.

Lemma glob_star p s : glob (String "*" p) s <-> exists u t, s = u +:+ t /\ no_slash u = true /\ glob p t.
Proof.
  split.
  - remember (String "*" p) as q eqn:Eq. induction 1 as [|p0 s0|c p0 s0 Hc _ IH|c p0 s0 Hc|c p0 s0 H1 H2]; try done;
      [injection Eq as ->|injection Eq as ->|by injection Eq as ->].
    + by exists "", s0.
    + destruct (IH eq_refl) as (u & t & -> & Hu & ?). exists (String c u), t. split_and!; [done| |done].
      unfold no_slash in *. rewrite lacks_cons, Hu, andb_true_r. apply negb_true_iff, Ascii.eqb_neq. congruence.
  - intros (u & t & -> & Hu & Hg). induction u as [|c u IH]; [by apply glob_star_stop|].
    unfold no_slash in *. rewrite lacks_cons, andb_true_iff, negb_true_iff, Ascii.eqb_neq in Hu. destruct Hu as [Hc Hu].
    rewrite string_app_cons. apply glob_star_go; [congruence|by apply IH].
Qed.

Lemma no_slash_app a b : no_slash (a +:+ b) = no_slash a && no_slash b.
Proof. apply lacks_app. Qed.

Lemma glob_star_star p s : glob (String "*" (String "*" p)) s <-> glob (String "*" p) s.
Proof.
  rewrite !glob_star. setoid_rewrite glob_star. split.
  - intros (u & ? & -> & Hu & v & t & -> & Hv & ?). exists (u +:+ v), t.
    rewrite string_app_assoc, no_slash_app, Hu, Hv. done.
  - intros (u & t & -> & Hu & ?). exists u, t. split_and!; [done|done|]. by exists "", t.
Qed.

(** ** Splitting a pattern *)

Definition head_star (p : string) : bool := match p with String "*" _ => true | _ => false end.

Lemma head_star_spec p : head_star p = true -> exists q, p = String "*" q.
Proof. destruct p as [|c p]; [done|]. destruct c as [[] [] [] [] [] [] [] []]; try done. by exists p. Qed.

Lemma head_star_false c p : head_star (String c p) = false -> c ≠ "*"%char.
Proof. by intros H ->. Qed.

Lemma skip_stars_none c p : head_star (String c p) = false -> skip_stars (String c p) = (false, String c p).
Proof. by destruct c as [[] [] [] [] [] [] [] []]. Qed.

Lemma skip_stars_simple p star q : simple p = true -> skip_stars p = (star, q) -> simple q = true.
Proof.
  revert star q. induction p as [|c p IH]; intros star q Hs; [by intros [= <- <-]|].
  destruct (head_star (String c p)) eqn:Eh.
  - apply head_star_spec in Eh as [p' [= -> ->]]. cbn. destruct (skip_stars p') as [st q'] eqn:E'. intros [= <- <-].
    apply simple_cons in Hs as (_ & _ & Hs). by apply (IH st q').
  - rewrite skip_stars_none by done. by intros [= <- <-].
Qed.

Lemma skip_stars_spec p star q :
  skip_stars p = (star, q) ->
  head_star q = false /\ (if star then String.length q < String.length p /\ forall s, glob p s <-> glob (String "*" q) s
                          else q = p).
Proof.
  revert star q. induction p as [|c p IH]; intros star q; [by intros [= <- <-]|].
  destruct (head_star (String c p)) eqn:Eh.
  - apply head_star_spec in Eh as [p' [= -> ->]]. cbn. destruct (skip_stars p') as [star' q'] eqn:E.
    intros [= <- <-]. destruct (IH star' q' eq_refl) as [Hq Hs]. split; [done|]. cbn. destruct star'.
    + destruct Hs as [Hl Hs]. split; [lia|]. intros s. rewrite <- (glob_star_star q'), (glob_star (String "*" q')), (glob_star p').
      setoid_rewrite Hs. done.
    + subst q'. split; [lia|done].
  - rewrite skip_stars_none by done. by intros [= <- <-].
Qed.

Lemma scan_simple p chunk rest :
  simple p = true -> scan p false = (chunk, rest) ->
  p = chunk +:+ rest /\ lacks "*" chunk = true /\ (rest = "" \/ head_star rest = true) /\
  (head_star p = false -> chunk = "" -> p = "").
Proof.
  revert chunk rest. induction p as [|c p IH]; intros chunk rest Hs H; [by injection H as <- <-; auto|].
  apply simple_cons in Hs as (H1 & H2 & Hs). cbn in H.
  rewrite (proj2 (Ascii.eqb_neq _ _) H1), (proj2 (Ascii.eqb_neq _ _) H2) in H.
  destruct (scan p false) as [a b] eqn:E. destruct (IH a b Hs eq_refl) as (-> & Ha & Hb & _).
  destruct (Ascii.eqb_spec c "]") as [->|]; [|destruct (Ascii.eqb_spec c "*") as [->|Hn]; cbn in H].
  - injection H as <- <-. split_and!; done.
  - injection H as <- <-. split_and!; try done. by right.
  - injection H as <- <-. split_and!; try done. rewrite lacks_cons, Ha, andb_true_r.
    apply negb_true_iff, Ascii.eqb_neq. congruence.
Qed.

(** ** The search *)

Section Search.
Context (chunk rest : string).
Hypothesis Hchunk : simple chunk = true.
Hypothesis Hrest : rest = "" \/ head_star rest = true.

(** Some place of [s] that a star reaches has the chunk, and the rest matches after it. *)
Definition found_in (s : string) : Prop :=
  exists u v t, s = u +:+ v /\ no_slash u = true /\ after_chunk chunk v = Some t /\ glob rest t.

(** The same, but not at the very start. *)
Definition found_later (s : string) : Prop := exists c s', s = String c s' /\ c ≠ slash /\ found_in s'.

(** path.Match commits to the first place that leaves nothing or is followed by a star. *)
Definition commits (t : string) : bool := is_empty t || negb (is_empty rest).

Lemma glob_commits t : glob rest t -> commits t = true.
Proof. clear Hrest. unfold commits. destruct rest; [|by rewrite orb_true_r]. by inversion 1. Qed.

Lemma commit_is_right s t : after_chunk chunk s = Some t -> commits t = true -> found_in s <-> glob rest t.
Proof.
  intros Ht Hc. split.
  - intros (u & v & t' & -> & Hu & Ht' & Hg). destruct Hrest as [Hr|Hr].
    + unfold commits in Hc. rewrite Hr in *. cbn in Hc. destruct t; [apply glob_end|done].
    + destruct (leftmost_is_best chunk u v t t' Hu Ht Ht') as (w & -> & Hw).
      apply head_star_spec in Hr as [r Hr]. rewrite Hr in *. apply glob_star in Hg as (u' & t'' & -> & Hu' & Hg).
      apply glob_star. exists (w +:+ u'), t''. by rewrite string_app_assoc, no_slash_app, Hw, Hu'.
  - intros Hg. by exists "", s, t.
Qed.

Lemma found_later_iff s :
  (forall t, after_chunk chunk s = Some t -> commits t = false) -> found_in s <-> found_later s.
Proof.
  intros Hno. split.
  - intros (u & v & t & -> & Hu & Ht & Hg). destruct u as [|c u].
    + apply glob_commits in Hg as Hc. by rewrite (Hno t Ht) in Hc.
    + unfold no_slash in Hu. rewrite lacks_cons, andb_true_iff, negb_true_iff, Ascii.eqb_neq in Hu. destruct Hu as [Hc Hu].
      exists c, (u +:+ v). split_and!; [done|congruence|by exists u, v, t].
  - intros (c & s' & -> & Hc & u & v & t & -> & Hu & Ht & Hg). exists (String c u), v, t. split_and!; try done.
    unfold no_slash in *. rewrite lacks_cons, Hu, andb_true_r. apply negb_true_iff, Ascii.eqb_neq. congruence.
Qed.

Lemma star_loop_spec s :
  ascii_only s = true ->
  match star_loop chunk (is_empty rest) s with
  | MatchRest t => (found_later s <-> glob rest t) /\ ascii_only t = true
  | NoMatch => ~ found_later s
  | BadPattern => False
  end.
Proof.
  induction s as [|c s IH]; intros Ha; cbn [star_loop]; [by intros (c & s' & ? & _)|].
  apply ascii_cons in Ha as [_ Ha]. change "/"%char with slash. destruct (Ascii.eqb_spec c slash) as [->|Hn].
  - intros (c & s' & [= <- <-] & Hc & _). done.
  - assert (found_later (String c s) <-> found_in s) as Hl.
    { split; [by intros (? & ? & [= <- <-] & _ & ?)|]. intros. by exists c, s. }
    rewrite matchChunk_simple by done. destruct (after_chunk chunk s) as [t|] eqn:Et.
    + pose proof (commit_is_right s t Et) as Hcr.
      assert ((forall t0, after_chunk chunk s = Some t0 -> commits t0 = false) \/ commits t = true) as Hcases.
      { destruct (commits t) eqn:Ec; [by right|left]. intros t0 Ht0. congruence. }
      unfold commits in *. destruct (is_empty t), (is_empty rest) eqn:Er; cbn in *;
        try (split; [by rewrite Hl; apply Hcr|by eapply after_chunk_ascii]).
      destruct Hcases as [Hno|]; [|done]. specialize (IH Ha).
      assert (found_in s <-> found_later s) as Hf by (apply found_later_iff; unfold commits; by rewrite Er).
      destruct (star_loop chunk true s); by rewrite ?Hl, ?Hf.
    + specialize (IH Ha). assert (found_in s <-> found_later s) as Hf by (apply found_later_iff; intros; congruence).
      destruct (star_loop chunk (is_empty rest) s); by rewrite ?Hl, ?Hf.
Qed.

(** The search, given a decision procedure for the rest. *)
Lemma search_decides (next : string -> result bool) s :
  (forall t, ascii_only t = true -> exists b, next t = Ok b /\ (b = true <-> glob rest t)) ->
  ascii_only s = true ->
  let retry := match star_loop chunk (is_empty rest) s with
               | MatchRest t => next t | BadPattern => Err ErrBadPattern | NoMatch => Ok false end in
  exists b, match after_chunk chunk s with
            | Some t => if commits t then next t else retry
            | None => retry
            end = Ok b /\ (b = true <-> found_in s).
Proof.
  intros Hnext Ha retry. pose proof (star_loop_spec s Ha) as Hsl.
  assert ((forall t, after_chunk chunk s = Some t -> commits t = false) ->
    exists b, retry = Ok b /\ (b = true <-> found_in s)) as Hretry.
  { intros Hno. assert (found_in s <-> found_later s) as Hfl by (by apply found_later_iff). setoid_rewrite Hfl.
    subst retry. destruct (star_loop chunk (is_empty rest) s) as [t| |]; [|by exists false|done].
    destruct Hsl as [Hsl Hat]. setoid_rewrite Hsl. by apply Hnext. }
  destruct (after_chunk chunk s) as [t|] eqn:Et; [|by apply Hretry]. destruct (commits t) eqn:Ecm.
  - assert (found_in s <-> glob rest t) as Hcr by (by apply commit_is_right). setoid_rewrite Hcr.
    apply Hnext. by eapply after_chunk_ascii.
  - apply Hretry. intros t0 [= <-]. done.
Qed.
End Search.

Lemma check_rest_simple fuel p : simple p = true -> check_rest fuel p = Ok false.
Proof.
  revert p. induction fuel as [|fuel IH]; intros p Hs; [done|]. cbn [check_rest]. destruct (is_empty p); [done|].
  unfold scanChunk. destruct (skip_stars p) as [star q] eqn:E.
  pose proof (skip_stars_simple p star q Hs E) as Hq.
  destruct (scan q false) as [chunk rest] eqn:Es. destruct (scan_simple q chunk rest Hq Es) as (-> & _ & _ & _).
  apply simple_app in Hq as [Hc Hr]. rewrite matchChunk_simple by done. destruct (after_chunk chunk ""); by apply IH.
Qed.

(** ** path.Match *)

Lemma match_loop_simple fuel p s :
  simple p = true -> ascii_only s = true -> String.length p < fuel ->
  exists b, match_loop fuel p s = Ok b /\ (b = true <-> glob p s).
Proof.
  revert p s. induction fuel as [|fuel IH]; intros p s Hs Ha Hf; [lia|]. cbn [match_loop].
  destruct (is_empty p) eqn:Ep.
  { destruct p; [|done]. exists (is_empty s). split; [done|]. destruct s; split; try done; [intros _; constructor|by inversion 1]. }
  unfold scanChunk. destruct (skip_stars p) as [star q] eqn:Ek.
  pose proof (skip_stars_simple p star q Hs Ek) as Hq. destruct (skip_stars_spec p star q Ek) as [Hh Hstar].
  destruct (scan q false) as [chunk rest] eqn:Es. destruct (scan_simple q chunk rest Hq Es) as (Eq & Hc & Hr & Hn).
  specialize (Hn Hh). rewrite Eq in Hq. apply simple_app in Hq as [Hsc Hsr].
  assert (String.length q = String.length chunk + String.length rest) as Hlen by (rewrite Eq; apply string_length_app).
  rewrite check_rest_simple by done. rewrite matchChunk_simple by done.
  destruct star; cbn [andb].
  - destruct Hstar as [Hl Hg]. destruct (is_empty chunk) eqn:Ec.
    + destruct chunk; [|done]. rewrite (Hn eq_refl) in *. exists (negb (has_slash s)). split; [done|].
      unfold has_slash. rewrite negb_involutive, Hg, glob_star. split.
      * intros Hns. exists s, "". split_and!; [by rewrite string_app_nil_r|done|constructor].
      * intros (u & t & -> & Hu & Ht). inversion Ht; subst. by rewrite string_app_nil_r.
    + assert (glob p s <-> found_in chunk rest s) as Hfi.
      { rewrite Hg, glob_star, Eq. unfold found_in. setoid_rewrite glob_chunk; [|done]. split.
        - intros (u & v & ? & ? & t & ? & ?). by exists u, v, t.
        - intros (u & v & t & ? & ? & ? & ?). exists u, v. split_and!; [done|done|by exists t]. }
      setoid_rewrite Hfi.
      destruct (search_decides chunk rest Hsc Hr (match_loop fuel rest)) with (s := s) as (b & Hb & Hbf);
        [intros; apply IH; [done|done|lia]|done|]. exists b. split; [|done]. rewrite <- Hb.
      by destruct (after_chunk chunk s).
  - assert (0 < String.length chunk) as Hpos.
    { destruct chunk; [|cbn; lia]. rewrite <- Hstar, Hn in Ep by done. done. }
    assert (glob p s <-> exists t, after_chunk chunk s = Some t /\ glob rest t) as Hgc by (rewrite <- Hstar, Eq; by apply glob_chunk).
    setoid_rewrite Hgc. rewrite Hstar in Hlen.
    destruct (after_chunk chunk s) as [t|] eqn:Et; [|exists false; split; [done|]; split; [done|by intros (? & ? & _)]].
    change (is_empty t || negb (is_empty rest)) with (commits rest t). destruct (commits rest t) eqn:Ecm.
    + destruct (IH rest t) as (b & -> & Hb); [done|by eapply after_chunk_ascii|lia|]. exists b. split; [done|]. rewrite Hb.
      split; [intros; by exists t|by intros (? & [= <-] & ?)].
    + exists false. split; [done|]. split; [done|]. intros (? & [= <-] & Hg%glob_commits). congruence.
Qed.

(** ** The fuel suffices for every pattern *)

Lemma str_drop_length n s : String.length (str_drop n s) = String.length s - n.
Proof. revert s. induction n as [|n IH]; intros [|c s]; cbn; auto. Qed.

Lemma rune_width c s : 0 < snd (DecodeRuneInString (String c s)).
Proof. cbn. repeat case_match; cbn; lia. Qed.

Lemma getEsc_shorter chunk r rest : getEsc chunk = Some (r, rest) -> String.length rest < String.length chunk.
Proof.
  unfold getEsc. destruct chunk as [|c chunk]; [done|]. destruct (Ascii.eqb c "-" || Ascii.eqb c "]"); [done|].
  assert (forall s, s ≠ "" -> forall x, (let '(r0, n) := DecodeRuneInString s in
    if (r0 =? RuneError)%N && Nat.eqb n 1 || is_empty (str_drop n s) then None else Some (r0, str_drop n s)) = Some x ->
    String.length (snd x) < String.length s) as Hd.
  { intros [|a s] Hs x; [done|]. pose proof (rune_width a s) as Hw.
    destruct (DecodeRuneInString (String a s)) as [r0 n]. destruct (_ || _); [done|]. intros [= <-]. cbn [snd].
    rewrite str_drop_length. cbn in *. lia. }
  destruct (Ascii.eqb c "\").
  - destruct chunk as [|d chunk]; [done|]. cbn [is_empty]. intros H%Hd; [|done]. cbn in *. lia.
  - intros H%Hd; [|done]. done.
Qed.

Lemma bounds_shorter lo rest hi rest' :
  match rest with String "-" rest'' => getEsc rest'' | _ => Some (lo, rest) end = Some (hi, rest') ->
  String.length rest' <= String.length rest.
Proof.
  destruct rest as [|c rest]; [by intros [= _ <-]|].
  destruct (Ascii.eqb_spec c "-") as [->|Hc]; [intros H%getEsc_shorter; cbn; lia|].
  intros H. assert (Some (lo, String c rest) = Some (hi, rest')) as [= _ <-]; [|done].
  rewrite <- H. by destruct c as [[] [] [] [] [] [] [] []].
Qed.

Lemma class_loop_shorter fuel chunk r m n m' rest :
  class_loop fuel chunk r m n = Some (m', rest) -> String.length rest <= String.length chunk.
Proof.
  revert chunk m n. induction fuel as [|fuel IH]; intros chunk m n; cbn [class_loop]; [done|].
  destruct (getEsc chunk) as [[lo rest0]|] eqn:Eg.
  - apply getEsc_shorter in Eg. intros H.
    assert ((exists c, chunk = String c rest) \/
      match (match rest0 with String "-" rest'' => getEsc rest'' | _ => Some (lo, rest0) end) with
      | None => None | Some (hi, rest1) => class_loop fuel rest1 r (m || ((lo <=? r) && (r <=? hi))%N) (S n) end = Some (m', rest)) as [[c ->]|H'].
    { destruct chunk as [|c chunk]; [by right|]. destruct n as [|n], c as [[] [] [] [] [] [] [] []]; try (by right).
      left. injection H as _ <-. by eexists. }
    + cbn. lia.
    + destruct (match rest0 with String "-" rest'' => getEsc rest'' | _ => Some (lo, rest0) end) as [[hi rest1]|] eqn:Eb; [|done].
      apply bounds_shorter in Eb. apply IH in H'. lia.
  - destruct chunk as [|c chunk]; [done|]. destruct n as [|n], c as [[] [] [] [] [] [] [] []]; try done.
    intros [= _ <-]. cbn. lia.
Qed.

Lemma class_loop_fuel f1 f2 chunk r m n :
  String.length chunk < f1 -> String.length chunk < f2 -> class_loop f1 chunk r m n = class_loop f2 chunk r m n.
Proof.
  revert f2 chunk m n. induction f1 as [|f1 IH]; intros f2 chunk m n H1 H2; [lia|]. destruct f2 as [|f2]; [lia|].
  cbn [class_loop]. destruct (getEsc chunk) as [[lo rest0]|] eqn:Eg; [|done]. apply getEsc_shorter in Eg.
  destruct (match rest0 with String "-" rest'' => getEsc rest'' | _ => Some (lo, rest0) end) as [[hi rest1]|] eqn:Eb; [|done].
  apply bounds_shorter in Eb. rewrite (IH f2 rest1) by lia. done.
Qed.

Lemma match_chunk_fuel f1 f2 chunk s failed :
  String.length chunk < f1 -> String.length chunk < f2 -> match_chunk f1 chunk s failed = match_chunk f2 chunk s failed.
Proof.
  revert f2 chunk s failed. induction f1 as [|f1 IH]; intros f2 chunk s failed H1 H2; [lia|]. destruct f2 as [|f2]; [lia|].
  destruct chunk as [|c chunk]; [done|]. cbn in H1, H2. cbn [match_chunk].
  assert (forall rest s failed, String.length rest <= String.length chunk -> match_chunk f1 rest s failed = match_chunk f2 rest s failed) as Hr
    by (intros; apply IH; lia).
  clear IH. destruct (Ascii.eqb c "[").
  - destruct (if failed || is_empty s then _ else _) as [r s'].
    destruct (match chunk with String "^" rest' => (true, rest') | _ => (false, chunk) end) as [neg rest] eqn:En.
    assert (String.length rest <= String.length chunk) as Hl.
    { destruct chunk as [|d chunk]; [by injection En as _ <-|].
      destruct d as [[] [] [] [] [] [] [] []]; injection En as _ <-; cbn; lia. }
    destruct (class_loop _ rest r false 0) as [[m rest']|] eqn:Ec; [|done]. apply class_loop_shorter in Ec. apply Hr. lia.
  - destruct (Ascii.eqb c "?").
    + destruct (failed || is_empty s), s as [|x s]; try (apply Hr; lia).
      destruct (DecodeRuneInString (String x s)). apply Hr. lia.
    + destruct (Ascii.eqb c "\").
      * destruct chunk as [|d chunk]; [done|]. cbn in Hr. destruct (failed || is_empty s), s; apply Hr; lia.
      * destruct (failed || is_empty s), s; apply Hr; lia.
Qed.

Lemma scan_length p inrange chunk rest :
  scan p inrange = (chunk, rest) -> String.length chunk + String.length rest = String.length p.
Proof.
  remember (String.length p) as n eqn:En. revert p inrange chunk rest En.
  induction (lt_wf n) as [n _ IH]. intros p inrange chunk rest ->. destruct p as [|c p]; [by intros [= <- <-]|].
  assert (forall ir a b, (let '(x, y) := scan p ir in (String c x, y)) = (a, b) ->
    String.length a + String.length b = String.length (String c p)) as Hadd.
  { intros ir a b. destruct (scan p ir) as [x y] eqn:E. intros [= <- <-]. cbn. f_equal. eapply IH; [|done|exact E]. cbn. lia. }
  cbn [scan]. destruct (Ascii.eqb c "\").
  - destruct p as [|d p]; [by intros [= <- <-]|]. destruct (scan p inrange) as [x y] eqn:E. intros [= <- <-]. cbn.
    f_equal. f_equal. eapply IH; [|done|exact E]. cbn. lia.
  - destruct (Ascii.eqb c "["); [apply Hadd|]. destruct (Ascii.eqb c "]"); [apply Hadd|].
    destruct (Ascii.eqb c "*" && negb inrange); [by intros [= <- <-]|apply Hadd].
Qed.

Lemma scan_nonempty c p rest : c ≠ "*"%char -> scan (String c p) false ≠ ("", rest).
Proof.
  intros Hc H. cbn in H. rewrite (proj2 (Ascii.eqb_neq _ _) Hc) in H. cbn in H.
  destruct (Ascii.eqb c "\"); [destruct p as [|d p]; [done|by destruct (scan p false)]|].
  destruct (Ascii.eqb c "["); [by destruct (scan p true)|]. destruct (Ascii.eqb c "]"); by destruct (scan p false).
Qed.

Lemma scanChunk_shorter p star chunk rest :
  is_empty p = false -> scanChunk p = (star, chunk, rest) -> String.length rest < String.length p.
Proof.
  intros Hp. unfold scanChunk. destruct (skip_stars p) as [st q] eqn:Ek. destruct (skip_stars_spec p st q Ek) as [Hh Hst].
  destruct (scan q false) as [a b] eqn:Es. intros [= <- <- <-]. apply scan_length in Es as Hl. destruct st; [lia|].
  subst q. destruct p as [|c p]; [done|]. destruct a as [|x a]; [|cbn in *; lia].
  destruct (scan_nonempty c p b); [by eapply head_star_false|done].
Qed.

Lemma check_rest_fuel f1 f2 p :
  String.length p < f1 -> String.length p < f2 -> check_rest f1 p = check_rest f2 p.
Proof.
  revert f2 p. induction f1 as [|f1 IH]; intros f2 p H1 H2; [lia|]. destruct f2 as [|f2]; [lia|]. cbn [check_rest].
  destruct (is_empty p) eqn:Ep; [done|]. destruct (scanChunk p) as [[star chunk] rest] eqn:E.
  apply scanChunk_shorter in E; [|done]. rewrite (IH f2 rest) by lia. done.
Qed.

Lemma match_loop_fuel f1 f2 p s :
  String.length p < f1 -> String.length p < f2 -> match_loop f1 p s = match_loop f2 p s.
Proof.
  revert f2 p s. induction f1 as [|f1 IH]; intros f2 p s H1 H2; [lia|]. destruct f2 as [|f2]; [lia|]. cbn [match_loop].
  destruct (is_empty p) eqn:Ep; [done|]. destruct (scanChunk p) as [[star chunk] rest] eqn:E.
  apply scanChunk_shorter in E; [|done]. assert (forall t, match_loop f1 rest t = match_loop f2 rest t) as Hr by (intros; apply IH; lia).
  destruct (star && is_empty chunk); [done|]. destruct (matchChunk chunk s); rewrite ?Hr; try done;
    destruct star; try done; destruct (star_loop chunk (is_empty rest) s); rewrite ?Hr; done.
Qed.

(** ** The selector *)

Section Selectors.
Context {U : Unstructured}.

(** The tests of the kind and of the origin. *)
Definition same_if_set (want have : string) : bool := bool_decide (want = "") || bool_decide (have = want).

Lemma Match_tests m sel :
  Match m sel = same_if_set (sel_Kind sel) (GetKind (m_Unstructured m)) &&
    (bool_decide (sel_Name sel = "") ||
       match path_Match (sel_Name sel) (GetName (m_Unstructured m)) with Ok ok => ok | Err _ => false end) &&
    same_if_set (sel_Origin sel) (m_Origin m).
Proof.
  unfold Match, same_if_set. generalize (path_Match (sel_Name sel) (GetName (m_Unstructured m))). intros [[]|];
    repeat case_bool_decide; done.
Qed.

(** Matching a selector always ends with an answer: from a fuel of one more than the length
    of its name pattern on, the outcome of path.Match is the same for every fuel and every
    pattern, well-formed or not, and Match is the conjunction of the tests of the set
    fields, where a malformed pattern selects nothing. *)
Theorem selector_match_terminates m sel fuel :
  String.length (sel_Name sel) < fuel ->
  Match m sel = same_if_set (sel_Kind sel) (GetKind (m_Unstructured m)) &&
    (bool_decide (sel_Name sel = "") ||
       match match_loop fuel (sel_Name sel) (GetName (m_Unstructured m)) with Ok ok => ok | Err _ => false end) &&
    same_if_set (sel_Origin sel) (m_Origin m).
Proof.
  intros Hf. rewrite Match_tests. unfold path_Match.
  rewrite (match_loop_fuel _ fuel (sel_Name sel)) by lia. done.
Qed.

(** C34: the name of a selector is a glob: for a pattern without classes and escapes and a name of
    ASCII bytes, Match holds exactly for the manifests of the selector's kind and origin,
    where set, whose name the pattern covers, with [?] for one byte and [*] for any bytes
    but slashes. The leftmost place at which the search commits is always right. *)
Theorem selector_matches_glob m sel :
  simple (sel_Name sel) = true -> ascii_only (GetName (m_Unstructured m)) = true ->
  Match m sel = true <->
  (sel_Kind sel = "" \/ GetKind (m_Unstructured m) = sel_Kind sel) /\
  (sel_Name sel = "" \/ glob (sel_Name sel) (GetName (m_Unstructured m))) /\
  (sel_Origin sel = "" \/ m_Origin m = sel_Origin sel).
Proof.
  intros Hs Ha. rewrite Match_tests. unfold path_Match.
  destruct (match_loop_simple (S (String.length (sel_Name sel))) (sel_Name sel) (GetName (m_Unstructured m))) as (b & -> & Hb);
    [done|done|lia|].
  unfold same_if_set. rewrite !andb_true_iff, !orb_true_iff, !bool_decide_eq_true, Hb. tauto.
Qed.
End Selectors.

Section Witnesses.
Import RefInstances.

Definition w_manifest : Manifest :=
  mkManifest {["kind" := VString "Deployment"; "metadata" := VMap {["name" := VString "metal-operator-manager"]}]} "".
Definition w_selector : Selector := mkSelector "Deployment" "metal-*-m?nager" "".

Lemma selector_match_terminates_witness :
  Match w_manifest w_selector = true /\
  Match w_manifest w_selector = same_if_set "Deployment" "Deployment" &&
    (false || match match_loop 100 "metal-*-m?nager" "metal-operator-manager" with Ok ok => ok | Err _ => false end) && true.
Proof. split; [reflexivity|]. refine (selector_match_terminates w_manifest w_selector 100 _). vm_compute. lia. Defined.

Lemma selector_matches_glob_witness :
  Match w_manifest w_selector = true /\ glob "metal-*-m?nager" "metal-operator-manager".
Proof.
  split; [reflexivity|].
  assert (ascii_only (GetName (m_Unstructured w_manifest)) = true) as Ha by (vm_compute; reflexivity).
  assert (Match w_manifest w_selector = true) as Hm by reflexivity.
  destruct (proj1 (selector_matches_glob w_manifest w_selector ltac:(reflexivity) Ha) Hm) as (_ & [H|H] & _);
    [discriminate H|exact H].
Defined.
End Witnesses.
