(* ===== verification/Controller.v ===== *)
(** internal/controller/dualdeploymentoperator_controller.go: the reconciler. *)

From S2P Require Import Prelude Value Apimachinery Types Clients Manifest Order Boundary Applier Transform.

(** ** Constants *)

Definition FinalizerName : string := "dual-deployment-operator.cc.sap/finalizer".
Definition FieldManagerName : string := "dual-deployment-operator".
Definition ForceDeleteAnnotation : string := "dual-deployment-operator.cc.sap/force-delete".
Definition ReasonDeleting : string := "Deleting".

(** Durations in seconds. *)
Definition requeueInterval : Z := 600.

Definition errShootCredentialsNotReady : error :=
  ESentinel "controller.errShootCredentialsNotReady" "shoot credentials not yet populated".

(** [ctrl.Result]; the zero value has no RequeueAfter. *)
Record Result := mkResult { RequeueAfter : Z }.
Definition Result0 : Result := mkResult 0.

(** ** The source package, as the reconciler sees it *)

Inductive Mode := ModeSeed | ModeShoot.

(** The Source interface. *)
Record SourceI {B : Boundary} := mkSourceI {
  Render : Mode -> string -> M (result (list Manifest));
}.
Arguments SourceI : clear implicits.

(** [source.From] on the spec, with the dependencies of the reconciler and a
    credential resolver for the given namespace. *)
Class SourcePackage (B : Boundary) := { source_From : Source -> string -> result (SourceI B) }.

(** ** Status helpers *)

Definition anyFailed (statuses : list ResourceStatus) : bool :=
  existsb (fun s => bool_decide (rs_Health s = HealthDegraded)) statuses.

Definition allFailed (statuses : list ResourceStatus) : bool :=
  if Nat.eqb (length statuses) 0 then false
  else negb (existsb (fun s => negb (bool_decide (rs_Health s = HealthDegraded))) statuses).

Definition anyProgressing (statuses : list ResourceStatus) : bool :=
  existsb (fun s => bool_decide (rs_Health s = HealthProgressing) || bool_decide (rs_Health s = HealthUnknown))
    statuses.

Definition computeConditions (seed shoot : list ResourceStatus) : Condition :=
  if anyFailed seed || anyFailed shoot then
    mkCondition "Ready" ConditionFalse "ResourcesDegraded"
      "one or more managed resources are in a Degraded state" 0 None
  else if anyProgressing seed || anyProgressing shoot then
    mkCondition "Ready" ConditionFalse "Progressing"
      "one or more managed resources are still Progressing or Unknown" 0 None
  else
    mkCondition "Ready" ConditionTrue "ReconcileSuccess" "all managed resources applied successfully" 0 None.

Section Reconciler.
Context {U : Unstructured} {E : ApiErrors} {L : MetaLib} {P : PatchLib} {B : Boundary}.
Context {SP : SourcePackage B}.

(** DualDeploymentOperatorReconciler; [r_Recorder] says whether Recorder is set. *)
Record Reconciler := mkReconciler {
  r_SeedApplier : Applier B;
  r_Recorder : bool;
  r_shootApplierFor : option (DualDeploymentOperator -> M (result (Applier B)));
}.

Context (r : Reconciler).

(** ** The shoot applier *)

Definition buildShootApplier (cr : DualDeploymentOperator) : M (result (Applier B)) :=
  let ref := spec_ShootAccess (cr_Spec cr) in
  do s <- GetSecret (mkNN (meta_Namespace (cr_meta cr)) (access_SecretName ref));
  match s with
  | Err err => ret (Err (EWrap "failed to get shoot access secret: " err ""))
  | Ok secret =>
      match ShootRESTConfig secret (access_TokenKey ref) (access_CAKey ref) (access_Server ref) with
      | Err err =>
          if errors_Is err ErrShootCredentialsNotReady then ret (Err errShootCredentialsNotReady)
          else ret (Err err)
      | Ok restCfg =>
          do err <- NewClient restCfg;
          match err with
          | Some err => ret (Err err)
          | None => ret (Ok (SSA (mkSSAApplier (ShootClient restCfg) FieldManagerName "shoot")))
          end
      end
  end.

Definition buildShootApplierOrDefault (cr : DualDeploymentOperator) : M (result (Applier B)) :=
  match r_shootApplierFor r with
  | Some f => f cr
  | None => buildShootApplier cr
  end.

(** ** applyAll and prune *)

(** The loop: the manifests as Apply leaves them, the statuses, the errors. *)
Fixpoint apply_loop (applier : Applier B) (ms : list Manifest) (ownedBy : string)
  : M (list Manifest * list ResourceStatus * list (option error)) :=
  match ms with
  | [] => ret ([], [], [])
  | m :: ms' =>
      do (m', st, err) <- ap_Apply applier m ownedBy;
      do (rest, out, errs) <- apply_loop applier ms' ownedBy;
      ret (m' :: rest, st :: out, match err with Some _ => err :: errs | None => errs end)
  end.

Definition applyAll (applier : Applier B) (ms : list Manifest) (ownedBy : string)
  : M (list Manifest * list ResourceStatus * option error) :=
  do (ms', out, errs) <- apply_loop applier ms ownedBy;
  ret (ms', out, NewAggregate errs).

(** A CRD is kept unless the policy says Delete. *)
Definition crd_retained (cr : DualDeploymentOperator) (rs : ResourceStatus) : bool :=
  bool_decide (rs_Kind rs = "CustomResourceDefinition") &&
  negb (bool_decide (retention_CRDs (spec_RetentionPolicy (cr_Spec cr)) = "Delete")).

Fixpoint prune_loop (applier : Applier B) (prev : list ResourceStatus) (currentKeys : list string)
  (cr : DualDeploymentOperator) (ownedBy : string) : M (list ResourceStatus * list (option error)) :=
  match prev with
  | [] => ret ([], [])
  | rs :: prev' =>
      let continue := prune_loop applier prev' currentKeys cr ownedBy in
      let retain err :=
        do (retained, errs) <- continue; ret (rs :: retained, Some err :: errs) in
      if bool_decide (StatusIdentityKey rs ∈ currentKeys) then continue
      else if crd_retained cr rs then continue
      else
        let m := ManifestFromStatus rs in
        do live <- ap_Get applier m;
        match live with
        | Err err => if IsNotFound err || IsNoMatchError err then continue else retain err
        | Ok live =>
            if negb (bool_decide (map_get (GetLabels live) OwnedByLabel = ownedBy)) then continue
            else
              do err <- ap_Delete applier m ownedBy;
              match err with
              | Some err => retain err
              | None => continue
              end
        end
  end.

Definition prune (applier : Applier B) (prev : list ResourceStatus) (current : list Manifest)
  (cr : DualDeploymentOperator) (ownedBy : string) : M (list ResourceStatus * option error) :=
  let currentKeys := map ManifestIdentityKey current in
  do (retained, errs) <- prune_loop applier (SortStatusForDelete prev) currentKeys cr ownedBy;
  ret (retained, NewAggregate errs).

(** ** Conditions and status writes *)

Definition set_status_condition (cr : DualDeploymentOperator) (c : Condition) : M DualDeploymentOperator :=
  do now <- Now;
  ret (with_Conditions cr (SetStatusCondition now (status_Conditions (cr_Status cr)) c)).

Definition setCondition (cr : DualDeploymentOperator) (reason message : string) (generation : Z)
  : M DualDeploymentOperator :=
  set_status_condition cr (mkCondition "Ready" ConditionFalse reason message generation None).

Definition record_event (reason action note : string) : M unit :=
  if r_Recorder r then Eventf "Warning" reason action note else ret tt.

Definition recordShootUnreachable (cr : DualDeploymentOperator) (err : error) : M DualDeploymentOperator :=
  do _ <- record_event "ShootUnreachable" "RetainFinalizer"
    "Shoot API server unreachable during deletion; proceeding with seed cleanup and retaining finalizer";
  set_status_condition cr (mkCondition "Ready" ConditionFalse "ShootUnreachable"
    ("shoot unreachable during deletion: " +:+ Error err) (meta_Generation (cr_meta cr)) None).

Definition recordShootCleanupBlocked (cr : DualDeploymentOperator) (cause : option error)
  : M DualDeploymentOperator :=
  do _ <- record_event "ShootCleanupBlocked" "RetainFinalizer"
    ("Shoot cleanup incomplete; retaining finalizer. Set annotation " +:+ ForceDeleteAnnotation +:+
     "=true to force deletion (orphans remaining shoot resources)");
  set_status_condition cr (mkCondition "ShootCleanup" ConditionFalse "Blocked"
    ("waiting on shoot cleanup; set " +:+ ForceDeleteAnnotation +:+ "=true to force: " +:+ fmt_v cause) 0 None).

Definition recordShootCleanupForceDeleted (cr : DualDeploymentOperator) (cause : option error)
  : M DualDeploymentOperator :=
  do _ <- record_event "ShootCleanupForceDeleted" "ForceDelete"
    "Finalizer removed via force-delete annotation; remaining shoot resources may be orphaned";
  let msg := "shoot cleanup abandoned by operator force-delete; shoot resources may be orphaned" in
  let msg := match cause with
             | Some e => msg +:+ " (last error: " +:+ Error e +:+ ")"
             | None => msg
             end in
  set_status_condition cr (mkCondition "ShootCleanup" ConditionFalse "ForceDeleted" msg 0 None).

Definition errStatus (cr : DualDeploymentOperator) (reason : string) (err : error)
  : M (Result * option error) :=
  do cr <- setCondition cr reason (Error err) (meta_Generation (cr_meta cr));
  do now <- Now;
  do _ <- StatusUpdate (with_LastReconcile cr (Some now));
  ret (Result0, Some err).

Definition finishNotReady (cr : DualDeploymentOperator) (seed shoot : list ResourceStatus) (backoff : Z)
  : M (Result * option error) :=
  do now <- Now;
  do (_, e) <- StatusUpdate (with_LastReconcile (with_Resources cr seed shoot) (Some now));
  match e with
  | Some e => ret (Result0, Some e)
  | None =>
      if (backoff =? 0)%Z then ret (Result0, Some (ENew "shoot render unavailable; requeuing"))
      else ret (mkResult backoff, None)
  end.

(** ** reconcileDelete *)

Definition deletable (cr : DualDeploymentOperator) (statuses : list ResourceStatus) : nat :=
  length (filter (fun rs => crd_retained cr rs = false) statuses).

Fixpoint delete_loop (applier : Applier B) (cr : DualDeploymentOperator) (ownedBy : string)
  (statuses : list ResourceStatus) : M (list (option error)) :=
  match statuses with
  | [] => ret []
  | rs :: statuses' =>
      if crd_retained cr rs then delete_loop applier cr ownedBy statuses'
      else
        do e <- ap_Delete applier (ManifestFromStatus rs) ownedBy;
        do errs <- delete_loop applier cr ownedBy statuses';
        ret (match e with Some _ => e :: errs | None => errs end)
  end.

(** The applier is nil when nothing is pending or the shoot cannot be reached. *)
Definition deleteRender (cr : DualDeploymentOperator) (ownedBy : string) (applier : option (Applier B))
  (statuses : list ResourceStatus) : M (list (option error)) :=
  match applier with
  | None => ret []
  | Some applier => delete_loop applier cr ownedBy (SortStatusForDelete statuses)
  end.

(** Building the shoot applier only when shoot cleanup is needed: the CR with
    the conditions recorded so far, the applier, the build error. *)
Definition build_for_delete (cr : DualDeploymentOperator) (shootPending : nat)
  : M (DualDeploymentOperator * option (Applier B) * option error) :=
  if Nat.ltb 0 shootPending then
    do b <- buildShootApplierOrDefault cr;
    match b with
    | Ok applier => ret (cr, Some applier, None)
    | Err buildErr =>
        do cr <- recordShootUnreachable cr buildErr;
        ret (cr, None, Some buildErr)
    end
  else ret (cr, None, None).

(** The outcome of a deletion whose seed half succeeded. *)
Definition finish_delete (cr : DualDeploymentOperator) (shootDone : bool) (shootErrs : list (option error))
  : M (Result * option error) :=
  let forceDelete :=
    bool_decide (default "" (meta_Annotations (cr_meta cr) !! ForceDeleteAnnotation) = "true") in
  let remove cr := with_Finalizers cr (RemoveFinalizer (meta_Finalizers (cr_meta cr)) FinalizerName) in
  if shootDone then
    do (_, e) <- UpdateCR (remove cr);
    ret (Result0, e)
  else if forceDelete then
    do cr <- recordShootCleanupForceDeleted cr (NewAggregate shootErrs);
    do (cr, _) <- StatusUpdate cr;
    do (_, e) <- UpdateCR (remove cr);
    ret (Result0, e)
  else
    do cr <- recordShootCleanupBlocked cr (NewAggregate shootErrs);
    do (_, uErr) <- StatusUpdate cr;
    match uErr with
    | Some uErr => ret (Result0, Some uErr)
    | None => ret (mkResult 30, None)
    end.

(** Both renders, in the reverse of the apply order. *)
Definition delete_both (cr : DualDeploymentOperator) (ownedBy : string) : M (Result * option error) :=
  let shootPending := deletable cr (status_ShootResources (cr_Status cr)) in
  do (cr, shootApplier, buildErr) <- build_for_delete cr shootPending;
  let seedResources := status_SeedResources (cr_Status cr) in
  let shootResources := status_ShootResources (cr_Status cr) in
  do (seedErrs, shootErrs) <-
    (if bool_decide (spec_ApplyOrder (cr_Spec cr) = "SeedFirst") then
       do shootErrs <- deleteRender cr ownedBy shootApplier shootResources;
       do seedErrs <- deleteRender cr ownedBy (Some (r_SeedApplier r)) seedResources;
       ret (seedErrs, shootErrs)
     else
       do seedErrs <- deleteRender cr ownedBy (Some (r_SeedApplier r)) seedResources;
       do shootErrs <- deleteRender cr ownedBy shootApplier shootResources;
       ret (seedErrs, shootErrs));
  match NewAggregate seedErrs with
  | Some agg => ret (Result0, Some agg)
  | None =>
      let shootDone := Nat.eqb shootPending 0 || (negb (is_set buildErr) && Nat.eqb (length shootErrs) 0) in
      finish_delete cr shootDone shootErrs
  end.

Definition reconcileDelete (cr : DualDeploymentOperator) : M (Result * option error) :=
  let ownedBy := OwnedByValue (meta_Namespace (cr_meta cr)) (meta_Name (cr_meta cr)) in
  do cr <- set_status_condition cr (mkCondition "Ready" ConditionFalse ReasonDeleting
    "CR deletion in progress" (meta_Generation (cr_meta cr)) None);
  do (cr, uErr) <- StatusUpdate cr;
  match uErr with
  | Some uErr =>
      if negb (IsNotFound uErr) then ret (Result0, Some uErr) else delete_both cr ownedBy
  | None => delete_both cr ownedBy
  end.

(** ** Reconcile *)

(** Step 4: each transformation on both renders, in declaration order; on an
    error, the reason of the condition and the error. *)
Fixpoint transform_both (transforms : list transformation) (seed shoot : list Manifest)
  : (list Manifest * list Manifest) + (string * error) :=
  match transforms with
  | [] => inl (seed, shoot)
  | t :: transforms' =>
      match transformation_Apply t seed with
      | Err err => inr ("SeedTransformFailed", err)
      | Ok seed =>
          match transformation_Apply t shoot with
          | Err err => inr ("ShootTransformFailed", err)
          | Ok shoot => transform_both transforms' seed shoot
          end
      end
  end.

(** Steps 1 to 4: the two transformed renders. *)
Definition render_both (cr : DualDeploymentOperator)
  : M ((list Manifest * list Manifest) + (string * error)) :=
  match source_From (spec_Source (cr_Spec cr)) (meta_Namespace (cr_meta cr)) with
  | Err err => ret (inr ("InvalidSource", err))
  | Ok src =>
      do seed <- Render src ModeSeed (meta_Namespace (cr_meta cr));
      match seed with
      | Err err => ret (inr ("SeedRenderFailed", err))
      | Ok seedManifests =>
          do shoot <- Render src ModeShoot (spec_ShootNamespace (cr_Spec cr));
          match shoot with
          | Err err => ret (inr ("ShootRenderFailed", err))
          | Ok shootManifests =>
              match Build (spec_Transformations (cr_Spec cr)) with
              | Err err => ret (inr ("InvalidTransformation", err))
              | Ok transforms => ret (transform_both transforms seedManifests shootManifests)
              end
          end
      end
  end.

(** applySeed then pruneSeed, as the two not-ready phases run them under
    SeedFirst: the inventory to write (the errors are only logged). *)
Definition seed_without_shoot (cr : DualDeploymentOperator) (seedManifests : list Manifest) (ownedBy : string)
  : M (list ResourceStatus) :=
  do (seedManifests, seedStatuses, _) <- applyAll (r_SeedApplier r) seedManifests ownedBy;
  do (retained, _) <- prune (r_SeedApplier r) (status_SeedResources (cr_Status cr)) seedManifests cr ownedBy;
  ret (seedStatuses ++ retained)%list.

Definition not_ready (cr : DualDeploymentOperator) (shootFirst : bool) (seedManifests : list Manifest)
  (ownedBy reason msg : string) (backoff : Z) : M (Result * option error) :=
  do seedOut <-
    (if shootFirst then ret (status_SeedResources (cr_Status cr))
     else seed_without_shoot cr seedManifests ownedBy);
  do cr' <- setCondition cr reason msg (meta_Generation (cr_meta cr));
  finishNotReady cr' seedOut (status_ShootResources (cr_Status cr)) backoff.

(** Steps 8 and 9: prune in the reverse of the apply order, write the status. *)
Definition finish_ready (cr : DualDeploymentOperator) (shootFirst : bool) (shootApplier : Applier B)
  (seedManifests shootManifests : list Manifest) (seedStatuses shootStatuses : list ResourceStatus)
  (applyErrs : list (option error)) (ownedBy : string) : M (Result * option error) :=
  let prevSeed := status_SeedResources (cr_Status cr) in
  let prevShoot := status_ShootResources (cr_Status cr) in
  do (seedRetained, shootRetained, pruneErrs) <-
    (if shootFirst then
       do (a, ea) <- prune (r_SeedApplier r) prevSeed seedManifests cr ownedBy;
       do (b, eb) <- prune shootApplier prevShoot shootManifests cr ownedBy;
       ret (a, b, [ea; eb])
     else
       do (b, eb) <- prune shootApplier prevShoot shootManifests cr ownedBy;
       do (a, ea) <- prune (r_SeedApplier r) prevSeed seedManifests cr ownedBy;
       ret (a, b, [eb; ea]));
  let pruneErr := NewAggregate pruneErrs in
  let seedStatuses := (seedStatuses ++ seedRetained)%list in
  let shootStatuses := (shootStatuses ++ shootRetained)%list in
  let cr := with_Resources cr seedStatuses shootStatuses in
  let c := computeConditions seedStatuses shootStatuses in
  let readyCond := mkCondition (c_Type c) (c_Status c) (c_Reason c) (c_Message c)
                     (meta_Generation (cr_meta cr)) None in
  do cr <- set_status_condition cr readyCond;
  do now <- Now;
  do (_, err) <- StatusUpdate (with_LastReconcile cr (Some now));
  match err with
  | Some err => ret (Result0, Some err)
  | None =>
      match NewAggregate (applyErrs ++ [pruneErr]) with
      | Some reconcileErr => ret (Result0, Some reconcileErr)
      | None => ret (mkResult requeueInterval, None)
      end
  end.

Definition collect (err : option error) (errs : list (option error)) : list (option error) :=
  match err with Some _ => (errs ++ [err])%list | None => errs end.

(** The shoot is reachable: apply in the configured order, the seed gated on the
    shoot under ShootFirst. *)
Definition apply_ready (cr : DualDeploymentOperator) (shootFirst : bool) (shootApplier : Applier B)
  (seedManifests shootManifests : list Manifest) (ownedBy : string) : M (Result * option error) :=
  if shootFirst then
    do (shootManifests, shootStatuses, shootErr) <- applyAll shootApplier shootManifests ownedBy;
    let applyErrs := collect shootErr [] in
    if anyFailed shootStatuses then
      let all := allFailed shootStatuses in
      let reason := if all then "ShootApplyFailed" else "ResourcesDegraded" in
      let msg := if all then "every resource in the shoot render failed to apply"
                 else "some shoot resources failed to apply; seed render deferred until shoot converges" in
      do (retained, shootPruneErr) <-
        prune shootApplier (status_ShootResources (cr_Status cr)) shootManifests cr ownedBy;
      do cr' <- setCondition cr reason msg (meta_Generation (cr_meta cr));
      do (res, ferr) <- finishNotReady cr' (status_SeedResources (cr_Status cr)) (shootStatuses ++ retained) 0;
      ret (res, NewAggregate [ferr; shootPruneErr])
    else
      do (seedManifests, seedStatuses, err) <- applyAll (r_SeedApplier r) seedManifests ownedBy;
      finish_ready cr true shootApplier seedManifests shootManifests seedStatuses shootStatuses
        (collect err applyErrs) ownedBy
  else
    do (seedManifests, seedStatuses, err) <- applyAll (r_SeedApplier r) seedManifests ownedBy;
    do (shootManifests, shootStatuses, shootErr) <- applyAll shootApplier shootManifests ownedBy;
    finish_ready cr false shootApplier seedManifests shootManifests seedStatuses shootStatuses
      (collect shootErr (collect err [])) ownedBy.

(** Steps 5 to 9. *)
Definition deliver (cr : DualDeploymentOperator) (seedManifests shootManifests : list Manifest)
  : M (Result * option error) :=
  do shoot <- buildShootApplierOrDefault cr;
  let seedManifests := SortForApply seedManifests in
  let shootManifests := SortForApply shootManifests in
  let ownedBy := OwnedByValue (meta_Namespace (cr_meta cr)) (meta_Name (cr_meta cr)) in
  let shootFirst := negb (bool_decide (spec_ApplyOrder (cr_Spec cr) = "SeedFirst")) in
  match shoot with
  | Err shootErr =>
      if errors_Is shootErr errShootCredentialsNotReady then
        not_ready cr shootFirst seedManifests ownedBy "WaitingForShootCredentials"
          "shoot token/CA not yet populated by Gardener; shoot render deferred" 30
      else
        not_ready cr shootFirst seedManifests ownedBy "ShootApplyFailed"
          ("shoot render could not be applied: " +:+ Error shootErr) 0
  | Ok shootApplier => apply_ready cr shootFirst shootApplier seedManifests shootManifests ownedBy
  end.

Definition reconcile_live (cr : DualDeploymentOperator) : M (Result * option error) :=
  do rendered <- render_both cr;
  match rendered with
  | inr (reason, err) => errStatus cr reason err
  | inl (seedManifests, shootManifests) => deliver cr seedManifests shootManifests
  end.

Definition Reconcile (req : NamespacedName) : M (Result * option error) :=
  do got <- GetCR req;
  match got with
  | Err err => ret (Result0, IgnoreNotFound err)
  | Ok cr =>
      if negb (Time_IsZero (meta_DeletionTimestamp (cr_meta cr))) then reconcileDelete cr
      else if negb (ContainsFinalizer (meta_Finalizers (cr_meta cr)) FinalizerName) then
        do (_, e) <- UpdateCR (with_Finalizers cr (AddFinalizer (meta_Finalizers (cr_meta cr)) FinalizerName));
        ret (Result0, e)
      else reconcile_live cr
  end.
End Reconciler.

(** The reconciler cmd/main.go registers with the manager. *)
Definition production_reconciler {U : Unstructured} {E : ApiErrors} (B : Boundary) : Reconciler :=
  mkReconciler (SSA (mkSSAApplier SeedClient FieldManagerName "seed")) true None.
