(* ===== verification/SourceRender.v ===== *)
(** internal/source: source.go, cache.go, cachekey.go, helm.go, kustomize.go and
    the credential resolver of credentials.go: what the reconciler calls to
    render a spec.source for a mode. *)

From S2P Require Import Prelude Value Sha256 Apimachinery Types Clients Manifest Boundary GoPaths SourceWorld GitResolver HelmLoader Controller.

(** [string(mode)]. *)
Definition mode_string (m : Mode) : string := match m with ModeSeed => "seed" | ModeShoot => "shoot" end.

(** ** cachekey.go *)

Record keyParts := mkKeyParts {
  kp_sourceKind : string;
  kp_repoScope : string;
  kp_resolvedID : string;
  kp_mode : string;
  kp_inputHash : string;
  kp_namespace : string;
}.

Definition keyParts_String (k : keyParts) : string :=
  strings_Join [kp_sourceKind k; kp_repoScope k; kp_resolvedID k; kp_mode k; kp_inputHash k; kp_namespace k] "|".

(** The bytes hashed for a map that does not marshal. *)
Definition unmarshalable : string := String (Ascii.ascii_of_N 0) "unmarshalable".

Section Source.
Context {U : Unstructured} {Y : YAMLDecoder} {B : Boundary} {W : SourceWorld B} {N : NetURL}.

Definition hashValues (v : obj) : string :=
  let b := match json_MarshalMap v with Ok b => b | Err _ => unmarshalable end in
  hex_EncodeToString (Sum256 b).

(** ** credentials.go *)

Record CredentialResolver := mkCredentialResolver { resolver_Namespace : string }.

Definition CredentialResolver_Resolve (r : CredentialResolver) (ref : option SecretReference) : M (result creds) :=
  match ref with
  | None => ret (Ok (mkCreds "" "" false))
  | Some ref =>
      if bool_decide (secretRef_Name ref = "") then ret (Ok (mkCreds "" "" false))
      else
        tryM s <- GetSecret (mkNN (resolver_Namespace r) (secretRef_Name ref));
        ret (Ok (credsFromSecretData (secret_Data s)))
  end.

(** ** The interfaces of source.go *)

(** A value of an interface type whose production implementation the code asks
    for by a type assertion. *)
Inductive ChartLoader :=
| HelmChartLoader (l : helmLoader)
| OtherChartLoader (load : string -> string -> string -> M (result Chart)).

Inductive RootResolver :=
| GitRootResolver (r : gitResolver)
| OtherRootResolver (resolve : string -> string -> M (result (string * M unit))).

Definition Load (cl : ChartLoader) (repo name version : string) : M (result Chart) :=
  match cl with
  | HelmChartLoader l => helmLoader_Load l repo name version
  | OtherChartLoader load => load repo name version
  end.

Definition Resolve (rr : RootResolver) (url subPath : string) : M (result (string * M unit)) :=
  match rr with
  | GitRootResolver r => gitResolver_Resolve r url subPath
  | OtherRootResolver resolve => resolve url subPath
  end.

(** The render cache as its callers see it, manifests by value. *)
Record cacheI := mkCacheI {
  cache_get : string -> M (option (list Manifest));
  cache_put : string -> list Manifest -> M unit;
}.

(** What rendercache.go promises: [cc_view] is the map of renders it holds; a
    [get] reads it, a [put] stores its render and may forget others. *)
Class CacheContract (c : cacheI) := {
  cc_view : env -> gmap string (list Manifest);
  cc_get k s : exists s', cache_get c k s = (cc_view s !! k, [], s') /\ cc_view s' = cc_view s;
  cc_put k m s : exists s', cache_put c k m s = (tt, [], s') /\ cc_view s' !! k = Some m /\
    forall k' m', k' ≠ k -> cc_view s' !! k' = Some m' -> cc_view s !! k' = Some m';
}.

Definition errUnkeyable : error := ESentinel "source.errUnkeyable" "source: unkeyable (skip caching)".

Record Deps := mkDeps {
  deps_ChartLoader : option ChartLoader;
  deps_RootResolver : option RootResolver;
  deps_CredentialResolver : option CredentialResolver;
  deps_RenderCache : option cacheI;
}.

(** ** helm.go *)

Record helmSource := mkHelm { hs_spec : HelmSource; hs_loader : ChartLoader }.

Definition modeValues (spec : HelmSource) (mode : Mode) : JSON :=
  match mode with ModeSeed => helm_SeedValues spec | ModeShoot => helm_ShootValues spec end.

Fixpoint merge_loop (base : obj) (js : list JSON) : result obj :=
  match js with
  | [] => Ok base
  | j :: js' =>
      let raw := default "" j in
      if bool_decide (raw = "") then merge_loop base js'
      else match json_UnmarshalMap raw with
           | Err err => Err (EWrap "source: parse values: " err "")
           | Ok m => merge_loop (chartutil_CoalesceTables m base) js'
           end
  end.

Definition mergeValues (common modeSpecific : JSON) : result obj := merge_loop ∅ [common; modeSpecific].

(** The rest of Render once the chart is loaded. *)
Definition helm_render_chart (h : helmSource) (ch : Chart) (mode : Mode) (namespace : string)
  : M (result (list Manifest)) :=
  match mergeValues (helm_Values (hs_spec h)) (modeValues (hs_spec h) mode) with
  | Err err => ret (Err err)
  | Ok userVals =>
      if is_set (userVals !! "mode") then
        ret (Err (ENew "source: 'mode' is operator-controlled and must not be set in values"))
      else
        let userVals := <["mode" := VString (mode_string mode)]> userVals in
        let inst := mkInstall true true true (helm_Name (hs_spec h)) namespace in
        tryM rel <- wrapping ("source: helm render (mode=" +:+ mode_string mode +:+ "): ") (InstallRun inst ch userVals);
        ret (try manifests <- wrap_err "source: parse rendered manifests: " (Parse rel OriginUpstream);
             Ok (ApplyNamespace manifests namespace))
  end.

Definition helmSource_Render (h : helmSource) (mode : Mode) (namespace : string) : M (result (list Manifest)) :=
  tryM ch <- wrapping "source: load chart: "
               (Load (hs_loader h) (helm_Repo (hs_spec h)) (helm_Name (hs_spec h)) (helm_Version (hs_spec h)));
  helm_render_chart h ch mode namespace.

(** ** kustomize.go *)

Record kustomizeSource := mkKustomize { ks_spec : KustomizeSource; ks_resolver : RootResolver }.

Definition kustomize_subPath (spec : KustomizeSource) (mode : Mode) : string :=
  match mode with ModeShoot => kustomize_ShootPath spec | ModeSeed => kustomize_SeedPath spec end.

Definition kustomize_build (root : string) (mode : Mode) (namespace : string) : M (result (list Manifest)) :=
  tryM resMap <- wrapping ("source: kustomize build (mode=" +:+ mode_string mode +:+ "): ") (KustomizeRun root);
  ret (try yamlBytes <- wrap_err "source: kustomize serialize: " (ResMap_AsYaml resMap);
       try manifests <- wrap_err "source: parse rendered manifests: " (Parse yamlBytes OriginUpstream);
       Ok (ApplyNamespace manifests namespace)).

Definition kustomizeSource_Render (k : kustomizeSource) (mode : Mode) (namespace : string)
  : M (result (list Manifest)) :=
  tryM (root, cleanup) <- wrapping ("source: resolve kustomize root (mode=" +:+ mode_string mode +:+ "): ")
                            (Resolve (ks_resolver k) (kustomize_URL (ks_spec k)) (kustomize_subPath (ks_spec k) mode));
  deferring cleanup (kustomize_build root mode namespace).

(** ** cache.go *)

Record cachingSource := mkCaching {
  cs_inner : SourceI B;
  cs_cache : cacheI;
  cs_sourceKind : string;
  cs_resolve : Mode -> M (result (string * string)); (** the id and the scope *)
  cs_inputHash : string;
}.

Definition cache_key (c : cachingSource) (id scope : string) (mode : Mode) (namespace : string) : string :=
  keyParts_String (mkKeyParts (cs_sourceKind c) scope id (mode_string mode) (cs_inputHash c) namespace).

Definition cachingSource_Render (c : cachingSource) (mode : Mode) (namespace : string) : M (result (list Manifest)) :=
  do r <- cs_resolve c mode;
  match r with
  | Err err =>
      if errors_Is err errUnkeyable then Render (cs_inner c) mode namespace
      else Render (cs_inner c) mode namespace
  | Ok (id, scope) =>
      let key := cache_key c id scope mode namespace in
      do hit <- cache_get (cs_cache c) key;
      match hit with
      | Some m => ret (Ok m)
      | None =>
          tryM m <- Render (cs_inner c) mode namespace;
          do _ <- cache_put (cs_cache c) key m;
          ret (Ok m)
      end
  end.

(** The values that enter the input hash of a Helm source. *)
Definition helm_hash_input (spec : HelmSource) : obj :=
  let base := <["name" := VString (helm_Name spec)]> (<["version" := VString (helm_Version spec)]> ∅) in
  let base := match mergeValues (helm_Values spec) (helm_SeedValues spec) with
              | Ok seed => <["seedValues" := VMap seed]> base | Err _ => base end in
  match mergeValues (helm_Values spec) (helm_ShootValues spec) with
  | Ok shoot => <["shootValues" := VMap shoot]> base | Err _ => base end.

Definition helm_resolve (hl : helmLoader) (spec : HelmSource) (_ : Mode) : M (result (string * string)) :=
  match helmLoader_repoScope (helm_Repo spec) with
  | Err err => ret (Err err)
  | Ok scope =>
      tryM id <- helmLoader_ResolveID hl (helm_Repo spec) (helm_Name spec) (helm_Version spec);
      ret (Ok (id, scope))
  end.

Definition wrapHelm (inner : SourceI B) (loader : ChartLoader) (spec : HelmSource) (cache : option cacheI) : SourceI B :=
  match loader, cache with
  | HelmChartLoader hl, Some cache =>
      mkSourceI _ (cachingSource_Render
        (mkCaching inner cache "helm" (helm_resolve hl spec) (hashValues (helm_hash_input spec))))
  | _, _ => inner
  end.

Definition kustomize_hash_input (spec : KustomizeSource) : obj :=
  let rootSubPath := match splitRef (kustomize_URL spec) with Ok (_, sub, _) => sub | Err _ => "" end in
  <["rootSubPath" := VString rootSubPath]> (<["seedPath" := VString (kustomize_SeedPath spec)]>
    (<["shootPath" := VString (kustomize_ShootPath spec)]> ∅)).

Definition kustomize_resolve (gr : gitResolver) (spec : KustomizeSource) (_ : Mode) : M (result (string * string)) :=
  match gitResolver_repoScope (kustomize_URL spec) with
  | Err err => ret (Err err)
  | Ok scope =>
      tryM id <- gitResolver_ResolveID gr (kustomize_URL spec);
      ret (Ok (id, scope))
  end.

Definition wrapKustomize (inner : SourceI B) (resolver : RootResolver) (spec : KustomizeSource)
  (cache : option cacheI) : SourceI B :=
  match resolver, cache with
  | GitRootResolver gr, Some cache =>
      mkSourceI _ (cachingSource_Render
        (mkCaching inner cache "kustomize" (kustomize_resolve gr spec) (hashValues (kustomize_hash_input spec))))
  | _, _ => inner
  end.

(** ** source.go *)

Definition withHelmCreds (cl : ChartLoader) (cr : option CredentialResolver) (ref : option SecretReference) : ChartLoader :=
  match cl, cr with
  | HelmChartLoader hl, Some cr =>
      HelmChartLoader (mkHelmLoader (hl_settings hl) (Some (fun _ => CredentialResolver_Resolve cr ref))
                         (hl_httpClient hl) (hl_scratchDir hl))
  | _, _ => cl
  end.

Definition withGitCreds (rr : RootResolver) (cr : option CredentialResolver) (ref : option SecretReference) : RootResolver :=
  match rr, cr with
  | GitRootResolver _, Some cr => GitRootResolver (mkGitResolver (Some (fun _ => CredentialResolver_Resolve cr ref)))
  | _, _ => rr
  end.

Definition From (spec : Source) (deps : Deps) : result (SourceI B) :=
  match source_Helm spec, source_Kustomize spec with
  | Some helm, None =>
      match deps_ChartLoader deps with
      | None => Err (ENew "source: helm source requires a ChartLoader (none configured)")
      | Some cl =>
          let loader := withHelmCreds cl (deps_CredentialResolver deps) (helm_AuthSecretRef helm) in
          let inner := mkSourceI _ (helmSource_Render (mkHelm helm loader)) in
          Ok (wrapHelm inner loader helm (deps_RenderCache deps))
      end
  | None, Some kustomize =>
      match deps_RootResolver deps with
      | None => Err (ENew "source: kustomize source requires a RootResolver (none configured)")
      | Some rr =>
          let resolver := withGitCreds rr (deps_CredentialResolver deps) (kustomize_AuthSecretRef kustomize) in
          let inner := mkSourceI _ (kustomizeSource_Render (mkKustomize kustomize resolver)) in
          Ok (wrapKustomize inner resolver kustomize (deps_RenderCache deps))
      end
  | _, _ => Err (ENew "source: exactly one of source.helm or source.kustomize must be set")
  end.

Definition NewHelmLoader (settings : EnvSettings) (scratchDir : string) : ChartLoader :=
  let l := newHelmLoader settings None in
  HelmChartLoader (mkHelmLoader (hl_settings l) (hl_resolve l) (hl_httpClient l) scratchDir).

Definition NewGitResolver : RootResolver := GitRootResolver (mkGitResolver None).

(** The dependencies the manager configures (cmd/main.go). *)
Definition production_deps (settings : EnvSettings) (scratchDir : string) (cache : option cacheI) : Deps :=
  mkDeps (Some (NewHelmLoader settings scratchDir)) (Some NewGitResolver) None cache.

(** The source package as the reconciler calls it: [r.SourceDeps] with a
    credential resolver for the namespace of the CR. *)
Definition production_source (settings : EnvSettings) (scratchDir : string) (cache : option cacheI) : SourcePackage B := {|
  source_From spec ns :=
    let deps := production_deps settings scratchDir cache in
    From spec (mkDeps (deps_ChartLoader deps) (deps_RootResolver deps)
                 (Some (mkCredentialResolver ns)) (deps_RenderCache deps))
|}.
End Source.
