(* ===== verification/Outcomes.v ===== *)
(** What the loops of the reconciler do to a cluster, as relations between their
    results and the API calls they make, and that the loops refine them when the
    applier meets its contract. *)

From S2P Require Import Prelude Value Apimachinery Types Clients Manifest Order Boundary Applier Transform Controller.

(** ** Kinds of calls *)

(** The client through which an object is written or deleted. *)
Definition write_client (ev : event) : option client :=
  match ev with EvPatch c _ _ | EvDelete c _ _ => Some c | _ => None end.

(** The DualDeploymentOperator object a call writes, spec and metadata. *)
Definition cr_written (ev : event) : option DualDeploymentOperator :=
  match ev with EvCRUpdate cr _ => Some cr | _ => None end.

Definition status_written (ev : event) : option DualDeploymentOperator :=
  match ev with EvStatusUpdate cr _ _ => Some cr | _ => None end.

(** A call on objects of the cluster behind [c]. *)
Definition on_client (c : client) (ev : event) : Prop :=
  match ev with
  | EvGet c' _ _ _ | EvPatch c' _ _ | EvDelete c' _ _ => c' = c
  | _ => False
  end.

(** A call that neither touches a cluster's objects nor changes the CR. *)
Definition quiet (ev : event) : Prop :=
  write_client ev = None /\ cr_written ev = None /\ status_written ev = None /\ forall c, ~ on_client c ev.

Ltac solve_quiet :=
  repeat first [apply Forall_nil_2 | apply Forall_cons_2]; try (split_and!; [done..|by intros ? []]).

Lemma on_client_no_cr c t : Forall (on_client c) t ->
  Forall (fun ev => cr_written ev = None /\ status_written ev = None) t.
Proof. intros H. eapply Forall_impl; [exact H|]. by intros []. Qed.

#[local] Opaque IsClusterScoped computeHealth prepared.

(** A step per manifest, in order; the errors that occurred are collected. *)
Section Each.
Context (one : Manifest -> ResourceStatus -> option error -> list event -> Prop).

Inductive each : list Manifest -> list ResourceStatus -> list (option error) -> list event -> Prop :=
| each_nil : each [] [] [] []
| each_cons m ms st out err errs t ts :
    one m st err t -> each ms out errs ts ->
    each (m :: ms) (st :: out) (match err with Some _ => err :: errs | None => errs end) (t ++ ts).
End Each.

Section Outcomes.
Context {U : Unstructured} {E : ApiErrors} {B : Boundary}.

(** ** applyAll *)

(** One manifest: the status names the object sent, and the calls are those of
    an outcome of Apply. *)
Definition apply_one (c : client) (ownedBy : string) (m : Manifest) (st : ResourceStatus)
  (err : option error) (t : list event) : Prop :=
  status_of (prepared (m_Unstructured m) ownedBy) st /\
  apply_outcome c (prepared (m_Unstructured m) ownedBy) ownedBy err (rs_Health st) t.

Definition apply_all_outcome (c : client) (ownedBy : string) := each (apply_one c ownedBy).

(** ** prune *)

Abbreviation get_event c rs r :=
  (EvGet c (GetGroupVersionKind (m_Unstructured (ManifestFromStatus rs)))
     (ObjectKeyFromObject (m_Unstructured (ManifestFromStatus rs))) r).

Inductive prune_outcome (c : client) (ownedBy : string) (cr : DualDeploymentOperator) (keys : list string)
  : list ResourceStatus -> list ResourceStatus -> list (option error) -> list event -> Prop :=
| prune_nil : prune_outcome c ownedBy cr keys [] [] [] []
| prune_current rs prev ret errs t :
    StatusIdentityKey rs ∈ keys ->
    prune_outcome c ownedBy cr keys prev ret errs t ->
    prune_outcome c ownedBy cr keys (rs :: prev) ret errs t
| prune_crd rs prev ret errs t :
    crd_retained cr rs = true ->
    prune_outcome c ownedBy cr keys prev ret errs t ->
    prune_outcome c ownedBy cr keys (rs :: prev) ret errs t
| prune_gone rs e prev ret errs t :
    StatusIdentityKey rs ∉ keys -> crd_retained cr rs = false ->
    IsNotFound e || IsNoMatchError e = true ->
    prune_outcome c ownedBy cr keys prev ret errs t ->
    prune_outcome c ownedBy cr keys (rs :: prev) ret errs (get_event c rs (Err e) :: t)
| prune_unreadable rs e prev ret errs t :
    StatusIdentityKey rs ∉ keys -> crd_retained cr rs = false ->
    IsNotFound e || IsNoMatchError e = false ->
    prune_outcome c ownedBy cr keys prev ret errs t ->
    prune_outcome c ownedBy cr keys (rs :: prev) (rs :: ret) (Some e :: errs) (get_event c rs (Err e) :: t)
| prune_foreign rs live prev ret errs t :
    StatusIdentityKey rs ∉ keys -> crd_retained cr rs = false ->
    owner_of live ≠ ownedBy ->
    prune_outcome c ownedBy cr keys prev ret errs t ->
    prune_outcome c ownedBy cr keys (rs :: prev) ret errs (get_event c rs (Ok live) :: t)
| prune_deleted rs live prev ret errs td t :
    StatusIdentityKey rs ∉ keys -> crd_retained cr rs = false ->
    owner_of live = ownedBy ->
    delete_outcome c (m_Unstructured (ManifestFromStatus rs)) ownedBy None td ->
    prune_outcome c ownedBy cr keys prev ret errs t ->
    prune_outcome c ownedBy cr keys (rs :: prev) ret errs (get_event c rs (Ok live) :: td ++ t)
| prune_delete_failed rs live e prev ret errs td t :
    StatusIdentityKey rs ∉ keys -> crd_retained cr rs = false ->
    owner_of live = ownedBy ->
    delete_outcome c (m_Unstructured (ManifestFromStatus rs)) ownedBy (Some e) td ->
    prune_outcome c ownedBy cr keys prev ret errs t ->
    prune_outcome c ownedBy cr keys (rs :: prev) (rs :: ret) (Some e :: errs)
      (get_event c rs (Ok live) :: td ++ t).

(** ** deleteRender *)

Inductive delete_all_outcome (c : client) (ownedBy : string) (cr : DualDeploymentOperator)
  : list ResourceStatus -> list (option error) -> list event -> Prop :=
| delete_all_nil : delete_all_outcome c ownedBy cr [] [] []
| delete_all_crd rs prev errs t :
    crd_retained cr rs = true ->
    delete_all_outcome c ownedBy cr prev errs t ->
    delete_all_outcome c ownedBy cr (rs :: prev) errs t
| delete_all_cons rs prev err errs td t :
    crd_retained cr rs = false ->
    delete_outcome c (m_Unstructured (ManifestFromStatus rs)) ownedBy err td ->
    delete_all_outcome c ownedBy cr prev errs t ->
    delete_all_outcome c ownedBy cr (rs :: prev)
      (match err with Some _ => err :: errs | None => errs end) (td ++ t).

(** ** The loops refine the relations *)

Lemma post_apply_loop (a : Applier B) c ms ownedBy :
  ApplierContract a c ->
  post (apply_loop a ms ownedBy) (fun '(ms', out, errs) t =>
    Forall2 (left_by_apply c ownedBy) ms ms' /\ apply_all_outcome c ownedBy ms out errs t).
Proof.
  intros Ha. induction ms as [|m ms IH]; cbn [apply_loop]; [apply post_ret; split; constructor|].
  eapply post_bind; [apply (contract_Apply m)|]. intros [[m' st] err] t (Hl & Hs & Ho).
  eapply post_bind; [exact IH|]. intros [[rest out] errs] ts [Hr Hts].
  apply post_ret. rewrite app_nil_r. split; by constructor.
Qed.

Lemma post_applyAll (a : Applier B) c ms ownedBy :
  ApplierContract a c ->
  post (applyAll a ms ownedBy) (fun '(ms', out, e) t => exists errs,
    Forall2 (left_by_apply c ownedBy) ms ms' /\ apply_all_outcome c ownedBy ms out errs t /\
    e = NewAggregate errs).
Proof.
  intros Ha. unfold applyAll. eapply post_bind; [by eapply post_apply_loop|].
  intros [[ms' out] errs] t [Hl Ho]. apply post_ret. rewrite app_nil_r. by exists errs.
Qed.

Lemma post_prune_loop (a : Applier B) c prev keys cr ownedBy :
  ApplierContract a c ->
  post (prune_loop a prev keys cr ownedBy) (fun '(ret, errs) t => prune_outcome c ownedBy cr keys prev ret errs t).
Proof.
  intros Ha. induction prev as [|rs prev IH]; cbn [prune_loop]; [apply post_ret; constructor|].
  case_bool_decide as Hk; [eapply post_mono; [exact IH|]; intros [ret errs] t Ht; by constructor|].
  destruct (crd_retained cr rs) eqn:Hc;
    [eapply post_mono; [exact IH|]; intros [ret errs] t Ht; by apply prune_crd|].
  eapply post_bind; [apply contract_Get|]. cbn beta. intros [live|e] t ->.
  - case_bool_decide as Ho; cbn [negb].
    2:{ eapply post_mono; [exact IH|]. intros [ret errs] t Ht. by apply prune_foreign. }
    change (owner_of live = ownedBy) in Ho.
    eapply post_bind; [apply contract_Delete|]. intros [e|] td Htd.
    + eapply post_bind; [exact IH|]. intros [ret errs] t Ht. cbn beta iota in Ht.
      apply post_ret. rewrite app_nil_r. by apply (prune_delete_failed _ _ _ _ rs live e prev ret errs td t).
    + eapply post_mono; [exact IH|]. intros [ret errs] t Ht. by apply (prune_deleted _ _ _ _ rs live prev ret errs td t).
  - destruct (IsNotFound e || IsNoMatchError e) eqn:He.
    + eapply post_mono; [exact IH|]. intros [ret errs] t Ht. by apply prune_gone.
    + eapply post_bind; [exact IH|]. intros [ret errs] t Ht. cbn beta iota in Ht.
      apply post_ret. rewrite app_nil_r. by apply prune_unreadable.
Qed.

Lemma post_prune (a : Applier B) c prev ms cr ownedBy :
  ApplierContract a c ->
  post (prune a prev ms cr ownedBy) (fun '(ret, e) t => exists errs,
    prune_outcome c ownedBy cr (map ManifestIdentityKey ms) (SortStatusForDelete prev) ret errs t /\
    e = NewAggregate errs).
Proof.
  intros Ha. unfold prune. eapply post_bind; [by eapply post_prune_loop|].
  intros [ret errs] t Ho. apply post_ret. rewrite app_nil_r. by exists errs.
Qed.

Lemma post_delete_loop (a : Applier B) c prev cr ownedBy :
  ApplierContract a c ->
  post (delete_loop a cr ownedBy prev) (fun errs t => delete_all_outcome c ownedBy cr prev errs t).
Proof.
  intros Ha. induction prev as [|rs prev IH]; cbn [delete_loop]; [apply post_ret; constructor|].
  destruct (crd_retained cr rs) eqn:Hc.
  { eapply post_mono; [exact IH|]. intros errs t Ht. by apply delete_all_crd. }
  eapply post_bind; [apply contract_Delete|]. intros err td Htd.
  eapply post_bind; [exact IH|]. intros errs t Ht.
  apply post_ret. rewrite app_nil_r. by constructor.
Qed.
End Outcomes.

(** ** Traces in which certain calls must be preceded by others *)

Section Preceded.
(** What must hold of the call right before [ev], if anything. *)
Context (need : event -> option (event -> Prop)).

Definition preceded (t : list event) : Prop :=
  forall t1 ev t2 P, t = (t1 ++ ev :: t2)%list -> need ev = Some P ->
    exists t1' ev', t1 = (t1' ++ [ev'])%list /\ P ev'.

Lemma preceded_nil : preceded [].
Proof. intros [|? ?] ev t2 P H; done. Qed.

Lemma preceded_app t t' : preceded t -> preceded t' -> preceded (t ++ t').
Proof.
  intros Ht Ht' t1 ev t2 P E Hn. apply app_eq_inv in E as [(k & E1 & E2)|(k & E1 & E2)].
  - destruct k as [|x k]; cbn in E2.
    + destruct (Ht' [] ev t2 P) as (x & ? & E' & _); [done..|]. by destruct x.
    + injection E2 as -> ->. exact (Ht t1 x k P E1 Hn).
  - destruct (Ht' k ev t2 P E2 Hn) as (t1' & ev' & -> & HP). exists (t ++ t1')%list, ev'.
    by rewrite E1, app_assoc.
Qed.

Lemma preceded_one ev : need ev = None -> preceded [ev].
Proof.
  intros Hn [|x t1] ev' t2 P E Hn'; cbn in E; simplify_eq. by destruct t1.
Qed.

Lemma preceded_quiet t : Forall (fun ev => need ev = None) t -> preceded t.
Proof.
  induction 1; [apply preceded_nil|]. apply (preceded_app [x]); [by apply preceded_one|done].
Qed.

Lemma preceded_pair ev ev' :
  need ev = None -> (forall P, need ev' = Some P -> P ev) -> preceded [ev; ev'].
Proof.
  intros Hn Hp [|x [|y t1]] ev1 t2 P E Hn'; cbn in E; simplify_eq.
  - exists [], x. split; [done|]. by apply Hp.
  - by destruct t1.
Qed.
End Preceded.

Section Safety.
Context {U : Unstructured} {E : ApiErrors} {B : Boundary}.

(** The call is a GET of the object [u] that was answered with [Q]. *)
Definition looked_up (c : client) (u : obj) (Q : result obj -> Prop) (ev : event) : Prop :=
  exists r, ev = EvGet c (GetGroupVersionKind u) (ObjectKeyFromObject u) r /\ Q r.

(** A DELETE needs a GET that shows our label; a PATCH of a cluster-scoped kind
    needs a GET that shows it absent, unowned or ours. *)
Definition ownership_need (ownedBy : string) (ev : event) : option (event -> Prop) :=
  match ev with
  | EvDelete c u _ =>
      Some (looked_up c u (fun r => exists live, r = Ok live /\ owner_of live = ownedBy))
  | EvPatch c u _ =>
      if IsClusterScoped (GetKind u) then
        Some (looked_up c u (fun r =>
          match r with
          | Ok live => owner_of live = "" \/ owner_of live = ownedBy
          | Err e => IsNotFound e = true
          end))
      else None
  | _ => None
  end.

Lemma delete_outcome_preceded c u ob err t :
  delete_outcome c u ob err t -> preceded (ownership_need ob) t.
Proof.
  destruct 1; try (apply preceded_one; done);
    (apply preceded_pair; [done|]; intros P [= <-]; eexists; split; [done|]; eauto).
Qed.

Lemma apply_outcome_preceded c u ob err h t :
  apply_outcome c u ob err h t -> preceded (ownership_need ob) t.
Proof.
  assert (forall pre e, guard_ok c u ob pre -> preceded (ownership_need ob) (pre ++ [EvPatch c u e])) as Hg.
  { intros pre e [Hk|e' Hk Hn|live Hk Ho]; cbn.
    - apply preceded_one. cbn. by rewrite Hk.
    - apply preceded_pair; [done|]. cbn. rewrite Hk. intros P [= <-]. eexists; split; [reflexivity|assumption].
    - apply preceded_pair; [done|]. cbn. rewrite Hk. intros P [= <-]. eexists; split; [reflexivity|assumption]. }
  destruct 1; try (apply preceded_one; done); [by apply Hg|].
  rewrite cons_middle, app_assoc. apply preceded_app; [by apply Hg|by apply preceded_one].
Qed.

Lemma apply_all_preceded c ob ms out errs t :
  apply_all_outcome c ob ms out errs t -> preceded (ownership_need ob) t.
Proof.
  induction 1 as [|m ms st out err errs t ts [Hs Ho]]; [apply preceded_nil|].
  apply preceded_app; [by eapply apply_outcome_preceded|done].
Qed.

Lemma prune_preceded c ob cr keys prev ret errs t :
  prune_outcome c ob cr keys prev ret errs t -> preceded (ownership_need ob) t.
Proof.
  induction 1; try done; [apply preceded_nil|..];
    match goal with |- preceded _ (?e :: ?t) => change (e :: t) with ([e] ++ t)%list end;
    apply preceded_app; try (by apply preceded_one); try done;
    (apply preceded_app; [by eapply delete_outcome_preceded|done]).
Qed.

Lemma delete_all_preceded c ob cr prev errs t :
  delete_all_outcome c ob cr prev errs t -> preceded (ownership_need ob) t.
Proof.
  induction 1; [apply preceded_nil|done|]. apply preceded_app; [by eapply delete_outcome_preceded|done].
Qed.
End Safety.

(** ** Consequences of the outcomes *)

Section Consequences.
Context {U : Unstructured} {E : ApiErrors} {B : Boundary}.

(** The object recorded by [rs] needs no further deletion on [c]: it was absent,
    not ours, or deleted. *)
Definition cleared (c : client) (ownedBy : string) (rs : ResourceStatus) (t : list event) : Prop :=
  let u := m_Unstructured (ManifestFromStatus rs) in
  (exists e, EvGet c (GetGroupVersionKind u) (ObjectKeyFromObject u) (Err e) ∈ t /\ IsNotFound e = true) \/
  (exists live, EvGet c (GetGroupVersionKind u) (ObjectKeyFromObject u) (Ok live) ∈ t /\ owner_of live ≠ ownedBy) \/
  (exists e, EvDelete c u e ∈ t /\ (e = None \/ exists e', e = Some e' /\ IsNotFound e' = true)).

Definition all_cleared (c : client) (ownedBy : string) (cr : DualDeploymentOperator)
  (l : list ResourceStatus) (t : list event) : Prop :=
  forall rs, rs ∈ l -> crd_retained cr rs = false -> cleared c ownedBy rs t.

Lemma cleared_mono c ob rs t t' : (forall ev, ev ∈ t -> ev ∈ t') -> cleared c ob rs t -> cleared c ob rs t'.
Proof.
  intros Hsub [(e & Hin & H)|[(live & Hin & H)|(e & Hin & H)]];
    [left|right; left|right; right]; eexists; (split; [apply Hsub, Hin|done]).
Qed.

Lemma all_cleared_mono c ob cr l t t' :
  (forall ev, ev ∈ t -> ev ∈ t') -> all_cleared c ob cr l t -> all_cleared c ob cr l t'.
Proof. intros H Hc rs Hrs Hk. eapply cleared_mono; [exact H|auto]. Qed.

Lemma delete_outcome_cleared c rs ob t :
  delete_outcome c (m_Unstructured (ManifestFromStatus rs)) ob None t -> cleared c ob rs t.
Proof.
  inversion 1; subst; unfold cleared; cbn zeta.
  - left. eexists. split; [left|done].
  - right; left. eexists. split; [left|done].
  - right; right. eexists. split; [right; left|done].
Qed.

(** The collected errors are non-nil. *)
Lemma delete_all_errs c ob cr prev errs t :
  delete_all_outcome c ob cr prev errs t -> Forall (fun e => e ≠ None) errs.
Proof. induction 1 as [| |rs prev [e|] errs td t]; try done. by constructor. Qed.

Lemma delete_all_cleared c ob cr prev t :
  delete_all_outcome c ob cr prev [] t -> all_cleared c ob cr prev t.
Proof.
  remember [] as errs. induction 1 as [|rs prev errs t Hc H IH|rs prev err errs td t Hc Hd H IH]; subst.
  - intros rs Hrs. by apply elem_of_nil in Hrs.
  - intros rs' [->|Hrs]%elem_of_cons Hk; [congruence|]. by apply IH.
  - destruct err; [done|]. subst.
    intros rs' [->|Hrs]%elem_of_cons Hk.
    + eapply cleared_mono; [|by eapply delete_outcome_cleared]. in_goal.
    + eapply cleared_mono; [|by apply IH]. in_goal.
Qed.

Lemma delete_outcome_client c u ob err t : delete_outcome c u ob err t -> Forall (on_client c) t.
Proof. destruct 1; by repeat constructor. Qed.

Lemma delete_all_client c ob cr prev errs t :
  delete_all_outcome c ob cr prev errs t -> Forall (on_client c) t.
Proof. induction 1; [constructor|done|]. apply Forall_app. split; [by eapply delete_outcome_client|done]. Qed.

Lemma apply_outcome_client c u ob err h t : apply_outcome c u ob err h t -> Forall (on_client c) t.
Proof.
  assert (forall pre, guard_ok c u ob pre -> Forall (on_client c) pre) as Hg
    by (destruct 1; by repeat constructor).
  destruct 1; try (by repeat constructor); apply Forall_app; (split; [auto|by repeat constructor]).
Qed.

Lemma apply_all_client c ob ms out errs t :
  apply_all_outcome c ob ms out errs t -> Forall (on_client c) t.
Proof.
  induction 1 as [|m ms st out err errs t ts [Hs Ho]]; [constructor|].
  apply Forall_app. split; [by eapply apply_outcome_client|done].
Qed.

Lemma prune_client c ob cr keys prev ret errs t :
  prune_outcome c ob cr keys prev ret errs t -> Forall (on_client c) t.
Proof.
  induction 1; try done; (constructor; [done|]); try done;
    (apply Forall_app; split; [by eapply delete_outcome_client|done]).
Qed.

(** Health Degraded is reported exactly when an error is. *)
Lemma apply_outcome_degraded c u ob err h t :
  apply_outcome c u ob err h t -> (forall live, computeHealth (Some live) ≠ HealthDegraded) ->
  h = HealthDegraded <-> err ≠ None.
Proof.
  destruct 1 as [| | |pre h u' [live|e] Hg _ ->]; intros Hh; (split; [|done]); try done.
  intros Hd. by destruct (Hh live).
Qed.

Lemma apply_outcome_patched c u ob h t :
  apply_outcome c u ob None h t -> EvPatch c u None ∈ t.
Proof. inversion 1; subst. apply elem_of_app. right. left. Qed.

(** When no status of a render is Degraded, every object of it was accepted. *)
Lemma apply_all_no_failure c ob ms out errs t :
  (forall live, computeHealth (Some live) ≠ HealthDegraded) ->
  apply_all_outcome c ob ms out errs t -> anyFailed out = false ->
  errs = [] /\ forall m, m ∈ ms -> EvPatch c (prepared (m_Unstructured m) ob) None ∈ t.
Proof.
  intros Hh. induction 1 as [|m ms st out err errs t ts [Hs Ho] H IH]; intros Hf.
  - split; [done|]. intros m Hm. by apply elem_of_nil in Hm.
  - cbn in Hf. apply orb_false_iff in Hf as [Hst Hf]. rewrite bool_decide_eq_false in Hst.
    assert (err = None) as ->.
    { destruct err; [|done]. exfalso. apply Hst. by eapply apply_outcome_degraded. }
    destruct (IH Hf) as [-> Hall]. split; [done|].
    intros m' [->|Hm]%elem_of_cons; apply elem_of_app; [left; by eapply apply_outcome_patched|auto].
Qed.

(** The same from the collected errors. *)
Lemma apply_all_clean c ob ms out errs t m :
  apply_all_outcome c ob ms out errs t -> Forall (fun e => e = None) errs -> m ∈ ms ->
  EvPatch c (prepared (m_Unstructured m) ob) None ∈ t.
Proof.
  induction 1 as [|m' ms st out err errs t ts [Hs Ho] H IH]; intros He Hm; in_list.
  - destruct err; [by inversion He|]. apply elem_of_app. left. by eapply apply_outcome_patched.
  - apply elem_of_app. right. apply IH; [|done]. destruct err; [by inversion He|done].
Qed.

Lemma apply_all_statuses c ob ms out errs t :
  apply_all_outcome c ob ms out errs t ->
  Forall2 (fun m st => status_of (prepared (m_Unstructured m) ob) st) ms out.
Proof. induction 1 as [|m ms st out err errs t ts [Hs Ho]]; by constructor. Qed.

(** Every object sent comes from the render. *)
Lemma apply_all_sent c ob ms out errs t c' u e :
  apply_all_outcome c ob ms out errs t -> EvPatch c' u e ∈ t ->
  exists m, m ∈ ms /\ u = prepared (m_Unstructured m) ob.
Proof.
  assert (forall u0 h err t0, apply_outcome c u0 ob err h t0 -> EvPatch c' u e ∈ t0 -> u = u0) as Hone.
  { assert (forall u0 pre, guard_ok c u0 ob pre -> EvPatch c' u e ∉ pre) as Hg
      by (destruct 1; intros Hin; in_list).
    destruct 1; intros Hin; in_list; try reflexivity; exfalso; eapply Hg; eassumption. }
  induction 1 as [|m ms st out err errs t ts [Hs Ho] H IH]; intros Hin; [by apply elem_of_nil in Hin|].
  apply elem_of_app in Hin as [Hin|Hin].
  - exists m. split; [left|by eapply Hone].
  - destruct (IH Hin) as (m' & Hm' & ->). exists m'. split; [by right|done].
Qed.

Lemma apply_all_no_delete c ob ms out errs t c' u e :
  apply_all_outcome c ob ms out errs t -> EvDelete c' u e ∉ t.
Proof.
  assert (forall u0 pre, guard_ok c u0 ob pre -> EvDelete c' u e ∉ pre) as Hg
    by (destruct 1; intros Hin; in_list).
  induction 1 as [|m ms st out err errs t ts [Hs Ho] H IH]; intros Hin; in_list; [|auto].
  destruct Ho; in_list; eapply Hg; eassumption.
Qed.

Lemma delete_outcome_no_patch c u ob err t c' u' e :
  delete_outcome c u ob err t -> EvPatch c' u' e ∉ t.
Proof. destruct 1; intros Hin; in_list. Qed.

Lemma prune_no_patch c ob cr keys prev ret errs t c' u e :
  prune_outcome c ob cr keys prev ret errs t -> EvPatch c' u e ∉ t.
Proof.
  induction 1; intros Hin; in_list; auto; eapply delete_outcome_no_patch; eassumption.
Qed.

Lemma delete_all_no_patch c ob cr prev errs t c' u e :
  delete_all_outcome c ob cr prev errs t -> EvPatch c' u e ∉ t.
Proof.
  induction 1; intros Hin; in_list; auto; eapply delete_outcome_no_patch; eassumption.
Qed.

(** ** prune *)

(** Only orphans are deleted: recorded before, absent from the render, not a
    retained CRD. *)
Lemma prune_deletes_orphans c ob cr keys prev ret errs t c' u e :
  prune_outcome c ob cr keys prev ret errs t -> EvDelete c' u e ∈ t ->
  exists rs, rs ∈ prev /\ u = m_Unstructured (ManifestFromStatus rs) /\
    (StatusIdentityKey rs ∉ keys) /\ crd_retained cr rs = false.
Proof.
  assert (forall u0 err td, delete_outcome c u0 ob err td -> EvDelete c' u e ∈ td -> u = u0) as Hone.
  { destruct 1; intros Hin; in_list; done. }
  induction 1; intros Hin; in_list; try done.
  all: try (destruct (IHprune_outcome Hin) as (rs' & ? & ? & ? & ?); exists rs'; split_and!; [by right|done..]).
  all: try (exists rs; split_and!; [left|by eapply Hone|done|done]).
Qed.

(** What happens to each recorded resource: still rendered, a retained CRD,
    kept in the inventory, known to be gone, not ours, or deleted. *)
Lemma prune_accounts c ob cr keys prev ret errs t rs :
  prune_outcome c ob cr keys prev ret errs t -> rs ∈ prev ->
  StatusIdentityKey rs ∈ keys \/ crd_retained cr rs = true \/ rs ∈ ret \/ cleared c ob rs t \/
  (exists e, EvGet c (GetGroupVersionKind (m_Unstructured (ManifestFromStatus rs)))
               (ObjectKeyFromObject (m_Unstructured (ManifestFromStatus rs))) (Err e) ∈ t /\
             IsNoMatchError e = true).
Proof.
  assert (forall P Q R S T R' S' T' : Prop, P \/ Q \/ R \/ S \/ T -> (R -> R') -> (S -> S') -> (T -> T') ->
    P \/ Q \/ R' \/ S' \/ T') as Hmono by tauto.
  induction 1; intros Hin; [by apply elem_of_nil in Hin|..];
    (apply elem_of_cons in Hin as [->|Hin];
     [|eapply Hmono; [apply IHprune_outcome, Hin|intros; try (apply elem_of_cons; right); assumption
         |apply cleared_mono; in_goal|intros (e' & He' & Hm); exists e'; split; [in_goal|assumption]]]).
  - by left.
  - by right; left.
  - right; right; right. apply orb_prop in H1 as [Hn|Hn]; [left; left|right]; exists e; (split; [left|done]).
  - right; right; left. left.
  - right; right; right; left. right; left. exists live. split; [left|done].
  - right; right; right; left. eapply cleared_mono; [|by eapply delete_outcome_cleared]. in_goal.
  - right; right; left. left.
Qed.

(** Nothing is invented, and an error is reported exactly when something is kept. *)
Lemma prune_retained c ob cr keys prev ret errs t :
  prune_outcome c ob cr keys prev ret errs t ->
  ret ⊆ prev /\ length ret = length errs /\ Forall (fun e => e ≠ None) errs.
Proof.
  induction 1; destruct_and?; split_and!; try done; try (cbn; congruence); try (by constructor);
    intros x Hx; rewrite ?elem_of_cons in *; naive_solver.
Qed.
End Consequences.

(** ** What becomes of the inventory *)

(** The server answers a patch with the object it addresses. *)
Class FaithfulServer {U : Unstructured} (B : Boundary) : Prop := {
  patch_identity c fieldManager u s :
    let u' := fst (fst (client_Patch c fieldManager u s)) in
    GetGroupVersionKind u' = GetGroupVersionKind u /\ GetNamespace u' = GetNamespace u /\ GetName u' = GetName u;
}.

Section Inventory.
Context {U : Unstructured} {E : ApiErrors} {B : Boundary}.

(** The inventory of the cluster behind [c]. *)
Definition inventory (c : client) (cr : DualDeploymentOperator) : list ResourceStatus :=
  match c with
  | SeedClient => status_SeedResources (cr_Status cr)
  | ShootClient _ => status_ShootResources (cr_Status cr)
  end.

(** What may happen to a recorded resource when the inventory becomes [out]: it
    is kept, an entry for the same object replaces it, it is a CRD kept by
    policy, the object is gone or not ours, or its kind is no longer served. *)
Definition accounted (c : client) (ownedBy : string) (cr : DualDeploymentOperator)
  (out : list ResourceStatus) (t : list event) (rs : ResourceStatus) : Prop :=
  (exists rs', rs' ∈ out /\ StatusIdentityKey rs' = StatusIdentityKey rs) \/
  crd_retained cr rs = true \/
  cleared c ownedBy rs t \/
  (exists e, EvGet c (GetGroupVersionKind (m_Unstructured (ManifestFromStatus rs)))
               (ObjectKeyFromObject (m_Unstructured (ManifestFromStatus rs))) (Err e) ∈ t /\
             IsNoMatchError e = true).

Lemma accounted_mono c ob cr out out' t t' rs :
  (forall x, x ∈ out -> x ∈ out') -> (forall ev, ev ∈ t -> ev ∈ t') ->
  accounted c ob cr out t rs -> accounted c ob cr out' t' rs.
Proof.
  intros Ho Ht [(rs' & Hin & Hk)|[Hc|[Hc|(e & Hin & He)]]].
  - left. eauto.
  - right; by left.
  - right; right; left. by eapply cleared_mono.
  - right; right; right. eauto.
Qed.

Lemma accounted_kept c ob cr out t rs : rs ∈ out -> accounted c ob cr out t rs.
Proof. intros Hin. left. by exists rs. Qed.

(** An object sent is recorded, whether or not the server took it. *)
Lemma apply_all_recorded c ob ms out errs t c' u e :
  apply_all_outcome c ob ms out errs t -> EvPatch c' u e ∈ t ->
  c' = c /\ exists rs, rs ∈ out /\ status_of u rs.
Proof.
  intros Ho Hin. split.
  - pose proof (apply_all_client _ _ _ _ _ _ Ho) as Hc. rewrite Forall_forall in Hc. apply (Hc _ Hin).
  - destruct (apply_all_sent _ _ _ _ _ _ _ _ _ Ho Hin) as (m & Hm & ->).
    pose proof (apply_all_statuses _ _ _ _ _ _ Ho) as Hf.
    apply list_elem_of_lookup in Hm as [i Hi]. destruct (Forall2_lookup_l _ _ _ _ _ Hf Hi) as (st & Hst & Hs).
    exists st. split; [by eapply list_elem_of_lookup_2|done].
Qed.

(** An object whose apiVersion can be parsed. *)
Definition parseable (u : obj) : Prop := exists gv, ParseGroupVersion (GetAPIVersion u) = (gv, None).
End Inventory.
