(* ===== verification/Safety.v ===== *)
(** Safety of the reconciler: what holds of the API calls of every run, whatever
    the API servers answer. *)

From S2P Require Import Prelude Value Apimachinery Types Clients Manifest Order Boundary Applier Transform Controller Outcomes.

(** ** What the reconciler is given *)

Section Contracts.
Context {U : Unstructured} {E : ApiErrors} {B : Boundary}.

(** The seed applier writes to the seed; an injected shoot applier, if any,
    writes to a shoot and is built without side effects. *)
Class ReconcilerContract (r : Reconciler) : Prop := {
  seed_contract : ApplierContract (r_SeedApplier r) SeedClient;
  shoot_contract f cr : r_shootApplierFor r = Some f ->
    post (f cr) (fun res t => Forall quiet t /\
      forall a, res = Ok a -> exists cfg, ApplierContract a (ShootClient cfg));
}.

(** Rendering reads; it writes to no cluster and not to the CR. *)
Class SourceContract (SP : SourcePackage B) : Prop := {
  render_quiet spec ns src mode n : source_From spec ns = Ok src ->
    post (Render src mode n) (fun _ t => Forall quiet t);
}.
End Contracts.

#[export] Instance production_contract {U : Unstructured} {E : ApiErrors} (B : Boundary) :
  ReconcilerContract (production_reconciler B).
Proof. split; [apply SSA_contract|done]. Qed.

(** ** A property of traces that every step keeps *)

Class TraceClosed (I : list event -> Prop) : Prop := {
  tc_nil : I [];
  tc_app t t' : I t -> I t' -> I (t ++ t')%list;
}.

Section Always.
Context {B : Boundary} (I : list event -> Prop) `{!TraceClosed I}.

Definition always {A} (m : M A) : Prop := post m (fun _ t => I t).

Lemma always_ret {A} (a : A) : always (ret a).
Proof. apply post_ret, tc_nil. Qed.

Lemma always_bind {A C} (m : M A) (k : A -> M C) :
  always m -> (forall a, always (k a)) -> always (bind m k).
Proof.
  intros Hm Hk. eapply post_bind; [exact Hm|]. intros a t Ht.
  eapply post_mono; [apply Hk|]. intros c t'. by apply tc_app.
Qed.

Lemma always_post_bind {A C} (m : M A) (k : A -> M C) (Q : A -> Prop) :
  post m (fun a t => Q a /\ I t) -> (forall a, Q a -> always (k a)) -> always (bind m k).
Proof.
  intros Hm Hk. eapply post_bind; [exact Hm|]. intros a t [Hq Ht].
  eapply post_mono; [by apply Hk|]. intros c t'. by apply tc_app.
Qed.

Lemma closed_Forall t : Forall (fun ev => I [ev]) t -> I t.
Proof. induction 1; [apply tc_nil|]. by apply (tc_app [x]). Qed.
End Always.

#[export] Hint Resolve always_ret : ddo.

Section Framework.
Context {U : Unstructured} {E : ApiErrors} {L : MetaLib} {P : PatchLib} {B : Boundary}
  {SP : SourcePackage B} (r : Reconciler) `{!ReconcilerContract r} `{!SourceContract SP}.

Lemma post_buildShootApplier cr :
  post (buildShootApplierOrDefault r cr) (fun res t => Forall quiet t /\
    forall a, res = Ok a -> exists cfg, ApplierContract a (ShootClient cfg)).
Proof.
  unfold buildShootApplierOrDefault. destruct (r_shootApplierFor r) as [f|] eqn:Ef;
    [by apply shoot_contract|]. unfold buildShootApplier.
  eapply post_bind; [apply post_GetSecret|]. cbn beta. intros [secret|err] t ->.
  2:{ apply post_ret. split; [by solve_quiet|done]. }
  destruct (ShootRESTConfig _ _ _ _) as [cfg|err].
  2:{ destruct (errors_Is _ _); apply post_ret; (split; [by solve_quiet|done]). }
  eapply post_bind; [apply post_NewClient|]. cbn beta. intros [err|] t ->; apply post_ret;
    (split; [by solve_quiet|]); [done|].
  intros a [= <-]. exists cfg. apply (SSA_contract (mkSSAApplier (ShootClient cfg) FieldManagerName "shoot")).
Qed.

(** The per-call obligations for a property of the trace of one CR. *)
Context (I : list event -> Prop) `{!TraceClosed I} (ownedBy : string).
Context (I_quiet : forall ev, quiet ev -> I [ev]).
Context (I_update : forall cr e, I [EvCRUpdate cr e]).
Context (I_status : forall cr cr' e, I [EvStatusUpdate cr cr' e]).
Context (I_apply : forall c ms out errs t, apply_all_outcome c ownedBy ms out errs t -> I t).
Context (I_prune : forall c cr keys prev ret errs t, prune_outcome c ownedBy cr keys prev ret errs t -> I t).
Context (I_delete : forall c cr prev errs t, delete_all_outcome c ownedBy cr prev errs t -> I t).

Lemma quiet_closed t : Forall quiet t -> I t.
Proof. intros H. apply closed_Forall; [done|]. eapply Forall_impl; [exact H|]. apply I_quiet. Qed.

Lemma always_Now : always I Now.
Proof. eapply post_mono; [apply post_Now|]. intros a t ->. apply tc_nil. Qed.
Lemma always_StatusUpdate cr : always I (StatusUpdate cr).
Proof. eapply post_mono; [apply post_StatusUpdate|]. intros a t ->. apply I_status. Qed.
Lemma always_UpdateCR cr : always I (UpdateCR cr).
Proof. eapply post_mono; [apply post_UpdateCR|]. intros a t ->. apply I_update. Qed.
Lemma always_record a b c : always I (record_event r a b c).
Proof.
  unfold record_event. destruct (r_Recorder r); [|by apply always_ret].
  eapply post_mono; [apply post_Eventf|]. intros [] t ->. apply I_quiet. by solve_quiet.
Qed.

Lemma always_set_status_condition cr c : always I (set_status_condition cr c).
Proof. apply always_bind; [done|apply always_Now|intros; by apply always_ret]. Qed.

Lemma always_applyAll a c ms : ApplierContract a c -> always I (applyAll a ms ownedBy).
Proof.
  intros Ha. apply always_bind; [done| |intros [[? ?] ?]; by apply always_ret].
  eapply post_mono; [by apply (post_apply_loop a c)|]. intros [[? ?] ?] t [_ Ht]. by eapply I_apply.
Qed.

Lemma always_prune a c prev ms cr : ApplierContract a c -> always I (prune a prev ms cr ownedBy).
Proof.
  intros Ha. apply always_bind; [done| |intros [? ?]; by apply always_ret].
  eapply post_mono; [by apply (post_prune_loop a c)|]. intros [? ?] t Ht. by eapply I_prune.
Qed.

Lemma always_deleteRender a c cr l : ApplierContract a c -> always I (deleteRender cr ownedBy (Some a) l).
Proof.
  intros Ha. eapply post_mono; [by apply (post_delete_loop a c)|]. intros ? t Ht. by eapply I_delete.
Qed.

Lemma always_errStatus cr reason err : always I (errStatus cr reason err).
Proof.
  unfold errStatus, setCondition.
  repeat (apply always_bind; [done| |intros]);
    auto using always_set_status_condition, always_Now, always_StatusUpdate with ddo.
Qed.

Lemma always_finishNotReady cr a b n : always I (finishNotReady cr a b n).
Proof.
  unfold finishNotReady. apply always_bind; [done|apply always_Now|intros now].
  apply always_bind; [done|apply always_StatusUpdate|intros [? [e|]]]; [by apply always_ret|].
  destruct (n =? 0)%Z; by apply always_ret.
Qed.

Lemma always_not_ready cr sf ms reason msg n : always I (not_ready r cr sf ms ownedBy reason msg n).
Proof.
  unfold not_ready. apply always_bind; [done| |intros].
  { destruct sf; [by apply always_ret|]. unfold seed_without_shoot.
    apply always_bind; [done|apply (always_applyAll _ SeedClient), seed_contract|intros [[? ?] ?]].
    apply always_bind; [done|apply (always_prune _ SeedClient), seed_contract|intros [? ?]].
    by apply always_ret. }
  apply always_bind; [done|apply always_set_status_condition|intros]. apply always_finishNotReady.
Qed.

Lemma always_finish_ready cr sf sa c ms1 ms2 st1 st2 errs :
  ApplierContract sa c -> always I (finish_ready r cr sf sa ms1 ms2 st1 st2 errs ownedBy).
Proof.
  intros Ha. unfold finish_ready. pose proof seed_contract as Hs.
  apply always_bind; [done| |intros [[? ?] ?]].
  { destruct sf; (apply always_bind; [done|by eapply always_prune|intros [? ?]]);
      (apply always_bind; [done|by eapply always_prune|intros [? ?]]); by apply always_ret. }
  apply always_bind; [done|apply always_set_status_condition|intros].
  apply always_bind; [done|apply always_Now|intros now].
  apply always_bind; [done|apply always_StatusUpdate|intros [? [e|]]]; [by apply always_ret|].
  destruct (NewAggregate _); by apply always_ret.
Qed.

Lemma always_apply_ready cr sf sa c ms1 ms2 :
  ApplierContract sa c -> always I (apply_ready r cr sf sa ms1 ms2 ownedBy).
Proof.
  intros Ha. unfold apply_ready. pose proof seed_contract as Hs. destruct sf.
  - apply always_bind; [done|by eapply always_applyAll|intros [[? st] ?]].
    destruct (anyFailed st).
    + apply always_bind; [done|by eapply always_prune|intros [? ?]].
      apply always_bind; [done|apply always_set_status_condition|intros].
      apply always_bind; [done|apply always_finishNotReady|intros [? ?]]. by apply always_ret.
    + apply always_bind; [done|by eapply always_applyAll|intros [[? ?] ?]]. by eapply always_finish_ready.
  - apply always_bind; [done|by eapply always_applyAll|intros [[? ?] ?]].
    apply always_bind; [done|by eapply always_applyAll|intros [[? ?] ?]]. by eapply always_finish_ready.
Qed.

Lemma always_render_both cr : always I (render_both cr).
Proof.
  unfold render_both. destruct (source_From _ _) as [src|] eqn:Es; [|by apply always_ret].
  assert (forall mode n, always I (Render src mode n)) as Hr.
  { intros. eapply post_mono; [by eapply render_quiet|]. intros ? t. apply quiet_closed. }
  apply always_bind; [done|apply Hr|intros [?|?]]; [|by apply always_ret].
  apply always_bind; [done|apply Hr|intros [?|?]]; [|by apply always_ret].
  destruct (Build _); by apply always_ret.
Qed.

Lemma always_reconcile_live cr :
  ownedBy = OwnedByValue (meta_Namespace (cr_meta cr)) (meta_Name (cr_meta cr)) ->
  always I (reconcile_live r cr).
Proof.
  intros Ho. unfold reconcile_live. apply always_bind; [done|apply always_render_both|].
  intros [[seed shoot]|[reason err]]; [|apply always_errStatus]. unfold deliver. rewrite <- Ho.
  eapply (always_post_bind I _ _ (fun res => forall a, res = Ok a -> exists cfg, ApplierContract a (ShootClient cfg))).
  { eapply post_mono; [apply post_buildShootApplier|]. intros res t [Hq Hc]. split; [done|by apply quiet_closed]. }
  intros [sa|err] Hc.
  - destruct (Hc sa eq_refl) as [cfg Ha]. by eapply always_apply_ready.
  - destruct (errors_Is _ _); apply always_not_ready.
Qed.

Lemma always_finish_delete cr d errs : always I (finish_delete r cr d errs).
Proof.
  unfold finish_delete, recordShootCleanupForceDeleted, recordShootCleanupBlocked.
  destruct d; [|case_bool_decide].
  - apply always_bind; [done|apply always_UpdateCR|intros [? ?]]. by apply always_ret.
  - apply always_bind; [done| |intros].
    { apply always_bind; [done|apply always_record|intros]. apply always_set_status_condition. }
    apply always_bind; [done|apply always_StatusUpdate|intros [? ?]].
    apply always_bind; [done|apply always_UpdateCR|intros [? ?]]. by apply always_ret.
  - apply always_bind; [done| |intros].
    { apply always_bind; [done|apply always_record|intros]. apply always_set_status_condition. }
    apply always_bind; [done|apply always_StatusUpdate|intros [? [?|]]]; by apply always_ret.
Qed.

Lemma post_build_for_delete cr n :
  post (build_for_delete r cr n) (fun '(_, sa, _) t => I t /\
    match sa with Some a => exists cfg, ApplierContract a (ShootClient cfg) | None => True end).
Proof.
  unfold build_for_delete. destruct (Nat.ltb 0 n); [|apply post_ret; split; [apply tc_nil|done]].
  eapply post_bind; [apply post_buildShootApplier|]. intros [sa|err] t [Hq Hc].
  - apply post_ret. rewrite app_nil_r. split; [by apply quiet_closed|]. by apply Hc.
  - unfold recordShootUnreachable. eapply post_bind with (P := fun _ t => I t).
    { apply (always_bind I); [apply always_record|intros; apply always_set_status_condition]. }
    intros cr' t' Ht'. apply post_ret. rewrite app_nil_r. split; [|done].
    apply tc_app; [by apply quiet_closed|done].
Qed.

Lemma always_delete_both cr : always I (delete_both r cr ownedBy).
Proof.
  unfold delete_both. pose proof seed_contract as Hs.
  eapply post_bind; [apply post_build_for_delete|]. intros [[cr' sa] berr] t [Ht Hc].
  assert (always I (deleteRender cr' ownedBy sa (status_ShootResources (cr_Status cr')))) as Hsh.
  { destruct sa as [a|]; [|by apply always_ret]. destruct Hc as [cfg Hc]. by eapply always_deleteRender. }
  assert (always I (deleteRender cr' ownedBy (Some (r_SeedApplier r)) (status_SeedResources (cr_Status cr')))) as Hse
    by by eapply always_deleteRender.
  eapply post_mono with (P := fun _ t' => I t'); [|intros ? t' Ht'; by apply tc_app].
  apply (always_bind I).
  { case_bool_decide; (apply (always_bind I); [done|intros]); (apply (always_bind I); [done|intros]);
      by apply always_ret. }
  intros [seedErrs shootErrs]. destruct (NewAggregate seedErrs); [by apply always_ret|].
  apply always_finish_delete.
Qed.

Lemma always_reconcileDelete cr :
  ownedBy = OwnedByValue (meta_Namespace (cr_meta cr)) (meta_Name (cr_meta cr)) ->
  always I (reconcileDelete r cr).
Proof.
  intros Ho. unfold reconcileDelete. rewrite <- Ho.
  apply always_bind; [done|apply always_set_status_condition|intros].
  apply always_bind; [done|apply always_StatusUpdate|intros [? [e|]]]; [|apply always_delete_both].
  destruct (negb (IsNotFound e)); [by apply always_ret|apply always_delete_both].
Qed.
End Framework.

(** ** Whole runs *)

(** The owned-by value of a CR. *)
Definition owner_value (cr : DualDeploymentOperator) : string :=
  OwnedByValue (meta_Namespace (cr_meta cr)) (meta_Name (cr_meta cr)).

Section Whole.
Context {U : Unstructured} {E : ApiErrors} {L : MetaLib} {P : PatchLib} {B : Boundary}
  {SP : SourcePackage B} (r : Reconciler) `{!ReconcilerContract r} `{!SourceContract SP}.

(** A property of the calls made for one owner, kept by every step. *)
Context (I : string -> list event -> Prop) `{HI : forall ob, TraceClosed (I ob)}.
Context (I_quiet : forall ob ev, quiet ev -> I ob [ev]).
Context (I_update : forall ob cr e, I ob [EvCRUpdate cr e]).
Context (I_status : forall ob cr cr' e, I ob [EvStatusUpdate cr cr' e]).
Context (I_apply : forall ob c ms out errs t, apply_all_outcome c ob ms out errs t -> I ob t).
Context (I_prune : forall ob c cr keys prev ret errs t, prune_outcome c ob cr keys prev ret errs t -> I ob t).
Context (I_delete : forall ob c cr prev errs t, delete_all_outcome c ob cr prev errs t -> I ob t).

(** Every run of Reconcile reads the CR and then makes calls that satisfy [I]
    for the owner it read. *)
Lemma post_Reconcile_always req :
  post (Reconcile r req) (fun _ t => exists got t', t = EvCRGet req got :: t' /\
    match got with Ok cr => I (owner_value cr) t' | Err _ => t' = [] end).
Proof.
  unfold Reconcile. eapply post_bind; [apply post_GetCR|]. cbn beta. intros got t ->.
  assert (forall A (m : M A), match got with Ok cr => always (I (owner_value cr)) m
                     | Err _ => post m (fun _ t => t = []) end ->
    post m (fun _ t => exists got0 t', ([EvCRGet req got] ++ t)%list = EvCRGet req got0 :: t' /\
      match got0 with Ok cr => I (owner_value cr) t' | Err _ => t' = [] end)) as Hwrap.
  { intros A m Hm. destruct got; (eapply post_mono; [exact Hm|]; intros ? t Ht; by eexists _, t). }
  destruct got as [cr|err]; apply Hwrap; [|by apply post_ret].
  destruct (negb (Time_IsZero _)); [eapply always_reconcileDelete; eauto|].
  destruct (negb (ContainsFinalizer _ _)); [|eapply always_reconcile_live; eauto].
  apply always_bind; [done|by apply always_UpdateCR; auto|]. intros [? ?]. by apply always_ret.
Qed.
End Whole.
