(* ===== verification/Deliver.v ===== *)
(** What Reconcile does with two transformed renders (steps 5 to 9): the outcomes
    of [deliver] as a relation, and that the code refines it. *)

From S2P Require Import Prelude Value Apimachinery Types Clients Manifest Order Boundary Applier Transform Controller Outcomes Safety.

#[local] Opaque IsClusterScoped computeHealth prepared OwnedByValue.

(** ** The final status write *)

Section StatusWrite.
Context {L : MetaLib} {B : Boundary}.

(** One status update that sets the inventories, the condition and the time of
    the reconcile, and changes nothing else. *)
Definition status_write (cr : DualDeploymentOperator) (seed shoot : list ResourceStatus) (cond : Condition)
  (e : option error) (t : list event) : Prop :=
  exists now now' left,
    t = [EvStatusUpdate (with_LastReconcile (with_Resources (with_Conditions cr
           (SetStatusCondition now (status_Conditions (cr_Status cr)) cond)) seed shoot) (Some now')) left e].

Lemma post_set_status_condition cr c :
  post (set_status_condition cr c) (fun cr' t => t = [] /\
    exists now, cr' = with_Conditions cr (SetStatusCondition now (status_Conditions (cr_Status cr)) c)).
Proof.
  unfold set_status_condition. eapply post_bind; [apply post_Now|]. cbn beta. intros now t ->.
  apply post_ret. eauto.
Qed.

(** The Ready=False condition of setCondition. *)
Definition not_ready_condition (cr : DualDeploymentOperator) (reason msg : string) : Condition :=
  mkCondition "Ready" ConditionFalse reason msg (meta_Generation (cr_meta cr)) None.

Definition not_ready_result (backoff : Z) (e : option error) : Result * option error :=
  match e with
  | Some e => (Result0, Some e)
  | None => if (backoff =? 0)%Z then (Result0, Some (ENew "shoot render unavailable; requeuing"))
            else (mkResult backoff, None)
  end.

Lemma post_finishNotReady cr reason msg seed shoot backoff :
  post (bind (setCondition cr reason msg (meta_Generation (cr_meta cr)))
             (fun cr' => finishNotReady cr' seed shoot backoff)) (fun res t =>
    exists e, res = not_ready_result backoff e /\
      status_write cr seed shoot (not_ready_condition cr reason msg) e t).
Proof.
  unfold setCondition, finishNotReady. eapply post_bind; [apply post_set_status_condition|].
  cbn beta. intros cr' t [-> [now ->]].
  eapply post_bind; [apply post_Now|]. cbn beta. intros now' t ->.
  eapply post_bind; [apply post_StatusUpdate|]. cbn beta. intros [left e] t ->. cbn [fst snd app].
  assert (forall e', status_write cr seed shoot (not_ready_condition cr reason msg) e'
    [EvStatusUpdate (with_LastReconcile (with_Resources (with_Conditions cr
      (SetStatusCondition now (status_Conditions (cr_Status cr)) (not_ready_condition cr reason msg))) seed shoot)
      (Some now')) left e']) as Hw by (intros e'; by eexists _, _, _).
  destruct e as [e|]; [apply post_ret; exists (Some e); split; [done|apply Hw]|].
  destruct (backoff =? 0)%Z eqn:Eb; apply post_ret; exists None; (split; [cbn; by rewrite Eb|apply Hw]).
Qed.
End StatusWrite.

(** ** The outcomes *)

Section Outcome.
Context {U : Unstructured} {E : ApiErrors} {L : MetaLib} {B : Boundary}.

(** One cluster brought to its render: the applies, the prune of what is no
    longer rendered, and the errors of both. *)
Definition half (cr : DualDeploymentOperator) (c : client) (ms : list Manifest)
  (out retained : list ResourceStatus) (applyErr pruneErr : option error) (ta tp : list event) : Prop :=
  exists ms' errs errs',
    Forall2 (left_by_apply c (owner_value cr)) ms ms' /\
    apply_all_outcome c (owner_value cr) ms out errs ta /\ applyErr = NewAggregate errs /\
    prune_outcome c (owner_value cr) cr (map ManifestIdentityKey ms') (SortStatusForDelete (inventory c cr))
      retained errs' tp /\ pruneErr = NewAggregate errs'.

Definition ready_result (e : option error) (errs : list (option error)) : Result * option error :=
  match e with
  | Some err => (Result0, Some err)
  | None => match NewAggregate errs with
            | Some err => (Result0, Some err)
            | None => (mkResult requeueInterval, None)
            end
  end.

Definition ready_condition (cr : DualDeploymentOperator) (seed shoot : list ResourceStatus) : Condition :=
  let c := computeConditions seed shoot in
  mkCondition (c_Type c) (c_Status c) (c_Reason c) (c_Message c) (meta_Generation (cr_meta cr)) None.

(** The condition reason and the requeue delay when the shoot cannot be reached:
    credentials that Gardener has not populated yet are waited for. *)
Definition unreachable_phase (reason : string) (backoff : Z) : Prop :=
  reason = "WaitingForShootCredentials" /\ backoff = 30%Z \/ reason = "ShootApplyFailed" /\ backoff = 0%Z.

(** The reconcile of [cr] with the sorted renders [seed] and [shoot]: its result,
    the calls before the status write, the inventories and condition written, the
    error of the write. *)
Inductive deliver_outcome (cr : DualDeploymentOperator) (seed shoot : list Manifest)
  : Result * option error -> list event -> list ResourceStatus -> list ResourceStatus -> Condition ->
    option error -> Prop :=
| deliver_shoot_down tb reason msg backoff e :
    spec_ApplyOrder (cr_Spec cr) ≠ "SeedFirst" -> Forall quiet tb -> unreachable_phase reason backoff ->
    deliver_outcome cr seed shoot (not_ready_result backoff e) tb
      (inventory SeedClient cr) (status_ShootResources (cr_Status cr))
      (not_ready_condition cr reason msg) e
| deliver_seed_only tb ta tp out retained ea ep reason msg backoff e :
    spec_ApplyOrder (cr_Spec cr) = "SeedFirst" -> Forall quiet tb -> unreachable_phase reason backoff ->
    half cr SeedClient seed out retained ea ep ta tp ->
    deliver_outcome cr seed shoot (not_ready_result backoff e) (tb ++ ta ++ tp)
      (out ++ retained) (status_ShootResources (cr_Status cr)) (not_ready_condition cr reason msg) e
| deliver_gated tb cfg ta tp out retained ea ep reason msg e :
    spec_ApplyOrder (cr_Spec cr) ≠ "SeedFirst" -> Forall quiet tb ->
    half cr (ShootClient cfg) shoot out retained ea ep ta tp -> anyFailed out = true ->
    reason = (if allFailed out then "ShootApplyFailed" else "ResourcesDegraded") ->
    deliver_outcome cr seed shoot
      (fst (not_ready_result 0 e), NewAggregate [snd (not_ready_result 0 e); ep]) (tb ++ ta ++ tp)
      (inventory SeedClient cr) (out ++ retained) (not_ready_condition cr reason msg) e
| deliver_shoot_first tb cfg ta ta' tp tp' out out' retained retained' ea ea' ep ep' e :
    spec_ApplyOrder (cr_Spec cr) ≠ "SeedFirst" -> Forall quiet tb ->
    half cr (ShootClient cfg) shoot out retained ea ep ta tp -> anyFailed out = false ->
    half cr SeedClient seed out' retained' ea' ep' ta' tp' ->
    deliver_outcome cr seed shoot
      (ready_result e (collect ea' (collect ea []) ++ [NewAggregate [ep'; ep]]))
      (tb ++ ta ++ ta' ++ tp' ++ tp) (out' ++ retained') (out ++ retained)
      (ready_condition cr (out' ++ retained') (out ++ retained)) e
| deliver_seed_first tb cfg ta ta' tp tp' out out' retained retained' ea ea' ep ep' e :
    spec_ApplyOrder (cr_Spec cr) = "SeedFirst" -> Forall quiet tb ->
    half cr (ShootClient cfg) shoot out retained ea ep ta tp ->
    half cr SeedClient seed out' retained' ea' ep' ta' tp' ->
    deliver_outcome cr seed shoot
      (ready_result e (collect ea (collect ea' []) ++ [NewAggregate [ep; ep']]))
      (tb ++ ta' ++ ta ++ tp ++ tp') (out' ++ retained') (out ++ retained)
      (ready_condition cr (out' ++ retained') (out ++ retained)) e.
End Outcome.

(** ** The code refines the outcomes *)

Section Refinement.
Context {U : Unstructured} {E : ApiErrors} {L : MetaLib} {P : PatchLib} {B : Boundary}
  {SP : SourcePackage B} (r : Reconciler) `{!ReconcilerContract r}.

(** A computation and the final write, as one run. *)
Definition delivers (cr : DualDeploymentOperator) (seed shoot : list Manifest)
  (res : Result * option error) (t : list event) : Prop :=
  exists tc ts seedOut shootOut cond e,
    t = (tc ++ ts)%list /\ status_write cr seedOut shootOut cond e ts /\
    deliver_outcome cr seed shoot res tc seedOut shootOut cond e.

Lemma post_applyAll_seed ms ownedBy :
  post (applyAll (r_SeedApplier r) ms ownedBy) (fun '(ms', out, e) t => exists errs,
    Forall2 (left_by_apply SeedClient ownedBy) ms ms' /\ apply_all_outcome SeedClient ownedBy ms out errs t /\
    e = NewAggregate errs).
Proof. apply post_applyAll, seed_contract. Qed.

Lemma post_not_ready cr shootFirst seed shoot reason msg backoff tb :
  shootFirst = negb (bool_decide (spec_ApplyOrder (cr_Spec cr) = "SeedFirst")) ->
  Forall quiet tb -> unreachable_phase reason backoff ->
  post (not_ready r cr shootFirst seed (owner_value cr) reason msg backoff) (fun res t =>
    delivers cr seed shoot res (tb ++ t)).
Proof.
  intros -> Hq Hp. unfold not_ready. case_bool_decide as Ho; cbn [negb].
  - unfold seed_without_shoot. eapply post_bind with (P := fun seedOut t => exists ta tp out retained ea ep,
      t = (ta ++ tp)%list /\ seedOut = (out ++ retained)%list /\ half cr SeedClient seed out retained ea ep ta tp).
    { eapply post_bind; [apply post_applyAll_seed|]. intros [[ms' out] ea] ta (errs & Hl & Ha & He).
      eapply post_bind; [apply post_prune, seed_contract|]. intros [retained ep] tp (errs' & Hpr & Hep).
      apply post_ret. exists ta, tp, out, retained, ea, ep. rewrite app_nil_r. split_and!; [done..|].
      by exists ms', errs, errs'. }
    intros seedOut t (ta & tp & out & retained & ea & ep & -> & -> & Hh).
    eapply post_mono; [apply post_finishNotReady|]. intros res ts (e & -> & Hw).
    exists (tb ++ ta ++ tp)%list, ts. eexists _, _, _, e. rewrite <- !app_assoc.
    split_and!; [done|exact Hw|]. by eapply deliver_seed_only.
  - eapply post_bind; [apply (post_ret _ (fun a t => a = status_SeedResources (cr_Status cr) /\ t = [])); done|].
    intros ? ? [-> ->]. eapply post_mono; [apply post_finishNotReady|]. intros res ts (e & -> & Hw).
    exists tb, ts. eexists _, _, _, e. split_and!; [done|exact Hw|]. by eapply deliver_shoot_down.
Qed.

Lemma post_finish_ready cr shootFirst sa c ms1 ms2 st1 st2 applyErrs :
  ApplierContract sa c ->
  post (finish_ready r cr shootFirst sa ms1 ms2 st1 st2 applyErrs (owner_value cr)) (fun res t =>
    exists ret1 ret2 errs1 errs2 tp1 tp2 ts e,
      t = ((if shootFirst : bool then tp1 ++ tp2 else tp2 ++ tp1) ++ ts)%list /\
      prune_outcome SeedClient (owner_value cr) cr (map ManifestIdentityKey ms1)
        (SortStatusForDelete (status_SeedResources (cr_Status cr))) ret1 errs1 tp1 /\
      prune_outcome c (owner_value cr) cr (map ManifestIdentityKey ms2)
        (SortStatusForDelete (status_ShootResources (cr_Status cr))) ret2 errs2 tp2 /\
      status_write cr (st1 ++ ret1) (st2 ++ ret2) (ready_condition cr (st1 ++ ret1) (st2 ++ ret2)) e ts /\
      res = ready_result e (applyErrs ++ [NewAggregate
        (if shootFirst then [NewAggregate errs1; NewAggregate errs2] else [NewAggregate errs2; NewAggregate errs1])])).
Proof.
  intros Ha. unfold finish_ready. pose proof seed_contract as Hs.
  eapply post_bind with (P := fun '(ret1, ret2, pe) t => exists errs1 errs2 tp1 tp2,
    t = (if shootFirst then tp1 ++ tp2 else tp2 ++ tp1)%list /\
    pe = (if shootFirst then [NewAggregate errs1; NewAggregate errs2] else [NewAggregate errs2; NewAggregate errs1]) /\
    prune_outcome SeedClient (owner_value cr) cr (map ManifestIdentityKey ms1)
      (SortStatusForDelete (status_SeedResources (cr_Status cr))) ret1 errs1 tp1 /\
    prune_outcome c (owner_value cr) cr (map ManifestIdentityKey ms2)
      (SortStatusForDelete (status_ShootResources (cr_Status cr))) ret2 errs2 tp2).
  { destruct shootFirst; (eapply post_bind; [by eapply post_prune|]); intros [a ea] ta (errsa & Hpa & ->);
      (eapply post_bind; [by eapply post_prune|]); intros [b eb] tb (errsb & Hpb & ->);
      apply post_ret; rewrite app_nil_r; by eexists _, _, _, _. }
  intros [[ret1 ret2] pe] t (errs1 & errs2 & tp1 & tp2 & -> & -> & H1 & H2).
  eapply post_bind; [apply post_set_status_condition|]. cbn beta. intros cr' t [-> [now ->]].
  eapply post_bind; [apply post_Now|]. cbn beta. intros now' t ->.
  eapply post_bind; [apply post_StatusUpdate|]. cbn beta. intros [left e] t ->. cbn [fst snd app].
  set (ev := EvStatusUpdate _ _ _).
  assert (status_write cr (st1 ++ ret1) (st2 ++ ret2) (ready_condition cr (st1 ++ ret1) (st2 ++ ret2)) e [ev])
    as Hw by by eexists _, _, _.
  destruct e as [e|]; [|destruct (NewAggregate _) eqn:En]; apply post_ret;
    exists ret1, ret2, errs1, errs2, tp1, tp2, [ev]; eexists; (split_and!; [done..|exact Hw|]);
    unfold ready_result; by rewrite ?En.
Qed.

Lemma post_apply_shoot_first cr sa cfg seed shoot tb :
  ApplierContract sa (ShootClient cfg) -> spec_ApplyOrder (cr_Spec cr) ≠ "SeedFirst" -> Forall quiet tb ->
  post (apply_ready r cr true sa seed shoot (owner_value cr)) (fun res t => delivers cr seed shoot res (tb ++ t)).
Proof.
  intros Ha Ho Hq. unfold apply_ready.
  eapply post_bind; [by eapply post_applyAll|]. intros [[shoot' out] ea] ta (errs & Hl & Hap & Hea).
  destruct (anyFailed out) eqn:Ef.
  - eapply post_bind; [by eapply post_prune|]. intros [retained ep] tp (errs' & Hpr & Hep).
    assert (half cr (ShootClient cfg) shoot out retained ea ep ta tp) as Hh by by exists shoot', errs, errs'.
    set (reason := if allFailed out then _ else _). set (msg := if allFailed out then _ else _).
    intros s. pose proof (post_finishNotReady cr reason msg (status_SeedResources (cr_Status cr))
      (out ++ retained) 0 s) as Hf. unfold bind in *.
    destruct (setCondition cr reason msg (meta_Generation (cr_meta cr)) s) as [[cr' t1] s1].
    destruct (finishNotReady cr' _ _ 0 s1) as [[[res ferr] t2] s2]. cbn.
    destruct Hf as (e & Hres & Hw).
    exists (tb ++ ta ++ tp)%list, (t1 ++ t2)%list. eexists _, _, _, e. rewrite app_nil_r, <- !app_assoc.
    split_and!; [done|exact Hw|]. change res with (fst (res, ferr)). change ferr with (snd (res, ferr)) at 2.
    rewrite Hres. by eapply deliver_gated.
  - eapply post_bind; [apply post_applyAll_seed|]. intros [[seed' out'] ea'] ta' (errs' & Hl' & Hap' & Hea').
    eapply post_mono; [by eapply post_finish_ready|]. cbn beta iota.
    intros res t (ret1 & ret2 & errs1 & errs2 & tp1 & tp2 & ts & e & -> & H1 & H2 & Hw & ->).
    exists (tb ++ ta ++ ta' ++ tp1 ++ tp2)%list, ts. eexists _, _, _, e. rewrite <- !app_assoc.
    split_and!; [done|exact Hw|]. eapply deliver_shoot_first; [done..| |done|].
    + exists shoot', errs. by eexists.
    + exists seed', errs'. by eexists.
Qed.

Lemma post_apply_seed_first cr sa cfg seed shoot tb :
  ApplierContract sa (ShootClient cfg) -> spec_ApplyOrder (cr_Spec cr) = "SeedFirst" -> Forall quiet tb ->
  post (apply_ready r cr false sa seed shoot (owner_value cr)) (fun res t => delivers cr seed shoot res (tb ++ t)).
Proof.
  intros Ha Ho Hq. unfold apply_ready.
  eapply post_bind; [apply post_applyAll_seed|]. intros [[seed' out'] ea'] ta' (errs' & Hl' & Hap' & Hea').
  eapply post_bind; [by eapply post_applyAll|]. intros [[shoot' out] ea] ta (errs & Hl & Hap & Hea).
  eapply post_mono; [by eapply post_finish_ready|]. cbn beta iota.
  intros res t (ret1 & ret2 & errs1 & errs2 & tp1 & tp2 & ts & e & -> & H1 & H2 & Hw & ->).
  exists (tb ++ ta' ++ ta ++ tp2 ++ tp1)%list, ts. eexists _, _, _, e. rewrite <- !app_assoc.
  split_and!; [done|exact Hw|]. eapply deliver_seed_first; [done..| |].
  + exists shoot', errs. by eexists.
  + exists seed', errs'. by eexists.
Qed.

Lemma post_deliver cr seed shoot :
  post (deliver r cr seed shoot) (delivers cr (SortForApply seed) (SortForApply shoot)).
Proof.
  unfold deliver. eapply post_bind; [by apply (post_buildShootApplier r)|]. intros [sa|err] tb [Hq Hc].
  - destruct (Hc sa eq_refl) as [cfg Ha]. case_bool_decide as Ho; cbn [negb].
    + by eapply post_apply_seed_first.
    + by eapply post_apply_shoot_first.
  - destruct (errors_Is _ _); (apply post_not_ready; [done..|]); [by left|by right].
Qed.
End Refinement.
