(* ===== verification/SourceSafety.v ===== *)
(** What rendering does to the outside: it reads only the secret the CR names,
    every request carries credentials from that secret or none, and every
    scratch directory it makes it removes. *)

From S2P Require Import Prelude Value Apimachinery Types Clients Manifest Boundary GoPaths SourceWorld GitResolver HelmLoader Controller SourceRender Outcomes Safety.

(** ** Properties of the calls of a render *)

(** The credentials a request carries. *)
Definition action_auth (a : source_action) : basic_auth :=
  match a with
  | ActPull auth _ _ _ _ | ActResolveDigest auth _ _ | ActBuild auth _ _ | ActClone auth _ _ _ _ _ _
  | ActFetch auth _ _ _ _ | ActLsRemote auth _ _ => auth
  | _ => None
  end.

Section Calls.
Context (Key : NamespacedName -> Prop).

(** The credentials [c] are anonymous or were read from an allowed secret. *)
Definition creds_from (seen : list event) (c : creds) : Prop :=
  creds_ok c = true -> exists key sec, Key key /\ EvSecretGet key (Ok sec) ∈ seen /\ c = credsFromSecretData (secret_Data sec).

Definition auth_from (seen : list event) (auth : basic_auth) : Prop :=
  forall up, auth = Some up -> exists key sec, Key key /\ EvSecretGet key (Ok sec) ∈ seen /\
    let c := credsFromSecretData (secret_Data sec) in
    creds_ok c = true /\ up = (creds_user c, creds_pass c).

(** Each call of the trace is an allowed secret read or a source action whose
    credentials come from one made before. *)
Fixpoint trace_ok (seen t : list event) : Prop :=
  match t with
  | [] => True
  | ev :: t' =>
      match ev with
      | EvSecretGet key _ => Key key
      | EvSource a => auth_from seen (action_auth a)
      | _ => False
      end /\ trace_ok (ev :: seen) t'
  end.

Lemma auth_from_mono seen seen' auth :
  (forall ev, ev ∈ seen -> ev ∈ seen') -> auth_from seen auth -> auth_from seen' auth.
Proof. intros Hi Ha up ->. destruct (Ha up eq_refl) as (key & sec & ? & ? & ?). exists key, sec. auto. Qed.

Lemma creds_from_mono seen seen' c :
  (forall ev, ev ∈ seen -> ev ∈ seen') -> creds_from seen c -> creds_from seen' c.
Proof. intros Hi Ha Hc. destruct (Ha Hc) as (key & sec & ? & ? & ?). exists key, sec. auto. Qed.

Lemma trace_ok_mono seen seen' t :
  (forall ev, ev ∈ seen -> ev ∈ seen') -> trace_ok seen t -> trace_ok seen' t.
Proof.
  revert seen seen'. induction t as [|ev t IH]; intros seen seen' Hi; [done|]. intros [He Ht]. split.
  - destruct ev; try done. by eapply auth_from_mono.
  - eapply IH; [|exact Ht]. intros ev' [->|Hin]%elem_of_cons; apply elem_of_cons; auto.
Qed.

Lemma trace_ok_app seen t t' :
  trace_ok seen t -> trace_ok (t ++ seen)%list t' -> trace_ok seen (t ++ t')%list.
Proof.
  revert seen. induction t as [|ev t IH]; intros seen; [done|]. intros [He Ht] Ht'. split; [done|].
  apply IH; [done|]. eapply trace_ok_mono; [|exact Ht']. in_goal.
Qed.

#[export] Instance trace_ok_closed seen : TraceClosed (trace_ok seen).
Proof.
  split; [done|]. intros t t' Ht Ht'. apply trace_ok_app; [done|]. eapply trace_ok_mono; [|exact Ht']. in_goal.
Qed.

Lemma trace_ok_quiet seen t : trace_ok seen t -> Forall quiet t.
Proof.
  revert seen. induction t as [|ev t IH]; intros seen; [constructor|]. intros [He Ht].
  constructor; [|by eapply IH]. destruct ev; try done; split_and!; try done; by intros ? [].
Qed.

(** ** Scratch directories *)

Definition makes_scratch (ev : event) : Prop := exists d, ev = EvSource (ActMkdirTemp (Ok d)).

(** Every scratch directory that is made is removed later. *)
Definition balanced (t : list event) : Prop :=
  forall t1 d t2, t = (t1 ++ EvSource (ActMkdirTemp (Ok d)) :: t2)%list -> EvSource (ActRemoveAll d) ∈ t2.

Lemma balanced_app t t' : balanced t -> balanced t' -> balanced (t ++ t')%list.
Proof.
  intros H H' t1 d t2 Heq. apply app_eq_inv in Heq as [(k & -> & Hk)|(k & -> & Hk)].
  - destruct k as [|ev k]; cbn in Hk; [by eapply (H' [])|]. injection Hk as <- ->.
    apply elem_of_app. left. by eapply H.
  - by eapply H'.
Qed.

Lemma balanced_none t : Forall (fun ev => ~ makes_scratch ev) t -> balanced t.
Proof.
  intros Hf t1 d t2 ->. apply Forall_app in Hf as [_ Hf]. apply Forall_cons in Hf as [Hn _].
  destruct Hn. by exists d.
Qed.

Lemma balanced_bracket d t :
  Forall (fun ev => ~ makes_scratch ev) t ->
  balanced (EvSource (ActMkdirTemp (Ok d)) :: t ++ [EvSource (ActRemoveAll d)])%list.
Proof.
  intros Hf t1 d' t2 Heq. destruct t1 as [|ev t1]; cbn in Heq.
  - injection Heq as -> <-. apply elem_of_app. right. by apply list_elem_of_singleton.
  - injection Heq as _ Heq. exfalso. assert (Forall (fun ev => ~ makes_scratch ev) (t ++ [EvSource (ActRemoveAll d)])%list) as Ha.
    { apply Forall_app. split; [done|]. constructor; [by intros [? ?]|constructor]. }
    rewrite Heq in Ha. apply Forall_app in Ha as [_ Ha]. apply Forall_cons in Ha as [Hn _]. destruct Hn. by exists d'.
Qed.

#[export] Instance balanced_closed : TraceClosed balanced.
Proof. split; [by intros [] ? ? ?|apply balanced_app]. Qed.

(** A part of a render that makes no scratch directory of its own. *)
Definition part (seen t : list event) : Prop := trace_ok seen t /\ Forall (fun ev => ~ makes_scratch ev) t.

(** A whole render. *)
Definition clean_render (t : list event) : Prop := trace_ok [] t /\ balanced t.

#[export] Instance part_closed seen : TraceClosed (part seen).
Proof.
  split; [split; [done|constructor]|]. intros t t' [? ?] [? ?].
  split; [by apply tc_app|]. by apply Forall_app.
Qed.

#[export] Instance clean_render_closed : TraceClosed clean_render.
Proof. split; [split; apply tc_nil|]. intros t t' [? ?] [? ?]. split; by apply tc_app. Qed.

Lemma part_mono seen seen' t : (forall ev, ev ∈ seen -> ev ∈ seen') -> part seen t -> part seen' t.
Proof. intros Hi [H ?]. split; [by eapply trace_ok_mono|done]. Qed.

Lemma trace_ok_weaken seen t : trace_ok [] t -> trace_ok seen t.
Proof. apply trace_ok_mono. by intros ? ?%elem_of_nil. Qed.

Lemma part_weaken seen t : part [] t -> part seen t.
Proof. apply part_mono. by intros ? ?%elem_of_nil. Qed.

Lemma part_clean t : part [] t -> clean_render t.
Proof. intros [? ?]. split; [done|by apply balanced_none]. Qed.

Lemma part_app seen t t' : part seen t -> part (t ++ seen)%list t' -> part seen (t ++ t')%list.
Proof. intros [? ?] [? ?]. split; [by apply trace_ok_app|by apply Forall_app]. Qed.

Lemma part_action seen a :
  auth_from seen (action_auth a) -> (forall d, a ≠ ActMkdirTemp (Ok d)) -> part seen [EvSource a].
Proof.
  intros Ha Hm. split; [by split|]. constructor; [|constructor]. intros [d [= ->]]. by apply (Hm d).
Qed.

Lemma auth_none seen : auth_from seen None.
Proof. by intros up. Qed.
End Calls.
#[export] Hint Resolve auth_none : ddo.

(** ** Symbolic execution of the source package *)

Section Steps.
Context {B : Boundary} {W : SourceWorld B} {N : NetURL} (I : list event -> Prop) `{!TraceClosed I}.

Lemma always_try {A C} (m : M (result A)) (k : A -> M (result C)) :
  always I m -> (forall a, always I (k a)) -> always I (try_bind m k).
Proof. intros Hm Hk. apply always_bind; [exact _|exact Hm|]. intros [a|e]; [apply Hk|by apply always_ret]. Qed.

Lemma always_must m : always I m -> always I (must m).
Proof. intros Hm. apply always_bind; [exact _|exact Hm|]. intros e. by apply always_ret. Qed.

Lemma always_wrapping {A} pre (m : M (result A)) : always I m -> always I (wrapping pre m).
Proof. intros Hm. apply always_bind; [exact _|exact Hm|]. intros e. by apply always_ret. Qed.

Lemma always_perform {A} (f : env -> A * env) : always I (perform f).
Proof. eapply post_mono; [apply post_perform|]. intros a t ->. apply tc_nil. Qed.

Lemma always_look {A} (f : env -> A) : always I (look f).
Proof. eapply post_mono; [apply post_look|]. intros a t ->. apply tc_nil. Qed.

Lemma always_recorded {A} (act : A -> source_action) (f : env -> A * env) :
  (forall a, I [EvSource (act a)]) -> always I (record act f).
Proof. intros H. eapply post_mono; [apply post_recorded|]. intros a t ->. apply H. Qed.
End Steps.

(** One step; a request is left to show that its credentials are allowed. *)
Ltac source_step :=
  cbn zeta;
  lazymatch goal with
  | |- always _ (try_bind _ _) => apply always_try; [typeclasses eauto| |intros ?]
  | |- always _ (bind _ _) => apply always_bind; [typeclasses eauto| |intros ?]
  | |- always _ (must _) => apply always_must; [typeclasses eauto|]
  | |- always _ (wrapping _ _) => apply always_wrapping; [typeclasses eauto|]
  | |- always _ (ret _) => apply always_ret; typeclasses eauto
  | |- always _ (perform _) => apply always_perform; typeclasses eauto
  | |- always _ (look _) => apply always_look; typeclasses eauto
  | |- always (part _ _) _ =>
      apply always_recorded; intros ?; apply part_action; [cbn [action_auth]|intros ? ?; discriminate]
  end.

Section Renders.
Context {U : Unstructured} {Y : YAMLDecoder} {B : Boundary} {W : SourceWorld B} {N : NetURL}.
Context (Key : NamespacedName -> Prop).

Abbreviation part := (part Key).

(** The result of [m] feeds the rest, which may use what [m] read. *)
Lemma always_flow {A C} (D : list event -> A -> Prop) (m : M (result A)) (k : A -> M (result C)) seen :
  post m (fun r t => part [] t /\ forall a, r = Ok a -> D t a) ->
  (forall a seen', D seen' a -> always (part seen') (k a)) -> always (part seen) (try_bind m k).
Proof.
  intros Hm Hk. eapply post_try_bind; [exact Hm| |].
  - intros e t [Ht _]. by apply part_weaken.
  - intros a t [Ht Ha]. eapply post_mono; [by apply (Hk a t), Ha|]. intros c t' Ht'. apply part_app.
    + by apply part_weaken.
    + eapply part_mono; [|exact Ht']. in_goal.
Qed.

(** What a loader or resolver is given to find credentials. *)
Definition resolver_ok (resolve : option (string -> M (result creds))) : Prop :=
  forall f h, resolve = Some f -> post (f h) (fun r t => part [] t /\ forall c, r = Ok c -> creds_from Key t c).

Lemma CredentialResolver_ok cr ref :
  (forall r, ref = Some r -> secretRef_Name r ≠ "" -> Key (mkNN (resolver_Namespace cr) (secretRef_Name r))) ->
  resolver_ok (Some (fun _ => CredentialResolver_Resolve cr ref)).
Proof.
  intros Hk f h [= <-]. unfold CredentialResolver_Resolve.
  assert (forall c, creds_ok c = false -> post (ret (Ok c)) (fun r t => part [] t /\
    forall c', r = Ok c' -> creds_from Key t c')) as Hanon.
  { intros c Hc. apply post_ret. split; [apply tc_nil|]. intros c' [= <-] Hc'. congruence. }
  destruct ref as [r|]; [|by apply Hanon]. case_bool_decide as Hn; [by apply Hanon|].
  specialize (Hk r eq_refl Hn). set (key := mkNN _ _) in *.
  assert (forall x, part [] [EvSecretGet key x]) as Hpart.
  { intros x. split; [by split|]. constructor; [by intros [? ?]|constructor]. }
  eapply post_try_bind; [apply post_GetSecret|intros e t ->; by split|].
  intros s t ->. apply post_ret. rewrite app_nil_r. split; [done|]. intros c [= <-] _.
  exists key, s. split_and!; [done| |done]. apply list_elem_of_singleton. done.
Qed.

Lemma wrapped_flow {A} (D : list event -> A -> Prop) pre (m : M (result A)) :
  post m (fun r t => part [] t /\ forall a, r = Ok a -> D t a) ->
  post (wrapping pre m) (fun r t => part [] t /\ forall a, r = Ok a -> D t a).
Proof. intros Hm. eapply post_wrapping; [exact Hm|]. intros [a|e] t [? ?]; split; [done..|by intros ?]. Qed.

(** *** helmloader.go *)

Lemma credFor_post (l : helmLoader) : resolver_ok (hl_resolve l) ->
  post (credFor l) (fun r t => part [] t /\ forall c, r = Ok c -> creds_from Key t c).
Proof.
  intros Hl. unfold credFor. destruct (hl_resolve l) as [f|]; [by apply Hl|].
  apply post_ret. split; [apply tc_nil|]. intros c [= <-] Hc. done.
Qed.

Lemma registry_options_auth (l : helmLoader) c seen :
  creds_from Key seen c -> auth_from Key seen (options_auth (registry_options l c)).
Proof.
  intros Hc up. unfold registry_options. cbn. destruct (creds_ok c) eqn:Eo.
  - cbn. intros [= <-]. destruct (Hc Eo) as (key & sec & ? & ? & ->). by exists key, sec.
  - by destruct (hl_httpClient l).
Qed.

Lemma ociRegistryClient_post (l : helmLoader) c :
  post (ociRegistryClient l c) (fun r t => part [] t /\ forall rc, r = Ok rc -> rc = registry_options l c).
Proof.
  eapply post_try_bind; [apply post_must, post_perform|intros e t ->; split; [apply tc_nil|done]|].
  intros [] t ->. apply post_ret. split; [apply tc_nil|]. by intros rc [= <-].
Qed.

(** Requests with a registry client built from [c]. *)
Lemma always_client (l : helmLoader) c seen {C} (k : list (ClientOption HTTPClient) -> M (result C)) :
  always (part seen) (k (registry_options l c)) -> always (part seen) (try_bind (ociRegistryClient l c) k).
Proof.
  intros Hk. eapply post_try_bind; [apply ociRegistryClient_post| |].
  - intros e t [Ht _]. by apply part_weaken.
  - intros rc t [Ht Hrc]. rewrite (Hrc rc eq_refl). eapply post_mono; [exact Hk|]. intros r t' Ht'.
    apply tc_app; [|done]. by apply part_weaken.
Qed.

Lemma pullOCI_part (l : helmLoader) repoURL name version dest :
  resolver_ok (hl_resolve l) -> always (part []) (pullOCI l repoURL name version dest).
Proof.
  intros Hl. eapply always_flow; [by apply wrapped_flow, credFor_post|]. intros c seen Hc.
  apply always_client. repeat source_step. by apply registry_options_auth.
Qed.

Lemma expandAndResolveDeps_part (l : helmLoader) chartPath tmp :
  resolver_ok (hl_resolve l) -> always (part []) (expandAndResolveDeps l chartPath tmp).
Proof.
  intros Hl. unfold expandAndResolveDeps. do 5 (source_step; [repeat source_step|]).
  destruct (negb _); [repeat source_step|].
  eapply always_flow; [by apply wrapped_flow, credFor_post|]. intros c seen Hc.
  apply always_client. repeat source_step. by apply registry_options_auth.
Qed.

Lemma helmLoader_Load_clean (l : helmLoader) repoURL name version :
  resolver_ok (hl_resolve l) -> always (clean_render Key) (helmLoader_Load l repoURL name version).
Proof.
  intros Hl. unfold helmLoader_Load. destruct (rejectURLCredentials repoURL); [source_step|].
  eapply post_try_bind; [apply post_recorded| |].
  - intros e t ->. split; [split; [apply auth_none|done]|]. intros [|? [|]] d t2; discriminate.
  - intros d t ->. eapply (post_deferring _ _ (fun _ => part []) (fun t => t = [EvSource (ActRemoveAll d)])).
    + match goal with |- post ?m _ => change (always (part []) m) end.
      destruct (HasPrefix repoURL "oci://"); [|source_step].
      source_step; [by apply pullOCI_part|]. source_step; [by apply expandAndResolveDeps_part|source_step].
    + apply post_recorded.
    + intros r t t' [Ht Hf] ->. split; [|by apply balanced_bracket].
      split; [apply auth_none|]. apply trace_ok_weaken, (trace_ok_app Key [] t); [done|].
      split; [apply auth_none|done].
Qed.

Lemma helm_resolve_part (l : helmLoader) spec mode :
  resolver_ok (hl_resolve l) -> always (part []) (helm_resolve l spec mode).
Proof.
  intros Hl. unfold helm_resolve. destruct (helmLoader_repoScope _); [|source_step].
  source_step; [|source_step]. unfold helmLoader_ResolveID.
  destruct (rejectURLCredentials _); [source_step|]. destruct (HasPrefix _ _); [|source_step].
  eapply always_flow; [by apply wrapped_flow, credFor_post|]. intros c seen Hc.
  repeat source_step. by apply registry_options_auth.
Qed.

(** *** gitresolver.go *)

Lemma authFor_post (r : gitResolver) base : resolver_ok (gr_resolve r) ->
  post (authFor r base) (fun res t => part [] t /\ forall auth, res = Ok auth -> auth_from Key t auth).
Proof.
  intros Hr. unfold authFor. destruct (gr_resolve r) as [f|] eqn:E.
  - eapply post_try_bind; [by apply Hr|intros e t [? _]; by split|]. intros c t [Ht Hc].
    apply post_ret. rewrite app_nil_r. split; [done|]. intros auth [= <-] up Hup.
    specialize (Hc c eq_refl). destruct (creds_ok c) eqn:Eo; [|done]. cbn in Hup. injection Hup as <-.
    destruct (Hc Eo) as (key & sec & ? & ? & ->). by exists key, sec.
  - apply post_ret. split; [apply tc_nil|]. by intros auth [= <-].
Qed.

Lemma clone_first_part dir base auth names seen :
  auth_from Key seen auth -> always (part seen) (clone_first dir base auth names).
Proof.
  intros Ha. induction names as [|rn names IH]; cbn [clone_first]; [source_step|].
  source_step; [by source_step|]. case_match; [done|source_step].
Qed.

Lemma fetchPinned_part dir base ref auth seen :
  auth_from Key seen auth -> always (part seen) (fetchPinned dir base ref auth).
Proof.
  intros Ha. unfold fetchPinned. destruct (shaRe_MatchString ref).
  - unfold fetchSHA. do 5 (source_step; [by source_step|]; case_match; [source_step|]). source_step.
  - source_step; [by apply clone_first_part|source_step].
Qed.

(** A scratch directory that is still there: it goes with the cleanup. *)
Definition opened (d : string) (t : list event) : Prop :=
  exists t', t = EvSource (ActMkdirTemp (Ok d)) :: t' /\ part [] t'.

Lemma opened_closes d t : opened d t -> forall t', part [] t' ->
  clean_render Key (t ++ t' ++ [EvSource (ActRemoveAll d)])%list.
Proof.
  intros (t0 & -> & Ht0 & Hf0) t' [Ht' Hf']. rewrite (assoc_L (++)%list), <- app_comm_cons.
  assert (Forall (fun ev => ~ makes_scratch ev) (t0 ++ t')%list) as Hf by by apply Forall_app.
  split; [|by apply balanced_bracket]. split; [apply auth_none|]. apply trace_ok_weaken.
  apply trace_ok_app; [apply trace_ok_app; [done|by apply trace_ok_weaken]|]. split; [apply auth_none|done].
Qed.

(** Resolve leaves nothing behind when it fails, and one scratch directory that
    its cleanup removes when it succeeds. *)
Definition resolve_outcome (res : result (string * M unit)) (t : list event) : Prop :=
  match res with
  | Err _ => clean_render Key t
  | Ok (_, cleanup) => exists d, cleanup = RemoveAll d /\ opened d t
  end.

Lemma gitResolver_Resolve_post (r : gitResolver) rawURL subPath : resolver_ok (gr_resolve r) ->
  post (gitResolver_Resolve r rawURL subPath) resolve_outcome.
Proof.
  intros Hr. unfold gitResolver_Resolve.
  destruct (splitRef rawURL) as [[[base root] ref]|e]; [|apply post_ret; apply tc_nil].
  eapply post_try_bind; [apply post_recorded| |].
  { intros e t ->. split; [split; [apply auth_none|done]|]. intros [|? [|]] d t2; discriminate. }
  intros d t ->. cbn zeta. eapply post_bind; [by apply authFor_post|]. intros res t [Ht Hauth].
  assert (forall t', part [] t' -> clean_render Key ([EvSource (ActMkdirTemp (Ok d))] ++ t' ++ [EvSource (ActRemoveAll d)])%list)
    as Hclose.
  { intros t' Ht'. apply (opened_closes d [EvSource (ActMkdirTemp (Ok d))]); [|done].
    exists []. split; [done|apply tc_nil]. }
  destruct res as [auth|e].
  - eapply post_bind; [by apply (fetchPinned_part d base ref auth t), Hauth|]. intros err t' Ht'.
    assert (part [] (t ++ t')%list) as Hp by (apply part_app; [done|by rewrite app_nil_r]).
    destruct err as [err|].
    + eapply post_bind; [apply post_recorded|]. intros u0 t2 ->. apply post_ret. rewrite app_nil_r.
      rewrite (assoc_L (++)%list t). by apply Hclose.
    + apply post_ret. rewrite app_nil_r. exists d. split; [done|]. by exists (t ++ t')%list.
  - eapply post_bind; [apply post_recorded|]. intros u0 t2 ->. apply post_ret. rewrite app_nil_r. by apply Hclose.
Qed.

Lemma kustomize_resolve_part (r : gitResolver) spec mode :
  resolver_ok (gr_resolve r) -> always (part []) (kustomize_resolve r spec mode).
Proof.
  intros Hr. unfold kustomize_resolve. destruct (gitResolver_repoScope _); [|source_step].
  source_step; [|source_step]. unfold gitResolver_ResolveID.
  destruct (splitRef _) as [[[base root] ref]|e]; [|source_step].
  destruct (shaRe_MatchString ref); [source_step|].
  eapply always_flow; [by apply wrapped_flow, authFor_post|]. intros auth seen Ha.
  source_step; [by repeat source_step|]. case_match; source_step.
Qed.

(** *** The sources *)

Lemma always_part_clean {A} (m : M A) : always (part []) m -> always (clean_render Key) m.
Proof. intros H. eapply post_mono; [exact H|]. intros a t. apply part_clean. Qed.

Lemma helmSource_Render_clean spec (l : helmLoader) mode ns :
  resolver_ok (hl_resolve l) -> always (clean_render Key) (helmSource_Render (mkHelm spec (HelmChartLoader l)) mode ns).
Proof.
  intros Hl. unfold helmSource_Render. source_step; [source_step; by apply helmLoader_Load_clean|].
  apply always_part_clean. unfold helm_render_chart. case_match; [|source_step].
  destruct (is_set _); repeat source_step. apply auth_none.
Qed.

Lemma kustomizeSource_Render_clean spec (r : gitResolver) mode ns :
  resolver_ok (gr_resolve r) ->
  always (clean_render Key) (kustomizeSource_Render (mkKustomize spec (GitRootResolver r)) mode ns).
Proof.
  intros Hr. unfold kustomizeSource_Render.
  eapply (post_try_bind _ _ resolve_outcome);
    [eapply post_wrapping; [by apply gitResolver_Resolve_post|by intros [] ?]|by intros e t|].
  intros [root cleanup] t (d & -> & Ho). eapply (post_deferring _ _ (fun _ => part []) (fun t => t = [EvSource (ActRemoveAll d)])).
  - match goal with |- post ?m _ => change (always (part []) m) end.
    unfold kustomize_build. repeat source_step. apply auth_none.
  - apply post_recorded.
  - intros a t1 t2 Ht1 ->. by apply opened_closes.
Qed.

(** The cache makes no call of its own. *)
Definition cache_silent (c : cacheI) : Prop :=
  (forall k, post (cache_get c k) (fun _ t => t = [])) /\ (forall k m, post (cache_put c k m) (fun _ t => t = [])).

Lemma cachingSource_Render_clean (c : cachingSource) mode ns :
  cache_silent (cs_cache c) -> always (part []) (cs_resolve c mode) ->
  always (clean_render Key) (Render (cs_inner c) mode ns) ->
  always (clean_render Key) (cachingSource_Render c mode ns).
Proof.
  intros [Hg Hp] Hr Hi. unfold cachingSource_Render. source_step; [by apply always_part_clean|].
  case_match; [|by case_match]. case_match. cbn zeta. source_step.
  { eapply post_mono; [apply Hg|]. intros ? ? ->. apply tc_nil. }
  case_match; [source_step|]. source_step; [done|]. source_step; [|source_step].
  eapply post_mono; [apply Hp|]. intros ? ? ->. apply tc_nil.
Qed.
End Renders.
