(* ===== verification/SourceSim.v ===== *)
(** A small world for internal/source: one registry, one git remote, scratch
    directories that always succeed, and reference versions of the libraries.
    It shows that the assumptions on those libraries can be met together and
    runs the source package on concrete inputs. *)

From Stdlib Require Import Ascii.
From S2P Require Import Prelude Value Apimachinery Types Clients Manifest Boundary GoPaths SourceWorld GitResolver HelmLoader Controller SourceRender Reference.
Import RefInstances.

(** ** net/url *)

Record simURL := mkSimURL { sim_scheme : string; sim_authority : string; sim_path : string; sim_query : string }.

(** The authority and what follows it. *)
Fixpoint scan_authority (s : string) : string * string :=
  match s with
  | EmptyString => ("", "")
  | String c s' =>
      if ends_authority s then ("", s)
      else let '(a, r) := scan_authority s' in (String c a, r)
  end.

Definition sim_host (authority : string) : string :=
  let '(before, after, found) := strings_Cut authority "@" in if found then after else before.

(** The value of the first [key=] of a query. *)
Definition sim_queryGet (query key : string) : string :=
  let '(_, after, found) := strings_Cut query (key +:+ "=") in
  if found then fst (fst (strings_Cut after "&")) else "".

#[export] Instance sim_NetURL : NetURL := {|
  URL := simURL;
  url_Parse s :=
    let '(scheme, rest, found) := strings_Cut s "://" in
    if negb found then Err (EExt "url" "missing scheme")
    else let '(authority, tail) := scan_authority rest in
         let '(path, query, _) := strings_Cut tail "?" in
         Ok (mkSimURL scheme authority path query);
  u_hasUser u := negb (lacks at_sign (sim_authority u));
  u_Host u := sim_host (sim_authority u);
  u_Path := sim_path;
  u_QueryGet u key := sim_queryGet (sim_query u) key;
  u_SetRawQuery u q := mkSimURL (sim_scheme u) (sim_authority u) (sim_path u) q;
  u_SetPath u p := mkSimURL (sim_scheme u) (sim_authority u) p (sim_query u);
  u_String u := sim_scheme u +:+ "://" +:+ sim_authority u +:+ sim_path u +:+
                (if bool_decide (sim_query u = "") then "" else "?" +:+ sim_query u);
|}.

Lemma scan_authority_user user rest :
  lacks slash user = true -> lacks "?"%char user = true -> lacks "#"%char user = true ->
  lacks at_sign (fst (scan_authority (user +:+ String at_sign rest))) = false.
Proof.
  induction user as [|c user IH]; intros H1 H2 H3.
  - change (lacks at_sign (fst (let '(a, r) := scan_authority rest in (String at_sign a, r))) = false).
    destruct (scan_authority rest) as [a r]. cbn [fst lacks]. by rewrite Ascii.eqb_refl.
  - rewrite string_app_cons. cbn [lacks] in H1, H2, H3.
    apply andb_prop in H1 as [Hc1 H1]. apply andb_prop in H2 as [Hc2 H2]. apply andb_prop in H3 as [Hc3 H3].
    cbn [scan_authority]. unfold ends_authority.
    rewrite (Ascii.eqb_sym c slash), (Ascii.eqb_sym c "?"), (Ascii.eqb_sym c "#").
    apply negb_true_iff in Hc1, Hc2, Hc3. rewrite Hc1, Hc2, Hc3. cbn [orb].
    specialize (IH H1 H2 H3). destruct (scan_authority _) as [a r]. cbn [fst lacks] in *.
    rewrite IH. apply andb_false_r.
Qed.

#[export] Instance sim_NetURLLaws : NetURLLaws sim_NetURL.
Proof.
  split. intros user host rest u H1 H2 H3. cbn [url_Parse sim_NetURL].
  assert (forall s, strings_Cut ("https://" +:+ s) "://" = ("https", s, true)) as Hcut.
  { intros s. by apply (Cut_skip ":" "//" "https"). }
  rewrite Hcut. cbn [negb].
  pose proof (scan_authority_user user (host +:+ rest) H1 H2 H3) as Hu.
  destruct (scan_authority _) as [a t]. destruct (strings_Cut t "?") as [[p q] ?].
  intros [= <-]. cbn [u_hasUser sim_NetURL sim_authority fst] in *. by rewrite Hu.
Qed.

(** ** Helm's CoalesceTables: the destination wins, tables are merged *)

Fixpoint coalesce_value (dst src : value) : value :=
  match dst, src with
  | VMap d, VMap s =>
      VMap (map_fold (fun k v acc =>
        <[k := match s !! k with Some sv => coalesce_value v sv | None => v end]> acc) s d)
  | _, _ => dst
  end.

Definition coalesce (d s : obj) : obj := match coalesce_value (VMap d) (VMap s) with VMap m => m | _ => d end.

Lemma coalesce_lookup d s k :
  coalesce d s !! k =
  match d !! k with
  | Some v => Some (match s !! k with Some sv => coalesce_value v sv | None => v end)
  | None => s !! k
  end.
Proof.
  unfold coalesce. cbn [coalesce_value].
  refine (map_fold_weak_ind (fun acc d => acc !! k = match d !! k with
    | Some v => Some (match s !! k with Some sv => coalesce_value v sv | None => v end) | None => s !! k end)
    _ _ _ _ d); [done|].
  intros j v m acc Hj IH. destruct (decide (k = j)) as [->|Hne].
  - by rewrite !lookup_insert_eq.
  - rewrite !lookup_insert_ne by done. exact IH.
Qed.

(** ** The world *)

(** The process: how many scratch directories it made, and its render cache. *)
Record lab := mkLab { lab_dirs : nat; lab_cache : gmap string (list Manifest) }.

Definition lab_secrets : gmap string Secret :=
  {["shoot--demo/regcred" := mkSecret {["username" := "bot"; "password" := "s3cret"]}]}.

Definition absent {A} (what : string) : result A := Err (EExt "NotFound" (what +:+ " not found")).

Definition forbidden : option error := Some (EExt "Forbidden" "secrets only").

(** A cluster that serves secrets only. *)
#[export] Instance lab_Boundary : Boundary := {|
  env := lab;
  client_Get _ _ key s := (absent (nn_Name key), s);
  client_Patch _ _ u s := ((u, forbidden), s);
  client_Delete _ _ s := (None, s);
  cr_Get key s := (absent (nn_Name key), s);
  cr_Update cr s := ((cr, forbidden), s);
  cr_StatusUpdate cr s := ((cr, forbidden), s);
  secret_Get key s :=
    (match lab_secrets !! (nn_Namespace key +:+ "/" +:+ nn_Name key) with
     | Some sec => Ok sec
     | None => absent (nn_Name key)
     end, s);
  client_New _ s := (None, s);
  recorder_Eventf _ _ _ _ s := s;
  time_Now s := (0%Z, s);
|}.

(** The chart "widgets" with a vendored and an OCI dependency, the git remote
    with a tag and a branch; a values document is one [key=value]. *)
#[export] Instance lab_World : SourceWorld lab_Boundary := {|
  HTTPClient := unit;
  Chart := string;
  ResMap := string;
  os_MkdirTemp dir pattern s :=
    (Ok ("/tmp/" +:+ pattern +:+ pretty (N.of_nat (lab_dirs s))), mkLab (S (lab_dirs s)) (lab_cache s));
  os_RemoveAll _ s := s;
  os_MkdirAll _ s := (None, s);
  os_ReadDir _ _ := Ok [mkDirEntry "widgets-1.0.0.tgz" false; mkDirEntry "widgets" true];
  os_Open _ _ := None;
  os_Stat_IsDir p _ :=
    if HasSuffix p "/charts/common" then Ok true
    else if HasSuffix p "/Chart.lock" then Ok false else Err (EExt "fs" "not exist");
  os_IsNotExist e := true;
  filepath_Glob _ _ := Ok [];
  registry_NewClient _ s := (None, s);
  pull_Run _ _ _ _ _ s := (None, s);
  registry_Resolve _ ref s := (Ok ("sha256:" +:+ ref), s);
  registry_IsOCI url := HasPrefix url "oci://";
  chartutil_Expand _ _ s := (None, s);
  chartutil_LoadChartfile _ _ :=
    Ok (mkMetadata "widgets" [mkDependency "common" ""; mkDependency "lib" "oci://registry.example.com/charts"]);
  chartutil_CoalesceTables := coalesce;
  manager_Build _ _ _ _ s := (None, s);
  chart_Name ch := ch;
  loader_Load dir _ := Ok dir;
  install_Run inst _ vals s := (Ok (ReleaseName inst +:+ "-" +:+ string_field vals "mode"), s);
  git_PlainClone _ o s :=
    (if bool_decide (ReferenceName o = "refs/heads/main") then None else Some (EExt "git" "reference not found"), s);
  git_PlainInit _ s := (None, s);
  git_CreateRemote _ _ s := (None, s);
  git_Fetch _ _ _ _ s := (None, s);
  git_Worktree _ _ := None;
  git_Checkout _ _ s := (None, s);
  plumbing_NewHash s := s;
  git_List _ _ s :=
    (Ok [mkReference "refs/heads/main" "b000000"; mkReference "refs/tags/v1" "a000000";
         mkReference "refs/tags/v1^{}" "c000000"], s);
  kustomize_Run root s := (Ok root, s);
  ResMap_AsYaml r := Ok r;
  json_UnmarshalMap raw :=
    let '(k, v, found) := strings_Cut raw "=" in
    if found then Ok {[k := VString v]} else Err (EExt "json" "unexpected end of JSON input");
  json_MarshalMap o := Ok (strings_Join (map (fun e => fst e +:+ "=" +:+ string_field o (fst e)) (map_to_list o)) ",");
|}.

(** A document is a ConfigMap that carries the text as its name. *)
#[export] Instance lab_YAML : YAMLDecoder := {|
  yaml_documents raw :=
    [Ok (SetName (vset (vset ∅ ["apiVersion"] (VString "v1")) ["kind"] (VString "ConfigMap")) raw)];
|}.

Definition lab_cacheI : cacheI := {|
  cache_get k := fun s => (lab_cache s !! k, [], s);
  cache_put k m := fun s => (tt, [], mkLab (lab_dirs s) (<[k := m]> (lab_cache s)));
|}.

#[export] Instance lab_CacheContract : CacheContract lab_cacheI.
Proof.
  refine {| cc_view := lab_cache |}.
  - intros k s. by exists s.
  - intros k m s. eexists. split; [done|]. cbn. split; [apply lookup_insert_eq|].
    intros k' m' Hne. by rewrite lookup_insert_ne.
Defined.

Definition lab_settings : EnvSettings := mkEnvSettings "" "".
Definition lab_start : lab := mkLab 0 ∅.

(** Sources of a CR in the namespace shoot--demo. *)
Definition lab_helm (auth : option SecretReference) (seed : JSON) : Source :=
  mkSource (Some (mkHelmSource "oci://registry.example.com/charts/" "widgets" "1.0.0" (Some "replicas=2") seed None auth)) None.
Definition lab_kustomize (url seedPath : string) : Source :=
  mkSource None (Some (mkKustomizeSource url seedPath "shoot" None)).

(** The production source package on this world. *)
Definition lab_render (spec : Source) (mode : Mode) (s : lab) : option (result (list Manifest) * list event * lab) :=
  match source_From (SourcePackage := production_source lab_settings "" (Some lab_cacheI)) spec "shoot--demo" with
  | Ok src => Some (Render src mode "shoot--demo" s)
  | Err _ => None
  end.

Definition actions (t : list event) : list source_action :=
  omap (fun ev => match ev with EvSource a => Some a | _ => None end) t.

Example lab_helm_actions :
  option_map (fun x => actions (snd (fst x))) (lab_render (lab_helm (Some (mkSecretReference "regcred")) None) ModeSeed lab_start) =
  let auth := Some ("bot", "s3cret") in
  Some [ActResolveDigest auth "registry.example.com/charts/widgets:1.0.0"
          (Ok "sha256:registry.example.com/charts/widgets:1.0.0");
        ActMkdirTemp (Ok "/tmp/ddo-helm-0");
        ActPull auth "oci://registry.example.com/charts/widgets" "1.0.0" "/tmp/ddo-helm-0" None;
        ActBuild auth "/tmp/ddo-helm-0/unpacked/widgets" None;
        ActRemoveAll "/tmp/ddo-helm-0";
        ActInstall "widgets" "shoot--demo" {["replicas" := VString "2"; "mode" := VString "seed"]} (Ok "widgets-seed")].
Proof. by vm_compute. Qed.

Example lab_kustomize_actions :
  option_map (fun x => actions (snd (fst x)))
    (lab_render (lab_kustomize "https://git.example.com/org/op//deploy?ref=main" "overlays/seed") ModeSeed lab_start) =
  Some [ActLsRemote None "https://git.example.com/org/op"
          (Ok [mkReference "refs/heads/main" "b000000"; mkReference "refs/tags/v1" "a000000";
               mkReference "refs/tags/v1^{}" "c000000"]);
        ActMkdirTemp (Ok "/tmp/ddo-kustomize-0");
        ActClone None "/tmp/ddo-kustomize-0" "https://git.example.com/org/op" "refs/tags/main" true 1
          (Some (EExt "git" "reference not found"));
        ActClone None "/tmp/ddo-kustomize-0" "https://git.example.com/org/op" "refs/heads/main" true 1 None;
        ActKustomize "/tmp/ddo-kustomize-0/deploy/overlays/seed" None;
        ActRemoveAll "/tmp/ddo-kustomize-0"].
Proof. by vm_compute. Qed.
