(* ===== verification/LoaderProps.v ===== *)
(** Properties of the chart loader, the git resolver and the two renderers:
    what is fetched, what is refused and with which values a chart is rendered. *)

From S2P Require Import Prelude Value Apimachinery Types Clients Manifest Boundary GoPaths SourceWorld GitResolver HelmLoader Controller SourceRender SourceSim Reference.
#[local] Open Scope list_scope.

(** ** Dependencies of a chart *)

Section Plan.
Context {B : Boundary} {W : SourceWorld B} {N : NetURL} (chartDir : string) (s : env).

Definition vendored (d : Dependency) : Prop := vendoredSubchartExists chartDir (dep_Name d) s = true.

(** A dependency that downloader.Manager.Build can process. *)
Definition buildable (d : Dependency) : Prop :=
  if bool_decide (dep_Repository d = "") then unpackedSubchartExists chartDir (dep_Name d) s = true
  else HasPrefix (dep_Repository d) "file://" = true \/ registry_IsOCI (dep_Repository d) = true.

Lemma must_fetch_false deps : must_fetch chartDir deps s = false <-> Forall vendored deps.
Proof.
  unfold must_fetch. assert (forall b, foldl (fun fetch d => if negb (vendoredSubchartExists chartDir (dep_Name d) s)
    then true else fetch) b deps = false <-> b = false /\ Forall vendored deps) as H; [|by rewrite H; intuition].
  induction deps as [|d deps IH]; intros b; cbn; [by intuition|].
  rewrite IH, Forall_cons. unfold vendored at 2. destruct (vendoredSubchartExists _ _ _); cbn; intuition congruence.
Qed.

Lemma check_deps_None name deps : check_deps chartDir name deps s = None <-> Forall buildable deps.
Proof.
  induction deps as [|d deps IH]; [done|]. cbn [check_deps]. rewrite Forall_cons, <- IH. unfold buildable.
  case_bool_decide.
  - destruct (unpackedSubchartExists _ _ _); cbn; intuition congruence.
  - destruct (HasPrefix _ _), (registry_IsOCI _); cbn; intuition congruence.
Qed.

(** C26: The dependency plan of a pulled chart: nothing is built exactly when every declared
    dependency is vendored; a build runs exactly when some dependency is not vendored,
    every dependency, vendored or not, has a source Build can use (an unpacked directory,
    file:// or OCI), and Chart.lock is there; everything else is an error, a Chart.yaml
    that cannot be read included. A chart whose dependencies are all vendored thus passes without
    a Chart.lock, although the helm-chart-loader spec and the comment of
    expandAndResolveDeps say that a chart with dependencies and no lock fails closed. *)
Theorem deps_plan_spec :
  (forall meta, chartutil_LoadChartfile (filepath_Join [chartDir; "Chart.yaml"]) s = Ok meta ->
     (resolveDepsPlan chartDir s = Ok false <-> Forall vendored (Dependencies meta)) /\
     (resolveDepsPlan chartDir s = Ok true <->
        ~ Forall vendored (Dependencies meta) /\ Forall buildable (Dependencies meta) /\
        exists b, os_Stat_IsDir (filepath_Join [chartDir; "Chart.lock"]) s = Ok b)) /\
  (forall err, chartutil_LoadChartfile (filepath_Join [chartDir; "Chart.yaml"]) s = Err err ->
     exists e, resolveDepsPlan chartDir s = Err e).
Proof.
  unfold resolveDepsPlan. split; [|by intros err ->; eexists]. intros meta ->.
  rewrite <- (must_fetch_false (Dependencies meta)), <- (check_deps_None (metadata_Name meta)).
  destruct (Dependencies meta) as [|d deps] eqn:Ed; [cbn; intuition congruence|]. rewrite <- Ed.
  replace (Nat.eqb (length (Dependencies meta)) 0) with false by by rewrite Ed.
  destruct (must_fetch chartDir (Dependencies meta) s); cbn [negb]; [|intuition congruence].
  destruct (check_deps _ _ _ _); [intuition congruence|].
  destruct (os_Stat_IsDir _ s) as [b|err]; [|destruct (os_IsNotExist err)]; split; split; intros H;
    try discriminate; repeat match goal with
    | H : _ /\ _ |- _ => destruct H | H : exists _, _ |- _ => destruct H end; try discriminate.
  - split_and!; [done|done|by exists b].
  - done.
Qed.
End Plan.

(** ** git references *)

Section Git.
Context {U : Unstructured} {Y : YAMLDecoder} {B : Boundary} {W : SourceWorld B} {N : NetURL}.

Lemma byName_spec refs (m : gmap string Reference) n :
  foldl (fun m rr => <[ref_Name rr := rr]> m) m refs !! n = None <->
    m !! n = None /\ Forall (fun rr => ref_Name rr ≠ n) refs.
Proof.
  revert m. induction refs as [|rr refs IH]; intros m; cbn; [by intuition|].
  rewrite IH, Forall_cons. destruct (decide (ref_Name rr = n)) as [<-|Hne].
  - rewrite lookup_insert_eq. intuition congruence.
  - rewrite lookup_insert_ne by done. intuition.
Qed.

Lemma byName_Some refs (m : gmap string Reference) n rr :
  foldl (fun m rr => <[ref_Name rr := rr]> m) m refs !! n = Some rr ->
  m !! n = Some rr \/ (rr ∈ refs /\ ref_Name rr = n).
Proof.
  revert m. induction refs as [|r refs IH]; intros m; cbn; [by left|].
  intros [H|[H ?]]%IH; [|right; split; [by apply elem_of_cons; right|done]].
  destruct (decide (ref_Name r = n)) as [<-|Hne].
  - rewrite lookup_insert_eq in H. injection H as ->. right. split; [by apply elem_of_cons; left|done].
  - rewrite lookup_insert_ne in H by done. by left.
Qed.

Definition advertised (refs : list Reference) (name : string) : Prop := exists rr, rr ∈ refs /\ ref_Name rr = name.

(** The commit a reference name stands for: the peeled tag, else the tag, else
    the branch. *)
Fixpoint preferred (refs : list Reference) (names : list string) (id : string) : Prop :=
  match names with
  | [] => False
  | n :: names' =>
      (exists rr, rr ∈ refs /\ ref_Name rr = n /\ ref_Hash rr = id) \/
      (~ advertised refs n /\ preferred refs names' id)
  end.

Lemma first_candidate_spec refs names :
  match first_candidate (byName refs) names with
  | Some id => preferred refs names id
  | None => Forall (fun n => ~ advertised refs n) names
  end.
Proof.
  induction names as [|n names IH]; cbn; [constructor|]. unfold byName at 1.
  destruct (foldl _ _ refs !! n) as [rr|] eqn:E.
  - apply byName_Some in E as [E|[Hin Hn]]; [by rewrite lookup_empty in E|]. left. by exists rr.
  - apply byName_spec in E as [_ Hf]. rewrite Forall_forall in Hf.
    assert (~ advertised refs n) as Hna by (intros (rr & Hin & Hn); by apply (Hf rr)).
    destruct (first_candidate _ names); [by right|by constructor].
Qed.

(** How ResolveID ends for a reference that is not a SHA. *)
Definition resolve_id_outcome (base ref : string) (res : result string) (t : list event) : Prop :=
  (exists err, res = Err (EWrap "source: resolve credentials: " err "")) \/
  (exists t0 auth err, t = t0 ++ [EvSource (ActLsRemote auth base (Err err))] /\
     res = Err (EWrap ("source: ls-remote " +:+ base +:+ ": ") err "")) \/
  (exists t0 auth refs, t = t0 ++ [EvSource (ActLsRemote auth base (Ok refs))] /\
     let names := [tagRef ref +:+ "^{}"; tagRef ref; branchRef ref] in
     match res with
     | Ok id => preferred refs names id
     | Err _ => Forall (fun n => ~ advertised refs n) names
     end).

(** C25: ResolveID yields a commit, never the name of a moving reference: a pinned SHA is
    returned as it is, without any request; otherwise the remote is listed once, last, and
    the result is the hash advertised for the peeled tag, the tag or the branch, in that
    order of preference, or an error when none of the three is advertised, when the
    listing fails or when the credentials cannot be read. *)
Theorem git_resolve_id_spec (r : gitResolver) rawURL base root ref :
  splitRef rawURL = Ok (base, root, ref) ->
  post (gitResolver_ResolveID r rawURL) (fun res t =>
    if shaRe_MatchString ref then res = Ok ref /\ t = [] else resolve_id_outcome base ref res t).
Proof.
  intros Hs. unfold gitResolver_ResolveID. rewrite Hs.
  destruct (shaRe_MatchString ref); [by apply post_ret|].
  eapply post_try_bind; [eapply (post_wrapping _ _ _ (fun res t => forall e, res = Err e ->
      exists err, e = EWrap "source: resolve credentials: " err ""));
    [by apply (post_all _ (fun _ _ => True))|]| |].
  - intros [a|e] t _ e' [= <-]. by exists e.
  - intros e t He. left. destruct (He e eq_refl) as [err ->]. by exists err.
  - intros auth t _. eapply post_try_bind;
      [eapply (post_wrapping _ _ _ (fun res t => exists r0, res = wrap_err ("source: ls-remote " +:+ base +:+ ": ") r0 /\
         t = [EvSource (ActLsRemote auth base r0)])); [apply post_recorded|by intros r0 t' ->; exists r0]| |].
    + intros e t' ([refs|err] & Hr & ->); [done|]. injection Hr as ->. right; left. by exists t, auth, err.
    + intros refs t' ([refs'|err] & Hr & ->); [|done]. injection Hr as <-.
      pose proof (first_candidate_spec refs [tagRef ref +:+ "^{}"; tagRef ref; branchRef ref]) as Hc.
      destruct (first_candidate _ _); apply post_ret; rewrite app_nil_r; right; right; by exists t, auth, refs.
Qed.

(** ** Checkouts *)

(** The calls [t] that put the pinned reference of the repository at [base] into
    [dir], all of them successful: a SHA is checked out of a new repository into which
    all branches and tags were fetched in full; a name is cloned as a tag or, where
    there is no such tag, as a branch, at depth 1. *)
Definition checked_out (dir base ref : string) (auth : basic_auth) (t : list event) : Prop :=
  let clone name e := EvSource (ActClone auth dir base name true 1 e) in
  if shaRe_MatchString ref then
    t = map EvSource [ActInit dir None; ActRemote dir base None; ActFetch auth dir base all_refs None;
                      ActCheckout dir (plumbing_NewHash ref) None]
  else
    t = [clone (tagRef ref) None] \/
    exists e, t = [clone (tagRef ref) (Some e); clone (branchRef ref) None].

Lemma fetchSHA_checked_out dir base sha auth :
  post (fetchSHA dir base sha auth) (fun err t => err = None ->
    t = map EvSource [ActInit dir None; ActRemote dir base None; ActFetch auth dir base all_refs None;
                      ActCheckout dir (plumbing_NewHash sha) None]).
Proof.
  unfold fetchSHA. do 3 (eapply post_bind; [apply post_recorded|]; intros [?|] ? ->; [by apply post_ret|]).
  eapply post_bind; [apply post_look|]. intros [?|] ? ->; [by apply post_ret|].
  eapply post_bind; [apply post_recorded|]. intros [?|] ? ->; by apply post_ret.
Qed.

Lemma fetchPinned_checked_out dir base ref auth :
  post (fetchPinned dir base ref auth) (fun err t => err = None -> checked_out dir base ref auth t).
Proof.
  unfold fetchPinned, checked_out. destruct (shaRe_MatchString ref); [apply fetchSHA_checked_out|].
  cbn [clone_first]. eapply post_bind with (P := fun ok t => ok = true ->
    t = [EvSource (ActClone auth dir base (tagRef ref) true 1 None)] \/
    exists e, t = [EvSource (ActClone auth dir base (tagRef ref) true 1 (Some e));
                   EvSource (ActClone auth dir base (branchRef ref) true 1 None)]).
  - eapply post_bind; [apply post_recorded|]. intros [e|] t ->; [|apply post_ret; by left].
    eapply post_bind; [apply post_recorded|]. intros [e'|] t ->; apply post_ret; [done|].
    intros _. right. by exists e.
  - intros [] t H; apply post_ret; [|done]. intros _. rewrite app_nil_r. by apply H.
Qed.

(** A successful Resolve: a scratch directory, the credentials, the checkout. *)
Lemma Resolve_run (r : gitResolver) rawURL subPath s root cleanup t s' :
  gitResolver_Resolve r rawURL subPath s = (Ok (root, cleanup), t, s') ->
  exists base rootSubPath ref dir auth s1 ta s2 tf,
    splitRef rawURL = Ok (base, rootSubPath, ref) /\ authFor r base s1 = (Ok auth, ta, s2) /\
    checked_out dir base ref auth tf /\ root = filepath_Join [dir; rootSubPath; subPath] /\
    cleanup = RemoveAll dir /\ t = EvSource (ActMkdirTemp (Ok dir)) :: ta ++ tf.
Proof.
  unfold gitResolver_Resolve. destruct (splitRef rawURL) as [[[base sub] ref]|e]; [|done].
  intros (dir & t1 & s1 & t2 & [_ ->]%recorded_run & H & ->)%try_run.
  apply bind_run in H as ([auth|e] & ta & s2 & t3 & Ha & H & ->).
  2:{ by apply bind_run in H as (u & ? & ? & ? & _ & ? & _). }
  apply bind_run in H as ([e|] & tf & s3 & t4 & Hf & H & ->).
  { by apply bind_run in H as (u & ? & ? & ? & _ & ? & _). }
  injection H as <- <- <- <-. pose proof (post_run _ _ _ _ _ _ (fetchPinned_checked_out _ _ _ _) Hf eq_refl) as Hc.
  exists base, sub, ref, dir, auth, s1, ta, s2, tf. by rewrite app_nil_r.
Qed.

(** [ms] is what kustomize builds at [root] from the state [s], as the source parses it. *)
Definition built_at (root ns : string) (s : env) (ms : list Manifest) : Prop :=
  exists rm s' yaml parsed, kustomize_Run root s = (Ok rm, s') /\ ResMap_AsYaml rm = Ok yaml /\
    Parse yaml OriginUpstream = Ok parsed /\ ms = ApplyNamespace parsed ns.

Lemma kustomize_build_run root mode ns s ms t s' :
  kustomize_build root mode ns s = (Ok ms, t, s') -> built_at root ns s ms /\ t = [EvSource (ActKustomize root None)].
Proof.
  intros (rm & t1 & s1 & t2 & [Hr ->]%wrapping_run%recorded_run & H & ->)%try_run.
  destruct (ResMap_AsYaml rm) as [yaml|] eqn:Ey; [|done]. destruct (Parse yaml OriginUpstream) as [parsed|] eqn:Ep;
    cbn in H; rewrite Ep in H; [|done].
  injection H as <- <- <-. split; [|done]. by exists rm, s1, yaml, parsed.
Qed.

(** C24: A kustomize render is built from the pinned checkout and nothing else: a successful
    render made exactly these calls: a new scratch directory; the reads of the credentials for
    the host; the successful checkout of the reference pinned by the URL into that directory
    (a SHA by init, remote, full fetch and checkout of that very hash; a name as a tag, or as a
    branch where the clone of the tag failed); one kustomize build, on the root the URL and
    the mode name inside the directory, whose parsed output is the result; and the removal of
    the directory. The root lies below the directory whenever the paths of the URL and of the
    mode never climb above the repository root. *)
Theorem kustomize_builds_pinned_checkout (r : gitResolver) spec mode ns s ms t s' :
  kustomizeSource_Render (mkKustomize spec (GitRootResolver r)) mode ns s = (Ok ms, t, s') ->
  exists base rootSubPath ref dir auth s1 ta s2 tf s3,
    let root := filepath_Join [dir; rootSubPath; kustomize_subPath spec mode] in
    splitRef (kustomize_URL spec) = Ok (base, rootSubPath, ref) /\ authFor r base s1 = (Ok auth, ta, s2) /\
    checked_out dir base ref auth tf /\ built_at root ns s3 ms /\
    t = EvSource (ActMkdirTemp (Ok dir)) :: ta ++ tf ++ map EvSource [ActKustomize root None; ActRemoveAll dir] /\
    (forall ds, dir = abs_path ds -> ds ≠ [] -> Forall plain ds ->
       confined 0 (split_slash rootSubPath ++ split_slash (kustomize_subPath spec mode)) = true ->
       exists es, root = abs_path (ds ++ es)).
Proof.
  intros ([root cleanup] & t1 & s1 & t2 & Hr%wrapping_run & H & ->)%try_run.
  apply Resolve_run in Hr as (base & sub & ref & dir & auth & sa & ta & sb & tf & Hs & Ha & Hc & -> & -> & ->).
  apply deferring_run in H as (t3 & s3 & t4 & [Hb ->]%kustomize_build_run & Hrm & ->).
  unfold RemoveAll in Hrm. apply recorded_run in Hrm as [_ ->].
  exists base, sub, ref, dir, auth, sa, ta, sb, tf, s1. cbn zeta. split_and!; [done..| |].
  - cbn. by rewrite <- app_assoc.
  - intros ds -> Hne Hds Hcf. by apply Join_confined.
Qed.
End Git.

(** ** Chart values *)

(** "CoalesceTables merges a source map into a destination map. dest is
    considered authoritative." *)
Class CoalesceLaws {B : Boundary} (W : SourceWorld B) : Prop := {
  coalesce_source d s k v : d !! k = None -> s !! k = Some v -> v ≠ VNull ->
    chartutil_CoalesceTables d s !! k = Some v;
  coalesce_tables d s k a b : d !! k = Some (VMap a) -> s !! k = Some (VMap b) ->
    chartutil_CoalesceTables d s !! k = Some (VMap (chartutil_CoalesceTables a b));
  coalesce_dest d s k v : d !! k = Some v -> v ≠ VNull -> (as_map v = None \/ s !! k ≫= as_map = None) ->
    chartutil_CoalesceTables d s !! k = Some v;
}.

(** A leaf: neither a table nor null. *)
Definition leaf (v : value) : Prop := as_map v = None /\ v ≠ VNull.

Section Values.
Context {U : Unstructured} {Y : YAMLDecoder} {B : Boundary} {W : SourceWorld B} {N : NetURL}.
Context {CL : CoalesceLaws W}.

(** A leaf of the destination stays. *)
Lemma coalesce_keeps d s p v : vget d p = Found v -> leaf v -> vget (chartutil_CoalesceTables d s) p = Found v.
Proof.
  revert d s. induction p as [|k [|k' p] IH]; intros d s Hg [Hm Hn].
  - cbn in Hg. by injection Hg as <-.
  - cbn in *. destruct (d !! k) as [v'|] eqn:E; [|done]. injection Hg as ->.
    by rewrite (coalesce_dest d s k v) by auto.
  - rewrite vget_cons2 in Hg |- *. destruct (d !! k) as [[| | | | | |a]|] eqn:E; try done.
    destruct (s !! k ≫= as_map) as [b|] eqn:Es.
    + destruct (s !! k) as [[]|] eqn:Es'; try done. rewrite (coalesce_tables d s k a _ E Es'). by apply IH.
    + by rewrite (coalesce_dest d s k (VMap a)) by auto.
Qed.

(** A leaf of the source shows where the destination has nothing. *)
Lemma coalesce_fills d s p v : vget d p = Missing -> vget s p = Found v -> leaf v ->
  vget (chartutil_CoalesceTables d s) p = Found v.
Proof.
  revert d s. induction p as [|k [|k' p] IH]; intros d s Hd Hs [Hm Hn]; [done| |].
  - cbn in *. destruct (d !! k) eqn:E; [done|]. destruct (s !! k) as [v'|] eqn:Es; [|done].
    injection Hs as ->. by rewrite (coalesce_source d s k v).
  - rewrite vget_cons2 in Hd, Hs |- *. destruct (s !! k) as [[| | | | | |b]|] eqn:Es; try done.
    destruct (d !! k) as [[| | | | | |a]|] eqn:E; try done.
    + rewrite (coalesce_tables d s k a b E Es). by apply IH.
    + by rewrite (coalesce_source d s k (VMap b)).
Qed.

(** Mode-specific values take precedence: when both documents are given and decode, the
    merge succeeds; each leaf of the mode-specific document has its value in the result,
    and each leaf of the common document that the mode-specific one does not mention has
    its value there; a document that does not decode is an error. *)
Theorem merge_values_precedence (common specific : string) cm sm :
  common ≠ "" -> specific ≠ "" ->
  json_UnmarshalMap common = Ok cm -> json_UnmarshalMap specific = Ok sm ->
  exists merged, mergeValues (Some common) (Some specific) = Ok merged /\
    (forall p v, vget sm p = Found v -> leaf v -> vget merged p = Found v) /\
    (forall p v, vget sm p = Missing -> vget cm p = Found v -> leaf v -> vget merged p = Found v).
Proof.
  intros Hc Hs Hcm Hsm. exists (chartutil_CoalesceTables sm (chartutil_CoalesceTables cm ∅)).
  unfold mergeValues. cbn. rewrite !bool_decide_eq_false_2 by done. rewrite Hcm, Hsm. split_and!; [done| |].
  - intros p v. apply coalesce_keeps.
  - intros p v Hm Hg Hl. by apply coalesce_fills, Hl; [|apply coalesce_keeps].
Qed.

(** The operator controls the mode value: a Helm render that succeeds ran one dry-run
    install of the chart under its name in the render's namespace, last, with the merged
    values plus 'mode' set to the mode of the render; the merged values themselves did not
    set 'mode', and the result is the parsed output, with namespaces applied. *)
Theorem helm_render_controls_mode (h : helmSource) mode ns :
  post (helmSource_Render h mode ns) (fun res t => forall ms, res = Ok ms ->
    exists t0 merged rel parsed,
      mergeValues (helm_Values (hs_spec h)) (modeValues (hs_spec h) mode) = Ok merged /\
      merged !! "mode" = None /\
      t = t0 ++ [EvSource (ActInstall (helm_Name (hs_spec h)) ns
                   (<["mode" := VString (mode_string mode)]> merged) (Ok rel))] /\
      Parse rel OriginUpstream = Ok parsed /\ ms = ApplyNamespace parsed ns).
Proof.
  clear CL. unfold helmSource_Render.
  eapply post_try_bind; [by apply (post_all _ (fun _ _ => True))|done|]. intros ch t0 _.
  unfold helm_render_chart. destruct (mergeValues _ _) as [merged|e]; [|by apply post_ret].
  destruct (merged !! "mode") eqn:Em; cbn [is_set]; [by apply post_ret|]. cbn zeta.
  eapply post_try_bind; [eapply (post_wrapping _ _ _ (fun res t => forall rel, res = Ok rel -> t =
    [EvSource (ActInstall (helm_Name (hs_spec h)) ns (<["mode" := VString (mode_string mode)]> merged) (Ok rel))]));
    [apply post_recorded|by intros [rel|e] t -> rel' [= <-]]|done|].
  intros rel t H. apply post_ret. rewrite (H rel eq_refl), app_nil_r.
  destruct (Parse rel OriginUpstream) as [parsed|e] eqn:Ep; cbn; [|done]. intros ms [= <-].
  by exists t0, merged, rel, parsed.
Qed.
End Values.

(** ** Witnesses *)

Import RefInstances.

#[export] Instance lab_CoalesceLaws : CoalesceLaws lab_World.
Proof.
  split; cbn [chartutil_CoalesceTables lab_World].
  - intros d s k v Hd Hs _. by rewrite coalesce_lookup, Hd.
  - intros d s k a b Hd Hs. by rewrite coalesce_lookup, Hd, Hs.
  - intros d s k v Hd _ Hor. rewrite coalesce_lookup, Hd. destruct (s !! k) as [w|] eqn:Es; [|done].
    cbn in Hor. destruct v; try done. destruct w; try done. by destruct Hor.
Qed.

Lemma merge_values_precedence_witness :
  exists merged, mergeValues (Some "replicas=2") (Some "replicas=3") = Ok merged /\
    vget merged ["replicas"] = Found (VString "3").
Proof.
  destruct (merge_values_precedence "replicas=2" "replicas=3" {["replicas" := VString "2"]} {["replicas" := VString "3"]})
    as (merged & Hm & Hs & _); [discriminate|discriminate|reflexivity|reflexivity|].
  exists merged. split; [exact Hm|]. apply (Hs ["replicas"]); [reflexivity|split; [reflexivity|discriminate]].
Defined.

Lemma git_resolve_id_spec_witness :
  post (gitResolver_ResolveID (mkGitResolver None) "https://git.example.com/org/op?ref=v1")
    (fun res t => resolve_id_outcome "https://git.example.com/org/op" "v1" res t) /\
  fst (fst (gitResolver_ResolveID (mkGitResolver None) "https://git.example.com/org/op?ref=v1" lab_start)) = Ok "c000000".
Proof.
  split; [|vm_compute; reflexivity].
  exact (git_resolve_id_spec (mkGitResolver None) "https://git.example.com/org/op?ref=v1"
           "https://git.example.com/org/op" "" "v1" eq_refl).
Defined.

(** The chart of the sample world: one vendored and one OCI dependency, a lock. *)
Lemma deps_plan_spec_witness : resolveDepsPlan (B := lab_Boundary) "/tmp/unpacked/widgets" lab_start = Ok true.
Proof.
  destruct (deps_plan_spec (B := lab_Boundary) "/tmp/unpacked/widgets" lab_start) as [H _].
  destruct (H _ eq_refl) as [_ [_ H2]]. apply H2. split; [|split].
  - intros Hf. apply Forall_cons in Hf as [_ Hf]. apply Forall_cons in Hf as [Hf _]. vm_compute in Hf. discriminate Hf.
  - repeat constructor; vm_compute; tauto.
  - exists false. vm_compute. reflexivity.
Defined.

(** A SHA on the sample remote, and a branch. *)
Definition lab_kustomized (url : string) : result (list Manifest) * list event * lab :=
  kustomizeSource_Render (mkKustomize (mkKustomizeSource url "overlays/seed" "shoot" None) (GitRootResolver (mkGitResolver None)))
    ModeSeed "shoot--demo" lab_start.

Definition lab_pinned : list source_action :=
  let dir := "/tmp/ddo-kustomize-0" in let base := "https://git.example.com/org/op" in
  [ActMkdirTemp (Ok dir); ActInit dir None; ActRemote dir base None; ActFetch None dir base all_refs None;
   ActCheckout dir "0123abc" None; ActKustomize "/tmp/ddo-kustomize-0/deploy/overlays/seed" None; ActRemoveAll dir].

Lemma lab_kustomized_run : exists ms s',
  lab_kustomized "https://git.example.com/org/op//deploy?ref=0123abc" = (Ok ms, map EvSource lab_pinned, s').
Proof. eexists _, _. vm_compute. reflexivity. Qed.

Lemma kustomize_builds_pinned_checkout_witness :
  exists ms s', lab_kustomized "https://git.example.com/org/op//deploy?ref=0123abc" = (Ok ms, map EvSource lab_pinned, s') /\
  exists dir auth ta tf, checked_out dir "https://git.example.com/org/op" "0123abc" auth tf /\
    EvSource (ActCheckout dir "0123abc" None) ∈ tf /\
    map EvSource lab_pinned = EvSource (ActMkdirTemp (Ok dir)) :: ta ++ tf ++
      map EvSource [ActKustomize (filepath_Join [dir; "deploy"; "overlays/seed"]) None; ActRemoveAll dir].
Proof.
  destruct lab_kustomized_run as (ms & s' & Hrun). exists ms, s'. split; [exact Hrun|]. unfold lab_kustomized in Hrun.
  destruct (kustomize_builds_pinned_checkout (B := lab_Boundary) _ _ _ _ _ _ _ _ Hrun)
    as (base & sub & ref & dir & auth & s1 & ta & s2 & tf & s3 & Hs & _ & Hc & _ & Ht & _).
  vm_compute in Hs. injection Hs as <- <- <-. exists dir, auth, ta, tf.
  split; [exact Hc|]. split; [|exact Ht]. rewrite Hc. vm_compute. repeat constructor.
Defined.
