(* ===== verification/SourceCache.v ===== *)
(** cache.go and cachekey.go: the cache of renders is transparent.  Its key tells
    apart all that a render depends on, an answer from the cache is a render
    some source made for the same key, and failures are neither cached nor
    caused by the cache. *)

From Stdlib Require Import Ascii.
From S2P Require Import Prelude Value Sha256 Apimachinery Types Clients Manifest Boundary GoPaths SourceWorld GitResolver HelmLoader Controller SourceRender SourceSim Reference.
#[local] Open Scope list_scope.

(** ** Keys *)

Definition bar : ascii := Ascii.ascii_of_N 124.

(** Two strings cut at their last separator. *)
Lemma cut_last_inj c a a' b b' :
  lacks c b = true -> lacks c b' = true ->
  a +:+ String c b = a' +:+ String c b' -> a = a' /\ b = b'.
Proof.
  revert a'. induction a as [|x a IH]; intros [|x' a'] Hb Hb' H; rewrite ?string_app_cons in H.
  - by injection H.
  - injection H as <- H. rewrite H, lacks_app in Hb. cbn [lacks] in Hb.
    rewrite Ascii.eqb_refl, andb_false_r in Hb. done.
  - injection H as -> H. rewrite <- H, lacks_app in Hb'. cbn [lacks] in Hb'.
    rewrite Ascii.eqb_refl, andb_false_r in Hb'. done.
  - injection H as -> H. by destruct (IH a' Hb Hb' H) as [-> ->].
Qed.

Lemma hex_lacks_bar s : all_chars is_hex_digit s = true -> lacks bar s = true.
Proof.
  induction s as [|c s IH]; [done|]. cbn [all_chars lacks]. intros [Hc Hs]%andb_prop. rewrite IH by done.
  rewrite andb_true_r. apply negb_true_iff, Ascii.eqb_neq. intros <-. by vm_compute in Hc.
Qed.

(** What the components of a cache key look like; only the repository scope may
    hold the separator. *)
Definition key_ok (k : keyParts) : Prop :=
  (kp_sourceKind k = "helm" \/ kp_sourceKind k = "kustomize") /\
  (kp_mode k = "seed" \/ kp_mode k = "shoot") /\
  all_chars is_hex_digit (kp_inputHash k) = true /\
  lacks bar (kp_resolvedID k) = true /\ lacks bar (kp_namespace k) = true.

(** The cache key separates all of its dimensions: keys of equal text have equal source
    kind, repository scope, resolved id, mode, input hash and namespace, provided the id
    and the namespace are free of the separator; the scope need not be. *)
Theorem cache_key_injective k k' :
  key_ok k -> key_ok k' -> keyParts_String k = keyParts_String k' -> k = k'.
Proof.
  intros (Hk & Hm & Hh & Hi & Hn) (Hk' & Hm' & Hh' & Hi' & Hn') H.
  assert (forall x : keyParts, keyParts_String x =
    ((((kp_sourceKind x +:+ String bar (kp_repoScope x)) +:+ String bar (kp_resolvedID x)) +:+
      String bar (kp_mode x)) +:+ String bar (kp_inputHash x)) +:+ String bar (kp_namespace x)) as Hs.
  { intros x. rewrite !string_app_assoc, !string_app_cons. done. }
  rewrite !Hs in H. apply cut_last_inj in H as [H En]; [|done..].
  apply cut_last_inj in H as [H Eh]; [|by apply hex_lacks_bar..].
  apply cut_last_inj in H as [H Em]; [|by destruct Hm as [->| ->]|by destruct Hm' as [->| ->]].
  apply cut_last_inj in H as [H Ei]; [|done..].
  apply cut_inj in H as [Ek Es]; [|by destruct Hk as [->| ->]|by destruct Hk' as [->| ->]].
  destruct k, k'. cbn in *. by subst.
Qed.

Lemma hashValues_hex {B : Boundary} {W : SourceWorld B} v : all_chars is_hex_digit (hashValues v) = true.
Proof. unfold hashValues. apply hex_digits, Sum256_range. Qed.

#[local] Opaque hashValues keyParts_String.

(** ** Inputs *)

Section Inputs.
Context {U : Unstructured} {Y : YAMLDecoder} {B : Boundary} {W : SourceWorld B} {N : NetURL}.

Lemma helm_hash_name spec :
  helm_hash_input spec !! "name" = Some (VString (helm_Name spec)) /\
  helm_hash_input spec !! "version" = Some (VString (helm_Version spec)).
Proof.
  unfold helm_hash_input. cbn zeta.
  destruct (mergeValues _ (helm_SeedValues _)), (mergeValues _ (helm_ShootValues _));
    rewrite ?lookup_insert_ne by discriminate; split; rewrite ?lookup_insert_eq; try reflexivity;
    rewrite ?lookup_insert_ne by discriminate; by rewrite lookup_insert_eq.
Qed.

Definition values_key (mode : Mode) : string :=
  match mode with ModeSeed => "seedValues" | ModeShoot => "shootValues" end.

Lemma helm_hash_values spec mode :
  helm_hash_input spec !! values_key mode =
  match mergeValues (helm_Values spec) (modeValues spec mode) with Ok v => Some (VMap v) | Err _ => None end.
Proof.
  unfold helm_hash_input, values_key, modeValues. cbn zeta.
  destruct mode; destruct (mergeValues _ (helm_SeedValues _)), (mergeValues _ (helm_ShootValues _));
    rewrite ?lookup_insert_eq; try reflexivity; rewrite ?lookup_insert_ne by discriminate;
    rewrite ?lookup_insert_eq; try reflexivity; by rewrite lookup_empty.
Qed.

(** C23: The input hash covers what a render depends on besides the fetched content: two Helm
    sources with the same hash input render any chart in any mode and namespace by the
    same computation, or both fail before rendering; two kustomize sources with the same
    hash input build the same root of a checkout, if their URLs are valid. *)
Theorem hash_input_determines_render :
  (forall h h' ch mode ns, helm_hash_input (hs_spec h) = helm_hash_input (hs_spec h') ->
     helm_render_chart h ch mode ns = helm_render_chart h' ch mode ns \/
     exists e e', helm_render_chart h ch mode ns = ret (Err e) /\ helm_render_chart h' ch mode ns = ret (Err e')) /\
  (forall k k' base sub ref base' sub' ref' mode dir,
     kustomize_hash_input k = kustomize_hash_input k' ->
     splitRef (kustomize_URL k) = Ok (base, sub, ref) -> splitRef (kustomize_URL k') = Ok (base', sub', ref') ->
     filepath_Join [dir; sub; kustomize_subPath k mode] = filepath_Join [dir; sub'; kustomize_subPath k' mode]).
Proof.
  split.
  - intros h h' ch mode ns Heq. pose proof (helm_hash_name (hs_spec h)) as [Hn _].
    pose proof (helm_hash_name (hs_spec h')) as [Hn' _]. rewrite Heq, Hn' in Hn. injection Hn as Hn.
    pose proof (helm_hash_values (hs_spec h) mode) as Hv. rewrite Heq, helm_hash_values in Hv.
    unfold helm_render_chart. rewrite Hn.
    destruct (mergeValues (helm_Values (hs_spec h)) _), (mergeValues (helm_Values (hs_spec h')) _); try discriminate.
    + injection Hv as ->. by left.
    + right. by eexists _, _.
  - intros k k' base sub ref base' sub' ref' mode dir Heq Hs Hs'. unfold kustomize_hash_input in Heq.
    rewrite Hs, Hs' in Heq. cbn zeta in Heq.
    pose proof (f_equal (fun m : obj => m !! "rootSubPath") Heq) as H1.
    pose proof (f_equal (fun m : obj => m !! "seedPath") Heq) as H2.
    pose proof (f_equal (fun m : obj => m !! "shootPath") Heq) as H3. cbn beta in H1, H2, H3.
    rewrite !lookup_insert_eq in H1. rewrite !(lookup_insert_ne _ "rootSubPath" "seedPath"), !lookup_insert_eq in H2 by discriminate.
    rewrite !(lookup_insert_ne _ "rootSubPath" "shootPath"), !(lookup_insert_ne _ "seedPath" "shootPath"), !lookup_insert_eq in H3 by discriminate.
    injection H1 as ->. injection H2 as H2. injection H3 as H3. unfold kustomize_subPath.
    destruct mode; by rewrite ?H2, ?H3.
Qed.
End Inputs.

(** ** Renders that share a cache *)

Section Provenance.
Context {U : Unstructured} {Y : YAMLDecoder} {B : Boundary} {W : SourceWorld B} {N : NetURL}.
Context (ca : cacheI) {CC : CacheContract ca}.

(** One call of Render on a caching source. *)
Record job := mkJob { j_src : cachingSource; j_mode : Mode; j_ns : string }.

Definition run_job (j : job) : M (result (list Manifest)) := cachingSource_Render (j_src j) (j_mode j) (j_ns j).
Definition run_inner (j : job) : M (result (list Manifest)) := Render (cs_inner (j_src j)) (j_mode j) (j_ns j).

Definition parts_of (j : job) (id scope : string) : keyParts :=
  mkKeyParts (cs_sourceKind (j_src j)) scope id (mode_string (j_mode j)) (cs_inputHash (j_src j)) (j_ns j).

(** In state [s], the source of [j] resolves to the key [kp]. *)
Definition resolves (j : job) (s : env) (kp : keyParts) : Prop :=
  exists id scope t s1, cs_resolve (j_src j) (j_mode j) s = (Ok (id, scope), t, s1) /\ kp = parts_of j id scope.

(** In state [s], the source of [j] resolves to [kp] and its own renderer, run
    right after, returns [m]. *)
Definition renders (j : job) (s : env) (kp : keyParts) (m : list Manifest) : Prop :=
  exists id scope t s1 s2 t' s3, cs_resolve (j_src j) (j_mode j) s = (Ok (id, scope), t, s1) /\
    kp = parts_of j id scope /\ cc_view s2 = cc_view s1 /\ run_inner j s2 = (Ok m, t', s3).

(** A computation that does not touch the cache. *)
Definition keeps_cache {A} (m : M A) : Prop := forall s, cc_view (snd (m s)) = cc_view s.

Definition job_ok (j : job) : Prop :=
  cs_cache (j_src j) = ca /\ keeps_cache (cs_resolve (j_src j) (j_mode j)) /\ keeps_cache (run_inner j).

(** Calls one after the other: each with the state it started in. *)
Inductive session : env -> list (job * env) -> env -> Prop :=
| session_nil s : session s [] s
| session_snoc s h s1 j r t s2 :
    session s h s1 -> job_ok j -> run_job j s1 = (r, t, s2) -> session s (h ++ [(j, s1)]) s2.

(** The cases of one call. *)
Lemma run_job_cases j s r t s' :
  job_ok j -> run_job j s = (r, t, s') ->
  (exists e t1 s1 t2, cs_resolve (j_src j) (j_mode j) s = (Err e, t1, s1) /\
     run_inner j s1 = (r, t2, s') /\ t = t1 ++ t2 /\ cc_view s' = cc_view s) \/
  (exists kp, resolves j s kp /\ exists m, r = Ok m /\ cc_view s !! keyParts_String kp = Some m /\ cc_view s' = cc_view s) \/
  (exists kp m, r = Ok m /\ renders j s kp m /\ cc_view s' !! keyParts_String kp = Some m /\
     forall k' m', k' ≠ keyParts_String kp -> cc_view s' !! k' = Some m' -> cc_view s !! k' = Some m') \/
  (exists e, r = Err e /\ cc_view s' = cc_view s).
Proof.
  intros (Hca & Hkr & Hki) Hrun. unfold run_job, cachingSource_Render, bind in Hrun. specialize (Hkr s).
  destruct (cs_resolve (j_src j) (j_mode j) s) as [[res t1] s1] eqn:Er. cbn [snd] in Hkr.
  destruct res as [[id scope]|e].
  - right. change (cache_key (j_src j) id scope (j_mode j) (j_ns j)) with (keyParts_String (parts_of j id scope)) in Hrun.
    rewrite Hca in Hrun. destruct (cc_get (keyParts_String (parts_of j id scope)) s1) as (s2 & Hget & Hv2).
    rewrite Hget in Hrun.
    destruct (cc_view s1 !! keyParts_String (parts_of j id scope)) as [m|] eqn:Ev.
    + left. exists (parts_of j id scope). split; [by exists id, scope, t1, s1|]. exists m.
      cbn in Hrun. injection Hrun as <- _ <-. split_and!; [done|by rewrite <- Hkr|by rewrite Hv2].
    + unfold try_bind, bind in Hrun. specialize (Hki s2). unfold run_inner in Hki.
      destruct (Render (cs_inner (j_src j)) (j_mode j) (j_ns j) s2) as [[res t3] s3] eqn:Ei. cbn [snd] in Hki.
      destruct res as [m|e].
      * right; left. destruct (cc_put (keyParts_String (parts_of j id scope)) m s3) as (s4 & Hput & Hk & Ho).
        rewrite Hput in Hrun. cbn in Hrun. injection Hrun as <- _ <-.
        exists (parts_of j id scope), m. split_and!; [done| |done|].
        -- by exists id, scope, t1, s1, s2, t3, s3.
        -- intros k' m' Hne Hk'. rewrite <- Hkr, <- Hv2, <- Hki. by apply Ho.
      * right; right. cbn in Hrun. injection Hrun as <- _ <-. exists e. split; [done|].
        by rewrite Hki, Hv2, Hkr.
  - left. assert ((let '(c, t', s'') := run_inner j s1 in (c, t1 ++ t', s'')) = (r, t, s')) as Hrun'.
    { unfold run_inner. by destruct (errors_Is e errUnkeyable). }
    specialize (Hki s1). destruct (run_inner j s1) as [[r' t2] s2] eqn:Ei. injection Hrun' as -> <- ->.
    cbn [snd] in Hki. exists e, t1, s1, t2. split_and!; [done..|]. by rewrite Hki.
Qed.

(** Everything in the cache was rendered in the session, under its key. *)
Lemma session_view s h s' :
  session s h s' -> cc_view s = ∅ -> forall k m, cc_view s' !! k = Some m ->
  exists j s0 kp, (j, s0) ∈ h /\ renders j s0 kp m /\ keyParts_String kp = k.
Proof.
  induction 1 as [s|s h s1 j r t s2 _ IH Hj Hrun]; intros H0 k m Hk; [by rewrite H0, lookup_empty in Hk|].
  assert (forall k m, cc_view s1 !! k = Some m ->
    exists j' s0 kp, (j', s0) ∈ h ++ [(j, s1)] /\ renders j' s0 kp m /\ keyParts_String kp = k) as Hold.
  { intros k0 m0 Hk0. destruct (IH H0 k0 m0 Hk0) as (j' & s0 & kp & Hin & ?). exists j', s0, kp.
    split; [by apply elem_of_app; left|done]. }
  destruct (run_job_cases j s1 r t s2 Hj Hrun) as [(e & t1 & s1' & t2 & _ & _ & _ & Hv)|[(kp & _ & m' & _ & _ & Hv)|
    [(kp & m' & _ & Hr & Hk' & Ho)|(e & _ & Hv)]]]; try (apply Hold; by rewrite <- Hv).
  destruct (decide (k = keyParts_String kp)) as [->|Hne]; [|by eapply Hold, Ho].
  rewrite Hk' in Hk. injection Hk as ->. exists j, s1, kp. split; [|done].
  apply elem_of_app. right. by apply list_elem_of_singleton.
Qed.

(** C16: The render cache is transparent: in a sequence of renders by any sources that share
    an initially empty cache, a render whose source resolves returns manifests that its own
    renderer just produced, or that the renderer of a source produced earlier in the
    sequence under a key of the same text, hence (for well-formed keys) for the same source
    kind, repository scope, content id, mode, input hash and namespace. *)
Theorem cached_render_has_provenance s0 h s j r t s' m :
  cc_view s0 = ∅ -> session s0 h s -> job_ok j -> run_job j s = (r, t, s') -> r = Ok m ->
  (exists e t1 s1 t2, cs_resolve (j_src j) (j_mode j) s = (Err e, t1, s1) /\ run_inner j s1 = (Ok m, t2, s')) \/
  (exists kp, renders j s kp m) \/
  (exists kp j' s1 kp', resolves j s kp /\ (j', s1) ∈ h /\ renders j' s1 kp' m /\
     keyParts_String kp' = keyParts_String kp /\ (key_ok kp -> key_ok kp' -> kp' = kp)).
Proof.
  intros H0 Hs Hj Hrun ->.
  destruct (run_job_cases j s _ t s' Hj Hrun) as [(e & t1 & s1 & t2 & He & Hi & _ & _)|[(kp & Hres & m' & [= <-] & Hv & _)|
    [(kp & m' & [= <-] & Hr & _)|(e & He & _)]]]; [|right; right|right; left|done].
  - left. by exists e, t1, s1, t2.
  - destruct (session_view s0 h s Hs H0 _ _ Hv) as (j' & s1 & kp' & Hin & Hr & Heq).
    exists kp, j', s1, kp'. split_and!; [done..|]. intros. by apply cache_key_injective.
  - by exists kp.
Qed.

(** The cache adds no failure and keeps none: when the resolve step fails, for whatever
    reason, the call is exactly a render by the inner source; and a call that returns an
    error leaves the cache as it was. *)
Theorem cache_failures_fall_through j s r t s' :
  job_ok j -> run_job j s = (r, t, s') ->
  (forall e t1 s1, cs_resolve (j_src j) (j_mode j) s = (Err e, t1, s1) ->
     exists t2, run_inner j s1 = (r, t2, s') /\ t = t1 ++ t2) /\
  (forall e, r = Err e -> cc_view s' = cc_view s).
Proof.
  intros Hj Hrun. split.
  - intros e t1 s1 He. unfold run_job, cachingSource_Render, bind in Hrun. rewrite He in Hrun.
    unfold run_inner. destruct (errors_Is e errUnkeyable);
      destruct (Render (cs_inner (j_src j)) (j_mode j) (j_ns j) s1) as [[r' t2] s2]; injection Hrun as -> <- ->; by exists t2.
  - intros e ->. destruct (run_job_cases j s _ t s' Hj Hrun) as [(? & ? & ? & ? & _ & _ & _ & Hv)|
      [(? & _ & ? & He & _)|[(? & ? & He & _)|(? & _ & Hv)]]]; done.
Qed.
End Provenance.

(** ** Production sources leave the cache alone *)

(** The cache is memory of the process: no library or API call changes it. *)
Class CacheApart {B : Boundary} (W : SourceWorld B) (ca : cacheI) {CC : CacheContract ca} : Prop := {
  apart_MkdirTemp d p s : cc_view (snd (os_MkdirTemp d p s)) = cc_view s;
  apart_RemoveAll d s : cc_view (os_RemoveAll d s) = cc_view s;
  apart_MkdirAll d s : cc_view (snd (os_MkdirAll d s)) = cc_view s;
  apart_NewClient o s : cc_view (snd (registry_NewClient o s)) = cc_view s;
  apart_pull o e v d r s : cc_view (snd (pull_Run o e v d r s)) = cc_view s;
  apart_resolve o r s : cc_view (snd (registry_Resolve o r s)) = cc_view s;
  apart_Expand d f s : cc_view (snd (chartutil_Expand d f s)) = cc_view s;
  apart_Build o e f d s : cc_view (snd (manager_Build o e f d s)) = cc_view s;
  apart_install i c v s : cc_view (snd (install_Run i c v s)) = cc_view s;
  apart_clone d o s : cc_view (snd (git_PlainClone d o s)) = cc_view s;
  apart_init d s : cc_view (snd (git_PlainInit d s)) = cc_view s;
  apart_remote d u s : cc_view (snd (git_CreateRemote d u s)) = cc_view s;
  apart_fetch d u l a s : cc_view (snd (git_Fetch d u l a s)) = cc_view s;
  apart_checkout d h s : cc_view (snd (git_Checkout d h s)) = cc_view s;
  apart_list u a s : cc_view (snd (git_List u a s)) = cc_view s;
  apart_kustomize r s : cc_view (snd (kustomize_Run r s)) = cc_view s;
  apart_secret k s : cc_view (snd (secret_Get k s)) = cc_view s;
}.

Section Apart.
Context {U : Unstructured} {Y : YAMLDecoder} {B : Boundary} {W : SourceWorld B} {N : NetURL}.
Context (ca : cacheI) {CC : CacheContract ca} {CA : CacheApart W ca}.

Abbreviation keeps := (keeps_cache ca).

Lemma keeps_ret {A} (a : A) : keeps (ret a).
Proof. by intros s. Qed.

Lemma keeps_bind {A C} (m : M A) (k : A -> M C) : keeps m -> (forall a, keeps (k a)) -> keeps (bind m k).
Proof.
  intros Hm Hk s. unfold bind. specialize (Hm s). destruct (m s) as [[a t] s1]. cbn in Hm.
  specialize (Hk a s1). destruct (k a s1) as [[c t'] s2]. cbn in *. by rewrite Hk.
Qed.

Lemma keeps_look {A} (f : env -> A) : keeps (look f).
Proof. by intros s. Qed.

Lemma keeps_perform {A} (f : env -> A * env) : (forall s, cc_view (snd (f s)) = cc_view s) -> keeps (perform f).
Proof. intros H s. unfold perform. specialize (H s). by destruct (f s). Qed.

Lemma keeps_record {A} (act : A -> source_action) (f : env -> A * env) :
  (forall s, cc_view (snd (f s)) = cc_view s) -> keeps (record act f).
Proof. intros H s. unfold record. specialize (H s). by destruct (f s). Qed.

Lemma keeps_GetSecret key : keeps (GetSecret key).
Proof. intros s. unfold GetSecret. pose proof (apart_secret key s) as H. by destruct (secret_Get key s). Qed.

Lemma keeps_try {A C} (m : M (result A)) (k : A -> M (result C)) :
  keeps m -> (forall a, keeps (k a)) -> keeps (try_bind m k).
Proof. intros Hm Hk. apply keeps_bind; [done|]. intros [a|e]; [apply Hk|apply keeps_ret]. Qed.

Lemma keeps_must m : keeps m -> keeps (must m).
Proof. intros Hm. apply keeps_bind; [done|]. intros e. apply keeps_ret. Qed.

Lemma keeps_wrapping {A} pre (m : M (result A)) : keeps m -> keeps (wrapping pre m).
Proof. intros Hm. apply keeps_bind; [done|]. intros e. apply keeps_ret. Qed.

Lemma keeps_deferring {A} fin (m : M A) : keeps fin -> keeps m -> keeps (deferring fin m).
Proof. intros Hf Hm. apply keeps_bind; [done|]. intros a. apply keeps_bind; [done|]. intros u. apply keeps_ret. Qed.
End Apart.

(** Runs a computation symbolically, with the given facts for its own calls. *)
Ltac keeps_step :=
  cbn zeta;
  lazymatch goal with
  | |- keeps_cache _ (try_bind _ _) => apply keeps_try; [|intros ?]
  | |- keeps_cache _ (must _) => apply keeps_must
  | |- keeps_cache _ (wrapping _ _) => apply keeps_wrapping
  | |- keeps_cache _ (deferring _ _) => apply keeps_deferring
  | |- keeps_cache _ (ret _) => apply keeps_ret
  | |- keeps_cache _ (look _) => apply keeps_look
  | |- keeps_cache _ (GetSecret _) => apply keeps_GetSecret; typeclasses eauto
  | |- keeps_cache _ (perform _) => apply keeps_perform; intros ?; first
      [apply apart_MkdirAll|apply apart_NewClient|apply apart_Expand]
  | |- keeps_cache _ (match ?x with _ => _ end) => destruct x
  | |- keeps_cache _ (bind _ _) => apply keeps_bind; [|intros ?]
  | |- keeps_cache _ _ => apply keeps_record; intros ?; first
      [apply apart_MkdirTemp|apply apart_RemoveAll|apply apart_pull|apply apart_resolve|apply apart_Build|apply apart_install
      |apply apart_clone|apply apart_init|apply apart_remote|apply apart_fetch|apply apart_checkout|apply apart_list|apply apart_kustomize]
  end.

Section Production.
Context {U : Unstructured} {Y : YAMLDecoder} {B : Boundary} {W : SourceWorld B} {N : NetURL}.
Context (ca : cacheI) {CC : CacheContract ca} {CA : CacheApart W ca}.

Abbreviation keeps := (keeps_cache ca).

Lemma keeps_resolver cr ref : keeps (CredentialResolver_Resolve cr ref).
Proof. unfold CredentialResolver_Resolve. repeat keeps_step. Qed.

(** A loader and a resolver with the credential resolver of a CR. *)
Definition cr_loader (l : helmLoader) cr ref : helmLoader :=
  mkHelmLoader (hl_settings l) (Some (fun _ => CredentialResolver_Resolve cr ref)) (hl_httpClient l) (hl_scratchDir l).
Definition cr_resolver cr ref : gitResolver := mkGitResolver (Some (fun _ => CredentialResolver_Resolve cr ref)).

Lemma keeps_Load l cr ref repo name version : keeps (helmLoader_Load (cr_loader l cr ref) repo name version).
Proof.
  unfold helmLoader_Load, newScratchDir, pullOCI, expandAndResolveDeps, ociRegistryClient, credFor.
  cbn [hl_resolve cr_loader]. repeat first [apply keeps_resolver | keeps_step].
Qed.

Lemma keeps_helm_resolve l cr ref spec mode : keeps (helm_resolve (cr_loader l cr ref) spec mode).
Proof.
  unfold helm_resolve, helmLoader_ResolveID, resolveOCIDigest, credFor.
  cbn [hl_resolve cr_loader]. repeat first [apply keeps_resolver | keeps_step].
Qed.

Lemma keeps_clone_first dir base auth names : keeps (clone_first dir base auth names).
Proof. induction names; cbn [clone_first]; repeat first [assumption | keeps_step]. Qed.

Lemma keeps_kustomize_resolve cr ref spec mode : keeps (kustomize_resolve (cr_resolver cr ref) spec mode).
Proof.
  unfold kustomize_resolve, gitResolver_ResolveID, authFor. cbn [gr_resolve cr_resolver].
  repeat first [apply keeps_resolver | keeps_step].
Qed.

Lemma keeps_helmSource l cr ref spec mode ns :
  keeps (helmSource_Render (mkHelm spec (HelmChartLoader (cr_loader l cr ref))) mode ns).
Proof.
  unfold helmSource_Render, helm_render_chart. cbn [Load hs_loader hs_spec].
  repeat first [apply keeps_Load | keeps_step].
Qed.

(** Every render of a Helm source that the package wraps with the cache meets the
    assumptions of the theorems above. *)
Lemma helm_job_ok l cr ref spec mode ns :
  job_ok ca (mkJob (mkCaching (mkSourceI _ (helmSource_Render (mkHelm spec (HelmChartLoader (cr_loader l cr ref))))) ca
    "helm" (helm_resolve (cr_loader l cr ref) spec) (hashValues (helm_hash_input spec))) mode ns).
Proof. split_and!; [done|apply keeps_helm_resolve|apply keeps_helmSource]. Qed.

(** A result with a cleanup that leaves the cache alone too. *)
Definition tidy (res : result (string * M unit)) : Prop := forall root cleanup, res = Ok (root, cleanup) -> keeps cleanup.

Lemma keeps_git_Resolve cr ref url subPath s :
  let '(res, _, s') := gitResolver_Resolve (cr_resolver cr ref) url subPath s in
  cc_view s' = cc_view s /\ tidy res.
Proof.
  assert (keeps (gitResolver_Resolve (cr_resolver cr ref) url subPath)) as Hk.
  { unfold gitResolver_Resolve, authFor, fetchPinned, fetchSHA. cbn [gr_resolve cr_resolver].
    repeat first [apply keeps_resolver | apply keeps_clone_first | keeps_step]. }
  specialize (Hk s).
  assert (post (gitResolver_Resolve (cr_resolver cr ref) url subPath) (fun res _ => tidy res)) as Ht.
  { unfold gitResolver_Resolve. destruct (splitRef url) as [[[base sub] r]|e]; [|by apply post_ret].
    eapply post_try_bind; [apply post_recorded|done|]. intros dir t _. cbn zeta.
    eapply post_bind; [by apply (post_all _ (fun _ _ => True))|]. intros [auth|e] t' _.
    - eapply post_bind; [by apply (post_all _ (fun _ _ => True))|]. intros [e|] t'' _.
      + eapply post_bind; [apply post_recorded|]. intros u t3 _. by apply post_ret.
      + apply post_ret. intros root cleanup [= _ <-]. apply keeps_record. intros. apply apart_RemoveAll.
    - eapply post_bind; [apply post_recorded|]. intros u t3 _. by apply post_ret. }
  specialize (Ht s). destruct (gitResolver_Resolve _ _ _ s) as [[res t] s']. done.
Qed.

Lemma keeps_kustomizeSource cr ref spec mode ns :
  keeps (kustomizeSource_Render (mkKustomize spec (GitRootResolver (cr_resolver cr ref))) mode ns).
Proof.
  intros s. unfold kustomizeSource_Render, try_bind, wrapping, bind. cbn [Resolve ks_resolver ks_spec].
  pose proof (keeps_git_Resolve cr ref (kustomize_URL spec) (kustomize_subPath spec mode) s) as H.
  destruct (gitResolver_Resolve _ _ _ s) as [[[[root cleanup]|e] t] s1]; destruct H as [Hv Ht]; [|exact Hv].
  cbn [ret wrap_err]. assert (keeps (deferring cleanup (kustomize_build root mode ns))) as Hk.
  { apply keeps_deferring; [by eapply Ht|]. unfold kustomize_build. repeat keeps_step. }
  specialize (Hk s1). destruct (deferring _ _ s1) as [[r t'] s2]. cbn in *. by rewrite Hk.
Qed.

Lemma kustomize_job_ok cr ref spec mode ns :
  job_ok ca (mkJob (mkCaching (mkSourceI _ (kustomizeSource_Render (mkKustomize spec (GitRootResolver (cr_resolver cr ref))))) ca
    "kustomize" (kustomize_resolve (cr_resolver cr ref) spec) (hashValues (kustomize_hash_input spec))) mode ns).
Proof. split_and!; [done|apply keeps_kustomize_resolve|apply keeps_kustomizeSource]. Qed.
End Production.

(** ** Witnesses *)

Import RefInstances.

#[export] Instance lab_CacheApart : CacheApart lab_World lab_cacheI.
Proof. by split. Qed.

(** A Helm source rendered twice: the second call is a hit. *)
Definition lab_spec : HelmSource :=
  mkHelmSource "oci://registry.example.com/charts" "widgets" "1.0.0" (Some "replicas=2") None None None.
Definition lab_loader : helmLoader :=
  cr_loader (newHelmLoader lab_settings None) (mkCredentialResolver "shoot--demo") None.
Definition lab_job : job :=
  mkJob (mkCaching (mkSourceI _ (helmSource_Render (mkHelm lab_spec (HelmChartLoader lab_loader)))) lab_cacheI
    "helm" (helm_resolve lab_loader lab_spec) (hashValues (helm_hash_input lab_spec))) ModeSeed "shoot--demo".

Lemma lab_job_ok : job_ok lab_cacheI lab_job.
Proof. apply helm_job_ok; exact _. Qed.

Lemma run_parts {A} (m : M A) s : m s = (fst (fst (m s)), snd (fst (m s)), snd (m s)).
Proof. by destruct (m s) as [[a t] s']. Qed.

Definition lab_after : lab := snd (run_job lab_job lab_start).

Lemma lab_session : session lab_cacheI lab_start [(lab_job, lab_start)] lab_after.
Proof.
  exact (session_snoc lab_cacheI lab_start [] lab_start lab_job _ _ lab_after
           (session_nil _ lab_start) lab_job_ok (run_parts (run_job lab_job) lab_start)).
Qed.

Definition lab_manifests : list Manifest :=
  match fst (fst (run_job lab_job lab_after)) with Ok m => m | Err _ => [] end.

Lemma lab_second_result : fst (fst (run_job lab_job lab_after)) = Ok lab_manifests.
Proof. by vm_compute. Qed.

Lemma cached_render_has_provenance_witness :
  length lab_manifests = 1 /\ snd (fst (run_job lab_job lab_after)) =
    [EvSource (ActResolveDigest None "registry.example.com/charts/widgets:1.0.0"
       (Ok "sha256:registry.example.com/charts/widgets:1.0.0"))] /\
  ((exists e t1 s1 t2, cs_resolve (j_src lab_job) (j_mode lab_job) lab_after = (Err e, t1, s1) /\
      run_inner lab_job s1 = (Ok lab_manifests, t2, snd (run_job lab_job lab_after))) \/
   (exists kp, renders lab_cacheI lab_job lab_after kp lab_manifests) \/
   (exists kp j' s1 kp', resolves lab_job lab_after kp /\ (j', s1) ∈ [(lab_job, lab_start)] /\
      renders lab_cacheI j' s1 kp' lab_manifests /\ keyParts_String kp' = keyParts_String kp /\
      (key_ok kp -> key_ok kp' -> kp' = kp))).
Proof.
  split; [vm_compute; reflexivity|split; [vm_compute; reflexivity|]].
  exact (cached_render_has_provenance lab_cacheI lab_start _ lab_after lab_job _ _ _ lab_manifests
           eq_refl lab_session lab_job_ok (run_parts _ _) lab_second_result).
Defined.

(** A repository scheme the loader does not know: nothing resolves. *)
Definition lab_bad_spec : HelmSource := mkHelmSource "https://charts.example.com" "widgets" "1.0.0" None None None None.
Definition lab_bad_job : job :=
  mkJob (mkCaching (mkSourceI _ (helmSource_Render (mkHelm lab_bad_spec (HelmChartLoader lab_loader)))) lab_cacheI
    "helm" (helm_resolve lab_loader lab_bad_spec) (hashValues (helm_hash_input lab_bad_spec))) ModeSeed "shoot--demo".

Lemma cache_failures_fall_through_witness :
  exists t2, run_inner lab_bad_job lab_start =
      (fst (fst (run_job lab_bad_job lab_start)), t2, snd (run_job lab_bad_job lab_start)) /\
    snd (fst (run_job lab_bad_job lab_start)) = [] ++ t2.
Proof.
  exact (proj1 (cache_failures_fall_through lab_cacheI lab_bad_job lab_start _ _ _
    (helm_job_ok lab_cacheI (newHelmLoader lab_settings None) (mkCredentialResolver "shoot--demo") None lab_bad_spec ModeSeed "shoot--demo")
    (run_parts _ _)) _ [] lab_start eq_refl).
Defined.

Definition lab_key (scope : string) : keyParts :=
  mkKeyParts "helm" scope "sha256:0a1b" "seed" "0a1b" "shoot--demo".

Lemma lab_key_ok scope : key_ok (lab_key scope).
Proof. split_and!; [by left|by left|done..]. Qed.

Lemma cache_key_injective_witness : lab_key "oci:registry.example.com" = lab_key "oci:registry.example.com".
Proof. exact (cache_key_injective (lab_key _) (lab_key _) (lab_key_ok _) (lab_key_ok _) eq_refl). Defined.

Lemma hash_input_determines_render_witness :
  filepath_Join ["/tmp/x"; "deploy"; kustomize_subPath (mkKustomizeSource "https://h/a//deploy?ref=v1" "s" "t" None) ModeSeed] =
  filepath_Join ["/tmp/x"; "deploy"; kustomize_subPath (mkKustomizeSource "https://h/b//deploy?ref=v2" "s" "t" None) ModeSeed].
Proof.
  exact (proj2 hash_input_determines_render (mkKustomizeSource "https://h/a//deploy?ref=v1" "s" "t" None)
    (mkKustomizeSource "https://h/b//deploy?ref=v2" "s" "t" None) "https://h/a" "deploy" "v1" "https://h/b" "deploy" "v2"
    ModeSeed "/tmp/x" eq_refl eq_refl eq_refl).
Defined.
