(* ===== verification/Equivalence.v ===== *)
(** internal/equivalence: the comparison of the operator's renders with a golden
    chart render.  allowlist.go, normalize.go, compare.go, set.go, scope.go,
    golden_classify.go, golden_render.go, operator_capture.go and fixture.go. *)

From Stdlib Require Import Ascii.
From S2P Require Import Prelude Value Apimachinery Types Clients Manifest Boundary GoPaths SourceWorld GitResolver Transform Controller SourceRender.

(** ** Go's standard library *)

(** [sort.Strings]: Go compares bytes, as [String.le] does. *)
Definition sort_Strings (l : list string) : list string := merge_sort String.le l.

(** [strings.Split(s, "/")] is [split_slash] of [GoPaths]. *)

(** [==] on float64: NaN is not equal to itself, and both zeros are equal. *)
Definition float_nan (bits : Z) : bool := (9218868437227405312 <? Z.land bits 9223372036854775807)%Z.
Definition float_zero (bits : Z) : bool := (Z.land bits 9223372036854775807 =? 0)%Z.
Definition float_eq (a b : Z) : bool :=
  negb (float_nan a) && negb (float_nan b) && ((a =? b)%Z || (float_zero a && float_zero b)).

Section AllPairs.
Context {A B : Type} (f : A -> B -> bool).
Fixpoint all_pairs (l : list A) (l' : list B) : bool :=
  match l, l' with
  | [], [] => true
  | x :: l, y :: l' => f x y && all_pairs l l'
  | _, _ => false
  end.
End AllPairs.

(** [reflect.DeepEqual] on decoded values. *)
Fixpoint DeepEqual (a b : value) : bool :=
  match a, b with
  | VNull, VNull => true
  | VBool x, VBool y => Bool.eqb x y
  | VInt x, VInt y => (x =? y)%Z
  | VFloat x, VFloat y => float_eq x y
  | VString x, VString y => String.eqb x y
  | VSlice l, VSlice l' => all_pairs DeepEqual l l'
  | VMap m, VMap m' =>
      Nat.eqb (size m) (size m') &&
      map_fold (fun k v acc => acc && match m' !! k with Some w => DeepEqual v w | None => false end) true m
  | _, _ => false
  end.

(** [base64.StdEncoding.DecodeString]; the offset in its error is left out. *)
Definition b64_value (c : ascii) : option N :=
  let n := N_of_ascii c in
  if ((65 <=? n) && (n <=? 90))%N then Some (n - 65)%N
  else if ((97 <=? n) && (n <=? 122))%N then Some (n - 71)%N
  else if ((48 <=? n) && (n <=? 57))%N then Some (n + 4)%N
  else if (n =? 43)%N then Some 62%N else if (n =? 47)%N then Some 63%N else None.

Definition newline (c : ascii) : bool := ((N_of_ascii c =? 10) || (N_of_ascii c =? 13))%N.
Definition padding (c : ascii) : bool := (N_of_ascii c =? 61)%N.
Definition byte_of (n : N) : ascii := ascii_of_N (n mod 256).

Fixpoint b64_quanta (l : list ascii) : option (list ascii) :=
  match l with
  | [] => Some []
  | a :: b :: c :: d :: rest =>
      x ← b64_value a; y ← b64_value b;
      if padding d then
        match rest with
        | _ :: _ => None
        | [] =>
            if padding c then Some [byte_of (N.shiftl x 2 + N.shiftr y 4)]
            else z ← b64_value c;
                 Some [byte_of (N.shiftl x 2 + N.shiftr y 4); byte_of (N.shiftl y 4 + N.shiftr z 2)]
        end
      else
        z ← b64_value c; w ← b64_value d;
        tail ← b64_quanta rest;
        Some (byte_of (N.shiftl x 2 + N.shiftr y 4) :: byte_of (N.shiftl y 4 + N.shiftr z 2) ::
              byte_of (N.shiftl z 6 + w) :: tail)
  | _ => None
  end.

Definition base64_DecodeString (s : string) : result string :=
  match b64_quanta (List.filter (fun c => negb (newline c)) (String.list_ascii_of_string s)) with
  | Some l => Ok (String.string_of_list_ascii l)
  | None => Err (EExt "base64" "illegal base64 data")
  end.

Example base64_decodes :
  map base64_DecodeString ["aGVsbG8="; "aGVsbG8hIQ=="; "aGVsbG8h"; "aGVsbG8"] =
  [Ok "hello"; Ok "hello!!"; Ok "hello!"; Err (EExt "base64" "illegal base64 data")].
Proof. by vm_compute. Qed.

(** ** normalize.go *)

Definition isEmpty (v : value) : bool :=
  match v with VNull => true | VMap m => Nat.eqb (size m) 0 | _ => false end.

Fixpoint pruneEmpties (v : value) : value :=
  match v with
  | VMap m =>
      VMap (map_fold (fun k child acc =>
        let pruned := pruneEmpties child in if isEmpty pruned then acc else <[k := pruned]> acc) ∅ m)
  | VSlice l => VSlice (map pruneEmpties l)
  | _ => v
  end.

Definition Normalize (u : obj) : obj := match pruneEmpties (VMap u) with VMap m => m | _ => u end.

(** ** compare.go *)

Record Report := mkReport { Mismatched : list string; MissingOp : list string; ExtraOp : list string }.

Definition Report_Equal (r : Report) : bool :=
  Nat.eqb (length (Mismatched r)) 0 && Nat.eqb (length (MissingOp r)) 0 && Nat.eqb (length (ExtraOp r)) 0.

(** The lines of one kind of finding. *)
Definition report_lines (label : string) (keys : list string) : string :=
  String.concat "" (map (fun k => label +:+ k +:+ String "010" EmptyString) keys).

Definition Report_String (r : Report) : string :=
  report_lines "MISMATCH " (Mismatched r) +:+
  report_lines "MISSING on operator side: " (MissingOp r) +:+
  report_lines "EXTRA on operator side: " (ExtraOp r).

Definition nextPath (prefix key : string) : string :=
  if bool_decide (prefix = "") then key else prefix +:+ "." +:+ key.

Definition idxPath (prefix : string) (i : nat) : string :=
  prefix +:+ "[" +:+ pretty (N.of_nat i) +:+ "]".

(** The loop over two slices of equal length, from index [i]. *)
Section DiffSlices.
Context (diff : value -> value -> string -> list string).
Fixpoint diff_slices (l l' : list value) (i : nat) (prefix : string) : list string :=
  match l, l' with
  | x :: l, y :: l' => (diff x y (idxPath prefix i) ++ diff_slices l l' (S i) prefix)%list
  | _, _ => []
  end.
End DiffSlices.

Fixpoint diffPaths (a b : value) (prefix : string) : list string :=
  match a with
  | VMap ta =>
      match b with
      | VMap tb =>
          let below := map_fold (fun k v acc => <[k := fun w p => diffPaths v w p]> acc)
                         (∅ : gmap string (value -> string -> list string)) ta in
          flat_map (fun k =>
            match below !! k, tb !! k with
            | Some diff, Some vb => diff vb (nextPath prefix k)
            | _, _ => [nextPath prefix k]
            end) (sort_Strings (elements (dom ta ∪ dom tb)))
      | _ => [prefix]
      end
  | VSlice la =>
      match b with
      | VSlice lb =>
          if negb (Nat.eqb (length la) (length lb)) then [prefix] else diff_slices diffPaths la lb 0 prefix
      | _ => [prefix]
      end
  | _ => if negb (DeepEqual a b) then [prefix] else []
  end.

(** ** set.go *)

Abbreviation ResourceKey := string.
Abbreviation ObjectSet := (gmap string obj).

Section Equivalence.
Context {U : Unstructured}.

Definition KeyOf (u : obj) : ResourceKey :=
  let gvk := GetGroupVersionKind u in
  gvk_Group gvk +:+ "/" +:+ gvk_Kind gvk +:+ "/" +:+ GetNamespace u +:+ "/" +:+ GetName u.

Definition schemaGVK (apiVersion kind : string) : GroupVersionKind :=
  match ParseGroupVersion apiVersion with
  | (_, Some _) => mkGVK "" "" ""
  | (gv, None) => mkGVK (gv_Group gv) (gv_Version gv) kind
  end.

Definition ObjectSet_Keys (s : ObjectSet) : list string := sort_Strings (map fst (map_to_list s)).

Definition displayKey (u : obj) : string :=
  GetAPIVersion u +:+ "/" +:+ GetKind u +:+ "/" +:+ GetNamespace u +:+ "/" +:+ GetName u.

(** ** allowlist.go *)

Definition allowlistedLabelKeys : list string := [
  "helm.sh/chart"; "helm.sh/resource-policy"; "app.kubernetes.io/managed-by"; "app.kubernetes.io/version";
  "app.kubernetes.io/instance"; "dual-deployment-operator.cc.sap/origin"; "dual-deployment-operator.cc.sap/owned-by" ].

(** [delete(m, k)] for every key. *)
Definition delete_keys (ks : list string) (m : obj) : obj := foldl (fun m k => delete k m) m ks.

Definition stripKeys (u : obj) (path : list string) : obj :=
  match NestedMap u path with
  | (m, true, None) =>
      let m := delete_keys allowlistedLabelKeys m in
      if Nat.eqb (size m) 0 then RemoveNestedField u path else fst (SetNestedMap u m path)
  | _ => u
  end.

Definition StripAllowlist (u : obj) : obj :=
  stripKeys (stripKeys u ["metadata"; "labels"]) ["metadata"; "annotations"].

(** ** Compare *)

Definition prep (u : obj) : obj := Normalize (StripAllowlist u).

(** The first loop, in the order [gs] in which Go visits the golden map: the
    mismatches and the missing objects. *)
Fixpoint compare_golden (gs : list (ResourceKey * obj)) (op : ObjectSet) : list string * list string :=
  match gs with
  | [] => ([], [])
  | (k, gobj) :: gs' =>
      let '(mismatched, missing) := compare_golden gs' op in
      match op !! k with
      | None => (mismatched, displayKey gobj :: missing)
      | Some oobj =>
          let gPrep := prep gobj in
          let oPrep := prep oobj in
          if negb (DeepEqual (VMap gPrep) (VMap oPrep)) then
            let paths := diffPaths (VMap gPrep) (VMap oPrep) "" in
            ((displayKey gPrep +:+ " (fields differ: " +:+ strings_Join paths ", " +:+ ")") :: mismatched, missing)
          else (mismatched, missing)
      end
  end.

Fixpoint compare_extra (os : list (ResourceKey * obj)) (golden : ObjectSet) : list string :=
  match os with
  | [] => []
  | (k, oobj) :: os' =>
      let extra := compare_extra os' golden in
      if is_set (golden !! k) then extra else displayKey oobj :: extra
  end.

(** Compare, visiting the two maps in the given orders. *)
Definition compare_in_order (gs os : list (ResourceKey * obj)) (golden op : ObjectSet) : Report :=
  let '(mismatched, missing) := compare_golden gs op in
  mkReport (sort_Strings mismatched) (sort_Strings missing) (sort_Strings (compare_extra os golden)).

Definition Compare (golden op : ObjectSet) : Report :=
  compare_in_order (map_to_list golden) (map_to_list op) golden op.

(** ** scope.go *)

Record ExclusionEntry := mkExclusion { ex_Kind : string; ex_Name : string }.

Record Scope := mkScope {
  ComparedKinds : list string;
  KnownDivergences : list ExclusionEntry;
  IgnoreLabels : list string;
  CanonicalNamespace : string;
}.

Definition comparesKind (s : Scope) (kind : string) : bool :=
  if Nat.eqb (length (ComparedKinds s)) 0 then true else existsb (String.eqb kind) (ComparedKinds s).

Definition stripIgnoredLabels (s : Scope) (u : obj) : obj :=
  if Nat.eqb (length (IgnoreLabels s)) 0 then u
  else match NestedMap u ["metadata"; "labels"] with
       | (labels, true, None) =>
           let c := DeepCopy u in
           let labels := delete_keys (IgnoreLabels s) labels in
           if Nat.eqb (size labels) 0 then RemoveNestedField c ["metadata"; "labels"]
           else match SetNestedMap c labels ["metadata"; "labels"] with
                | (_, Some _) => u
                | (c, None) => c
                end
       | _ => u
       end.

(** One subject, and whether it changed. *)
Definition canonical_subject (ns : string) (raw : value) : value * bool :=
  match raw with
  | VMap m =>
      let cur := string_field m "namespace" in
      if negb (bool_decide (cur = "")) && negb (bool_decide (cur = ns))
      then (VMap (<["namespace" := VString ns]> m), true) else (raw, false)
  | _ => (raw, false)
  end.

Definition canonicalizeNamespace (s : Scope) (u : obj) : obj :=
  let ns := CanonicalNamespace s in
  if bool_decide (ns = "") then u
  else
    let c := if negb (bool_decide (GetNamespace u = "")) && negb (bool_decide (GetNamespace u = ns))
             then SetNamespace (DeepCopy u) ns else u in
    match NestedSlice c ["subjects"] with
    | (subjects, true, None) =>
        let done_ := map (canonical_subject ns) subjects in
        if existsb snd done_ then fst (SetNestedSlice c (map fst done_) ["subjects"]) else c
    | _ => c
    end.

(** The loop of Scope.Apply over the set, in the order Go visits it. *)
Definition scope_one (s : Scope) (u : obj) : obj := canonicalizeNamespace s (stripIgnoredLabels s u).

Fixpoint scope_loop (s : Scope) (objs : list obj) (out : ObjectSet) : ObjectSet :=
  match objs with
  | [] => out
  | u :: objs' =>
      if negb (comparesKind s (GetKind u)) then scope_loop s objs' out
      else let o := scope_one s u in scope_loop s objs' (<[KeyOf o := o]> out)
  end.

Definition Scope_Apply (s : Scope) (set : ObjectSet) : ObjectSet :=
  scope_loop s (map snd (map_to_list set)) ∅.

Definition keyIsKnownDivergence (s : Scope) (dkey : string) : bool :=
  let parts := split_slash dkey in
  if (length parts <? 4)%nat then false
  else
    let kind := nth (length parts - 3) parts "" in
    let name := nth (length parts - 1) parts "" in
    existsb (fun e => String.eqb (ex_Kind e) kind && String.eqb (ex_Name e) name) (KnownDivergences s).

Definition dropKnownDivergent (s : Scope) (keys : list string) : list string :=
  List.filter (fun k => negb (keyIsKnownDivergence s k)) keys.

Definition CompareScoped (s : Scope) (golden op : ObjectSet) : Report :=
  let r := Compare golden op in
  if Nat.eqb (length (KnownDivergences s)) 0 then r
  else mkReport (Mismatched r) (dropKnownDivergent s (MissingOp r)) (dropKnownDivergent s (ExtraOp r)).

(** ** golden_classify.go *)

Record GoldenOpts := mkGoldenOpts { ChartFullname : string; Exclusions : list ExclusionEntry }.
Record Classified := mkClassified { Seed : ObjectSet; Shoot : ObjectSet }.

Definition isExcluded (u : obj) (ex : list ExclusionEntry) : bool :=
  existsb (fun e => String.eqb (GetKind u) (ex_Kind e) && String.eqb (GetName u) (ex_Name e)) ex.

Definition isManagedResource (u : obj) : bool :=
  String.eqb (GetKind u) "ManagedResource" &&
  String.eqb (gvk_Group (GetGroupVersionKind u)) "resources.gardener.cloud".

Definition isInjectorConfigMap (u : obj) (fullname : string) : bool :=
  if negb (String.eqb (GetKind u) "ConfigMap") || negb (String.eqb (GetName u) (fullname +:+ "-webhook-config"))
  then false
  else match NestedMap u ["data"] with
       | (data, true, None) => if negb (Nat.eqb (size data) 1) then false else is_set (data !! "webhooks.yaml")
       | _ => false
       end.

Context {Y : YAMLDecoder}.

(** The loop of splitYAMLDocs over the results of the successive decodes. *)
Fixpoint split_loop (docs : list (result obj)) (out : list obj) : result (list obj) :=
  match docs with
  | [] => Ok out
  | Err e :: _ => Err (EWrap "equivalence: decode YAML doc: " e "")
  | Ok m :: docs' => if Nat.eqb (size m) 0 then split_loop docs' out else split_loop docs' (out ++ [m])
  end.

Definition splitYAMLDocs (b : string) : result (list obj) := split_loop (yaml_documents b) [].

Definition decodeWebhooks (u : obj) : result (list obj) :=
  let '(raw, _, err) := NestedString u ["data"; "webhooks.yaml"] in
  match err with Some err => Err err | None => splitYAMLDocs raw end.

Definition add_all (set : ObjectSet) (us : list obj) : ObjectSet := foldl (fun s u => <[KeyOf u := u]> s) set us.

(** The loop over the documents. *)
Fixpoint classify_loop (docs : list obj) (opts : GoldenOpts) (out : Classified) : result Classified :=
  match docs with
  | [] => Ok out
  | d :: docs' =>
      if isExcluded d (Exclusions opts) then classify_loop docs' opts out
      else if isManagedResource d then classify_loop docs' opts out
      else if isInjectorConfigMap d (ChartFullname opts) then
        match decodeWebhooks d with
        | Err err => Err (EWrap ("equivalence: unwrap injector ConfigMap " +:+ quote (GetName d) +:+ ": ") err "")
        | Ok whs => classify_loop docs' opts (mkClassified (Seed out) (add_all (Shoot out) whs))
        end
      else classify_loop docs' opts (mkClassified (<[KeyOf d := d]> (Seed out)) (Shoot out))
  end.

Definition ClassifyGolden (docs shootFromMR : list obj) (opts : GoldenOpts) : result Classified :=
  let kept := List.filter (fun d => negb (isExcluded d (Exclusions opts))) shootFromMR in
  classify_loop docs opts (mkClassified ∅ (add_all ∅ kept)).

(** *** UnwrapManagedResources *)

Definition secretsByName (docs : list obj) : gmap string obj :=
  foldl (fun m d => if String.eqb (GetKind d) "Secret" then <[GetName d := d]> m else m) ∅ docs.

(** The payload of one secret reference of the ManagedResource [mr]: the name it
    references and the objects; None for a reference that is not an object. *)
Definition unwrap_ref (secrets : gmap string obj) (mr : obj) (r : value) : result (option (string * list obj)) :=
  match r with
  | VMap m =>
      let name := string_field m "name" in
      match secrets !! name with
      | None => Err (ENew ("equivalence: MR " +:+ quote (GetName mr) +:+ " references Secret " +:+ quote name +:+
                           " not found in render"))
      | Some sec =>
          let '(enc, found, err) := NestedString sec ["data"; "objects.yaml"] in
          match err with
          | Some err => Err err
          | None =>
              if negb found || bool_decide (enc = "") then
                Err (ENew ("equivalence: MR secret " +:+ quote name +:+ " has no non-empty data[objects.yaml]"))
              else
                try raw <- wrap_err ("equivalence: decode MR secret " +:+ quote name +:+ " objects.yaml: ")
                             (base64_DecodeString enc);
                try objs <- wrap_err ("equivalence: split MR secret " +:+ quote name +:+ " payload: ")
                              (splitYAMLDocs raw);
                Ok (Some (name, objs))
          end
      end
  | _ => Ok None
  end.

(** The loop over the references of one ManagedResource, and over the documents. *)
Fixpoint unwrap_refs (secrets : gmap string obj) (mr : obj) (refs : list value) (referenced : list string)
  (fromMR : list obj) : result (list string * list obj) :=
  match refs with
  | [] => Ok (referenced, fromMR)
  | r :: refs' =>
      try one <- unwrap_ref secrets mr r;
      match one with
      | None => unwrap_refs secrets mr refs' referenced fromMR
      | Some (name, objs) => unwrap_refs secrets mr refs' (name :: referenced) (fromMR ++ objs)
      end
  end.

Fixpoint unwrap_loop (secrets : gmap string obj) (docs : list obj) (referenced : list string) (fromMR : list obj)
  : result (list string * list obj) :=
  match docs with
  | [] => Ok (referenced, fromMR)
  | d :: docs' =>
      if negb (isManagedResource d) then unwrap_loop secrets docs' referenced fromMR
      else
        let '(refs, _, err) := NestedSlice d ["spec"; "secretRefs"] in
        match err with
        | Some err => Err err
        | None =>
            try (referenced, fromMR) <- unwrap_refs secrets d refs referenced fromMR;
            unwrap_loop secrets docs' referenced fromMR
        end
  end.

(** The last loop: what is passed through. *)
Definition passes (referenced : list string) (d : obj) : bool :=
  negb (isManagedResource d) &&
  negb (String.eqb (GetKind d) "Secret" && existsb (String.eqb (GetName d)) referenced).

Definition UnwrapManagedResources (docs : list obj) : result (list obj * list obj) :=
  try (referenced, fromMR) <- unwrap_loop (secretsByName docs) docs [] [];
  Ok (fromMR, List.filter (passes referenced) docs).

(** ** golden_render.go *)

Fixpoint merge_over (base over : value) : value :=
  match over with
  | VMap ov =>
      match base with
      | VMap bv =>
          VMap (map_fold (fun k v acc =>
            <[k := match bv !! k with Some b => merge_over b v | None => v end]> acc) bv ov)
      | _ => over
      end
  | _ => over
  end.

(** Every key of [over] in [base], tables merged. *)
Definition deepMerge (base over : obj) : obj := match merge_over (VMap base) (VMap over) with VMap m => m | _ => over end.

(** [yaml.Unmarshal] of sigs.k8s.io/yaml into a map. *)
Context (yaml_UnmarshalMap : string -> result obj).

Fixpoint merge_yaml_loop (docs : list string) (out : obj) : result obj :=
  match docs with
  | [] => Ok out
  | d :: docs' =>
      if bool_decide (d = "") then merge_yaml_loop docs' out
      else match yaml_UnmarshalMap d with
           | Err err => Err (EWrap "golden: parse values: " err "")
           | Ok m => merge_yaml_loop docs' (deepMerge out m)
           end
  end.

Definition mergeValuesYAML (docs : list string) : result obj := merge_yaml_loop docs ∅.

Context {B : Boundary} {W : SourceWorld B} {N : NetURL}.

Record GoldenRenderReq := mkGoldenRenderReq {
  RepoURL : string; SHA : string; ChartPath : string; ValuesYAML : list string; req_Namespace : string }.

(** [settings] is what cli.New() returns. *)
Definition RenderGolden (settings : EnvSettings) (req : GoldenRenderReq) : M (result (list obj)) :=
  tryM tmp <- MkdirTemp "" "ddo-golden-git-";
  deferring (RemoveAll tmp)
    (tryM _ <- wrapping "golden: git init: " (must (PlainInit tmp));
     tryM _ <- wrapping "golden: git remote: " (must (CreateRemote tmp (RepoURL req)));
     tryM _ <- wrapping "golden: git fetch: " (must (Fetch tmp (RepoURL req) all_refs None));
     tryM _ <- wrapping "golden: worktree: " (must (look (git_Worktree tmp)));
     tryM _ <- wrapping ("golden: checkout " +:+ SHA req +:+ ": ") (must (Checkout tmp (plumbing_NewHash (SHA req))));
     let chartDir := filepath_Join [tmp; ChartPath req] in
     let rc := [ClientOptEnableCache true] in
     tryM _ <- wrapping "golden: registry client: " (must (perform (registry_NewClient rc)));
     tryM _ <- wrapping ("golden: dependency build " +:+ ChartPath req +:+ ": ")
                 (must (BuildDeps rc settings false chartDir));
     tryM ch <- wrapping "golden: load chart: " (look (loader_Load chartDir));
     match mergeValuesYAML (ValuesYAML req) with
     | Err err => ret (Err err)
     | Ok vals =>
         let inst := mkInstall true true true (chart_Name ch) (req_Namespace req) in
         tryM rel <- wrapping ("golden: template " +:+ ChartPath req +:+ ": ") (InstallRun inst ch vals);
         ret (splitYAMLDocs rel)
     end).

(** ** operator_capture.go *)

Context {P : PatchLib}.

Fixpoint apply_transforms (ts : list transformation) (ms : list Manifest) : result (list Manifest) :=
  match ts with
  | [] => Ok ms
  | t :: ts' => try ms <- transformation_Apply t ms; apply_transforms ts' ms
  end.

Definition manifest_set (ms : list Manifest) : ObjectSet := add_all ∅ (map m_Unstructured ms).

Definition renderMode (src : SourceI B) (mode : Mode) (ns : string) (transforms : list transformation)
  : M (result ObjectSet) :=
  tryM ms <- Render src mode ns;
  ret (try ms <- apply_transforms transforms ms; Ok (manifest_set ms)).

Definition CaptureOperator (cr : DualDeploymentOperator) (deps : Deps) : M (result (ObjectSet * ObjectSet)) :=
  match From (spec_Source (cr_Spec cr)) deps with
  | Err err => ret (Err (EWrap "capture: source.From: " err ""))
  | Ok src =>
      match Build (spec_Transformations (cr_Spec cr)) with
      | Err err => ret (Err (EWrap "capture: transform.Build: " err ""))
      | Ok transforms =>
          tryM seed <- wrapping "capture: seed: "
                         (renderMode src ModeSeed (meta_Namespace (cr_meta cr)) transforms);
          tryM shoot <- wrapping "capture: shoot: "
                          (renderMode src ModeShoot (spec_ShootNamespace (cr_Spec cr)) transforms);
          ret (Ok (seed, shoot))
      end
  end.
(** ** fixture.go *)

Record Fixture := mkFixture {
  fx_Operator : string; fx_ChartFullname : string; fx_RepoURL : string; fx_SHA : string; fx_ChartPath : string;
  OverlayValues : string; CRFile : string; fx_Exclusions : list ExclusionEntry;
  fx_ComparedKinds : list string; fx_KnownDivergences : list ExclusionEntry; fx_IgnoreLabels : list string;
  fx_CanonicalNamespace : string;
  fx_CR : option DualDeploymentOperator; OverlayRaw : string; fx_Dir : string;
}.

(** [f.Dir = dir], [f.CR = cr] and [f.OverlayRaw = raw]. *)
Definition with_inputs (f : Fixture) (dir : string) (cr : DualDeploymentOperator) (raw : string) : Fixture :=
  mkFixture (fx_Operator f) (fx_ChartFullname f) (fx_RepoURL f) (fx_SHA f) (fx_ChartPath f) (OverlayValues f)
    (CRFile f) (fx_Exclusions f) (fx_ComparedKinds f) (fx_KnownDivergences f) (fx_IgnoreLabels f)
    (fx_CanonicalNamespace f) (Some cr) raw dir.

(** [os.ReadFile], and [yaml.Unmarshal] into the two structs. *)
Context (os_ReadFile : string -> env -> result string)
        (yaml_UnmarshalFixture : string -> result Fixture)
        (yaml_UnmarshalCR : string -> result DualDeploymentOperator).

Definition LoadFixture (dir : string) : M (result Fixture) :=
  tryM b <- look (os_ReadFile (filepath_Join [dir; "fixture.yaml"]));
  tryM f <- ret (wrap_err "fixture: parse fixture.yaml: " (yaml_UnmarshalFixture b));
  tryM crBytes <- look (os_ReadFile (filepath_Join [dir; CRFile f]));
  tryM cr <- ret (wrap_err "fixture: parse cr: " (yaml_UnmarshalCR crBytes));
  tryM raw <- look (os_ReadFile (filepath_Join [dir; OverlayValues f]));
  ret (Ok (with_inputs f dir cr raw)).
End Equivalence.
