(* ===== verification/EquivalenceProps.v ===== *)
(** The comparison is sound and complete: normal forms, the difference report,
    and the report of two object sets, scoped or not. *)

From S2P Require Import Prelude Value Apimachinery Types Clients Manifest Boundary GoPaths SourceWorld Transform Controller SourceRender Equivalence.
#[local] Open Scope list_scope.

(** ** Induction on values *)

Section Fold.
Context {A C : Type}.

(** Building a map key by key. *)
Lemma lookup_fold_build (f : string -> A -> option C) (step : string -> A -> gmap string C -> gmap string C) (m : gmap string A) k :
  (forall k v acc, step k v acc = match f k v with Some c => <[k := c]> acc | None => acc end) ->
  map_fold step ∅ m !! k = m !! k ≫= f k.
Proof.
  intros Hstep. refine (map_fold_weak_ind (fun acc m => acc !! k = m !! k ≫= f k) _ _ _ _ m); [done|].
  intros j v m' acc Hj IH. rewrite Hstep. destruct (decide (k = j)) as [->|Hne].
  - rewrite lookup_insert_eq. cbn. destruct (f j v) as [c|]; [by rewrite lookup_insert_eq|].
    rewrite IH, Hj. done.
  - rewrite lookup_insert_ne by done. destruct (f j v); rewrite ?lookup_insert_ne by done; exact IH.
Qed.

Lemma fold_all (g : string -> A -> bool) (m : gmap string A) :
  map_fold (fun k v acc => acc && g k v) true m = true <-> forall k v, m !! k = Some v -> g k v = true.
Proof.
  refine (map_fold_weak_ind (fun acc m => acc = true <-> forall k v, m !! k = Some v -> g k v = true) _ _ _ _ m).
  - split; [|done]. intros _ k v. by rewrite lookup_empty.
  - intros j v m' acc Hj IH. rewrite andb_true_iff, IH. split.
    + intros [H Hv] k w Hk. destruct (decide (k = j)) as [->|Hne].
      * rewrite lookup_insert_eq in Hk. by injection Hk as <-.
      * rewrite lookup_insert_ne in Hk by done. by apply H.
    + intros H. split; [|apply H, lookup_insert_eq]. intros k w Hk. apply H.
      rewrite lookup_insert_ne; [done|]. intros ->. by rewrite Hj in Hk.
Qed.
End Fold.

Fixpoint value_size (v : value) : nat :=
  match v with
  | VMap m => S (map_fold (fun _ c n => value_size c + n) 0 m)
  | VSlice l => S (sum_list_with value_size l)
  | _ => 1
  end.

Lemma value_size_lookup m k v : m !! k = Some v -> value_size v < value_size (VMap m).
Proof.
  intros H. cbn. rewrite (map_fold_delete_L _ _ k v m); [lia| |done]. intros. lia.
Qed.

Lemma value_size_elem l v : v ∈ l -> value_size v < value_size (VSlice l).
Proof.
  cbn. induction l as [|w l IH]; [by intros ?%elem_of_nil|]. cbn.
  intros [->|H%IH]%elem_of_cons; lia.
Qed.

Lemma value_nested_ind (P : value -> Prop) :
  (forall m, (forall k v, m !! k = Some v -> P v) -> P (VMap m)) ->
  (forall l, (forall v, v ∈ l -> P v) -> P (VSlice l)) ->
  (forall v, as_map v = None -> (forall l, v ≠ VSlice l) -> P v) -> forall v, P v.
Proof.
  intros Hm Hs Hl. assert (forall n v, value_size v < n -> P v) as H; [|by intros v; apply (H (S (value_size v))); lia].
  induction n as [|n IH]; intros v Hv; [lia|].
  destruct v as [| | | | |l|m]; try (apply Hl; [done|discriminate]).
  - apply Hs. intros w Hw%value_size_elem. apply IH. lia.
  - apply Hm. intros k w Hw%value_size_lookup. apply IH. lia.
Qed.

(** ** Normal forms *)

Lemma Normalize_lookup o k :
  Normalize o !! k = o !! k ≫= fun c => if isEmpty (pruneEmpties c) then None else Some (pruneEmpties c).
Proof.
  unfold Normalize. cbn [pruneEmpties].
  apply (lookup_fold_build (fun _ c => if isEmpty (pruneEmpties c) then None else Some (pruneEmpties c))).
  intros. cbn zeta. by destruct (isEmpty _).
Qed.

Lemma prune_map m : pruneEmpties (VMap m) = VMap (Normalize m).
Proof. done. Qed.

(** No entry of an object, at any depth, is null or an empty object. *)
Inductive normal : value -> Prop :=
| normal_map m : (forall k v, m !! k = Some v -> isEmpty v = false /\ normal v) -> normal (VMap m)
| normal_slice l : (forall v, v ∈ l -> normal v) -> normal (VSlice l)
| normal_leaf v : as_map v = None -> (forall l, v ≠ VSlice l) -> normal v.

Lemma prune_leaf v : as_map v = None -> (forall l, v ≠ VSlice l) -> pruneEmpties v = v.
Proof. intros Hm Hs. destruct v; try done. by destruct (Hs l). Qed.

Lemma prune_normal v : normal (pruneEmpties v).
Proof.
  induction v as [m IH|l IH|v Hm Hs] using value_nested_ind.
  - rewrite prune_map. constructor. intros k v. rewrite Normalize_lookup.
    destruct (m !! k) as [c|] eqn:E; [|done]. cbn. destruct (isEmpty (pruneEmpties c)) eqn:Ee; [done|].
    intros [= <-]. split; [done|by eapply IH].
  - constructor. intros v (c & -> & Hc)%list_elem_of_fmap. by apply IH.
  - rewrite prune_leaf by done. by constructor.
Qed.

Lemma prune_of_normal v : normal v -> pruneEmpties v = v.
Proof.
  induction v as [m IH|l IH|v Hm Hs] using value_nested_ind; intros Hn; [| |by apply prune_leaf].
  - inversion Hn as [m' Hm| |? Ha]; subst; [|done]. rewrite prune_map. f_equal. apply map_eq. intros k.
    rewrite Normalize_lookup. destruct (m !! k) as [c|] eqn:E; [|done]. cbn.
    destruct (Hm k c E) as [He Hc]. rewrite (IH k c E Hc), He. done.
  - inversion Hn as [|l' Hl|? _ Ha]; subst; [|by destruct (Ha l)]. cbn. f_equal.
    clear Hn. induction l as [|w l IHl]; [done|]. cbn. f_equal.
    + apply IH; [|apply Hl]; by apply elem_of_cons; left.
    + apply IHl; intros v Hv; [apply IH|apply Hl]; by apply elem_of_cons; right.
Qed.

(** A value the comparison is about: neither null, nor an object, nor a list. *)
Definition scalar (v : value) : Prop := as_map v = None /\ v ≠ VNull /\ forall l, v ≠ VSlice l.

Lemma scalar_prune v : scalar v -> pruneEmpties v = v /\ isEmpty v = false.
Proof. intros (Hm & Hn & Hs). split; [by apply prune_leaf|]. by destruct v. Qed.

Lemma prune_scalar c v : pruneEmpties c = v -> scalar v -> c = v.
Proof.
  intros <- (Hm & Hn & Hs). destruct c as [| | | | |l|m]; try done. by destruct (Hs (map pruneEmpties l)).
Qed.

Lemma vget_some_nonempty m p v : p ≠ [] -> vget m p = Found v -> isEmpty (VMap m) = false.
Proof.
  intros Hp Hg. cbn. apply Nat.eqb_neq. intros Hs. apply map_size_empty_inv in Hs as ->.
  by rewrite vget_empty in Hg.
Qed.

(** Normalization is canonical and loses nothing: its result has no null or empty object
    as an entry at any depth, an object is left alone exactly when it already is like that
    (so normalizing twice is normalizing once), and every scalar field is found after it
    exactly where it was before. *)
Theorem normalize_is_canonical o :
  normal (VMap (Normalize o)) /\
  (Normalize o = o <-> normal (VMap o)) /\
  Normalize (Normalize o) = Normalize o /\
  (forall p v, p ≠ [] -> scalar v -> (vget (Normalize o) p = Found v <-> vget o p = Found v)).
Proof.
  assert (normal (VMap (Normalize o))) as Hn by apply (prune_normal (VMap o)).
  assert (forall x, normal (VMap x) -> Normalize x = x) as Hid.
  { intros x Hx. pose proof (prune_of_normal _ Hx) as H. rewrite prune_map in H. by injection H. }
  split_and!; [done|split; [intros H; by rewrite <- H|apply Hid]|by apply Hid|].
  clear Hn Hid. intros p v Hp Hv. destruct (scalar_prune v Hv) as [Hpv Hev].
  revert o. induction p as [|k [|k' p] IH]; intros o; [done| |].
  - cbn. rewrite Normalize_lookup. destruct (o !! k) as [c|]; [|done]. cbn. split.
    + destruct (isEmpty (pruneEmpties c)); [done|]. intros [= H]. by rewrite (prune_scalar c v).
    + intros [= ->]. by rewrite Hpv, Hev.
  - rewrite !vget_cons2, Normalize_lookup. destruct (o !! k) as [c|]; [|done]. cbn [mbind option_bind].
    destruct c as [| | | | |l|m]; try done. rewrite prune_map.
    destruct (isEmpty (VMap (Normalize m))) eqn:Ee; [|by apply IH]. split; [done|]. intros H.
    apply IH in H; [|done]. by rewrite (vget_some_nonempty (Normalize m) (k' :: p) v) in Ee.
Qed.

(** ** Differences *)

Lemma all_pairs_Forall2 {A B} (f : A -> B -> bool) l l' :
  all_pairs f l l' = true <-> Forall2 (fun x y => f x y = true) l l'.
Proof.
  revert l'. induction l as [|x l IH]; intros [|y l']; cbn; try (split; [done|by inversion 1]).
  rewrite andb_true_iff, IH. split; [intros []; by constructor|by inversion 1].
Qed.

Lemma DeepEqual_map m m' :
  DeepEqual (VMap m) (VMap m') = true <->
  dom m = dom m' /\ forall k v w, m !! k = Some v -> m' !! k = Some w -> DeepEqual v w = true.
Proof.
  cbn. rewrite andb_true_iff, Nat.eqb_eq, (fold_all (fun k v => match m' !! k with Some w => DeepEqual v w | None => false end)).
  split.
  - intros [Hs Hf]. assert (dom m ⊆ dom m') as Hsub.
    { intros k [v Hv]%elem_of_dom. specialize (Hf k v Hv). destruct (m' !! k) eqn:E; [|done]. by eapply elem_of_dom_2. }
    split; [apply set_eq; intros k; split; [apply Hsub|]|].
    + rewrite (set_subseteq_size_eq (dom m) (dom m')); [done|done|]. by rewrite !size_dom, Hs.
    + intros k v w Hv Hw. specialize (Hf k v Hv). by rewrite Hw in Hf.
  - intros [Hd Hf]. split; [by rewrite <- !size_dom, Hd|]. intros k v Hv.
    assert (k ∈ dom m') as [w Hw]%elem_of_dom by (rewrite <- Hd; by eapply elem_of_dom_2).
    rewrite Hw. by eapply Hf.
Qed.

Lemma flat_map_nil {A C} (f : A -> list C) l : flat_map f l = [] <-> forall x, x ∈ l -> f x = [].
Proof.
  induction l as [|x l IH]; cbn; [split; [by intros _ y ?%elem_of_nil|done]|]. split.
  - intros [H1 H2]%app_eq_nil y [->|Hy]%elem_of_cons; [done|by apply IH].
  - intros H. rewrite (H x) by (by apply elem_of_cons; left). apply IH. intros y Hy. apply H. by apply elem_of_cons; right.
Qed.

Lemma sort_Strings_Permutation l : sort_Strings l ≡ₚ l.
Proof. apply merge_sort_Permutation. Qed.

Lemma diff_slices_nil (diff : value -> value -> string -> list string) l l' i p :
  length l = length l' ->
  diff_slices diff l l' i p = [] <-> forall n x y, l !! n = Some x -> l' !! n = Some y -> diff x y (idxPath p (i + n)) = [].
Proof.
  revert l' i. induction l as [|x l IH]; intros [|y l'] i Hlen; try done. cbn in Hlen |- *.
  injection Hlen as Hlen. split.
  - intros [H1 H2]%app_eq_nil [|n] a b Ha Hb; cbn in Ha, Hb.
    + injection Ha as <-. injection Hb as <-. by rewrite Nat.add_0_r.
    + rewrite <- plus_n_Sm. by apply (proj1 (IH l' (S i) Hlen) H2).
  - intros H. apply app_nil. split; [specialize (H 0 x y eq_refl eq_refl); by rewrite Nat.add_0_r in H|].
    apply IH; [done|]. intros n a b Ha Hb. specialize (H (S n) a b Ha Hb). by rewrite <- plus_n_Sm in H.
Qed.

(** The difference report is exact: diffPaths reports no path if and only if
    reflect.DeepEqual holds of the two values, at any prefix; so a mismatch always names at
    least one field and equal objects never name one. *)
Theorem diff_paths_iff_deep_equal a b prefix : diffPaths a b prefix = [] <-> DeepEqual a b = true.
Proof.
  revert b prefix. induction a as [m IH|l IH|v Hm Hs] using value_nested_ind; intros b prefix.
  - destruct b as [| | | | | |m']; try (cbn; split; discriminate). rewrite DeepEqual_map. cbn [diffPaths].
    rewrite flat_map_nil.
    assert (forall k, map_fold (fun k v acc => <[k := fun w p => diffPaths v w p]> acc)
      (∅ : gmap string (value -> string -> list string)) m !! k = m !! k ≫= fun v => Some (fun w p => diffPaths v w p)) as Hb.
    { intros k. by apply (lookup_fold_build (fun _ v => Some (fun w p => diffPaths v w p))). }
    assert (forall k, k ∈ sort_Strings (elements (dom m ∪ dom m')) <-> k ∈ dom m \/ k ∈ dom m') as Hin.
    { intros k. by rewrite sort_Strings_Permutation, elem_of_elements, elem_of_union. }
    split.
    + intros H. assert (forall k, k ∈ dom m \/ k ∈ dom m' -> exists v w, m !! k = Some v /\ m' !! k = Some w /\
        diffPaths v w (nextPath prefix k) = []) as Hk.
      { intros k Hk%Hin. specialize (H k Hk). cbn beta in H. rewrite Hb in H.
        destruct (m !! k) as [v|], (m' !! k) as [w|]; try done. by exists v, w. }
      split; [apply set_eq; intros k; split; intros Hd|].
      * destruct (Hk k (or_introl Hd)) as (v & w & _ & Hw & _). by eapply elem_of_dom_2.
      * destruct (Hk k (or_intror Hd)) as (v & w & Hv & _ & _). by eapply elem_of_dom_2.
      * intros k v w Hv Hw. destruct (Hk k) as (v' & w' & Hv' & Hw' & Hd); [left; by eapply elem_of_dom_2|].
        simplify_eq. by eapply IH.
    + intros [Hd Hf] k Hk%Hin. rewrite <- Hd in Hk. assert (k ∈ dom m) as Hkm by tauto.
      pose proof Hkm as Hkm'. rewrite Hd in Hkm'. apply elem_of_dom in Hkm as [v Hv]. apply elem_of_dom in Hkm' as [w Hw].
      rewrite Hb, Hv, Hw. cbn. eapply IH; [done|]. by eapply Hf.
  - destruct b as [| | | | |l'|]; try (cbn; split; discriminate). cbn [diffPaths DeepEqual].
    rewrite all_pairs_Forall2. destruct (Nat.eqb_spec (length l) (length l')) as [Hlen|Hlen]; cbn [negb].
    + rewrite diff_slices_nil by done. rewrite Forall2_same_length_lookup. split.
      * intros H. split; [done|]. intros n x y Hx Hy. eapply IH; [by eapply list_elem_of_lookup_2|]. by eapply H.
      * intros [_ H] n x y Hx Hy. eapply IH; [by eapply list_elem_of_lookup_2|]. by eapply H.
    + split; [done|]. intros H. apply Forall2_length in H. done.
  - destruct v; try done; cbn [diffPaths]; try (by destruct (Hs l));
      destruct (DeepEqual _ b); cbn; split; done.
Qed.

(** ** Reports *)

Lemma sort_Strings_eq l l' : l ≡ₚ l' -> sort_Strings l = sort_Strings l'.
Proof.
  intros H. apply (Sorted_unique String.le); [apply Sorted_merge_sort, _|apply Sorted_merge_sort, _|].
  by rewrite !sort_Strings_Permutation.
Qed.

Lemma sort_Strings_nil l : sort_Strings l = [] <-> l = [].
Proof.
  split; [|by intros ->]. intros H. pose proof (sort_Strings_Permutation l) as Hp. rewrite H in Hp.
  by apply Permutation_nil_l in Hp.
Qed.

#[local] Opaque DeepEqual diffPaths prep.

Section Reports.
Context {U : Unstructured}.

(** What one golden object contributes. *)
Definition golden_agrees (op : ObjectSet) (e : ResourceKey * obj) : Prop :=
  exists o, op !! e.1 = Some o /\ DeepEqual (VMap (prep e.2)) (VMap (prep o)) = true.

Lemma compare_golden_nil gs op : compare_golden gs op = ([], []) <-> Forall (golden_agrees op) gs.
Proof.
  induction gs as [|[k g] gs IH]; cbn [compare_golden]; [split; [constructor|done]|].
  rewrite Forall_cons, <- IH. unfold golden_agrees. cbn.
  destruct (compare_golden gs op) as [mm ms]. destruct (op !! k) as [o|] eqn:Eo.
  - destruct (DeepEqual _ _) eqn:Ed; cbn [negb]; split; try done.
    + intros H. split; [by exists o|done].
    + by intros [_ H].
    + intros [(o' & Ho & He) _]. injection Ho as <-. congruence.
  - split; [done|]. by intros [(o & Ho & _) _].
Qed.

Lemma compare_extra_nil os golden :
  compare_extra os golden = [] <-> Forall (fun e => is_Some (golden !! e.1)) os.
Proof.
  induction os as [|[k o] os IH]; cbn [compare_extra]; [split; [constructor|done]|].
  rewrite Forall_cons, <- IH. cbn. destruct (golden !! k) as [g|] eqn:E; cbn [is_set].
  - split; [intros H; split; [by eexists|done]|by intros []].
  - split; [done|]. intros [[x Hx] _]. done.
Qed.

Lemma compare_golden_cons e gs op :
  compare_golden (e :: gs) op =
  ((compare_golden [e] op).1 ++ (compare_golden gs op).1, (compare_golden [e] op).2 ++ (compare_golden gs op).2).
Proof.
  destruct e as [k g]. cbn. destruct (compare_golden gs op) as [mm ms]. destruct (op !! k); [|done].
  by destruct (DeepEqual _ _).
Qed.

Lemma compare_golden_Permutation gs gs' op : gs ≡ₚ gs' ->
  (compare_golden gs op).1 ≡ₚ (compare_golden gs' op).1 /\ (compare_golden gs op).2 ≡ₚ (compare_golden gs' op).2.
Proof.
  induction 1 as [|e gs gs' _ [IH1 IH2]|e e' gs|gs1 gs2 gs3 _ [? ?] _ [? ?]].
  - done.
  - rewrite (compare_golden_cons e gs), (compare_golden_cons e gs'). cbn [fst snd]. by rewrite IH1, IH2.
  - rewrite (compare_golden_cons e (e' :: gs)), (compare_golden_cons e' (e :: gs)),
      (compare_golden_cons e gs), (compare_golden_cons e' gs). cbn [fst snd].
    split; rewrite !(assoc_L (++)); f_equiv; apply Permutation_app_comm.
  - split; by etrans.
Qed.

Lemma compare_extra_Permutation os os' golden : os ≡ₚ os' -> compare_extra os golden ≡ₚ compare_extra os' golden.
Proof.
  induction 1 as [|[k o] os os' _ IH|[k o] [k' o'] os|os1 os2 os3 _ IH1 _ IH2]; cbn.
  - done.
  - destruct (is_set _); by rewrite IH.
  - destruct (is_set (golden !! k)), (is_set (golden !! k')); try done. apply Permutation_swap.
  - by etrans.
Qed.

Lemma compare_in_order_eq gs os golden op :
  gs ≡ₚ map_to_list golden -> os ≡ₚ map_to_list op -> compare_in_order gs os golden op = Compare golden op.
Proof.
  intros Hg Ho. unfold Compare, compare_in_order.
  destruct (compare_golden_Permutation gs (map_to_list golden) op Hg) as [H1 H2].
  destruct (compare_golden gs op) as [mm ms]. destruct (compare_golden (map_to_list golden) op) as [mm' ms']. cbn in *.
  rewrite (sort_Strings_eq _ _ H1), (sort_Strings_eq _ _ H2). f_equal.
  by apply sort_Strings_eq, compare_extra_Permutation.
Qed.

(** C29: the verdict of the comparison is right and does not depend on the order in which Go
    visits its maps: the report is equal exactly when both sets have the same keys and the
    two objects under each key are deeply equal once allowlisted metadata is stripped and
    empties are pruned; and any iteration order of the two maps yields the same report. *)
Theorem compare_verdict golden op :
  (Report_Equal (Compare golden op) = true <->
     dom golden = dom op /\
     forall k g o, golden !! k = Some g -> op !! k = Some o -> DeepEqual (VMap (prep g)) (VMap (prep o)) = true) /\
  (forall gs os, gs ≡ₚ map_to_list golden -> os ≡ₚ map_to_list op ->
     compare_in_order gs os golden op = Compare golden op).
Proof.
  split; [|intros; by apply compare_in_order_eq].
  assert (Report_Equal (Compare golden op) = true <->
    compare_golden (map_to_list golden) op = ([], []) /\ compare_extra (map_to_list op) golden = []) as ->.
  { unfold Report_Equal, Compare, compare_in_order. destruct (compare_golden _ _) as [mm ms]. cbn.
    rewrite !andb_true_iff, !Nat.eqb_eq, !length_zero_iff_nil, !sort_Strings_nil.
    split; [intros [[-> ->] ->]; done|intros [[= -> ->] ->]; done]. }
  rewrite compare_golden_nil, compare_extra_nil, !Forall_forall. split.
  - intros [Hg Ho]. assert (forall k g, golden !! k = Some g -> golden_agrees op (k, g)) as Hg'.
    { intros k g Hk. apply Hg. by apply elem_of_map_to_list. }
    split; [apply set_eq; intros k; split|].
    + intros [g Hk]%elem_of_dom. destruct (Hg' k g Hk) as (o & Hok & _). by eapply elem_of_dom_2.
    + intros [o Hk]%elem_of_dom. apply elem_of_dom. apply (Ho (k, o)). by apply elem_of_map_to_list.
    + intros k g o Hk Hok. destruct (Hg' k g Hk) as (o' & Ho' & He). cbn in Ho'. by simplify_eq.
  - intros [Hd He]. split.
    + intros [k g] Hk%elem_of_map_to_list. assert (k ∈ dom op) as [o Ho]%elem_of_dom
        by (rewrite <- Hd; by eapply elem_of_dom_2). exists o. split; [done|]. by eapply He.
    + intros [k o] Hk%elem_of_map_to_list. cbn. apply elem_of_dom. rewrite Hd. by eapply elem_of_dom_2.
Qed.

(** ** Known divergences *)

Lemma split_displayKey u :
  no_slash (GetKind u) = true -> no_slash (GetNamespace u) = true -> no_slash (GetName u) = true ->
  exists p ps, split_slash (displayKey u) = p :: ps ++ [GetKind u; GetNamespace u; GetName u].
Proof.
  intros Hk Hns Hn. unfold displayKey.
  change (GetAPIVersion u +:+ "/" +:+ GetKind u +:+ "/" +:+ GetNamespace u +:+ "/" +:+ GetName u)
    with (GetAPIVersion u +:+ String slash (GetKind u +:+ String slash (GetNamespace u +:+ String slash (GetName u)))).
  rewrite !split_slash_app, !(split_plain (GetKind u)), !(split_plain (GetNamespace u)), !(split_plain (GetName u)) by done.
  destruct (split_slash (GetAPIVersion u)) as [|p ps] eqn:E; [|by exists p, ps].
  exfalso. destruct (GetAPIVersion u); cbn in E; [done|]. repeat case_match; done.
Qed.

(** The text match on a display key is a match on the identity of the object. *)
Lemma known_divergence_identity s u :
  no_slash (GetKind u) = true -> no_slash (GetNamespace u) = true -> no_slash (GetName u) = true ->
  keyIsKnownDivergence s (displayKey u) = isExcluded u (KnownDivergences s).
Proof.
  intros Hk Hns Hn. destruct (split_displayKey u Hk Hns Hn) as (p & ps & Hs).
  unfold keyIsKnownDivergence. rewrite Hs. cbn zeta.
  assert (length (p :: ps ++ [GetKind u; GetNamespace u; GetName u]) = length ps + 4) as Hl
    by (cbn; rewrite length_app; cbn; lia).
  rewrite Hl. destruct (Nat.ltb_spec (length ps + 4) 4); [lia|].
  replace (length ps + 4 - 3) with (S (length ps + 0)) by lia. replace (length ps + 4 - 1) with (S (length ps + 2)) by lia.
  cbn [nth]. rewrite !app_nth2_plus. cbn [nth]. unfold isExcluded.
  induction (KnownDivergences s) as [|e es IH]; [done|]. cbn. rewrite IH.
  by rewrite (String.eqb_sym (ex_Kind e)), (String.eqb_sym (ex_Name e)).
Qed.

(** Declaring a known divergence never hides drift: the scoped report has all field
    mismatches of the plain one, and of the one-sided findings it drops exactly those whose
    object (with a kind, namespace and name free of '/') is listed by kind and name. *)
Theorem scoped_report_keeps_mismatches s golden op :
  Mismatched (CompareScoped s golden op) = Mismatched (Compare golden op) /\
  (forall u, no_slash (GetKind u) = true -> no_slash (GetNamespace u) = true -> no_slash (GetName u) = true ->
     (displayKey u ∈ MissingOp (CompareScoped s golden op) <->
        displayKey u ∈ MissingOp (Compare golden op) /\ isExcluded u (KnownDivergences s) = false) /\
     (displayKey u ∈ ExtraOp (CompareScoped s golden op) <->
        displayKey u ∈ ExtraOp (Compare golden op) /\ isExcluded u (KnownDivergences s) = false)).
Proof.
  unfold CompareScoped. cbn zeta. destruct (KnownDivergences s) as [|e es] eqn:E; cbn [length Nat.eqb].
  - split; [done|]. intros u _ _ _. split; split; try tauto; by intros [].
  - rewrite <- E. cbn [Mismatched MissingOp ExtraOp]. split; [done|]. intros u Hk Hns Hn.
    rewrite <- (known_divergence_identity s u Hk Hns Hn).
    assert (forall l, displayKey u ∈ dropKnownDivergent s l <->
      displayKey u ∈ l /\ keyIsKnownDivergence s (displayKey u) = false) as H.
    { intros l. unfold dropKnownDivergent. rewrite !list_elem_of_In, filter_In, negb_true_iff. done. }
    split; apply H.
Qed.
End Reports.
