(* ===== verification/GoldenProps.v ===== *)
(** The golden side and the operator side of the comparison: unwrapping and
    classifying a golden render, scoping, merging values, and the capture of
    what the reconciler would deliver. *)

From S2P Require Import Prelude Value Apimachinery Types Clients Manifest Boundary GoPaths SourceWorld Transform Controller SourceRender Equivalence EquivalenceProps Reference.
#[local] Open Scope list_scope.

Section Sets.
Context {U : Unstructured}.

(** The set holds the objects of [P] by their keys: one for every key that occurs,
    and nothing else. *)
Definition holds_exactly (set : ObjectSet) (P : obj -> Prop) : Prop :=
  (forall d, P d -> exists d', set !! KeyOf d = Some d' /\ P d' /\ KeyOf d' = KeyOf d) /\
  (forall k d', set !! k = Some d' -> P d' /\ KeyOf d' = k).

Lemma holds_ext set (P Q : obj -> Prop) : (forall d, P d <-> Q d) -> holds_exactly set P -> holds_exactly set Q.
Proof. intros H [H1 H2]. split; [intros d Hd%H; destruct (H1 d Hd) as (d' & ? & ?%H & ?); eauto|intros k d' [? ?]%H2; split; [by apply H|done]]. Qed.

Lemma holds_empty : holds_exactly ∅ (fun _ => False).
Proof. split; [done|]. intros k d'. by rewrite lookup_empty. Qed.

Lemma holds_insert set P u : holds_exactly set P -> holds_exactly (<[KeyOf u := u]> set) (fun d => P d \/ d = u).
Proof.
  intros [H1 H2]. split.
  - intros d Hd. destruct (decide (KeyOf d = KeyOf u)) as [He|Hne].
    + exists u. rewrite He, lookup_insert_eq. auto.
    + destruct Hd as [Hd| ->]; [|done]. destruct (H1 d Hd) as (d' & ? & ? & ?).
      exists d'. rewrite lookup_insert_ne by done. auto.
  - intros k d'. destruct (decide (k = KeyOf u)) as [->|Hne].
    + rewrite lookup_insert_eq. intros [= <-]. auto.
    + rewrite lookup_insert_ne by done. intros [? ?]%H2. auto.
Qed.

Lemma holds_add_all us set P : holds_exactly set P -> holds_exactly (add_all set us) (fun d => P d \/ d ∈ us).
Proof.
  unfold add_all. revert set P. induction us as [|u us IH]; intros set P H; cbn.
  - eapply holds_ext; [|exact H]. intros d. rewrite elem_of_nil. tauto.
  - eapply holds_ext; [|apply IH, holds_insert, H]. intros d. rewrite elem_of_cons. tauto.
Qed.

(** ** Classification *)

Context {Y : YAMLDecoder}.

Definition goes_seed (opts : GoldenOpts) (d : obj) : Prop :=
  isExcluded d (Exclusions opts) = false /\ isManagedResource d = false /\
  isInjectorConfigMap d (ChartFullname opts) = false.

Definition injector (opts : GoldenOpts) (d : obj) : Prop :=
  isExcluded d (Exclusions opts) = false /\ isManagedResource d = false /\
  isInjectorConfigMap d (ChartFullname opts) = true.

(** What a document contributes to the two sets. *)
Definition seed_from (opts : GoldenOpts) (e d : obj) : Prop := goes_seed opts e /\ d = e.
Definition shoot_from (opts : GoldenOpts) (e d : obj) : Prop :=
  injector opts e /\ exists whs, decodeWebhooks e = Ok whs /\ d ∈ whs.

Lemma exists_cons {A} (R : A -> Prop) e es : (exists x, x ∈ e :: es /\ R x) <-> R e \/ exists x, x ∈ es /\ R x.
Proof.
  setoid_rewrite elem_of_cons. split.
  - intros (x & [->|?] & ?); [by left|right; by exists x].
  - intros [?|(x & ? & ?)]; [exists e; auto|exists x; auto].
Qed.

Lemma classify_loop_spec docs opts out c P Q :
  holds_exactly (Seed out) P -> holds_exactly (Shoot out) Q -> classify_loop docs opts out = Ok c ->
  holds_exactly (Seed c) (fun d => P d \/ exists e, e ∈ docs /\ seed_from opts e d) /\
  holds_exactly (Shoot c) (fun d => Q d \/ exists e, e ∈ docs /\ shoot_from opts e d).
Proof.
  revert out P Q. induction docs as [|d docs IH]; intros out P Q HP HQ Hc; cbn in Hc.
  - injection Hc as <-. split; (eapply holds_ext; [|eassumption]); intros x; split; auto;
      intros [?|(e & H%elem_of_nil & _)]; done.
  - assert (forall P' Q' out', holds_exactly (Seed out') P' -> holds_exactly (Shoot out') Q' ->
      classify_loop docs opts out' = Ok c ->
      (forall x, P' x <-> P x \/ seed_from opts d x) -> (forall x, Q' x <-> Q x \/ shoot_from opts d x) ->
      holds_exactly (Seed c) (fun x => P x \/ exists e, e ∈ d :: docs /\ seed_from opts e x) /\
      holds_exactly (Shoot c) (fun x => Q x \/ exists e, e ∈ d :: docs /\ shoot_from opts e x)) as Hstep.
    { intros P' Q' out' HP' HQ' Hc' HPi HQi. destruct (IH out' P' Q' HP' HQ' Hc') as [H1 H2].
      split; [eapply holds_ext; [|exact H1]|eapply holds_ext; [|exact H2]]; intros x; cbn beta;
        rewrite ?HPi, ?HQi, (exists_cons (fun e => _ opts e x)); tauto. }
    clear IH. unfold seed_from, goes_seed, shoot_from, injector in Hstep.
    destruct (isExcluded d (Exclusions opts)); [|destruct (isManagedResource d);
      [|destruct (isInjectorConfigMap d (ChartFullname opts));
        [destruct (decodeWebhooks d) as [whs|] eqn:Ew; [|done]|]]].
    + apply (Hstep P Q out HP HQ Hc); intros x; intuition discriminate.
    + apply (Hstep P Q out HP HQ Hc); intros x; intuition discriminate.
    + apply (Hstep P (fun x => Q x \/ x ∈ whs) (mkClassified (Seed out) (add_all (Shoot out) whs)) HP (holds_add_all whs _ _ HQ) Hc); intros x; [intuition discriminate|].
      split; [intros [?|?]; [by left|right; split; [done|by exists whs]]|].
      intros [?|(_ & w & [= <-] & ?)]; auto.
    + apply (Hstep (fun x => P x \/ x = d) Q (mkClassified (<[KeyOf d := d]> (Seed out)) (Shoot out)) (holds_insert _ _ d HP) HQ Hc); intros x; [tauto|intuition discriminate].
Qed.

(** Classification loses and invents nothing: when it succeeds, the seed set holds, by
    key, exactly the documents that are not excluded, not a ManagedResource and not the
    injector ConfigMap, and the shoot set exactly the unwrapped objects that are not
    excluded together with the webhooks of the injector ConfigMaps; of several objects with
    one key one is kept. *)
Theorem classify_partitions docs shootFromMR opts c :
  ClassifyGolden docs shootFromMR opts = Ok c ->
  holds_exactly (Seed c) (fun d => d ∈ docs /\ goes_seed opts d) /\
  holds_exactly (Shoot c) (fun d =>
    (d ∈ shootFromMR /\ isExcluded d (Exclusions opts) = false) \/
    exists cm whs, cm ∈ docs /\ injector opts cm /\ decodeWebhooks cm = Ok whs /\ d ∈ whs).
Proof.
  unfold ClassifyGolden. cbn zeta. intros H.
  eapply (classify_loop_spec docs opts _ c (fun _ => False)
    (fun d => d ∈ shootFromMR /\ isExcluded d (Exclusions opts) = false)) in H as [H1 H2]; [|exact holds_empty|].
  - split; [eapply holds_ext; [|exact H1]|eapply holds_ext; [|exact H2]]; intros d; cbn beta; unfold seed_from, shoot_from.
    + split; [intros [[]|(e & ? & ? & ->)]; done|]. intros [? ?]. right. by exists d.
    + split; [intros [?|(e & ? & ? & whs & ? & ?)]; [by left|right; by exists e, whs]|].
      intros [?|(e & whs & ? & ? & ? & ?)]; [by left|right]. exists e. split_and!; [done..|by exists whs].
  - eapply holds_ext; [|apply (holds_add_all _ _ _ holds_empty)]. intros d.
    cbn beta. rewrite !list_elem_of_In, filter_In, negb_true_iff. tauto.
Qed.

(** ** ManagedResources *)

(** A reference of a ManagedResource of the render, with its payload. *)
Definition carries (secrets : gmap string obj) (mr : obj) (refs : list value) (name : string) (objs : list obj) : Prop :=
  exists r, r ∈ refs /\ unwrap_ref secrets mr r = Ok (Some (name, objs)).

Lemma carries_cons secrets mr r refs n objs :
  carries secrets mr (r :: refs) n objs <-> unwrap_ref secrets mr r = Ok (Some (n, objs)) \/ carries secrets mr refs n objs.
Proof. apply (exists_cons (fun r => unwrap_ref secrets mr r = Ok (Some (n, objs)))). Qed.

Lemma unwrap_refs_spec secrets mr refs referenced from referenced' from' :
  unwrap_refs secrets mr refs referenced from = Ok (referenced', from') ->
  (forall r, r ∈ refs -> exists x, unwrap_ref secrets mr r = Ok x) /\
  (forall n, n ∈ referenced' <-> n ∈ referenced \/ exists objs, carries secrets mr refs n objs) /\
  (forall o, o ∈ from' <-> o ∈ from \/ exists n objs, carries secrets mr refs n objs /\ o ∈ objs).
Proof.
  revert referenced from. induction refs as [|r refs IH]; intros referenced from H; cbn in H.
  - injection H as <- <-. split_and!; [by intros ? ?%elem_of_nil|..].
    + intros n. split; [by left|]. intros [?|(objs & r & Hr%elem_of_nil & _)]; done.
    + intros o. split; [by left|]. intros [?|(n & objs & (r & Hr%elem_of_nil & _) & _)]; done.
  - destruct (unwrap_ref secrets mr r) as [x|e] eqn:E; cbn in H; [|done].
    assert (exists ref1 from1, unwrap_refs secrets mr refs ref1 from1 = Ok (referenced', from') /\
      (forall n, n ∈ ref1 <-> n ∈ referenced \/ exists objs, x = Some (n, objs)) /\
      (forall o, o ∈ from1 <-> o ∈ from \/ exists n objs, x = Some (n, objs) /\ o ∈ objs)) as (ref1 & from1 & H' & Hr & Hf).
    { destruct x as [[n0 objs0]|]; eexists _, _; (split; [exact H|]); split; intros y.
      - rewrite elem_of_cons. split; [intros [->|?]; [right; by exists objs0|by left]|].
        intros [?|(objs & [= <- _])]; auto.
      - rewrite elem_of_app. split; [intros [?|?]; [by left|right; by exists n0, objs0]|].
        intros [?|(n & objs & [= <- <-] & ?)]; auto.
      - split; [by left|]. by intros [?|(objs & ?)].
      - split; [by left|]. by intros [?|(n & objs & ? & _)]. }
    clear H. apply IH in H' as (H1 & H2 & H3). split_and!.
    + intros r' [->|Hr']%elem_of_cons; [by exists x|by apply H1].
    + intros n. rewrite H2, Hr. setoid_rewrite carries_cons. rewrite E. split.
      * intros [[?|(objs & ->)]|(objs & ?)]; [by left|right; exists objs; by left|right; exists objs; by right].
      * intros [?|(objs & [[= ->]|?])]; [by left; left|left; right; by exists objs|right; by exists objs].
    + intros o. rewrite H3, Hf. setoid_rewrite carries_cons. rewrite E. split.
      * intros [[?|(n & objs & -> & ?)]|(n & objs & ? & ?)]; [by left|right; exists n, objs; auto|right; exists n, objs; auto].
      * intros [?|(n & objs & [[= ->]|?] & ?)]; [by left; left|left; right; by exists n, objs|right; by exists n, objs].
Qed.

(** What the ManagedResources among [docs] carry. *)
Definition mr_carries (secrets : gmap string obj) (docs : list obj) (name : string) (objs : list obj) : Prop :=
  exists mr refs f, mr ∈ docs /\ isManagedResource mr = true /\
    NestedSlice mr ["spec"; "secretRefs"] = (refs, f, None) /\ carries secrets mr refs name objs.

(** What one document carries. *)
Definition doc_carries (secrets : gmap string obj) (mr : obj) (name : string) (objs : list obj) : Prop :=
  isManagedResource mr = true /\ exists refs f,
    NestedSlice mr ["spec"; "secretRefs"] = (refs, f, None) /\ carries secrets mr refs name objs.

Lemma mr_carries_cons secrets d docs n objs :
  mr_carries secrets (d :: docs) n objs <-> doc_carries secrets d n objs \/ mr_carries secrets docs n objs.
Proof.
  assert (forall l, mr_carries secrets l n objs <-> exists mr, mr ∈ l /\ doc_carries secrets mr n objs) as Hx.
  { intros l. split.
    - intros (mr & refs & f & ? & ? & ? & ?). exists mr. split; [done|]. split; [done|by exists refs, f].
    - intros (mr & ? & ? & refs & f & ? & ?). by exists mr, refs, f. }
  rewrite !Hx. apply (exists_cons (fun mr => doc_carries secrets mr n objs)).
Qed.

Lemma unwrap_loop_spec secrets docs referenced from referenced' from' :
  unwrap_loop secrets docs referenced from = Ok (referenced', from') ->
  (forall mr, mr ∈ docs -> isManagedResource mr = true -> exists refs f,
     NestedSlice mr ["spec"; "secretRefs"] = (refs, f, None) /\
     forall r, r ∈ refs -> exists x, unwrap_ref secrets mr r = Ok x) /\
  (forall n, n ∈ referenced' <-> n ∈ referenced \/ exists objs, mr_carries secrets docs n objs) /\
  (forall o, o ∈ from' <-> o ∈ from \/ exists n objs, mr_carries secrets docs n objs /\ o ∈ objs).
Proof.
  revert referenced from. induction docs as [|d docs IH]; intros referenced from H; cbn in H.
  - injection H as <- <-. split_and!; [by intros ? ?%elem_of_nil|..].
    + intros n. split; [by left|]. intros [?|(objs & mr & ? & ? & Hr%elem_of_nil & _)]; done.
    + intros o. split; [by left|]. intros [?|(n & objs & (mr & ? & ? & Hr%elem_of_nil & _) & _)]; done.
  - assert (exists ref1 from1, unwrap_loop secrets docs ref1 from1 = Ok (referenced', from') /\
      (isManagedResource d = true -> exists refs f, NestedSlice d ["spec"; "secretRefs"] = (refs, f, None) /\
         forall r, r ∈ refs -> exists x, unwrap_ref secrets d r = Ok x) /\
      (forall n, n ∈ ref1 <-> n ∈ referenced \/ exists objs, doc_carries secrets d n objs) /\
      (forall o, o ∈ from1 <-> o ∈ from \/ exists n objs, doc_carries secrets d n objs /\ o ∈ objs))
      as (ref1 & from1 & H' & Hd & Hr & Hf).
    { unfold doc_carries. destruct (isManagedResource d); cbn in H.
      - destruct (NestedSlice d ["spec"; "secretRefs"]) as [[refs f] [e|]]; [done|].
        destruct (unwrap_refs secrets d refs referenced from) as [[ref1 from1]|e] eqn:Er; cbn in H; [|done].
        apply unwrap_refs_spec in Er as (R1 & R2 & R3). exists ref1, from1. split_and!; [done|by intros _; exists refs, f|..].
        + intros n. rewrite R2. split.
          * intros [?|(objs & ?)]; [by left|right]. exists objs. split; [done|by exists refs, f].
          * intros [?|(objs & _ & ? & ? & [= <- <-] & ?)]; [by left|right; by exists objs].
        + intros o. rewrite R3. split.
          * intros [?|(n & objs & ? & ?)]; [by left|right]. exists n, objs. split; [split; [done|by exists refs, f]|done].
          * intros [?|(n & objs & (_ & ? & ? & [= <- <-] & ?) & ?)]; [by left|right; by exists n, objs].
      - exists referenced, from. split_and!; [done|done|..].
        + intros n. split; [by left|]. by intros [?|(objs & ? & _)].
        + intros o. split; [by left|]. by intros [?|(n & objs & (? & _) & _)]. }
    clear H. apply IH in H' as (H1 & H2 & H3). split_and!.
    + intros mr [->|Hin]%elem_of_cons Hm; [by apply Hd|by apply H1].
    + intros n. rewrite H2, Hr. setoid_rewrite mr_carries_cons. split.
      * intros [[?|(objs & ?)]|(objs & ?)]; [by left|right; exists objs; by left|right; exists objs; by right].
      * intros [?|(objs & [?|?])]; [by left; left|left; right; by exists objs|right; by exists objs].
    + intros o. rewrite H3, Hf. setoid_rewrite mr_carries_cons. split.
      * intros [[?|(n & objs & ? & ?)]|(n & objs & ? & ?)]; [by left|right; exists n, objs; auto|right; exists n, objs; auto].
      * intros [?|(n & objs & [?|?] & ?)]; [by left; left|left; right; by exists n, objs|right; by exists n, objs].
Qed.

(** C30: unwrapping fails closed and is complete: when it succeeds, every secret reference of
    every ManagedResource led to a decoded payload; the unwrapped objects are exactly those
    of these payloads; and the documents passed through are exactly those that are neither
    a ManagedResource nor a Secret one of them references. *)
Theorem unwrap_is_complete docs fromMR passthrough :
  UnwrapManagedResources docs = Ok (fromMR, passthrough) ->
  let secrets := secretsByName docs in
  (forall mr, mr ∈ docs -> isManagedResource mr = true -> exists refs f,
     NestedSlice mr ["spec"; "secretRefs"] = (refs, f, None) /\
     forall m, VMap m ∈ refs -> exists objs, unwrap_ref secrets mr (VMap m) = Ok (Some (string_field m "name", objs))) /\
  (forall o, o ∈ fromMR <-> exists n objs, mr_carries secrets docs n objs /\ o ∈ objs) /\
  (forall d, d ∈ passthrough <-> d ∈ docs /\ isManagedResource d = false /\
     ~ (GetKind d = "Secret" /\ exists objs, mr_carries secrets docs (GetName d) objs)).
Proof.
  unfold UnwrapManagedResources. cbn zeta.
  destruct (unwrap_loop (secretsByName docs) docs [] []) as [[referenced from]|e] eqn:E; cbn [rbind]; [|done].
  intros [= <- <-]. apply unwrap_loop_spec in E as (H1 & H2 & H3). split_and!.
  - intros mr Hin Hm. destruct (H1 mr Hin Hm) as (refs & f & Hn & Hr). exists refs, f. split; [done|].
    intros m Hin'. destruct (Hr _ Hin') as [x Hx]. cbn in Hx |- *.
    destruct (secretsByName docs !! string_field m "name") as [sec|]; [|done].
    destruct (NestedString sec _) as [[enc found] [err|]]; [done|]. destruct (negb found || _); [done|].
    destruct (base64_DecodeString enc) as [raw|]; cbn in *; [|done].
    destruct (splitYAMLDocs raw) as [objs|]; cbn in *; [|done]. by exists objs.
  - intros o. rewrite H3, elem_of_nil. tauto.
  - intros d. rewrite list_elem_of_In, filter_In, <- list_elem_of_In. unfold passes.
    rewrite andb_true_iff, !negb_true_iff, andb_false_iff, String.eqb_neq.
    assert (existsb (String.eqb (GetName d)) referenced = false <-> ~ exists objs, mr_carries (secretsByName docs) docs (GetName d) objs) as ->.
    { rewrite <- not_true_iff_false, existsb_exists. setoid_rewrite String.eqb_eq.
      specialize (H2 (GetName d)). rewrite elem_of_nil in H2. split.
      - intros Hn Hc. apply Hn. exists (GetName d). split; [|done]. apply list_elem_of_In, H2. by right.
      - intros Hn (x & Hx & <-). apply list_elem_of_In, H2 in Hx as [?|?]; done. }
    destruct (decide (GetKind d = "Secret")); tauto.
Qed.
End Sets.

(** ** Scoping *)

Section Scoping.
Context {U : Unstructured}.

Lemma scope_loop_spec s objs out P :
  holds_exactly out P ->
  holds_exactly (scope_loop s objs out) (fun o => P o \/ exists u, u ∈ objs /\ comparesKind s (GetKind u) = true /\ o = scope_one s u).
Proof.
  revert out P. induction objs as [|u objs IH]; intros out P H; cbn.
  - eapply holds_ext; [|exact H]. intros o. split; [by left|]. intros [?|(u & Hu%elem_of_nil & _)]; done.
  - destruct (comparesKind s (GetKind u)) eqn:Ec; cbn [negb].
    + eapply holds_ext; [|by apply IH, holds_insert]. intros o. cbn beta.
      rewrite (exists_cons (fun u => comparesKind s (GetKind u) = true /\ o = scope_one s u)), Ec. tauto.
    + eapply holds_ext; [|by apply IH]. intros o. cbn beta.
      rewrite (exists_cons (fun u => comparesKind s (GetKind u) = true /\ o = scope_one s u)), Ec. intuition discriminate.
Qed.

(** Objects whose scoped forms all have different keys. *)
Definition keys_distinct (s : Scope) (objs : list obj) : Prop :=
  forall u v, u ∈ objs -> v ∈ objs -> comparesKind s (GetKind u) = true -> comparesKind s (GetKind v) = true ->
    KeyOf (scope_one s u) = KeyOf (scope_one s v) -> scope_one s u = scope_one s v.

(** Scoping drops only what it says: if no two objects of compared kinds get the same key
    by the rewriting of namespaces, the scoped set is, whatever the order in which Go visits
    the map, exactly the rewritten objects of the compared kinds, each under its key. *)
Theorem scope_apply_complete s (set : ObjectSet) objs :
  objs ≡ₚ map snd (map_to_list set) -> keys_distinct s objs ->
  scope_loop s objs ∅ = Scope_Apply s set /\
  (forall k o, Scope_Apply s set !! k = Some o <->
     k = KeyOf o /\ exists u, u ∈ map snd (map_to_list set) /\ comparesKind s (GetKind u) = true /\ o = scope_one s u).
Proof.
  intros Hp Hd. pose proof (scope_loop_spec s objs ∅ _ holds_empty) as H1.
  pose proof (scope_loop_spec s (map snd (map_to_list set)) ∅ _ holds_empty) as H2.
  set (Q := fun o => exists u, u ∈ objs /\ comparesKind s (GetKind u) = true /\ o = scope_one s u).
  assert (forall x, (False \/ exists u, u ∈ map snd (map_to_list set) /\ comparesKind s (GetKind u) = true /\ x = scope_one s u) <-> Q x) as Hq.
  { intros x. unfold Q. setoid_rewrite Hp. tauto. }
  assert (forall m, holds_exactly m Q -> forall k o, m !! k = Some o <-> k = KeyOf o /\ Q o) as Hchar.
  { intros m [Ha Hb] k o. split; [intros [? <-]%Hb; done|]. intros [-> Ho].
    destruct (Ha o Ho) as (o' & Hm & Ho' & Hk). destruct Ho as (u & Hu & Hcu & ->), Ho' as (v & Hv & Hcv & ->).
    by rewrite Hm, (Hd v u Hv Hu Hcv Hcu Hk). }
  assert (holds_exactly (scope_loop s objs ∅) Q) as H1'.
  { eapply holds_ext; [|exact H1]. unfold Q. tauto. }
  assert (holds_exactly (Scope_Apply s set) Q) as H2' by (eapply holds_ext; [exact Hq|exact H2]).
  split.
  - apply map_eq. intros k. apply option_eq. intros o. by rewrite (Hchar _ H1'), (Hchar _ H2').
  - intros k o. rewrite (Hchar _ H2'). rewrite <- Hq. tauto.
Qed.
End Scoping.

(** ** Values of the golden render *)

Lemma deepMerge_lookup base over k :
  deepMerge base over !! k =
  match over !! k with
  | Some v => Some (match base !! k with Some b => merge_over b v | None => v end)
  | None => base !! k
  end.
Proof.
  unfold deepMerge. cbn [merge_over].
  refine (map_fold_weak_ind (fun acc over => acc !! k = match over !! k with
    | Some v => Some (match base !! k with Some b => merge_over b v | None => v end) | None => base !! k end)
    _ _ _ _ over); [done|].
  intros j v m acc Hj IH. destruct (decide (k = j)) as [->|Hne].
  - by rewrite !lookup_insert_eq.
  - rewrite !lookup_insert_ne by done. exact IH.
Qed.

Lemma merge_over_map b o : merge_over (VMap b) (VMap o) = VMap (deepMerge b o).
Proof. done. Qed.

(** Later values win and nothing else changes: in the merge of two documents a field of the
    later one that is not an object has its value, and a field the later one does not
    mention is as in the earlier one, present or not. *)
Theorem deep_merge_precedence base over p :
  p ≠ [] ->
  (forall v, vget over p = Found v -> as_map v = None -> vget (deepMerge base over) p = Found v) /\
  (vget over p = Missing -> (forall q v, vget base q = Found v -> q `prefix_of` p -> q ≠ p -> is_Some (as_map v)) ->
     vget (deepMerge base over) p = vget base p).
Proof.
  intros Hp. revert base over. induction p as [|k [|k' p] IH]; intros base over; [done| |].
  - cbn [vget]. rewrite deepMerge_lookup. split.
    + intros v. destruct (over !! k) as [v'|]; [|done]. intros [= ->] Hv. destruct (base !! k); [|done]. by destruct v.
    + by destruct (over !! k).
  - rewrite !vget_cons2, deepMerge_lookup. destruct (over !! k) as [o|] eqn:Eo.
    + split.
      * intros v Hg Hv. destruct o as [| | | | | |om]; try done.
        destruct (base !! k) as [[| | | | | |bm]|]; try done. rewrite merge_over_map. by apply IH.
      * intros Hm Hb. destruct o as [| | | | | |om]; try done.
        destruct (base !! k) as [b|] eqn:Eb.
        -- destruct (Hb [k] b) as [bm Hbm]; [cbn; by rewrite Eb|by exists (k' :: p)|done|].
           destruct b as [| | | | | |bm']; try done. rewrite merge_over_map. apply IH; [done|done|].
           intros q v Hq Hpre Hne. apply (Hb (k :: q) v); [|by apply prefix_cons|by intros [= ->]].
           destruct q as [|j q]; [cbn in Hq |- *; rewrite Eb; by injection Hq as <-|]. by rewrite vget_cons2, Eb.
        -- done.
    + split; [done|]. intros _ _. done.
Qed.

(** ** Capture *)

Section Capture.
Context {U : Unstructured} {Y : YAMLDecoder} {B : Boundary} {W : SourceWorld B} {N : NetURL} {P : PatchLib}.

Lemma transform_both_iff ts a b a' b' :
  transform_both ts a b = inl (a', b') <-> apply_transforms ts a = Ok a' /\ apply_transforms ts b = Ok b'.
Proof.
  revert a b. induction ts as [|t ts IH]; intros a b; cbn.
  - split; [by intros [= -> ->]|by intros [[= ->] [= ->]]].
  - destruct (transformation_Apply t a) as [a1|]; cbn; [|split; [done|by intros []]].
    destruct (transformation_Apply t b) as [b1|]; cbn; [apply IH|split; [done|by intros []]].
Qed.

(** The source package the harness runs: the same dependencies for every CR. *)
Definition deps_source (deps : Deps) : SourcePackage B := {| source_From spec _ := From spec deps |}.

(** C28: the harness captures what the reconciler would deliver: from any state, CaptureOperator
    succeeds exactly when the reconciler's render and transform steps do, with the same
    calls and the same final state, and returns the seed and the shoot manifests of the
    reconciler keyed by identity. *)
Theorem capture_matches_reconciler cr deps s seed shoot t s' :
  (exists ms ms', render_both (SP := deps_source deps) cr s = (inl (ms, ms'), t, s') /\
     seed = manifest_set ms /\ shoot = manifest_set ms') <->
  CaptureOperator cr deps s = (Ok (seed, shoot), t, s').
Proof.
  unfold render_both, CaptureOperator. cbn [source_From deps_source].
  destruct (From (spec_Source (cr_Spec cr)) deps) as [src|e]; [|split; [by intros (? & ? & ? & _)|done]].
  unfold try_bind, wrapping, renderMode, try_bind, bind, ret.
  destruct (Build (spec_Transformations (cr_Spec cr))) as [ts|e].
  - destruct (Render src ModeSeed _ s) as [[[ms|e] t1] s1]; cbn [wrap_err rbind app]; [|split; [by intros (? & ? & ? & _)|done]].
    destruct (apply_transforms ts ms) as [a|e] eqn:Ea; cbn [wrap_err rbind].
    + destruct (Render src ModeShoot _ s1) as [[[ms'|e] t2] s2]; cbn [wrap_err rbind app];
        [|split; [by intros (? & ? & ? & _)|done]].
      rewrite ?app_nil_r. split.
      * intros (b & b' & [= Ht <- <-] & -> & ->). apply transform_both_iff in Ht as [Hb ->].
        rewrite Ea in Hb. injection Hb as ->. cbn [rbind wrap_err]. by rewrite ?app_nil_r.
      * destruct (apply_transforms ts ms') as [a'|] eqn:Ea'; cbn [rbind wrap_err]; [|done].
        rewrite ?app_nil_r. intros [= <- <- <- <-]. exists a, a'. by rewrite (proj2 (transform_both_iff ts ms ms' a a') (conj Ea Ea')).
    + split; [|done]. intros (b & b' & H & _).
      destruct (Render src ModeShoot _ s1) as [[[ms'|e'] t2] s2]; [|done].
      injection H as Ht _ _. apply transform_both_iff in Ht as [Hb _]. by rewrite Ea in Hb.
  - split; [|done]. intros (? & ? & H & _).
    destruct (Render src ModeSeed _ s) as [[[ms|e'] t1] s1]; [|done].
    by destruct (Render src ModeShoot _ s1) as [[[ms'|e'] t2] s2].
Qed.
End Capture.


(** ** A small chart *)

Module GoldenExample.
Import RefInstances.

Definition doc (apiVersion kind ns name : string) (rest : obj) : obj :=
  <["apiVersion" := VString apiVersion]> (<["kind" := VString kind]>
    (<["metadata" := VMap (<["name" := VString name]>
       (if bool_decide (ns = "") then ∅ else {["namespace" := VString ns]}))]> rest)).

Definition g_role : obj := doc "rbac.authorization.k8s.io/v1" "ClusterRole" "" "manager" ∅.
Definition g_webhook : obj :=
  doc "admissionregistration.k8s.io/v1" "ValidatingWebhookConfiguration" "" "manager" ∅.
Definition g_deployment : obj := doc "apps/v1" "Deployment" "default" "manager" ∅.
Definition g_secret : obj :=
  doc "v1" "Secret" "default" "payload" {["data" := VMap {["objects.yaml" := VString "cm9sZQ=="]}]}.
Definition g_mr : obj :=
  doc "resources.gardener.cloud/v1alpha1" "ManagedResource" "default" "shoot"
    {["spec" := VMap {["secretRefs" := VSlice [VMap {["name" := VString "payload"]}]]}]}.
Definition g_injector : obj :=
  doc "v1" "ConfigMap" "default" "chart-webhook-config" {["data" := VMap {["webhooks.yaml" := VString "webhook"]}]}.

Definition g_docs : list obj := [g_mr; g_secret; g_injector; g_deployment].
Definition g_opts : GoldenOpts := mkGoldenOpts "chart" [mkExclusion "Deployment" "other"].

(** A decoder that knows the two payloads of the chart. *)
#[local] Instance g_YAML : YAMLDecoder := {|
  yaml_documents raw :=
    if String.eqb raw "role" then [Ok g_role]
    else if String.eqb raw "webhook" then [Ok g_webhook] else [] |}.

Lemma unwrap_is_complete_witness :
  UnwrapManagedResources g_docs = Ok ([g_role], [g_injector; g_deployment]) /\
  forall o, o ∈ [g_role] <-> exists n objs, mr_carries (secretsByName g_docs) g_docs n objs /\ o ∈ objs.
Proof.
  assert (UnwrapManagedResources g_docs = Ok ([g_role], [g_injector; g_deployment])) as E by reflexivity.
  split; [exact E|]. exact (proj1 (proj2 (unwrap_is_complete g_docs _ _ E))).
Defined.

Lemma classify_partitions_witness :
  exists c, ClassifyGolden [g_injector; g_deployment] [g_role] g_opts = Ok c /\
    size (Seed c) = 1 /\ size (Shoot c) = 2 /\
    holds_exactly (Seed c) (fun d => d ∈ [g_injector; g_deployment] /\ goes_seed g_opts d).
Proof.
  eexists. split; [reflexivity|]. split; [reflexivity|]. split; [reflexivity|].
  refine (proj1 (classify_partitions [g_injector; g_deployment] [g_role] g_opts _ _)). reflexivity.
Defined.

Definition g_scope : Scope := mkScope ["Deployment"] [] [] "kube-system".
Definition g_set : ObjectSet := {[KeyOf g_deployment := g_deployment; KeyOf g_role := g_role]}.

Lemma scope_apply_complete_witness :
  scope_loop g_scope [g_role; g_deployment] ∅ = Scope_Apply g_scope g_set.
Proof.
  refine (proj1 (scope_apply_complete g_scope g_set [g_role; g_deployment] _ _)).
  - assert (map snd (map_to_list g_set) = [g_deployment; g_role] \/ map snd (map_to_list g_set) = [g_role; g_deployment]) as [-> | ->]
      by (first [left; reflexivity | right; reflexivity]); [apply perm_swap|reflexivity].
  - intros u v Hu Hv Cu Cv _. rewrite !elem_of_cons, elem_of_nil in Hu, Hv.
    destruct Hu as [-> | [-> | []]]; [discriminate Cu|].
    destruct Hv as [-> | [-> | []]]; [discriminate Cv|reflexivity].
Defined.

Lemma deep_merge_precedence_witness :
  vget (deepMerge {["a" := VMap {["b" := VInt 1; "c" := VInt 2]}]} {["a" := VMap {["b" := VInt 3]}]}) ["a"; "b"] = Found (VInt 3).
Proof.
  refine (proj1 (deep_merge_precedence {["a" := VMap {["b" := VInt 1; "c" := VInt 2]}]} {["a" := VMap {["b" := VInt 3]}]}
    ["a"; "b"] ltac:(discriminate)) (VInt 3) _ _); reflexivity.
Defined.

(** Two objects that differ only in their namespace collapse under a canonical
    namespace, and the one visited last survives: the result depends on the order in
    which Go visits the map. *)
Definition with_replicas (n : Z) (ns : string) : obj :=
  doc "apps/v1" "Deployment" ns "manager" {["spec" := VMap {["replicas" := VInt n]}]}.

Definition replicas_after (objs : list obj) : list access :=
  map (fun o => vget o ["spec"; "replicas"]) (map snd (map_to_list (scope_loop g_scope objs ∅))).

Example scope_collapses_namespaces :
  let a := with_replicas 1 "default" in
  let b := with_replicas 2 "legacy" in
  replicas_after [a; b] = [Found (VInt 2)] /\ replicas_after [b; a] = [Found (VInt 1)].
Proof. split; reflexivity. Qed.
End GoldenExample.
