(* ===== verification/Cluster.v ===== *)
(** The clusters behind the API calls: what a run does to the stored objects.

    The other files read a run off its trace of calls, for any behaviour of the
    servers.  Here the servers are lawful: each keeps one object per address,
    answers reads from its store, and changes at most the addressed object; calls
    may still fail at any time, and between two calls others may change the stores
    in any way the relation [drift] allows.  [replays] turns a trace into the change
    of the stores, and [tracks] says that a computation adds no other changes.
    No computation of the production reconciler does. *)

From S2P Require Import Prelude Value Apimachinery Types Clients Manifest Order Boundary Applier Transform Controller Outcomes.
#[local] Open Scope list_scope.

(** ** Addresses *)

Section Addresses.
Context {U : Unstructured}.

(** The place of an object on a server: its group, kind, namespace if the kind has
    one, and name, in whatever version it is addressed.  No Kubernetes name has a
    slash, so the text tells the objects apart. *)
Definition address (g : GroupVersionKind) (key : NamespacedName) : string :=
  strings_Join [gvk_Group g; gvk_Kind g; identityNamespace (gvk_Kind g) (nn_Namespace key); nn_Name key] "/".

Definition obj_address (u : obj) : string := address (GetGroupVersionKind u) (ObjectKeyFromObject u).

(** The address of a CustomResourceDefinition. *)
Definition crd_address (a : string) : Prop :=
  exists g v ns n, a = address (mkGVK g v "CustomResourceDefinition") (mkNN ns n).

Lemma obj_address_key u o : obj_address u = ManifestIdentityKey (mkManifest u o).
Proof. done. Qed.

Context {UL : UnstructuredLaws U}.

Lemma entry_address rs : obj_address (m_Unstructured (ManifestFromStatus rs)) = StatusIdentityKey rs.
Proof.
  destruct (ManifestFromStatus_spec rs) as (_ & _ & Hn & Hns & Hg).
  unfold obj_address, address, ObjectKeyFromObject, StatusIdentityKey. rewrite Hg. cbn [gvk_Group gvk_Kind nn_Namespace nn_Name].
  rewrite Hn, Hns. unfold identityNamespace. by destruct (IsClusterScoped (rs_Kind rs)).
Qed.

Lemma crd_entry_address rs : rs_Kind rs = "CustomResourceDefinition" -> crd_address (StatusIdentityKey rs).
Proof.
  intros Hk. exists (gv_Group (status_gv (rs_APIVersion rs))), "", (rs_Namespace rs), (rs_Name rs).
  unfold StatusIdentityKey, address. cbn [gvk_Group gvk_Kind nn_Namespace nn_Name]. by rewrite Hk.
Qed.
End Addresses.

(** ** Views and steps *)

(** The objects of the seed ([true]) and of the shoot ([false]) by address, and the
    stored CRs.  One instance of the operator serves one shoot, whose API server is
    the same for every token. *)
Record view := mkView {
  v_store : bool -> gmap string obj;
  v_cr : NamespacedName -> option DualDeploymentOperator;
}.

(** The object is gone, or the server is deleting it. *)
Definition dying (o : obj) : Prop :=
  exists v, vget o ["metadata"; "deletionTimestamp"] = Found v /\ v ≠ VNull.
Definition removed (x : option obj) : Prop := match x with Some o => dying o | None => True end.

Definition same_stores (v v' : view) : Prop := forall side, v_store v' side = v_store v side.
Definition same_crs (v v' : view) : Prop := forall k, v_cr v' k = v_cr v k.
Definition unchanged (v v' : view) : Prop := same_stores v v' /\ same_crs v v'.

(** Only the object at [a] may differ. *)
Definition elsewhere (v v' : view) (side : bool) (a : string) : Prop :=
  same_crs v v' /\
  forall side' a', side' ≠ side \/ a' ≠ a -> v_store v' side' !! a' = v_store v side' !! a'.

Definition cr_key (cr : DualDeploymentOperator) : NamespacedName :=
  mkNN (meta_Namespace (cr_meta cr)) (meta_Name (cr_meta cr)).

Definition other_crs (v v' : view) (k : NamespacedName) : Prop :=
  same_stores v v' /\ forall k', k' ≠ k -> v_cr v' k' = v_cr v k'.

(** What a server may store for an object that is applied: the object with what
    admission and defaulting make of it and with the fields of its other writers. The
    owner label is the operator's alone. *)
Class Storage {U : Unstructured} := {
  stored_as : obj -> obj -> Prop;
  stored_label u o : stored_as u o -> owner_of o = owner_of u;
}.

Section Steps.
Context {U : Unstructured} {E : ApiErrors} {ST : Storage}.

(** What a call with this result may do. A failed write may have been carried out
    all the same, except for writes of the CR, which carry its resource version. *)
Definition ev_step (v : view) (ev : event) (v' : view) : Prop :=
  match ev with
  | EvGet c g k r =>
      unchanged v v' /\
      match r with
      | Ok live => v_store v (on_seed c) !! address g k = Some live
      | Err e => IsNotFound e = true \/ IsNoMatchError e = true -> v_store v (on_seed c) !! address g k = None
      end
  | EvPatch c u e =>
      elsewhere v v' (on_seed c) (obj_address u) /\
      ((exists o, v_store v' (on_seed c) !! obj_address u = Some o /\ stored_as u o) \/
       (e ≠ None /\ v_store v' (on_seed c) !! obj_address u = v_store v (on_seed c) !! obj_address u))
  | EvDelete c u e =>
      elsewhere v v' (on_seed c) (obj_address u) /\
      (removed (v_store v' (on_seed c) !! obj_address u) \/
       (exists e', e = Some e' /\ IsNotFound e' = false) /\
       v_store v' (on_seed c) !! obj_address u = v_store v (on_seed c) !! obj_address u)
  | EvCRGet k r =>
      unchanged v v' /\
      match r with
      | Ok cr => v_cr v k = Some cr /\ cr_key cr = k
      | Err e => IsNotFound e = true -> v_cr v k = None
      end
  | EvCRUpdate sent e =>
      match e with
      | Some _ => unchanged v v'
      | None =>
          other_crs v v' (cr_key sent) /\
          exists old new, v_cr v (cr_key sent) = Some old /\
            cr_key new = cr_key sent /\ cr_Status new = cr_Status old /\
            meta_Finalizers (cr_meta new) = meta_Finalizers (cr_meta sent) /\
            meta_Annotations (cr_meta new) = meta_Annotations (cr_meta sent) /\
            (v_cr v' (cr_key sent) = Some new \/
             v_cr v' (cr_key sent) = None /\ meta_Finalizers (cr_meta sent) = [])
      end
  | EvStatusUpdate sent left_ e =>
      match e with
      | Some _ => unchanged v v' /\ left_ = sent
      | None =>
          other_crs v v' (cr_key sent) /\
          exists old, v_cr v (cr_key sent) = Some old /\
            left_ = with_Status old (cr_Status sent) /\ v_cr v' (cr_key sent) = Some left_ /\
            cr_key old = cr_key sent
      end
  | EvSecretGet _ _ | EvClientNew _ _ | EvRecord _ _ _ _ | EvSource _ => unchanged v v'
  end.

(** The calls of [t] lead from [v] to [v'], and what happens before, between and after
    them is allowed by [D]. *)
Inductive replays (D : view -> view -> Prop) : view -> list event -> view -> Prop :=
| replays_nil v v' : D v v' -> replays D v [] v'
| replays_cons v v0 ev v1 t v' :
    D v v0 -> ev_step v0 ev v1 -> replays D v1 t v' -> replays D v (ev :: t) v'.
End Steps.

Create HintDb tracks discriminated.

#[export] Instance unchanged_equivalence : Equivalence unchanged.
Proof.
  split; [by split|by intros v v' [H1 H2]; split; intros ?; rewrite ?H1, ?H2|].
  intros v1 v2 v3 [H1 H2] [H3 H4]. split; intros ?; rewrite ?H3, ?H4; auto.
Qed.

Section Replay.
Context {U : Unstructured} {E : ApiErrors} {ST : Storage} {D : view -> view -> Prop} `{!PreOrder D}.

Lemma replays_before v v0 t v' : D v v0 -> replays D v0 t v' -> replays D v t v'.
Proof.
  intros Hu. destruct 1 as [v0 v' H|v0 v1 ev v2 t v' H]; [constructor|econstructor; [|eassumption..]];
    by etrans.
Qed.

Lemma replays_in v t v' ev : replays D v t v' -> ev ∈ t -> exists v1 v2, ev_step v1 ev v2.
Proof.
  intros Hr (t1 & t2 & ->)%list_elem_of_split. revert v Hr. induction t1 as [|ev' t1 IH]; intros v Hr;
    inversion Hr as [|? v0 ? v1 ? ? _ Hs Hr']; subst; [by exists v0, v1|by eapply IH].
Qed.

Lemma replays_one v v0 ev v' : D v v0 -> ev_step v0 ev v' -> replays D v [ev] v'.
Proof. intros Hd H. econstructor; [exact Hd|exact H|by constructor]. Qed.

Lemma replays_one_inv v ev v' : replays D v [ev] v' -> exists v0 v1, D v v0 /\ ev_step v0 ev v1 /\ D v1 v'.
Proof. inversion 1 as [|? v0 ? v1 ? ? Hu Hs Hr]; subst. inversion Hr; subst. by exists v0, v1. Qed.

Lemma replays_app v t v1 t' v' : replays D v t v1 -> replays D v1 t' v' -> replays D v (t ++ t') v'.
Proof.
  induction 1 as [v v1 Hu|v v0 ev v2 t v1 Hu Hs _ IH]; intros H; [by eapply replays_before|].
  econstructor; [done|done|by apply IH].
Qed.

Lemma replays_app_inv v t t' v' : replays D v (t ++ t') v' -> exists v1, replays D v t v1 /\ replays D v1 t' v'.
Proof.
  revert v. induction t as [|ev t IH]; intros v H; [exists v; by split; [constructor|]|].
  inversion H as [|? v0 ? v1 ? ? Hu Hs Hr]; subst. destruct (IH _ Hr) as (v2 & H1 & H2).
  exists v2. split; [by econstructor|done].
Qed.

(** A relation that contains the outside changes and the calls contains the replay. *)
Lemma replays_contained (R : view -> view -> Prop) `{!PreOrder R} v t v' :
  (forall v v', D v v' -> R v v') -> (forall v ev v', ev ∈ t -> ev_step v ev v' -> R v v') -> replays D v t v' -> R v v'.
Proof.
  intros Hd Hc Hr. induction Hr as [v v' Hu|v v0 ev v1 t v' Hu Hs _ IH]; [by apply Hd|].
  etrans; [by apply Hd|]. etrans; [eapply Hc; [by left|done]|]. apply IH. intros ? ? ? ?. apply Hc. by right.
Qed.

(** A status update hands back the object it was sent for. *)
Lemma replays_left v t v' sent left_ e :
  replays D v t v' -> EvStatusUpdate sent left_ e ∈ t -> cr_key left_ = cr_key sent.
Proof.
  intros Hr Hin. destruct (replays_in _ _ _ _ Hr Hin) as (v1 & v2 & Hs). destruct e; cbn in Hs.
  - by destruct Hs as [_ ->].
  - by destruct Hs as (_ & old & _ & -> & _ & Hk).
Qed.

(** ** What a trace leaves at an address *)

(** No write of the trace addresses [a]. *)
Definition sends_to (side : bool) (a : string) (ev : event) : Prop :=
  match ev with EvPatch c u _ => on_seed c = side /\ obj_address u = a | _ => False end.
Definition deletes_at (side : bool) (a : string) (ev : event) : Prop :=
  match ev with EvDelete c u _ => on_seed c = side /\ obj_address u = a | _ => False end.

#[export] Instance deletes_at_dec side a ev : Decision (deletes_at side a ev).
Proof. destruct ev; cbn; apply _. Defined.
#[export] Instance sends_to_dec side a ev : Decision (sends_to side a ev).
Proof. destruct ev; cbn; apply _. Defined.

Lemma ev_step_elsewhere v ev v' side a :
  ev_step v ev v' -> ~ sends_to side a ev -> ~ deletes_at side a ev ->
  v_store v' side !! a = v_store v side !! a.
Proof.
  assert (forall c u, elsewhere v v' (on_seed c) (obj_address u) -> ~ (on_seed c = side /\ obj_address u = a) ->
    v_store v' side !! a = v_store v side !! a) as Hw.
  { intros c u [_ H] Hn. apply H. destruct (decide (on_seed c = side)) as [<-|]; [right|by left].
    intros ->. by apply Hn. }
  destruct ev as [c g k r|c u e|c u e|k r|sent e|sent l e| | | |]; cbn; intros Hs Hp Hd;
    try (by rewrite (proj1 Hs)); try (by rewrite (proj1 (proj1 Hs))); try (by eapply Hw; [apply Hs|]).
  - destruct e; [by rewrite (proj1 Hs)|]. by rewrite (proj1 (proj1 Hs)).
  - destruct e; by rewrite (proj1 (proj1 Hs)).
Qed.

(** The object at [a], if any, carries the owner's label and is not being deleted. *)
Definition holds (ob : string) (x : option obj) : Prop :=
  exists o, x = Some o /\ owner_of o = ob /\ ~ dying o.

(** Outside changes make no object held at [a]. *)
Definition keeps_unheld (side : bool) (a ob : string) : Prop :=
  forall v v', D v v' -> holds ob (v_store v' side !! a) -> holds ob (v_store v side !! a).

Lemma removed_not_held ob x : removed x -> ~ holds ob x.
Proof. intros H (o & -> & _ & Hd). done. Qed.

(** Only a patch makes an object held. *)
Lemma ev_step_held v ev v' side a ob :
  ev_step v ev v' -> ~ sends_to side a ev -> holds ob (v_store v' side !! a) -> holds ob (v_store v side !! a).
Proof.
  intros Hs Hn Hh. destruct (decide (deletes_at side a ev)) as [Hd|Hd].
  - destruct ev as [| |c u e| | | | | | |]; try done. destruct Hd as [<- <-]. destruct Hs as [_ [Hr|[_ <-]]]; [|done].
    by destruct (removed_not_held ob _ Hr).
  - by rewrite <- (ev_step_elsewhere v ev v' side a Hs Hn Hd).
Qed.

Lemma replays_held v t v' side a ob :
  keeps_unheld side a ob -> replays D v t v' -> (forall ev, ev ∈ t -> ~ sends_to side a ev) ->
  holds ob (v_store v' side !! a) -> holds ob (v_store v side !! a).
Proof.
  intros Hk. induction 1 as [v v' Hu|v v0 ev v1 t v' Hu Hs _ IH]; intros Hn Hh; [by eapply Hk|].
  eapply Hk; [exact Hu|]. apply (ev_step_held _ _ _ _ _ _ Hs); [apply Hn; by left|].
  apply IH; [|done]. intros ev' ?. apply Hn. by right.
Qed.

(** An object sent with another label makes nothing held. *)
Lemma ev_step_other_label v ev v' side a ob :
  ev_step v ev v' -> (forall c u e, ev = EvPatch c u e -> owner_of u ≠ ob) ->
  holds ob (v_store v' side !! a) -> holds ob (v_store v side !! a).
Proof.
  intros Hs Hn Hh. destruct (decide (sends_to side a ev)) as [Hsd|Hsd]; [|by eapply ev_step_held].
  destruct ev as [|c u e| | | | | | | |]; try done. destruct Hsd as [<- <-]. destruct Hs as [_ [(o & Ho & Hob%stored_label)|[_ <-]]]; [|done].
  rewrite Ho in Hh. destruct Hh as (o' & [= <-] & Hob' & _). destruct (Hn c u e); [done|congruence].
Qed.

(** A call after which the object at [a] is not held: it was found absent, of
    a kind the server does not serve, or not ours, or it was deleted. *)
Definition clears (side : bool) (a ob : string) (ev : event) : Prop :=
  match ev with
  | EvGet c g k r => on_seed c = side /\ address g k = a /\
      match r with
      | Ok live => owner_of live ≠ ob
      | Err e => IsNotFound e = true \/ IsNoMatchError e = true
      end
  | EvDelete c u e => on_seed c = side /\ obj_address u = a /\
      (e = None \/ exists e', e = Some e' /\ IsNotFound e' = true)
  | _ => False
  end.

Lemma ev_step_clears v ev v' side a ob : ev_step v ev v' -> clears side a ob ev -> ~ holds ob (v_store v' side !! a).
Proof.
  destruct ev as [c g k r| |c u e| | | | | | |]; try done; cbn.
  - intros [[Hu _] Hr] (<- & <- & Hc). rewrite Hu. destruct r as [live|e].
    + rewrite Hr. intros (o & [= <-] & ? & _). done.
    + rewrite (Hr Hc). by intros (o & ? & _).
  - intros [_ [Hr|[(e' & -> & Hn) _]]] (<- & <- & Hc); [by apply removed_not_held|].
    destruct Hc as [?|(e'' & [= <-] & ?)]; congruence.
Qed.

Lemma replays_cleared v t v' side a ob ev :
  keeps_unheld side a ob -> replays D v t v' -> (forall ev, ev ∈ t -> ~ sends_to side a ev) -> ev ∈ t -> clears side a ob ev ->
  ~ holds ob (v_store v' side !! a).
Proof.
  intros Hk Hr Hn Hin Hc Hh. apply list_elem_of_split in Hin as (t1 & t2 & ->).
  apply replays_app_inv in Hr as (v1 & _ & Hr). inversion Hr as [|? v0 ? v2 ? ? Hu Hs Hr']; subst.
  apply (ev_step_clears _ _ _ _ _ _ Hs Hc). eapply replays_held; [exact Hk|exact Hr'| |exact Hh].
  intros ev' ?. apply Hn. apply elem_of_app. right. by right.
Qed.
End Replay.

Arguments keeps_unheld {U} D side a ob.

Lemma unchanged_keeps {U : Unstructured} side a ob : keeps_unheld unchanged side a ob.
Proof. intros v v' [Hs _]. by rewrite Hs. Qed.
#[export] Hint Resolve unchanged_keeps : tracks.

(** ** Lawful servers *)

(** A call is carried out at some time after the last one. *)
Definition called {U : Unstructured} {E : ApiErrors} {ST : Storage} {S} (view_of : S -> view) (drift : view -> view -> Prop)
  (s : S) (ev : event) (s' : S) : Prop :=
  exists v, drift (view_of s) v /\ ev_step v ev (view_of s').

Class LawfulServer {U : Unstructured} {E : ApiErrors} {ST : Storage} (B : Boundary) := {
  (** states that can occur, and what they store *)
  valid : env -> Prop;
  view_of : env -> view;
  (** what others may do between two calls *)
  drift : view -> view -> Prop;
  drift_unchanged v v' : unchanged v v' -> drift v v';
  drift_trans v1 v2 v3 : drift v1 v2 -> drift v2 v3 -> drift v1 v3;
  law_key s k cr : valid s -> v_cr (view_of s) k = Some cr -> cr_key cr = k;
  law_Get c g k s : valid s -> let '(r, s') := client_Get c g k s in valid s' /\ called view_of drift s (EvGet c g k r) s';
  law_Patch c fm u s : valid s -> let '(r, s') := client_Patch c fm u s in valid s' /\ called view_of drift s (EvPatch c u (snd r)) s';
  law_Delete c u s : valid s -> let '(e, s') := client_Delete c u s in valid s' /\ called view_of drift s (EvDelete c u e) s';
  law_CRGet k s : valid s -> let '(r, s') := cr_Get k s in valid s' /\ called view_of drift s (EvCRGet k r) s';
  law_CRUpdate cr s : valid s -> let '(r, s') := cr_Update cr s in valid s' /\ called view_of drift s (EvCRUpdate cr (snd r)) s';
  law_StatusUpdate cr s : valid s -> let '(r, s') := cr_StatusUpdate cr s in
    valid s' /\ called view_of drift s (EvStatusUpdate cr (fst r) (snd r)) s';
  law_SecretGet k s : valid s -> let '(r, s') := secret_Get k s in valid s' /\ drift (view_of s) (view_of s');
  law_ClientNew cfg s : valid s -> let '(e, s') := client_New cfg s in valid s' /\ drift (view_of s) (view_of s');
  law_Eventf a b c d s : valid s -> let s' := recorder_Eventf a b c d s in valid s' /\ drift (view_of s) (view_of s');
  law_Now s : valid s -> let '(t, s') := time_Now s in valid s' /\ drift (view_of s) (view_of s');
}.

#[export] Instance drift_preorder {U : Unstructured} {E : ApiErrors} {ST : Storage} {B : Boundary} {LS : LawfulServer B} : PreOrder drift.
Proof. split; [intros v; by apply drift_unchanged|exact drift_trans]. Qed.

Section Tracking.
Context {U : Unstructured} {E : ApiErrors} {ST : Storage} {B : Boundary} {LS : LawfulServer B}.

(** The stores change by the calls of the trace and by what others do. *)
Definition tracks {A} (m : M A) : Prop :=
  forall s a t s', valid s -> m s = (a, t, s') -> valid s' /\ replays drift (view_of s) t (view_of s').

Lemma tracks_ret {A} (a : A) : tracks (ret a).
Proof. intros s a' t s' Hv [= <- <- <-]. by split; [|by constructor]. Qed.

Lemma tracks_bind {A C} (m : M A) (k : A -> M C) : tracks m -> (forall a, tracks (k a)) -> tracks (bind m k).
Proof.
  intros Hm Hk s c t s' Hv. unfold bind. destruct (m s) as [[a t1] s1] eqn:E1.
  destruct (k a s1) as [[c' t2] s2] eqn:E2. intros [= <- <- <-].
  destruct (Hm _ _ _ _ Hv E1) as [Hv1 H1], (Hk _ _ _ _ _ Hv1 E2) as [Hv2 H2].
  split; [done|by eapply replays_app].
Qed.

Lemma called_replays s ev s' : called view_of drift s ev s' -> replays drift (view_of s) [ev] (view_of s').
Proof. intros (v & Hd & Hs). by eapply replays_one. Qed.

(** A call that stores nothing, at any time. *)
Lemma idle_replays s ev s' :
  drift (view_of s) (view_of s') -> (forall v, ev_step v ev v) -> replays drift (view_of s) [ev] (view_of s').
Proof. intros Hd He. by eapply replays_one. Qed.

Ltac track_call law s Hv :=
  pose proof (law s Hv); case_match; intros; simplify_eq; destruct_and!; split;
    [done|first [by apply called_replays | apply idle_replays; [done|by intros]]].

Lemma tracks_Get c g k : tracks (Get c g k).
Proof. intros s a t s' Hv. unfold Get. track_call (law_Get c g k) s Hv. Qed.
Lemma tracks_Patch c f u : tracks (Patch c f u).
Proof. intros s a t s' Hv. unfold Patch. track_call (law_Patch c f u) s Hv. Qed.
Lemma tracks_DeleteObj c u : tracks (DeleteObj c u).
Proof. intros s a t s' Hv. unfold DeleteObj. track_call (law_Delete c u) s Hv. Qed.
Lemma tracks_GetCR k : tracks (GetCR k).
Proof. intros s a t s' Hv. unfold GetCR. track_call (law_CRGet k) s Hv. Qed.
Lemma tracks_UpdateCR cr : tracks (UpdateCR cr).
Proof. intros s a t s' Hv. unfold UpdateCR. track_call (law_CRUpdate cr) s Hv. Qed.
Lemma tracks_StatusUpdate cr : tracks (StatusUpdate cr).
Proof. intros s a t s' Hv. unfold StatusUpdate. track_call (law_StatusUpdate cr) s Hv. Qed.
Lemma tracks_GetSecret k : tracks (GetSecret k).
Proof. intros s a t s' Hv. unfold GetSecret. track_call (law_SecretGet k) s Hv. Qed.
Lemma tracks_NewClient cfg : tracks (NewClient cfg).
Proof. intros s a t s' Hv. unfold NewClient. track_call (law_ClientNew cfg) s Hv. Qed.
Lemma tracks_Eventf a b c d : tracks (Eventf a b c d).
Proof. intros s x t s' Hv [= <- <- <-]. destruct (law_Eventf a b c d s Hv). split; [done|apply idle_replays; [done|by intros]]. Qed.
Lemma tracks_Now : tracks Now.
Proof.
  intros s a t s' Hv. unfold Now. pose proof (law_Now s Hv). case_match. intros [= <- <- <-].
  destruct_and!. split; [done|by constructor].
Qed.
End Tracking.

#[export] Hint Resolve tracks_ret tracks_Get tracks_Patch tracks_DeleteObj tracks_GetCR tracks_UpdateCR
  tracks_StatusUpdate tracks_GetSecret tracks_NewClient tracks_Eventf tracks_Now : tracks.

(** Walk through a computation made of calls, binds and branches. *)
Ltac track :=
  repeat first
    [ solve [eauto with tracks]
    | apply tracks_bind; [|intros ?]
    | progress cbn beta iota
    | match goal with |- tracks (match ?x with _ => _ end) => destruct x end ].

(** ** The reconciler tracks *)

(** Rendering leaves the clusters and the CRs alone. *)
Class RenderTracks {U : Unstructured} {E : ApiErrors} {ST : Storage} {B : Boundary} {LS : LawfulServer B} (SP : SourcePackage B) : Prop := {
  render_tracks spec ns src mode n : source_From spec ns = Ok src -> tracks (Render src mode n);
}.

Section Walk.
Context {U : Unstructured} {E : ApiErrors} {ST : Storage} {L : MetaLib} {P : PatchLib} {B : Boundary} {LS : LawfulServer B}.

Definition tracking (a : Applier B) : Prop :=
  (forall m ob, tracks (ap_Apply a m ob)) /\ (forall m ob, tracks (ap_Delete a m ob)) /\ forall m, tracks (ap_Get a m).

Lemma tracks_SSA a : tracking (SSA a).
Proof.
  split_and!; intros; cbn [ap_Apply ap_Delete ap_Get SSA].
  - unfold SSA_Apply, foreignOwner, apply_patch, SSA_Get. track.
  - unfold SSA_Delete, SSA_Get. track.
  - unfold SSA_Get. track.
Qed.

Lemma tracks_applyAll a ms ob : tracking a -> tracks (applyAll a ms ob).
Proof.
  intros (Ha & _ & _). apply tracks_bind; [|intros [[? ?] ?]; track].
  induction ms as [|m ms IH]; cbn [apply_loop]; track.
Qed.

Lemma tracks_prune a prev ms cr ob : tracking a -> tracks (prune a prev ms cr ob).
Proof.
  intros (_ & Hd & Hg). apply tracks_bind; [|intros [? ?]; track].
  induction (SortStatusForDelete prev) as [|rs l IH]; cbn [prune_loop]; track.
Qed.

Lemma tracks_deleteRender cr ob a l : (forall a', a = Some a' -> tracking a') -> tracks (deleteRender cr ob a l).
Proof.
  intros Ha. destruct a as [a|]; [|track]. destruct (Ha a eq_refl) as (_ & Hd & _). cbn [deleteRender].
  induction (SortStatusForDelete l) as [|rs l' IH]; cbn [delete_loop]; track.
Qed.

Lemma tracks_bind_post {A C} (m : M A) (k : A -> M C) (Q : A -> Prop) :
  tracks m -> post m (fun a _ => Q a) -> (forall a, Q a -> tracks (k a)) -> tracks (bind m k).
Proof.
  intros Hm Hp Hk s c t s' Hv. unfold bind. destruct (m s) as [[a t1] s1] eqn:E1.
  destruct (k a s1) as [[c' t2] s2] eqn:E2. intros [= <- <- <-].
  destruct (Hm _ _ _ _ Hv E1) as [Hv1 H1]. pose proof (post_run _ _ _ _ _ _ Hp E1) as Hq.
  destruct (Hk a Hq _ _ _ _ Hv1 E2) as [Hv2 H2]. split; [done|by eapply replays_app].
Qed.

Definition good_applier (r : result (Applier B)) : Prop := forall a, r = Ok a -> tracking a.

Lemma tracks_buildShootApplier cr :
  tracks (buildShootApplier cr) /\ post (buildShootApplier cr) (fun r _ => good_applier r).
Proof.
  unfold buildShootApplier. split; [track|].
  eapply post_bind; [apply post_all; by intros; instantiate (1 := fun _ _ => True)|]. intros [secret|e] t _; [|by apply post_ret].
  destruct (ShootRESTConfig _ _ _ _); [|destruct (errors_Is _ _); by apply post_ret].
  eapply post_bind; [apply post_all; by intros; instantiate (1 := fun _ _ => True)|]. intros [e|] t' _; apply post_ret; [done|].
  intros a' [= <-]. apply tracks_SSA.
Qed.

Context {SP : SourcePackage B} {RT : RenderTracks SP}.
Abbreviation r := (production_reconciler B).

Lemma tracks_seed : tracking (r_SeedApplier r).
Proof. apply tracks_SSA. Qed.

Hint Resolve tracks_seed tracks_applyAll tracks_prune tracks_deleteRender : tracks.

Lemma tracks_set_status_condition cr c : tracks (set_status_condition cr c).
Proof. unfold set_status_condition. track. Qed.
Hint Resolve tracks_set_status_condition : tracks.

Lemma tracks_finishNotReady cr a b n : tracks (finishNotReady cr a b n).
Proof. unfold finishNotReady. track. Qed.
Hint Resolve tracks_finishNotReady : tracks.

Lemma tracks_record_event a b c : tracks (record_event r a b c).
Proof. unfold record_event. track. Qed.
Hint Resolve tracks_record_event : tracks.

Lemma tracks_finish_ready cr sf sa ms1 ms2 st1 st2 errs ob :
  tracking sa -> tracks (finish_ready r cr sf sa ms1 ms2 st1 st2 errs ob).
Proof. intros Ha. unfold finish_ready. track. Qed.
Hint Resolve tracks_finish_ready : tracks.

Lemma tracks_apply_ready cr sf sa ms1 ms2 ob : tracking sa -> tracks (apply_ready r cr sf sa ms1 ms2 ob).
Proof. intros Ha. unfold apply_ready, setCondition. track. Qed.

Lemma tracks_deliver cr seed shoot : tracks (deliver r cr seed shoot).
Proof.
  destruct (tracks_buildShootApplier cr) as [Hb Hp]. unfold deliver. apply (tracks_bind_post _ _ good_applier Hb Hp).
  intros [a|e] Ha; [by apply tracks_apply_ready, Ha|].
  unfold not_ready, seed_without_shoot, setCondition. track.
Qed.

Lemma tracks_render_both cr : tracks (render_both cr).
Proof.
  unfold render_both. destruct (source_From _ _) eqn:Es; [|track].
  apply tracks_bind; [by eapply render_tracks|intros [?|?]; [|track]].
  apply tracks_bind; [by eapply render_tracks|intros [?|?]; track].
Qed.

Lemma tracks_finish_delete cr d errs : tracks (finish_delete r cr d errs).
Proof. unfold finish_delete, recordShootCleanupForceDeleted, recordShootCleanupBlocked. track. Qed.
Hint Resolve tracks_finish_delete : tracks.

Lemma tracks_delete_both cr ob : tracks (delete_both r cr ob).
Proof.
  unfold delete_both. eapply (tracks_bind_post _ _ (fun '(_, sa, _) => forall a, sa = Some a -> tracking a)).
  - unfold build_for_delete, recordShootUnreachable. destruct (Nat.ltb _ _); [|track].
    apply tracks_bind; [apply tracks_buildShootApplier|intros; track].
  - unfold build_for_delete. destruct (Nat.ltb _ _); [|by apply post_ret].
    eapply post_bind; [apply tracks_buildShootApplier|]. intros [a|e] t Ha.
    + apply post_ret. intros a' [= <-]. by apply Ha.
    + eapply post_bind; [apply post_all; by intros; instantiate (1 := fun _ _ => True)|]. intros ? ? _. by apply post_ret.
  - intros [[cr' sa] be] Ha. cbn beta iota. apply tracks_bind; [|intros [? ?]; track].
    assert (tracking (r_SeedApplier r)) as Hs by apply tracks_seed.
    assert (forall l, tracks (deleteRender cr' ob (Some (r_SeedApplier r)) l)) as H1
      by (intros; apply tracks_deleteRender; by intros ? [= <-]).
    assert (forall l, tracks (deleteRender cr' ob sa l)) as H2 by (intros; by apply tracks_deleteRender).
    track.
Qed.

(** Every run of Reconcile changes the stored objects by its calls only. *)
Lemma tracks_Reconcile req : tracks (Reconcile r req).
Proof.
  unfold Reconcile. apply tracks_bind; [track|intros [cr|e]; [|track]].
  destruct (negb (Time_IsZero _)).
  - unfold reconcileDelete. pose proof tracks_delete_both. track.
  - destruct (negb (ContainsFinalizer _ _)); [track|]. unfold reconcile_live.
    apply tracks_bind; [apply tracks_render_both|]. intros [[? ?]|[? ?]]; [apply tracks_deliver|].
    unfold errStatus, setCondition. track.
Qed.
End Walk.
