(* ===== verification/SourceTracks.v ===== *)
(** Rendering leaves the clusters alone: the production source package meets the
    assumption [RenderTracks] of the theorems on the state of the clusters. *)

From S2P Require Import Prelude Value Apimachinery Types Clients Manifest Boundary GoPaths SourceWorld GitResolver HelmLoader Applier Controller SourceRender Reference SourceSim Cluster.

Section Detached.
Context {U : Unstructured} {E : ApiErrors} {ST : Storage} {B : Boundary} {LS : LawfulServer B}.

(** An effect that stores nothing on a cluster and touches no CR; others may do so meanwhile. *)
Definition detached {A} (f : env -> A * env) : Prop :=
  forall s, valid s -> let '(_, s') := f s in valid s' /\ drift (view_of s) (view_of s').

(** File system, Helm, go-git and kustomize do not talk to the API servers. *)
Class DetachedWorld (W : SourceWorld B) : Prop := {
  detached_MkdirTemp d p : detached (os_MkdirTemp d p);
  detached_RemoveAll d : detached (fun s => (tt, os_RemoveAll d s));
  detached_MkdirAll d : detached (os_MkdirAll d);
  detached_NewClient o : detached (registry_NewClient o);
  detached_Pull o st v d r : detached (pull_Run o st v d r);
  detached_ResolveDigest o r : detached (registry_Resolve o r);
  detached_Expand d f : detached (chartutil_Expand d f);
  detached_Build o st b d : detached (manager_Build o st b d);
  detached_Install i c v : detached (install_Run i c v);
  detached_PlainClone d o : detached (git_PlainClone d o);
  detached_PlainInit d : detached (git_PlainInit d);
  detached_CreateRemote d u : detached (git_CreateRemote d u);
  detached_Fetch d u l a : detached (git_Fetch d u l a);
  detached_Checkout d h : detached (git_Checkout d h);
  detached_List u a : detached (git_List u a);
  detached_Kustomize r : detached (kustomize_Run r);
}.

Definition cache_tracks (c : cacheI) : Prop :=
  (forall k, tracks (cache_get c k)) /\ forall k m, tracks (cache_put c k m).
End Detached.

#[export] Hint Resolve detached_MkdirTemp detached_RemoveAll detached_MkdirAll detached_NewClient detached_Pull
  detached_ResolveDigest detached_Expand detached_Build detached_Install detached_PlainClone detached_PlainInit
  detached_CreateRemote detached_Fetch detached_Checkout detached_List detached_Kustomize : tracks.

(** ** Combinators *)

Section Combinators.
Context {U : Unstructured} {E : ApiErrors} {ST : Storage} {B : Boundary} {LS : LawfulServer B} {W : SourceWorld B}.

Lemma tracks_perform {A} (f : env -> A * env) : detached f -> tracks (perform f).
Proof.
  intros Hf s a t s' Hv. unfold perform. pose proof (Hf s Hv) as H. destruct (f s). intros [= <- <- <-].
  destruct H. by split; [|by constructor].
Qed.

Lemma tracks_look {A} (f : env -> A) : tracks (look f).
Proof. intros s a t s' Hv [= <- <- <-]. by split; [|by constructor]. Qed.

Lemma tracks_record {A} (act : A -> source_action) (f : env -> A * env) : detached f -> tracks (record act f).
Proof.
  intros Hf s a t s' Hv. unfold record. pose proof (Hf s Hv) as H. destruct (f s). intros [= <- <- <-].
  destruct H. split; [done|]. by apply idle_replays.
Qed.

Lemma tracks_try {A C} (m : M (result A)) (k : A -> M (result C)) : tracks m -> (forall a, tracks (k a)) -> tracks (try_bind m k).
Proof. intros Hm Hk. apply tracks_bind; [done|]. intros [a|e]; [apply Hk|apply tracks_ret]. Qed.

Lemma tracks_must m : tracks m -> tracks (must m).
Proof. intros Hm. apply tracks_bind; [done|]. intros e. apply tracks_ret. Qed.

Lemma tracks_wrapping {A} pre (m : M (result A)) : tracks m -> tracks (wrapping pre m).
Proof. intros Hm. apply tracks_bind; [done|]. intros e. apply tracks_ret. Qed.

Lemma tracks_deferring {A} fin (m : M A) : tracks fin -> tracks m -> tracks (deferring fin m).
Proof. intros Hf Hm. apply tracks_bind; [done|]. intros a. apply tracks_bind; [done|]. intros ?. apply tracks_ret. Qed.
End Combinators.

Ltac source_track :=
  repeat first
    [ solve [eauto with tracks]
    | progress cbn beta iota zeta
    | apply tracks_try; [|intros ?]
    | apply tracks_must
    | apply tracks_wrapping
    | apply tracks_deferring
    | apply tracks_perform
    | apply tracks_look
    | apply tracks_record
    | apply tracks_bind; [|intros ?]
    | match goal with |- tracks (match ?x with _ => _ end) => destruct x end ].

(** ** The package *)

Section Package.
Context {U : Unstructured} {E : ApiErrors} {ST : Storage} {Y : YAMLDecoder} {B : Boundary} {LS : LawfulServer B} {W : SourceWorld B} {N : NetURL}
  {DW : DetachedWorld W}.

Definition resolver_tracks (resolve : option (string -> M (result creds))) : Prop :=
  forall f h, resolve = Some f -> tracks (f h).

Lemma tracks_CredentialResolver cr ref : resolver_tracks (Some (fun _ => CredentialResolver_Resolve cr ref)).
Proof. intros f h [= <-]. unfold CredentialResolver_Resolve. source_track. Qed.

Lemma tracks_credFor l : resolver_tracks (hl_resolve l) -> tracks (credFor l).
Proof. intros H. unfold credFor. destruct (hl_resolve l) as [f|]; [by apply H|source_track]. Qed.
Hint Resolve tracks_credFor : tracks.

Lemma tracks_client l c : tracks (ociRegistryClient l c).
Proof. unfold ociRegistryClient. source_track. Qed.
Hint Resolve tracks_client : tracks.

Lemma tracks_pullOCI l a b c d : resolver_tracks (hl_resolve l) -> tracks (pullOCI l a b c d).
Proof. intros H. unfold pullOCI, Pull. source_track. Qed.
Hint Resolve tracks_pullOCI : tracks.

Lemma tracks_expand l a b : resolver_tracks (hl_resolve l) -> tracks (expandAndResolveDeps l a b).
Proof. intros H. unfold expandAndResolveDeps, BuildDeps. source_track. Qed.
Hint Resolve tracks_expand : tracks.

Lemma tracks_Load l a b c : resolver_tracks (hl_resolve l) -> tracks (helmLoader_Load l a b c).
Proof. intros H. unfold helmLoader_Load, newScratchDir, MkdirTemp, RemoveAll. source_track. Qed.

Lemma tracks_helm_resolve l spec mode : resolver_tracks (hl_resolve l) -> tracks (helm_resolve l spec mode).
Proof. intros H. unfold helm_resolve, helmLoader_ResolveID, resolveOCIDigest, ResolveDigest. source_track. Qed.

Lemma tracks_authFor r base : resolver_tracks (gr_resolve r) -> tracks (authFor r base).
Proof. intros H. unfold authFor. destruct (gr_resolve r) as [f|]; [|source_track]. apply tracks_try; [by apply H|source_track]. Qed.
Hint Resolve tracks_authFor : tracks.

Lemma tracks_fetchPinned dir base ref auth : tracks (fetchPinned dir base ref auth).
Proof.
  unfold fetchPinned, fetchSHA, PlainInit, CreateRemote, Fetch, Checkout. destruct (shaRe_MatchString ref); [source_track|].
  apply tracks_bind; [|source_track]. match goal with |- tracks (clone_first _ _ _ ?names) => induction names as [|rn rest IH] end;
    cbn [clone_first]; unfold PlainClone; source_track.
Qed.
Hint Resolve tracks_fetchPinned : tracks.

Lemma tracks_Resolve r url sub : resolver_tracks (gr_resolve r) -> tracks (gitResolver_Resolve r url sub).
Proof. intros H. unfold gitResolver_Resolve, MkdirTemp, RemoveAll. source_track. Qed.

(** The cleanup Resolve hands out removes a directory. *)
Lemma post_Resolve_cleanup r url sub :
  post (gitResolver_Resolve r url sub) (fun res _ => forall root cleanup, res = Ok (root, cleanup) ->
    exists d, cleanup = RemoveAll d).
Proof.
  unfold gitResolver_Resolve. destruct (splitRef url) as [[[base root] ref]|e]; [|by apply post_ret].
  eapply post_try_bind; [apply post_all; by intros; instantiate (1 := fun _ _ => True)|by intros|]. intros d t _.
  eapply post_bind; [apply post_all; by intros; instantiate (1 := fun _ _ => True)|]. intros [auth|e] t1 _.
  - eapply post_bind; [apply post_all; by intros; instantiate (1 := fun _ _ => True)|]. intros [e|] t2 _.
    + eapply post_bind; [apply post_all; by intros; instantiate (1 := fun _ _ => True)|]. intros _ t3 _. by apply post_ret.
    + apply post_ret. intros ? ? [= _ <-]. by exists d.
  - eapply post_bind; [apply post_all; by intros; instantiate (1 := fun _ _ => True)|]. intros _ t3 _. by apply post_ret.
Qed.

Lemma tracks_kustomize_resolve r spec mode : resolver_tracks (gr_resolve r) -> tracks (kustomize_resolve r spec mode).
Proof. intros H. unfold kustomize_resolve, gitResolver_ResolveID, LsRemote. source_track. Qed.

Lemma tracks_helmSource spec l mode ns :
  resolver_tracks (hl_resolve l) -> tracks (helmSource_Render (mkHelm spec (HelmChartLoader l)) mode ns).
Proof.
  intros H. unfold helmSource_Render, helm_render_chart, InstallRun. pose proof (tracks_Load l) as Hl. cbn [hs_loader Load]. source_track.
Qed.

Lemma tracks_kustomizeSource spec r mode ns :
  resolver_tracks (gr_resolve r) -> tracks (kustomizeSource_Render (mkKustomize spec (GitRootResolver r)) mode ns).
Proof.
  intros H. unfold kustomizeSource_Render. cbn [ks_resolver Resolve].
  apply (tracks_bind_post _ _ (fun res => forall root cleanup, res = Ok (root, cleanup) -> exists d, cleanup = RemoveAll d)).
  - apply tracks_wrapping. by apply tracks_Resolve.
  - eapply post_wrapping; [apply post_Resolve_cleanup|]. by intros [[? ?]|e] t Hc.
  - intros [[root cleanup]|e] Hc; [|apply tracks_ret]. destruct (Hc root cleanup eq_refl) as [d ->].
    unfold kustomize_build, KustomizeRun, RemoveAll. source_track.
Qed.

Lemma tracks_caching c mode ns :
  cache_tracks (cs_cache c) -> tracks (cs_resolve c mode) -> tracks (Render (cs_inner c) mode ns) ->
  tracks (cachingSource_Render c mode ns).
Proof. intros [Hg Hp] Hr Hi. unfold cachingSource_Render. source_track. Qed.

Context (settings : EnvSettings) (scratchDir : string) (cache : option cacheI).
Context (cache_ok : forall c, cache = Some c -> cache_tracks c).

(** The production source package leaves the clusters and the CRs alone. *)
Lemma production_render_tracks : RenderTracks (production_source settings scratchDir cache).
Proof.
  split. intros spec ns src mode n. cbn [source_From production_source]. unfold From.
  destruct (source_Helm spec) as [h|], (source_Kustomize spec) as [k|]; try discriminate;
    cbn [deps_ChartLoader deps_RootResolver deps_CredentialResolver deps_RenderCache production_deps
         NewHelmLoader NewGitResolver withHelmCreds withGitCreds]; injection 1 as <-.
  - pose proof (tracks_CredentialResolver (mkCredentialResolver ns) (helm_AuthSecretRef h)) as Hr.
    destruct cache as [c|] eqn:Ec; cbn [wrapHelm Render]; [|by apply tracks_helmSource].
    apply tracks_caching; [by apply cache_ok|by apply tracks_helm_resolve|by apply tracks_helmSource].
  - pose proof (tracks_CredentialResolver (mkCredentialResolver ns) (kustomize_AuthSecretRef k)) as Hr.
    destruct cache as [c|] eqn:Ec; cbn [wrapKustomize Render]; [|by apply tracks_kustomizeSource].
    apply tracks_caching; [by apply cache_ok|by apply tracks_kustomize_resolve|by apply tracks_kustomizeSource].
Qed.
End Package.

(** ** The assumptions hold of the simulated world *)

Section Lab.
Import RefInstances.

#[export] Instance lab_Storage : @Storage ref_Unstructured := {| stored_as u o := o = u; stored_label u o H := f_equal owner_of H |}.

(** No objects and no CRs. *)
Definition lab_view : view := mkView (fun _ => ∅) (fun _ => None).

#[export] Instance lab_LawfulServer : LawfulServer lab_Boundary.
Proof.
  refine {| valid := (fun _ => True) : @env lab_Boundary -> Prop; view_of := (fun _ => lab_view) : @env lab_Boundary -> view;
    drift := unchanged |}; try done.
  - intros v1 v2 v3 H1 H2. by etrans.
  - intros c g k s _. split; [done|]. by exists lab_view.
  - intros c fm u s _. split; [done|]. exists lab_view. split; [done|]. split; [done|]. by right.
  - intros c u s _. split; [done|]. exists lab_view. split; [done|]. split; [done|]. left. cbn. by rewrite lookup_empty.
  - intros k s _. split; [done|]. by exists lab_view.
  - intros cr s _. split; [done|]. by exists lab_view.
  - intros cr s _. split; [done|]. by exists lab_view.
Defined.

#[export] Instance lab_DetachedWorld : DetachedWorld lab_World.
Proof. split; by intros. Qed.

#[export] Instance lab_render_tracks : RenderTracks (production_source lab_settings "" (Some lab_cacheI)).
Proof. apply production_render_tracks. intros c [= <-]. split; intros; intros ? ? ? ? _ [= <- <- <-]; by split; [|by constructor]. Qed.
End Lab.
