(* ===== verification/Simulator.v ===== *)
(** An in-memory environment for the operator: two object stores, the CR, the
    Secrets and a clock, with the reference libraries.  It shows that the
    assumptions of the theorems can be met together, and runs the model on
    concrete inputs. *)

From S2P Require Import Prelude Value Apimachinery Types Clients Manifest Order Boundary Applier Transform Controller Outcomes Safety Reference Cluster.
Import RefInstances.

(** ** The stores *)

Record cluster := mkCluster {
  cl_objects : gmap string obj;
  (** kinds the API server does not serve *)
  cl_unmapped : list string;
}.

Record world := mkWorld {
  w_seed : cluster;
  w_shoot : cluster;
  w_cr : option DualDeploymentOperator;
  w_secrets : gmap string Secret;
  w_clock : Z;
}.

Definition cluster_of (c : client) (w : world) : cluster :=
  match c with SeedClient => w_seed w | ShootClient _ => w_shoot w end.

Definition with_cluster (c : client) (w : world) (cl : cluster) : world :=
  match c with
  | SeedClient => mkWorld cl (w_shoot w) (w_cr w) (w_secrets w) (w_clock w)
  | ShootClient _ => mkWorld (w_seed w) cl (w_cr w) (w_secrets w) (w_clock w)
  end.

Definition with_cr (w : world) (cr : option DualDeploymentOperator) : world :=
  mkWorld (w_seed w) (w_shoot w) cr (w_secrets w) (w_clock w).

Definition not_found (what : string) : error := EExt "NotFound" (what +:+ " not found").
Definition no_match (kind : string) : error := EExt "NoMatch" ("no matches for kind " +:+ kind).

Definition sim_Get (c : client) (g : GroupVersionKind) (key : NamespacedName) (w : world) : result obj :=
  if bool_decide (gvk_Kind g ∈ cl_unmapped (cluster_of c w)) then Err (no_match (gvk_Kind g))
  else match cl_objects (cluster_of c w) !! address g key with
       | Some o => Ok o
       | None => Err (not_found (nn_Name key))
       end.

Definition sim_Patch (c : client) (u : obj) (w : world) : (obj * option error) * world :=
  let g := GetGroupVersionKind u in
  let cl := cluster_of c w in
  if bool_decide (gvk_Kind g ∈ cl_unmapped cl) then ((u, Some (no_match (gvk_Kind g))), w)
  else ((u, None), with_cluster c w
          (mkCluster (<[address g (ObjectKeyFromObject u) := u]> (cl_objects cl)) (cl_unmapped cl))).

Definition sim_Delete (c : client) (u : obj) (w : world) : option error * world :=
  let key := address (GetGroupVersionKind u) (ObjectKeyFromObject u) in
  let cl := cluster_of c w in
  match cl_objects cl !! key with
  | Some _ => (None, with_cluster c w (mkCluster (delete key (cl_objects cl)) (cl_unmapped cl)))
  | None => (Some (not_found (GetName u)), w)
  end.

Definition same_name (key : NamespacedName) (cr : DualDeploymentOperator) : bool :=
  bool_decide (nn_Namespace key = meta_Namespace (cr_meta cr)) && bool_decide (nn_Name key = meta_Name (cr_meta cr)).

(** The stored CR of this name. *)
Definition stored_cr (w : world) (key : NamespacedName) : option DualDeploymentOperator :=
  match w_cr w with
  | Some cr => if same_name key cr then Some cr else None
  | None => None
  end.

(** Metadata and spec are written; a deleted CR without finalizers is gone. *)
Definition sim_Update (cr : DualDeploymentOperator) (w : world)
  : (DualDeploymentOperator * option error) * world :=
  match stored_cr w (cr_key cr) with
  | None => ((cr, Some (not_found (meta_Name (cr_meta cr)))), w)
  | Some old =>
      let new := with_Status cr (cr_Status old) in
      if negb (Time_IsZero (meta_DeletionTimestamp (cr_meta cr))) && Nat.eqb (length (meta_Finalizers (cr_meta cr))) 0
      then ((new, None), with_cr w None)
      else ((new, None), with_cr w (Some new))
  end.

Definition sim_StatusUpdate (cr : DualDeploymentOperator) (w : world)
  : (DualDeploymentOperator * option error) * world :=
  match stored_cr w (cr_key cr) with
  | None => ((cr, Some (not_found (meta_Name (cr_meta cr)))), w)
  | Some old => let new := with_Status old (cr_Status cr) in ((new, None), with_cr w (Some new))
  end.

#[export] Instance sim_Boundary : Boundary := {|
  env := world;
  client_Get c g key w := (sim_Get c g key w, w);
  client_Patch c _ u w := sim_Patch c u w;
  client_Delete := sim_Delete;
  cr_Get key w :=
    (match stored_cr w key with
     | Some cr => Ok cr
     | None => Err (not_found (nn_Name key))
     end, w);
  cr_Update := sim_Update;
  cr_StatusUpdate := sim_StatusUpdate;
  secret_Get key w :=
    (match w_secrets w !! (nn_Namespace key +:+ "/" +:+ nn_Name key) with
     | Some s => Ok s
     | None => Err (not_found (nn_Name key))
     end, w);
  client_New _ w := (None, w);
  recorder_Eventf _ _ _ _ w := w;
  time_Now w := (w_clock w, mkWorld (w_seed w) (w_shoot w) (w_cr w) (w_secrets w) (w_clock w + 1));
|}.

(** ** Libraries and sources *)

(** A patch library that treats a patched document as opaque text and knows no
    typed kinds: marshalling prints the name, applying a patch keeps the text. *)
#[export] Instance sim_PatchLib : PatchLib := {|
  json_Marshal o := Ok (GetName o);
  json_MarshalOps ops := Ok (strings_Join (map op_Path ops) ",");
  jsonpatch := string;
  DecodePatch s := if bool_decide (s = "") then Err (EExt "jsonpatch" "no operations") else Ok s;
  jsonpatch_Apply p doc := Ok (doc +:+ "-" +:+ p);
  MergePatch doc p := Ok (doc +:+ "-" +:+ p);
  runtime_Object := unit;
  Scheme_New _ := Err (EExt "scheme" "no kind registered");
  is_unstructured _ := false;
  StrategicMergePatch _ _ _ := Err (EExt "strategicpatch" "unsupported");
  UnmarshalJSON s := Ok (SetName (SetGroupVersionKind ∅ (mkGVK "" "v1" "ConfigMap")) s);
|}.

(** A source that renders fixed manifests. *)
Definition fixed_source {B : Boundary} (seed shoot : list Manifest) : SourcePackage B := {|
  source_From _ _ := Ok (mkSourceI _ (fun mode _ =>
    ret (Ok (match mode with ModeSeed => seed | ModeShoot => shoot end))));
|}.

(** ** Objects *)

Definition mk_obj (apiVersion kind ns name : string) : obj :=
  SetName (SetNamespace (vset (vset ∅ ["apiVersion"] (VString apiVersion)) ["kind"] (VString kind)) ns) name.

Definition own (u : obj) (ownedBy : string) : obj := SetOwnedByLabel u ownedBy.

Definition rs_of (apiVersion kind ns name : string) : ResourceStatus :=
  mkResourceStatus kind apiVersion ns name HealthHealthy None "".

Definition s_deployment : obj := mk_obj "apps/v1" "Deployment" "shoot--demo" "manager".
Definition s_role : obj := mk_obj "rbac.authorization.k8s.io/v1" "ClusterRole" "" "manager-role".
Definition s_crd : obj := mk_obj "apiextensions.k8s.io/v1" "CustomResourceDefinition" "" "widgets.example.com".
Definition s_configmap : obj := mk_obj "v1" "ConfigMap" "shoot--demo" "settings".

(** A webhook configuration with a CA bundle and a service reference. *)
Definition s_webhook : obj :=
  vset (mk_obj "admissionregistration.k8s.io/v1" "ValidatingWebhookConfiguration" "" "checks") ["webhooks"]
    (VSlice [VMap {["name" := VString "check.example.com";
                    "clientConfig" := VMap {["caBundle" := VString "Q0E=";
                       "service" := VMap {["path" := VString "/validate"; "name" := VString "svc"]}]}]}]).

Definition s_source : Source := mkSource None (Some (mkKustomizeSource "https://git.example.com/op" "seed" "shoot" None)).
Definition s_access : ShootAccessRef := mkShootAccessRef "shoot-access" "https://kube-apiserver" "" "".

Definition mk_cr (order crds : string) (deleted : option Time) (finalizers : list string)
  (annotations : gmap string string) (seed shoot : list ResourceStatus) : DualDeploymentOperator :=
  mkDDO (mkObjectMeta "shoot--demo" "widgets" 3 deleted finalizers annotations)
    (mkSpec s_source s_access "widgets-system" [] (mkRetentionPolicy crds) order)
    (mkStatus seed shoot [] None).

Definition s_req : NamespacedName := mkNN "shoot--demo" "widgets".
Definition s_owner : string := OwnedByValue "shoot--demo" "widgets".
Definition s_secrets : gmap string Secret :=
  {["shoot--demo/shoot-access" := mkSecret {["token" := "abc"; "bundle.crt" := "pem"]}]}.

Definition mk_world (seed shoot : list obj) (cr : DualDeploymentOperator) : world :=
  let store := fun os => list_to_map (map (fun o => (address (GetGroupVersionKind o) (ObjectKeyFromObject o), o)) os) in
  mkWorld (mkCluster (store seed) []) (mkCluster (store shoot) []) (Some cr) s_secrets 1000.

(** What a run did. *)
Definition run {A} (m : M A) (w : world) : A * list event * world := m w.
Definition result_of {A} (x : A * list event * world) : A := fst (fst x).
Definition calls_of {A} (x : A * list event * world) : list event := snd (fst x).

Lemma outcome_parts {A} (x : A * list event * world) : x = (result_of x, calls_of x, snd x).
Proof. by destruct x as [[? ?] ?]. Qed.

Definition is_patch (ev : event) : bool := match ev with EvPatch _ _ None => true | _ => false end.
Definition is_delete (ev : event) : bool := match ev with EvDelete _ _ _ => true | _ => false end.
Definition is_update (ev : event) : bool := match ev with EvCRUpdate _ _ => true | _ => false end.
Definition count (p : event -> bool) (t : list event) : nat := length (List.filter p t).

Lemma count_update t : count is_update t ≠ 0 -> exists sent e, EvCRUpdate sent e ∈ t.
Proof.
  unfold count. intros H. destruct (List.filter is_update t) as [|ev l] eqn:E; [done|].
  assert (In ev (List.filter is_update t)) as [Hin Hu]%filter_In by (rewrite E; by left).
  destruct ev as [| | | |sent e| | | | |]; try done. exists sent, e. by apply list_elem_of_In.
Qed.

(** ** The assumptions hold of the simulation *)

#[export] Instance fixed_source_contract {B : Boundary} seed shoot : SourceContract (fixed_source (B := B) seed shoot).
Proof. split. intros spec ns src mode n [= <-]. by apply post_ret. Qed.

#[export] Instance sim_FaithfulServer : FaithfulServer sim_Boundary.
Proof. split. intros c f u s. cbn. unfold sim_Patch. by case_bool_decide. Qed.

(** ** Runs *)

Definition s_seed : list Manifest := [mkManifest s_deployment ""; mkManifest s_role ""].
Definition s_shoot : list Manifest := [mkManifest s_webhook ""; mkManifest s_crd ""].

(** A live CR whose seed inventory holds an object that is no longer rendered. *)
Definition s_live_cr : DualDeploymentOperator :=
  mk_cr "ShootFirst" "Retain" None [FinalizerName] ∅ [rs_of "v1" "ConfigMap" "shoot--demo" "settings"] [].
Definition s_live_world : world := mk_world [own s_configmap s_owner] [] s_live_cr.

(** A CR being deleted, with objects on both clusters. *)
Definition s_dying_cr (annotations : gmap string string) : DualDeploymentOperator :=
  mk_cr "ShootFirst" "Delete" (Some 900%Z) [FinalizerName] annotations
    [rs_of "v1" "ConfigMap" "shoot--demo" "settings"; rs_of "apps/v1" "Deployment" "shoot--demo" "manager"]
    [rs_of "apiextensions.k8s.io/v1" "CustomResourceDefinition" "" "widgets.example.com"].
Definition s_dying_world (annotations : gmap string string) : world :=
  mk_world [own s_configmap s_owner; own s_deployment s_owner] [own s_crd s_owner] (s_dying_cr annotations).

(** ** The simulated servers are lawful *)

Lemma same_name_key key cr : same_name key cr = true <-> cr_key cr = key.
Proof.
  unfold same_name, cr_key. rewrite andb_true_iff, !bool_decide_eq_true. destruct key as [ns n]. cbn [nn_Namespace nn_Name].
  split; [intros [-> ->]; done|by intros [= -> ->]].
Qed.

Lemma stored_cr_key w key cr : stored_cr w key = Some cr -> cr_key cr = key /\ w_cr w = Some cr.
Proof.
  unfold stored_cr. destruct (w_cr w) as [cr'|]; [|done]. destruct (same_name key cr') eqn:E; [|done].
  intros [= ->]. by apply same_name_key in E.
Qed.

(** A stored CR is replaced by one of the same name. *)
Lemma stored_cr_with w key old x :
  stored_cr w key = Some old -> (forall new, x = Some new -> cr_key new = key) ->
  stored_cr (with_cr w x) key = x /\ forall k', k' ≠ key -> stored_cr (with_cr w x) k' = stored_cr w k'.
Proof.
  intros [Hk Hw]%stored_cr_key Hx. unfold stored_cr. cbn [with_cr w_cr].
  assert (forall cr k, cr_key cr = key -> k ≠ key -> same_name k cr = false) as Hne.
  { intros cr k Hcr Hne. destruct (same_name k cr) eqn:E; [|done]. apply same_name_key in E. congruence. }
  split.
  - destruct x as [new|]; [|done]. by rewrite (proj2 (same_name_key key new) (Hx new eq_refl)).
  - intros k' Hk'. rewrite Hw, (Hne old k' Hk Hk'). destruct x as [new|]; [|done]. by rewrite (Hne new k' (Hx new eq_refl) Hk').
Qed.

Definition sim_valid (w : world) : Prop := cl_unmapped (w_seed w) = [] /\ cl_unmapped (w_shoot w) = [].
Definition sim_view (w : world) : view := {|
  v_store side := cl_objects (if side then w_seed w else w_shoot w);
  v_cr := stored_cr w;
|}.

Lemma sim_view_cluster c w : cl_objects (cluster_of c w) = v_store (sim_view w) (on_seed c).
Proof. by destruct c. Qed.

(** Writing one address of a cluster changes nothing else. *)
Lemma sim_write c w a (x : option obj) :
  sim_valid w ->
  let w' := with_cluster c w (mkCluster (partial_alter (fun _ => x) a (cl_objects (cluster_of c w))) (cl_unmapped (cluster_of c w))) in
  sim_valid w' /\ elsewhere (sim_view w) (sim_view w') (on_seed c) a /\ v_store (sim_view w') (on_seed c) !! a = x.
Proof.
  intros [H1 H2]. split_and!; [by destruct c| |by destruct c; cbn; rewrite lookup_partial_alter_eq].
  split; [by destruct c|]. intros side' a' Hne.
  destruct c, side'; cbn; try done; destruct Hne as [?|?]; try done; by rewrite lookup_partial_alter_ne.
Qed.

Lemma sim_mapped c w : sim_valid w -> cl_unmapped (cluster_of c w) = [].
Proof. intros [? ?]. by destruct c. Qed.

(** The simulated servers store objects as they are sent. *)
#[export] Instance sim_Storage : @Storage ref_Unstructured := {| stored_as u o := o = u; stored_label u o H := f_equal owner_of H |}.

(** What the calls of the simulation do to the stores. *)
Section SimSteps.
Context (w : world) (Hv : sim_valid w).

Lemma sim_Get_step c g k : ev_step (sim_view w) (EvGet c g k (sim_Get c g k w)) (sim_view w).
Proof.
  split; [done|]. unfold sim_Get. rewrite (sim_mapped c w Hv), bool_decide_false by apply not_elem_of_nil.
  rewrite sim_view_cluster. by destruct (v_store _ _ !! _).
Qed.

Lemma sim_Patch_step c u : let '(r, w') := sim_Patch c u w in
  sim_valid w' /\ ev_step (sim_view w) (EvPatch c u (snd r)) (sim_view w').
Proof.
  unfold sim_Patch. case_bool_decide as Hm; [rewrite (sim_mapped c w Hv) in Hm; by apply elem_of_nil in Hm|].
  destruct (sim_write c w (obj_address u) (Some u) Hv) as (H1 & H2 & H3). split; [exact H1|].
  split; [exact H2|]. left. exists u. split; [exact H3|done].
Qed.

Lemma sim_Delete_step c u : let '(e, w') := sim_Delete c u w in
  sim_valid w' /\ ev_step (sim_view w) (EvDelete c u e) (sim_view w').
Proof.
  unfold sim_Delete. fold (obj_address u). destruct (cl_objects (cluster_of c w) !! obj_address u) eqn:Eo.
  - destruct (sim_write c w (obj_address u) None Hv) as (H1 & H2 & H3). split; [exact H1|].
    split; [exact H2|]. left. unfold removed. unfold delete, map_delete. by rewrite H3.
  - split; [done|]. rewrite sim_view_cluster in Eo. split; [done|]. left. by rewrite Eo.
Qed.

Lemma sim_CRGet_step k : ev_step (sim_view w) (EvCRGet k
  match stored_cr w k with Some cr => Ok cr | None => Err (not_found (nn_Name k)) end) (sim_view w).
Proof.
  split; [done|]. cbn. destruct (stored_cr w k) as [cr|] eqn:Ec; [|by intros _]. split; [done|]. apply (stored_cr_key _ _ _ Ec).
Qed.

Lemma sim_Update_step cr : let '(r, w') := sim_Update cr w in
  sim_valid w' /\ ev_step (sim_view w) (EvCRUpdate cr (snd r)) (sim_view w').
Proof.
  unfold sim_Update. destruct (stored_cr w (cr_key cr)) as [old|] eqn:Ec; [|done].
  assert (cr_key (with_Status cr (cr_Status old)) = cr_key cr) as Hk by done.
  destruct (negb _ && _) eqn:Eg.
  - apply andb_true_iff in Eg as [_ Hf%Nat.eqb_eq%nil_length_inv]. split; [done|].
    destruct (stored_cr_with w _ _ None Ec) as [Hs Ho]; [done|].
    split; [by split|]. exists old, (with_Status cr (cr_Status old)). split_and!; try done. by right.
  - split; [done|]. destruct (stored_cr_with w _ _ (Some (with_Status cr (cr_Status old))) Ec) as [Hs Ho]; [by intros ? [= <-]|].
    split; [by split|]. exists old, (with_Status cr (cr_Status old)). split_and!; try done. by left.
Qed.

Lemma sim_StatusUpdate_step cr : let '(r, w') := sim_StatusUpdate cr w in
  sim_valid w' /\ ev_step (sim_view w) (EvStatusUpdate cr (fst r) (snd r)) (sim_view w').
Proof.
  unfold sim_StatusUpdate. destruct (stored_cr w (cr_key cr)) as [old|] eqn:Ec; [|done]. split; [done|].
  destruct (stored_cr_with w _ _ (Some (with_Status old (cr_Status cr))) Ec) as [Hs Ho].
  { intros ? [= <-]. by destruct (stored_cr_key _ _ _ Ec) as [? _]. }
  split; [by split|]. exists old. split_and!; [done..|]. by destruct (stored_cr_key _ _ _ Ec) as [? _].
Qed.
End SimSteps.

(** Nobody else writes to the simulated servers. *)
#[export] Instance sim_LawfulServer : LawfulServer sim_Boundary.
Proof.
  refine {| valid := sim_valid : @env sim_Boundary -> Prop; view_of := sim_view : @env sim_Boundary -> view; drift := unchanged |}.
  - done.
  - intros v1 v2 v3 H1 H2. by etrans.
  - intros w k cr _ Hc. apply (stored_cr_key _ _ _ Hc).
  - intros c g k w Hv. split; [done|]. exists (sim_view w). split; [done|]. by apply sim_Get_step.
  - intros c fm u w Hv. pose proof (sim_Patch_step w Hv c u) as H. cbn. destruct (sim_Patch c u w). destruct H as [? Hs]. split; [done|]. exists (sim_view w). by split; [|exact Hs].
  - intros c u w Hv. pose proof (sim_Delete_step w Hv c u) as H. cbn. destruct (sim_Delete c u w). destruct H as [? Hs]. split; [done|]. exists (sim_view w). by split; [|exact Hs].
  - intros k w Hv. split; [done|]. exists (sim_view w). split; [done|]. apply sim_CRGet_step.
  - intros cr w Hv. pose proof (sim_Update_step w Hv cr) as H. cbn. destruct (sim_Update cr w). destruct H as [? Hs]. split; [done|]. exists (sim_view w). by split; [|exact Hs].
  - intros cr w Hv. pose proof (sim_StatusUpdate_step w Hv cr) as H. cbn. destruct (sim_StatusUpdate cr w). destruct H as [? Hs]. split; [done|]. exists (sim_view w). by split; [|exact Hs].
  - done.
  - done.
  - done.
  - done.
Defined.

#[export] Instance fixed_source_tracks {B : Boundary} {LS : LawfulServer B} seed shoot : RenderTracks (fixed_source (B := B) seed shoot).
Proof. split. intros spec ns src mode n [= <-]. apply tracks_ret. Qed.
