(* ===== verification/Bystanders.v ===== *)
(** The simulation with other writers: before every call of the operator somebody else
    writes to both clusters and to the CR. *)

From S2P Require Import Prelude Value Apimachinery Types Clients Manifest Order Boundary Applier Transform Controller Outcomes Safety Reference Cluster Simulator.
#[local] Open Scope list_scope.
Import RefInstances.

(** ** What the others may do *)

Definition other_owner : string := "somebody-else".

(** The user may change the annotations of the CR, but leaves its finalizers alone. *)
Definition edited (cr cr' : DualDeploymentOperator) : Prop :=
  cr_key cr' = cr_key cr /\ meta_Finalizers (cr_meta cr') = meta_Finalizers (cr_meta cr) /\ cr_Status cr' = cr_Status cr.

(** An object stays, goes, or is replaced by one of somebody else. *)
Definition meddled (x x' : option obj) : Prop :=
  x' = x \/ x' = None \/ exists o, x' = Some o /\ owner_of o = other_owner.

Definition meddles (v v' : view) : Prop :=
  (forall side a, meddled (v_store v side !! a) (v_store v' side !! a)) /\
  (forall k, match v_cr v k, v_cr v' k with Some cr, Some cr' => edited cr cr' | None, None => True | _, _ => False end).

Lemma unchanged_meddles v v' : unchanged v v' -> meddles v v'.
Proof.
  intros [Hs Hc]. split; [intros side a; rewrite Hs; by left|]. intros k. rewrite Hc. by destruct (v_cr v k).
Qed.

Lemma meddles_trans v1 v2 v3 : meddles v1 v2 -> meddles v2 v3 -> meddles v1 v3.
Proof.
  intros [Hs1 Hc1] [Hs2 Hc2]. split.
  - intros side a. destruct (Hs2 side a) as [->|H]; [apply Hs1|by right].
  - intros k. specialize (Hc1 k). specialize (Hc2 k). destruct (v_cr v1 k), (v_cr v2 k), (v_cr v3 k); try done.
    destruct Hc1 as (? & ? & ?), Hc2 as (? & ? & ?). split_and!; congruence.
Qed.

(** ** The servers *)

Definition alter_cluster (f : gmap string obj -> gmap string obj) (cl : cluster) : cluster :=
  mkCluster (f (cl_objects cl)) (cl_unmapped cl).

Definition touch (now : Z) (cr : DualDeploymentOperator) : DualDeploymentOperator :=
  let m := cr_meta cr in
  mkDDO (mkObjectMeta (meta_Namespace m) (meta_Name m) (meta_Generation m) (meta_DeletionTimestamp m) (meta_Finalizers m)
           (<["example.com/parity" := if Z.even now then "even" else "odd"]> (meta_Annotations m)))
    (cr_Spec cr) (cr_Status cr).

Definition others_note : obj := own (mk_obj "v1" "ConfigMap" "elsewhere" "note") other_owner.

(** At even times somebody puts a note on both clusters, at odd times somebody deletes it and
    the operator's Deployment with it; each time the user annotates the CR. *)
Definition stir (w : world) : world :=
  let now := w_clock w in
  let f := if Z.even now then <[obj_address others_note := others_note]>
           else fun m => delete (obj_address s_deployment) (delete (obj_address others_note) m) in
  mkWorld (alter_cluster f (w_seed w)) (alter_cluster f (w_shoot w)) (touch now <$> w_cr w) (w_secrets w) (now + 1).

Lemma stir_valid w : sim_valid w -> sim_valid (stir w).
Proof. done. Qed.

Lemma stir_meddles w : meddles (sim_view w) (sim_view (stir w)).
Proof.
  split.
  - intros side a. unfold stir. set (m := v_store (sim_view w) side).
    assert (v_store (sim_view (stir w)) side = (if Z.even (w_clock w) then <[obj_address others_note := others_note]> m
      else delete (obj_address s_deployment) (delete (obj_address others_note) m))) as Hm
      by (subst m; destruct side; cbn; by destruct (Z.even (w_clock w))).
    unfold stir in Hm. rewrite Hm. clear Hm. destruct (Z.even (w_clock w)).
    + destruct (decide (a = obj_address others_note)) as [->|Hne].
      * right. right. exists others_note. split; [apply lookup_insert_eq|by vm_compute].
      * left. by apply lookup_insert_ne.
    + destruct (decide (a = obj_address s_deployment)) as [->|Hne]; [right; left; apply lookup_delete_eq|].
      rewrite lookup_delete_ne by done.
      destruct (decide (a = obj_address others_note)) as [->|Hne']; [right; left; apply lookup_delete_eq|].
      left. by apply lookup_delete_ne.
  - intros k. cbn. unfold stored_cr, stir. cbn. destruct (w_cr w) as [cr|]; [|done]. cbn.
    change (same_name k (touch (w_clock w) cr)) with (same_name k cr). by destruct (same_name k cr).
Qed.

(** Every call of the operator is preceded by a write of the others. *)
Definition busy_Boundary : Boundary := {|
  env := world;
  client_Get c g k w := client_Get (Boundary := sim_Boundary) c g k (stir w);
  client_Patch c fm u w := client_Patch (Boundary := sim_Boundary) c fm u (stir w);
  client_Delete c u w := client_Delete (Boundary := sim_Boundary) c u (stir w);
  cr_Get k w := cr_Get (Boundary := sim_Boundary) k (stir w);
  cr_Update cr w := cr_Update (Boundary := sim_Boundary) cr (stir w);
  cr_StatusUpdate cr w := cr_StatusUpdate (Boundary := sim_Boundary) cr (stir w);
  secret_Get k w := secret_Get (Boundary := sim_Boundary) k (stir w);
  client_New cfg w := client_New (Boundary := sim_Boundary) cfg (stir w);
  recorder_Eventf a b c d w := recorder_Eventf (Boundary := sim_Boundary) a b c d (stir w);
  time_Now w := time_Now (Boundary := sim_Boundary) (stir w);
|}.

#[export] Instance busy_LawfulServer : LawfulServer busy_Boundary.
Proof.
  refine {| valid := sim_valid : @env busy_Boundary -> Prop; view_of := sim_view : @env busy_Boundary -> view; drift := meddles |}.
  - exact unchanged_meddles.
  - exact meddles_trans.
  - intros w k cr _ Hc. apply (stored_cr_key _ _ _ Hc).
  - intros c g k w Hv. split; [exact (stir_valid w Hv)|]. exists (sim_view (stir w)). split; [exact (stir_meddles w)|].
    exact (sim_Get_step (stir w) (stir_valid w Hv) c g k).
  - intros c fm u w Hv. pose proof (sim_Patch_step (stir w) (stir_valid w Hv) c u) as H. cbn. destruct (sim_Patch c u (stir w)).
    destruct H as [? Hs]. split; [done|]. exists (sim_view (stir w)). split; [exact (stir_meddles w)|exact Hs].
  - intros c u w Hv. pose proof (sim_Delete_step (stir w) (stir_valid w Hv) c u) as H. cbn. destruct (sim_Delete c u (stir w)).
    destruct H as [? Hs]. split; [done|]. exists (sim_view (stir w)). split; [exact (stir_meddles w)|exact Hs].
  - intros k w Hv. split; [exact (stir_valid w Hv)|]. exists (sim_view (stir w)). split; [exact (stir_meddles w)|exact (sim_CRGet_step (stir w) k)].
  - intros cr w Hv. pose proof (sim_Update_step (stir w) (stir_valid w Hv) cr) as H. cbn. destruct (sim_Update cr (stir w)).
    destruct H as [? Hs]. split; [done|]. exists (sim_view (stir w)). split; [exact (stir_meddles w)|exact Hs].
  - intros cr w Hv. pose proof (sim_StatusUpdate_step (stir w) (stir_valid w Hv) cr) as H. cbn. destruct (sim_StatusUpdate cr (stir w)).
    destruct H as [? Hs]. split; [done|]. exists (sim_view (stir w)). split; [exact (stir_meddles w)|exact Hs].
  - intros k w Hv. split; [exact (stir_valid w Hv)|exact (stir_meddles w)].
  - intros cfg w Hv. split; [exact (stir_valid w Hv)|exact (stir_meddles w)].
  - intros a b c d w Hv. split; [exact (stir_valid w Hv)|exact (stir_meddles w)].
  - intros w Hv. split; [exact (stir_valid w Hv)|exact (stir_meddles w)].
Defined.

#[export] Instance busy_FaithfulServer : FaithfulServer busy_Boundary.
Proof. split. intros c f u s. exact (patch_identity (B := sim_Boundary) c f u (stir s)). Qed.
