(* ===== verification/ReconcileProps.v ===== *)
(** Properties of whole runs of Reconcile, for every behaviour of the API servers. *)

From S2P Require Import Prelude Value Apimachinery Types Clients Manifest Order Boundary Applier Transform Controller Outcomes Safety ApplierProps Reference Simulator.

#[local] Opaque IsClusterScoped computeHealth prepared OwnedByValue.

#[local] Instance preceded_closed need : TraceClosed (preceded need).
Proof. split; [apply preceded_nil|apply preceded_app]. Qed.

(** Metadata and spec updates of the CR. *)
Definition is_cr_update (ev : event) : Prop := exists cr e, ev = EvCRUpdate cr e.

Section Reconcile.
Context {U : Unstructured} {E : ApiErrors} {L : MetaLib} {P : PatchLib} {B : Boundary}
  {SP : SourcePackage B} (r : Reconciler) `{!ReconcilerContract r} `{!SourceContract SP}.

(** The calls of a run, by owner. *)
Lemma post_Reconcile_ownership req :
  post (Reconcile r req) (fun _ t => exists got t', t = EvCRGet req got :: t' /\
    match got with
    | Ok cr => preceded (ownership_need (owner_value cr)) t'
    | Err _ => t' = []
    end).
Proof.
  apply (post_Reconcile_always r (fun ob => preceded (ownership_need ob))).
  - intros ob ev (Hw & _). apply preceded_one. by destruct ev.
  - intros. by apply preceded_one.
  - intros. by apply preceded_one.
  - intros. by eapply apply_all_preceded.
  - intros. by eapply prune_preceded.
  - intros. by eapply delete_all_preceded.
Qed.

(** C1: ownership safety of every reconcile, on both clusters and whatever the API
    servers answer: an object is deleted only right after a GET that shows it
    with this CR's owned-by label, and a cluster-scoped object is applied only
    right after a GET that shows it absent, unlabelled or labelled as ours. *)
Theorem reconcile_respects_ownership req :
  post (Reconcile r req) (fun _ t => exists got t', t = EvCRGet req got :: t' /\
    match got with
    | Ok cr => preceded (ownership_need (owner_value cr)) t'
    | Err _ => t' = []
    end).
Proof. apply post_Reconcile_ownership. Qed.

(** C38: A CR that is not being deleted and lacks the finalizer gets it before
    anything else happens: the run reads the CR, writes it back with the
    finalizer added and the others kept, and stops; no cluster object is touched. *)
Theorem reconcile_adds_finalizer_first (LL : MetaLibLaws L) req :
  post (Reconcile r req) (fun res t => forall cr t',
    t = EvCRGet req (Ok cr) :: t' ->
    Time_IsZero (meta_DeletionTimestamp (cr_meta cr)) = true ->
    FinalizerName ∉ meta_Finalizers (cr_meta cr) ->
    exists fs e, t' = [EvCRUpdate (with_Finalizers cr fs) e] /\ res = (Result0, e) /\
      forall f, f ∈ fs <-> f = FinalizerName \/ f ∈ meta_Finalizers (cr_meta cr)).
Proof.
  unfold Reconcile. eapply post_bind; [apply post_GetCR|]. cbn beta. intros got t ->.
  destruct got as [cr|err]; [|apply post_ret; by intros ? ? [=]].
  destruct (Time_IsZero _) eqn:Hd; cbn [negb];
    [|apply post_all; intros res t cr' t' [= <- _] Hz; congruence].
  destruct (ContainsFinalizer _ _) eqn:Ec; cbn [negb].
  { apply post_all. intros res t cr' t' [= <- _] _ []. by apply ContainsFinalizer_law. }
  eapply post_bind; [apply post_UpdateCR|]. cbn beta. intros [cr'' e] t ->.
  apply post_ret. intros cr' t' [= <- <-] _ _. eexists _, e. split_and!; [done..|]. intros f. apply AddFinalizer_law.
Qed.
End Reconcile.

(** ** Conditions and failed renders *)

(** The Ready condition is the worst of both inventories: False/ResourcesDegraded when
    any resource is Degraded, else False/Progressing when any is Progressing or
    Unknown, and True exactly when every resource is neither. *)
Theorem ready_condition_is_worst seed shoot :
  let all := (seed ++ shoot)%list in
  let c := computeConditions seed shoot in
  c_Type c = "Ready" /\
  (c_Status c = ConditionTrue <->
   forall rs, rs ∈ all -> rs_Health rs ∉ [HealthDegraded; HealthProgressing; HealthUnknown]) /\
  (c_Reason c = "ResourcesDegraded" <-> exists rs, rs ∈ all /\ rs_Health rs = HealthDegraded) /\
  (c_Reason c = "Progressing" <->
   (forall rs, rs ∈ all -> rs_Health rs ≠ HealthDegraded) /\
   exists rs, rs ∈ all /\ rs_Health rs ∈ [HealthProgressing; HealthUnknown]).
Proof.
  cbn zeta. unfold computeConditions, anyFailed, anyProgressing. rewrite <- !existsb_app.
  set (f := fun s => bool_decide (rs_Health s = HealthDegraded)). set (g := fun s => _ || _).
  assert (forall p, existsb p (seed ++ shoot) = true <-> exists rs, rs ∈ (seed ++ shoot)%list /\ p rs = true) as He.
  { intros p. rewrite existsb_exists. by setoid_rewrite list_elem_of_In. }
  assert (forall rs, f rs = true <-> rs_Health rs = HealthDegraded) as Hf by (intros; apply bool_decide_eq_true).
  assert (forall rs, g rs = true <-> rs_Health rs ∈ [HealthProgressing; HealthUnknown]) as Hg.
  { intros rs. unfold g. rewrite orb_true_iff, !bool_decide_eq_true, !elem_of_cons, elem_of_nil. tauto. }
  destruct (existsb f (seed ++ shoot)) eqn:Ef; [|destruct (existsb g (seed ++ shoot)) eqn:Eg].
  - apply He in Ef as (rs & Hin & Hd%Hf). split_and!; [done| | |]; cbn.
    + split; [done|]. intros H. destruct (H rs Hin). rewrite Hd. by repeat constructor.
    + split; [eauto|done].
    + split; [done|]. intros [H _]. by destruct (H rs Hin).
  - apply not_true_iff_false in Ef. apply He in Eg as (rs & Hin & Hp%Hg).
    split_and!; [done| | |]; cbn.
    + split; [done|]. intros H. destruct (H rs Hin). by right.
    + split; [done|]. intros (rs' & Hin' & Hd%Hf). destruct Ef. apply He. eauto.
    + split; [|done]. intros _. split; [|eauto]. intros rs' Hin' Hd%Hf. destruct Ef. apply He. eauto.
  - apply not_true_iff_false in Ef, Eg. split_and!; [done| | |]; cbn.
    + split; [|done]. intros _ rs Hin [Hd%Hf|Hp%Hg]%elem_of_cons; [destruct Ef|destruct Eg]; apply He; eauto.
    + split; [done|]. intros (rs & Hin & Hd%Hf). destruct Ef. apply He. eauto.
    + split; [done|]. intros (_ & rs & Hin & Hp%Hg). destruct Eg. apply He. eauto.
Qed.

Section FailedRender.
Context {U : Unstructured} {E : ApiErrors} {L : MetaLib} {P : PatchLib} {B : Boundary}
  {SP : SourcePackage B} (r : Reconciler) `{!SourceContract SP}.

Lemma post_render_both cr :
  post (render_both cr) (fun res t => Forall quiet t /\
    match res with
    | inr (reason, _) => reason ∈ ["InvalidSource"; "SeedRenderFailed"; "ShootRenderFailed";
        "InvalidTransformation"; "SeedTransformFailed"; "ShootTransformFailed"]
    | inl _ => True
    end).
Proof.
  assert (forall ts a b, match transform_both ts a b with
    | inr (reason, _) => reason ∈ ["SeedTransformFailed"; "ShootTransformFailed"] | inl _ => True end) as Ht.
  { intros ts. induction ts as [|t ts IH]; intros a b; cbn; [done|].
    destruct (transformation_Apply t a); [|by repeat constructor].
    destruct (transformation_Apply t b); [apply IH|by repeat constructor]. }
  unfold render_both. destruct (source_From _ _) as [src|] eqn:Es;
    [|apply post_ret; split; [done|by repeat constructor]].
  eapply post_bind; [by eapply render_quiet|]. cbn beta. intros [sm|e] t1 Hq1;
    [|apply post_ret; rewrite app_nil_r; split; [done|by repeat constructor]].
  eapply post_bind; [by eapply render_quiet|]. cbn beta. intros [hm|e] t2 Hq2;
    [|apply post_ret; rewrite app_nil_r; split; [by apply Forall_app|by repeat constructor]].
  destruct (Build _) as [ts|e]; apply post_ret; rewrite app_nil_r;
    (split; [by apply Forall_app|]); [|by repeat constructor].
  specialize (Ht ts sm hm). destruct (transform_both ts sm hm) as [|[reason e]]; [done|].
  rewrite !elem_of_cons, elem_of_nil in *. tauto.
Qed.

(** C15: a failed render is inert: when rendering or transforming fails, the reconcile
    touches no object of either cluster, writes the status once with both
    inventories as they were and Ready=False with the failing step and the error,
    and returns that error. *)
Theorem failed_render_is_inert (LL : MetaLibLaws L) cr s reason err tr s1 :
  render_both cr s = (inr (reason, err), tr, s1) ->
  exists sent lft e s2,
    reconcile_live r cr s = (Result0, Some err, (tr ++ [EvStatusUpdate sent lft e])%list, s2) /\
    Forall quiet tr /\
    cr_meta sent = cr_meta cr /\ cr_Spec sent = cr_Spec cr /\
    status_SeedResources (cr_Status sent) = status_SeedResources (cr_Status cr) /\
    status_ShootResources (cr_Status sent) = status_ShootResources (cr_Status cr) /\
    exists c, find_condition "Ready" (status_Conditions (cr_Status sent)) = Some c /\
      c_Status c = ConditionFalse /\ c_Reason c = reason /\ c_Message c = Error err /\
      reason ∈ ["InvalidSource"; "SeedRenderFailed"; "ShootRenderFailed";
                "InvalidTransformation"; "SeedTransformFailed"; "ShootTransformFailed"].
Proof.
  intros Hr. pose proof (post_run _ _ _ _ _ _ (post_render_both cr) Hr) as [Hq Hin].
  unfold reconcile_live, errStatus, setCondition, set_status_condition, bind at 1. rewrite Hr.
  unfold bind, Now, StatusUpdate, ret. destruct (time_Now s1) as [now s2], (time_Now s2) as [now' s3].
  destruct (cr_StatusUpdate _ s3) as [[lft e] s4]. cbn [app fst snd]. eexists _, lft, e, s4.
  rewrite ?app_nil_r. split_and!; [done..|]. cbn.
  destruct (SetStatusCondition_same now (status_Conditions (cr_Status cr))
    (mkCondition "Ready" ConditionFalse reason (Error err) (meta_Generation (cr_meta cr)) None))
    as (c & Hc & H1 & H2 & H3 & H4 & _). exists c. by split_and!.
Qed.
End FailedRender.

(** ** Witnesses *)

Import RefInstances.

#[local] Instance wit_source : SourcePackage sim_Boundary := fixed_source s_seed s_shoot.
Abbreviation wit_run w := (Reconcile (production_reconciler sim_Boundary) s_req w).

Lemma reconcile_respects_ownership_witness :
  post (Reconcile (production_reconciler sim_Boundary) s_req) (fun _ t =>
    exists got t', t = EvCRGet s_req got :: t' /\
      match got with Ok cr => preceded (ownership_need (owner_value cr)) t' | Err _ => t' = [] end) /\
  count is_delete (calls_of (wit_run s_live_world)) = 1 /\ count is_patch (calls_of (wit_run s_live_world)) = 4.
Proof.
  split; [exact (reconcile_respects_ownership (production_reconciler sim_Boundary) s_req)|].
  by vm_compute.
Defined.

Lemma reconcile_adds_finalizer_first_witness :
  let cr := mk_cr "ShootFirst" "Retain" None ["other"] ∅ [] [] in
  let w := mk_world [] [] cr in
  exists fs e, calls_of (wit_run w) = [EvCRGet s_req (Ok cr); EvCRUpdate (with_Finalizers cr fs) e] /\
    result_of (wit_run w) = (Result0, e) /\ forall f, f ∈ fs <-> f = FinalizerName \/ f ∈ ["other"].
Proof.
  intros cr w.
  pose proof (reconcile_adds_finalizer_first (production_reconciler sim_Boundary) _ s_req w) as H.
  assert (exists t', calls_of (wit_run w) = EvCRGet s_req (Ok cr) :: t') as [t' Ht] by by eexists.
  unfold calls_of, result_of in *. destruct (wit_run w) as [[res t] s]. cbn [fst snd] in *.
  destruct (H cr t' Ht) as (fs & e & -> & -> & Hf); [done|by intros ?%list_elem_of_singleton|]. subst. eauto 10.
Defined.

(** A spec with an entry that sets no transformation. *)
Lemma failed_render_is_inert_witness :
  let cr := mkDDO (cr_meta s_live_cr) (mkSpec s_source s_access "widgets-system" [mkTransformation None None None]
              (mkRetentionPolicy "") "") (cr_Status s_live_cr) in
  exists sent lft e s2 err,
    reconcile_live (production_reconciler sim_Boundary) cr s_live_world =
      (Result0, Some err, [EvStatusUpdate sent lft e], s2) /\
    status_SeedResources (cr_Status sent) = status_SeedResources (cr_Status s_live_cr).
Proof.
  intros cr.
  destruct (failed_render_is_inert (production_reconciler sim_Boundary) _ cr s_live_world
    "InvalidTransformation" (ENew "exactly one transformation type must be set per entry, got 0") [] s_live_world)
    as (sent & lft & e & s2 & Hr & _ & _ & _ & Hs & _); [by vm_compute|].
  exists sent, lft, e, s2. eexists. split; [exact Hr|exact Hs].
Defined.
