(* ===== verification/DeliverProps.v ===== *)
(** Properties of the delivery half of a reconcile: the gate between the clusters,
    the inventory, pruning, and what a successful result means. *)

From S2P Require Import Prelude Value Apimachinery Types Clients Manifest Order Boundary Applier Transform Controller Outcomes Safety ApplierProps Deliver Reference Simulator.

#[local] Opaque IsClusterScoped computeHealth prepared OwnedByValue.

(** ** Facts about the outcomes *)

Definition seed_write (ev : event) : Prop := write_client ev = Some SeedClient.

Lemma quiet_no_seed_write t : Forall quiet t -> Forall (fun ev => ~ seed_write ev) t.
Proof. intros H. eapply Forall_impl; [exact H|]. intros ev (Hw & _) Hs. unfold seed_write in Hs. congruence. Qed.

Lemma shoot_no_seed_write cfg t :
  Forall (on_client (ShootClient cfg)) t -> Forall (fun ev => ~ seed_write ev) t.
Proof. intros H. eapply Forall_impl; [exact H|]. unfold seed_write. intros []; cbn; congruence. Qed.

Lemma no_seed_write_in t t1 ev t2 :
  Forall (fun ev => ~ seed_write ev) t -> t = (t1 ++ ev :: t2)%list -> seed_write ev -> False.
Proof. intros Hn -> Hev. rewrite Forall_app, Forall_cons in Hn. tauto. Qed.

Section Half.
Context {U : Unstructured} {E : ApiErrors} {B : Boundary}.

Lemma half_client cr c ms out ret ea ep ta tp :
  half cr c ms out ret ea ep ta tp -> Forall (on_client c) (ta ++ tp).
Proof.
  intros (ms' & errs & errs' & _ & Ha & _ & Hp & _). apply Forall_app.
  split; [by eapply apply_all_client|by eapply prune_client].
Qed.

Lemma half_clients cr c ms out ret ea ep ta tp :
  half cr c ms out ret ea ep ta tp -> Forall (on_client c) ta /\ Forall (on_client c) tp.
Proof. intros H. by apply half_client, Forall_app in H. Qed.

Lemma status_write_no_seed_write {L : MetaLib} cr a b cond e ts :
  status_write cr a b cond e ts -> Forall (fun ev => ~ seed_write ev) ts.
Proof. intros (? & ? & ? & ->). by repeat constructor. Qed.

Lemma half_length cr c ms out ret ea ep ta tp :
  half cr c ms out ret ea ep ta tp -> length out = length ms.
Proof.
  intros (ms' & errs & errs' & _ & Ha & _). symmetry. by eapply Forall2_length, apply_all_statuses.
Qed.

(** An object sent in this half is recorded in its inventory. *)
Lemma half_recorded cr c ms out ret ea ep ta tp c' u e :
  half cr c ms out ret ea ep ta tp -> EvPatch c' u e ∈ (ta ++ tp)%list ->
  c' = c /\ exists rs, rs ∈ (out ++ ret)%list /\ status_of u rs.
Proof.
  intros (ms' & errs & errs' & _ & Ha & _ & Hp & _) [Hin|Hin]%elem_of_app.
  - destruct (apply_all_recorded _ _ _ _ _ _ _ _ _ Ha Hin) as [-> (rs & Hrs & Hs)].
    split; [done|]. exists rs. split; [in_goal|done].
  - by eapply prune_no_patch in Hin.
Qed.

(** Only what is recorded and no longer rendered is deleted. *)
Lemma half_deletes cr c ms out ret ea ep ta tp c' u e :
  half cr c ms out ret ea ep ta tp -> EvDelete c' u e ∈ (ta ++ tp)%list ->
  c' = c /\ exists rs ms', rs ∈ inventory c cr /\ u = m_Unstructured (ManifestFromStatus rs) /\
    crd_retained cr rs = false /\ Forall2 (left_by_apply c (owner_value cr)) ms ms' /\
    StatusIdentityKey rs ∉ map ManifestIdentityKey ms'.
Proof.
  intros Hh Hin. split.
  { pose proof (half_client _ _ _ _ _ _ _ _ _ Hh) as Hc. rewrite Forall_forall in Hc. apply (Hc _ Hin). }
  destruct Hh as (ms' & errs & errs' & Hl & Ha & _ & Hp & _).
  apply elem_of_app in Hin as [Hin|Hin]; [by eapply apply_all_no_delete in Hin|].
  destruct (prune_deletes_orphans _ _ _ _ _ _ _ _ _ _ _ Hp Hin) as (rs & Hrs & -> & Hk & Hc).
  exists rs, ms'. by rewrite elem_of_SortStatusForDelete in Hrs.
Qed.

Context {UL : UnstructuredLaws U} `{!FaithfulServer B}.

(** What the API server returned for an object has the key of the object sent. *)
Lemma left_by_apply_key c ob m m' :
  left_by_apply c ob m m' ->
  ManifestIdentityKey m' = ManifestIdentityKey (mkManifest (prepared (m_Unstructured m) ob) (m_Origin m)).
Proof.
  intros [_ [Hu|(f & s & Hu)]]; unfold ManifestIdentityKey; rewrite Hu; [done|]. cbn [m_Unstructured].
  destruct (patch_identity c f (prepared (m_Unstructured m) ob) s) as (-> & -> & ->). done.
Qed.

Definition well_formed (m : Manifest) : Prop :=
  well_typed (m_Unstructured m) /\ parseable (m_Unstructured m).

(** The status recorded for a manifest has the key prune compares with. *)
Lemma rendered_key ob m st :
  well_formed m -> status_of (prepared (m_Unstructured m) ob) st ->
  StatusIdentityKey st = ManifestIdentityKey (mkManifest (prepared (m_Unstructured m) ob) (m_Origin m)).
Proof.
  intros [Hw [gv Hp]] Hs. eapply status_of_key; [done|].
  destruct (prepared_spec _ ob Hw) as (_ & _ & -> & _). exact Hp.
Qed.

(** Every entry of the old inventory is accounted for. *)
Lemma half_accounted cr c ms out ret ea ep ta tp rs :
  half cr c ms out ret ea ep ta tp -> Forall well_formed ms -> rs ∈ inventory c cr ->
  accounted c (owner_value cr) cr (out ++ ret) (ta ++ tp) rs.
Proof.
  intros (ms' & errs & errs' & Hl & Ha & _ & Hp & _) Hwf Hin.
  rewrite <- elem_of_SortStatusForDelete in Hin.
  destruct (prune_accounts _ _ _ _ _ _ _ _ _ Hp Hin) as [Hk|[Hc|[Hr|[Hcl|(e & He & Hn)]]]].
  - left. apply list_elem_of_In, in_map_iff in Hk as (m' & Hk & Hm'%list_elem_of_In).
    apply list_elem_of_lookup in Hm' as [i Hi].
    destruct (Forall2_lookup_r _ _ _ _ _ Hl Hi) as (m & Hm & Hlm).
    pose proof (apply_all_statuses _ _ _ _ _ _ Ha) as Hst.
    destruct (Forall2_lookup_l _ _ _ _ _ Hst Hm) as (st & Hsi & Hs).
    exists st. split; [apply elem_of_app; left; by eapply list_elem_of_lookup_2|].
    rewrite <- Hk, (left_by_apply_key _ _ _ _ Hlm). apply rendered_key; [|done].
    rewrite Forall_forall in Hwf. apply Hwf. by eapply list_elem_of_lookup_2.
  - by right; left.
  - apply accounted_kept. in_goal.
  - right; right; left. eapply cleared_mono; [|exact Hcl]. in_goal.
  - right; right; right. exists e. split; [in_goal|done].
Qed.
End Half.

(** A call of a delivery is a read or belongs to the half of one cluster. *)
Lemma deliver_outcome_calls {U : Unstructured} {E : ApiErrors} {L : MetaLib} {B : Boundary}
  cr seed shoot res tc so sho cond e ev :
  deliver_outcome cr seed shoot res tc so sho cond e -> ev ∈ tc ->
  quiet ev \/ exists c ms out ret ea ep ta tp,
    (c = SeedClient /\ ms = seed \/ exists cfg, c = ShootClient cfg /\ ms = shoot) /\
    half cr c ms out ret ea ep ta tp /\ ev ∈ (ta ++ tp)%list.
Proof.
  assert (forall tb, Forall quiet tb -> ev ∈ tb -> quiet ev) as Hqt by (intros tb; rewrite Forall_forall; auto).
  assert (forall c ms out ret ea ep ta tp,
    (c = SeedClient /\ ms = seed \/ exists cfg, c = ShootClient cfg /\ ms = shoot) ->
    half cr c ms out ret ea ep ta tp -> ev ∈ ta \/ ev ∈ tp ->
    exists c ms out ret ea ep ta tp,
      (c = SeedClient /\ ms = seed \/ exists cfg, c = ShootClient cfg /\ ms = shoot) /\
      half cr c ms out ret ea ep ta tp /\ ev ∈ (ta ++ tp)%list) as Hw.
  { intros c ms out ret ea ep ta tp Hc Hh Hin. exists c, ms, out, ret, ea, ep, ta, tp.
    split_and!; [done..|]. by apply elem_of_app. }
  destruct 1 as [tb ? ? ? ? _ Hq _|? ? ? ? ? ? ? ? ? ? ? _ Hq _ Hh|? ? ? ? ? ? ? ? ? ? ? _ Hq Hh _ _
                |? ? ? ? ? ? ? ? ? ? ? ? ? ? ? _ Hq Hh _ Hh'|? ? ? ? ? ? ? ? ? ? ? ? ? ? ? _ Hq Hh Hh'];
    intros Hin; rewrite ?elem_of_app in Hin; repeat match type of Hin with _ \/ _ => destruct Hin as [Hin|Hin] end;
    try (left; by eapply Hqt); right.
  all: try (eapply Hw; [left|exact Hh|]; eauto; fail).
  all: try (eapply Hw; [left|exact Hh'|]; eauto; fail).
  all: eapply Hw; [right|exact Hh|]; eauto.
Qed.

(** ** Claims *)

Section Claims.
Context {U : Unstructured} {E : ApiErrors} {L : MetaLib} {P : PatchLib} {B : Boundary}
  {SP : SourcePackage B} (r : Reconciler) `{!ReconcilerContract r}.

(** C10: the ShootFirst gate. Unless applyOrder is SeedFirst, no object of the seed
    is applied or deleted before the shoot's API server has accepted every
    object of the shoot render. *)
Theorem seed_waits_for_shoot cr seed shoot :
  spec_ApplyOrder (cr_Spec cr) ≠ "SeedFirst" ->
  post (deliver r cr seed shoot) (fun _ t => forall t1 ev t2,
    t = (t1 ++ ev :: t2)%list -> write_client ev = Some SeedClient ->
    exists cfg, forall m, m ∈ shoot ->
      EvPatch (ShootClient cfg) (prepared (m_Unstructured m) (owner_value cr)) None ∈ t1).
Proof.
  intros Ho. eapply post_mono; [by apply post_deliver|].
  intros res t (tc & ts & so & sho & cond & e & -> & Hw & Hd) t1 ev t2 Ht Hev.
  apply status_write_no_seed_write in Hw.
  inversion Hd as [tb ? ? ? ? _ Hq _| |tb cfg ta tp out ret ea ep ? ? ? _ Hq Hh _ _
                  |tb cfg ta ta' tp tp' out out' ret ret' ea ea' ep ep' ? _ Hq Hh Hf Hh'|]; subst; try done.
  - destruct (no_seed_write_in (tc ++ ts) t1 ev t2); [|done..].
    apply Forall_app. split; [by apply quiet_no_seed_write|done].
  - destruct (no_seed_write_in ((tb ++ ta ++ tp) ++ ts) t1 ev t2); [|done..].
    apply half_client, shoot_no_seed_write in Hh. rewrite !Forall_app in *.
    split_and!; try tauto. by apply quiet_no_seed_write.
  - exists cfg. destruct Hh as (ms' & errs & errs' & _ & Ha & _).
    rewrite <- !app_assoc, (app_assoc tb) in Ht.
    destruct (after_prefix seed_write _ _ _ _ _ Ht) as (k & -> & _); [|done|].
    { rewrite Forall_app. split; [by apply quiet_no_seed_write|].
      eapply shoot_no_seed_write, apply_all_client, Ha. }
    destruct (apply_all_no_failure _ _ _ _ _ _ (fun live => computeHealth_not_degraded (Some live)) Ha Hf) as [_ Hall].
    intros m Hm%elem_of_SortForApply%Hall. in_goal.
Qed.

(** The inventories written: what was sent is in them, and what was in the old
    ones is accounted for. *)
Definition inventories_kept (cr : DualDeploymentOperator) (tc : list event)
  (seedOut shootOut : list ResourceStatus) : Prop :=
  let out c := if on_seed c then seedOut else shootOut in
  (forall c u e, EvPatch c u e ∈ tc -> exists rs, rs ∈ out c /\ status_of u rs) /\
  (forall c rs, rs ∈ inventory c cr -> exists c',
     on_seed c' = on_seed c /\ accounted c' (owner_value cr) cr (out c) tc rs).

Lemma quiet_no_patch tb c u e : Forall quiet tb -> EvPatch c u e ∉ tb.
Proof. rewrite Forall_forall. intros Hq Hin. by destruct (Hq _ Hin). Qed.

Context (UL : UnstructuredLaws U) (FS : FaithfulServer B).

(** One half run, the other inventory kept as it was. *)
Lemma one_half_kept cr c ms out ret ea ep ta tp tb :
  half cr c ms out ret ea ep ta tp -> Forall well_formed ms -> Forall quiet tb ->
  inventories_kept cr (tb ++ ta ++ tp)
    (if on_seed c then out ++ ret else status_SeedResources (cr_Status cr))
    (if on_seed c then status_ShootResources (cr_Status cr) else out ++ ret).
Proof.
  intros Hh Hwf Hq. split.
  - intros c' u e [Hin|Hin]%elem_of_app; [by eapply quiet_no_patch in Hin|].
    destruct (half_recorded _ _ _ _ _ _ _ _ _ _ _ _ Hh Hin) as [-> Hr]. by destruct c.
  - intros c' rs Hin. destruct (decide (on_seed c' = on_seed c)) as [Es|Es].
    + exists c. split; [done|]. assert (rs ∈ inventory c cr) as Hin' by by destruct c, c'.
      eapply accounted_mono; [| |by eapply half_accounted]; [|in_goal]. by destruct c, c'.
    + exists c'. split; [done|]. apply accounted_kept. by destruct c, c'.
Qed.

(** Both halves run. *)
Lemma two_halves_kept cr cfg ms ms' out out' ret ret' ea ea' ep ep' ta ta' tp tp' tc :
  half cr (ShootClient cfg) ms out ret ea ep ta tp -> half cr SeedClient ms' out' ret' ea' ep' ta' tp' ->
  Forall well_formed ms -> Forall well_formed ms' ->
  (forall c u e, EvPatch c u e ∈ tc -> EvPatch c u e ∈ (ta ++ tp)%list \/ EvPatch c u e ∈ (ta' ++ tp')%list) ->
  (forall ev, ev ∈ (ta ++ tp)%list \/ ev ∈ (ta' ++ tp')%list -> ev ∈ tc) ->
  inventories_kept cr tc (out' ++ ret') (out ++ ret).
Proof.
  intros Hh Hh' Hwf Hwf' Hsub Hsup. split.
  - intros c u e [Hin|Hin]%Hsub.
    + destruct (half_recorded _ _ _ _ _ _ _ _ _ _ _ _ Hh Hin) as [-> Hr]. done.
    + destruct (half_recorded _ _ _ _ _ _ _ _ _ _ _ _ Hh' Hin) as [-> Hr]. done.
  - intros [|cfg'] rs Hin; [exists SeedClient|exists (ShootClient cfg)]; (split; [done|]).
    + eapply accounted_mono; [| |by eapply half_accounted]; [done|eauto].
    + eapply accounted_mono; [| |by eapply half_accounted]; [done|eauto].
Qed.

(** What a delivery writes into the inventories. *)
Lemma post_deliver_inventories cr seed shoot :
  Forall well_formed seed -> Forall well_formed shoot ->
  post (deliver r cr seed shoot) (fun _ t => exists tc seedOut shootOut cond e ts,
    t = (tc ++ ts)%list /\ status_write cr seedOut shootOut cond e ts /\
    inventories_kept cr tc seedOut shootOut).
Proof.
  intros Hs Hsh. apply Forall_SortForApply in Hs, Hsh. eapply post_mono; [by apply post_deliver|].
  intros res t (tc & ts & so & sho & cond & e & -> & Hw & Hd). exists tc, so, sho, cond, e, ts.
  split_and!; [done..|]. clear Hw ts.
  destruct Hd as [tb ? ? ? ? _ Hq _|? ? ? ? ? ? ? ? ? ? ? _ Hq _ Hh|? ? ? ? ? ? ? ? ? ? ? _ Hq Hh _ _
                 |? ? ? ? ? ? ? ? ? ? ? ? ? ? ? _ Hq Hh _ Hh'|? ? ? ? ? ? ? ? ? ? ? ? ? ? ? _ Hq Hh Hh'].
  - split; [intros ? ? ? Hin; by eapply quiet_no_patch in Hin|].
    intros c rs Hin. exists c. split; [done|]. apply accounted_kept. by destruct c.
  - exact (one_half_kept _ _ _ _ _ _ _ _ _ _ Hh Hs Hq).
  - exact (one_half_kept _ _ _ _ _ _ _ _ _ _ Hh Hsh Hq).
  - apply (two_halves_kept _ _ _ _ _ _ _ _ _ _ _ _ _ _ _ _ _ Hh Hh' Hsh Hs); [|in_goal].
    intros c u e' Hin. rewrite !elem_of_app in *. pose proof (quiet_no_patch tb c u e' Hq). tauto.
  - apply (two_halves_kept _ _ _ _ _ _ _ _ _ _ _ _ _ _ _ _ _ Hh Hh' Hsh Hs); [|in_goal].
    intros c u e' Hin. rewrite !elem_of_app in *. pose proof (quiet_no_patch tb c u e' Hq). tauto.
Qed.

(** C11: the inventory never loses an object. Every delivery ends with one status
    write; in the inventories it writes, every object sent to a cluster (accepted
    or refused) has its entry, and every entry of the previous inventory is
    still there, replaced by an entry for the same object, a CRD kept by policy,
    or for an object that is gone, not ours, deleted, or of a kind that the server no
    longer knows. *)
Theorem deliver_keeps_inventory cr seed shoot :
  Forall well_formed seed -> Forall well_formed shoot ->
  post (deliver r cr seed shoot) (fun _ t => exists tc seedOut shootOut cond e ts,
    t = (tc ++ ts)%list /\ status_write cr seedOut shootOut cond e ts /\
    inventories_kept cr tc seedOut shootOut).
Proof. apply post_deliver_inventories. Qed.

Lemma prepared_key ob m :
  well_formed m ->
  ManifestIdentityKey (mkManifest (prepared (m_Unstructured m) ob) (m_Origin m)) = ManifestIdentityKey m.
Proof.
  intros [Hw [gv Hp]]. destruct (prepared_spec _ ob Hw) as (_ & Hk & Ha & Hns & Hn & _).
  unfold ManifestIdentityKey. cbn [m_Unstructured].
  rewrite (GetGroupVersionKind_ok (prepared _ _) gv) by by rewrite Ha.
  by rewrite (GetGroupVersionKind_ok (m_Unstructured m) gv), Hk, Hns, Hn.
Qed.

(** [u] was recorded on the side of [c], is no longer in the render [ms] of that
    side, and is not a CRD kept by policy. *)
Definition orphan (cr : DualDeploymentOperator) (c : client) (ms : list Manifest) (u : obj) : Prop :=
  exists rs, rs ∈ inventory c cr /\ u = m_Unstructured (ManifestFromStatus rs) /\ crd_retained cr rs = false /\
    forall m, m ∈ ms -> ManifestIdentityKey m ≠ StatusIdentityKey rs.

Lemma half_orphan cr c ms out ret ea ep ta tp c' u e :
  half cr c ms out ret ea ep ta tp -> Forall well_formed ms -> EvDelete c' u e ∈ (ta ++ tp)%list ->
  c' = c /\ orphan cr c ms u.
Proof.
  intros Hh Hwf Hin.
  destruct (half_deletes _ _ _ _ _ _ _ _ _ _ _ _ Hh Hin) as [-> (rs & ms' & Hrs & -> & Hc & Hl & Hk)].
  split; [done|]. exists rs. split_and!; [done..|]. intros m Hm Heq. apply Hk.
  rewrite Forall_forall in Hwf. apply list_elem_of_lookup in Hm as [i Hi].
  destruct (Forall2_lookup_l _ _ _ _ _ Hl Hi) as (m' & Hi' & Hlm).
  apply list_elem_of_In, in_map_iff. exists m'.
  split; [|apply list_elem_of_In; by eapply list_elem_of_lookup_2].
  rewrite (left_by_apply_key _ _ _ _ Hlm), <- Heq. apply prepared_key, Hwf. by eapply list_elem_of_lookup_2.
Qed.

(** What a delivery deletes. *)
Lemma post_deliver_orphans cr seed shoot :
  Forall well_formed seed -> Forall well_formed shoot ->
  post (deliver r cr seed shoot) (fun _ t => forall c u e, EvDelete c u e ∈ t ->
    orphan cr c (if on_seed c then seed else shoot) u).
Proof.
  intros Hs Hsh. apply Forall_SortForApply in Hs, Hsh. eapply post_mono; [by apply post_deliver|].
  intros res t (tc & ts & so & sho & cond & e & -> & (now & now' & lf & ->) & Hd) c u e' Hin.
  apply elem_of_app in Hin as [Hin|Hin]; [|in_list].
  destruct (deliver_outcome_calls _ _ _ _ _ _ _ _ _ _ Hd Hin)
    as [(Hq & _)|(c0 & ms & out & ret & ea & ep & ta & tp & Hc & Hh & Ht)]; [done|].
  assert (Forall well_formed ms) as Hwf by (destruct Hc as [(_ & ->)|(cfg & _ & ->)]; done).
  destruct (half_orphan _ _ _ _ _ _ _ _ _ _ _ _ Hh Hwf Ht) as [-> (rs & Hrs & -> & Hcrd & Hk)].
  exists rs. split_and!; [done..|]. intros m Hm. apply Hk.
  destruct Hc as [(-> & ->)|(cfg & -> & ->)]; by apply elem_of_SortForApply.
Qed.

(** C12: pruning removes orphans only. An object deleted by a delivery was in the
    inventory of that cluster, is not an object of the current render of that
    cluster (in any API version), and is not a CRD unless the retention policy is
    Delete. *)
Theorem deliver_deletes_only_orphans cr seed shoot :
  Forall well_formed seed -> Forall well_formed shoot ->
  post (deliver r cr seed shoot) (fun _ t => forall c u e, EvDelete c u e ∈ t ->
    orphan cr c (if on_seed c then seed else shoot) u).
Proof. apply post_deliver_orphans. Qed.
End Claims.

Section Results.
Context {U : Unstructured} {E : ApiErrors} {L : MetaLib} {P : PatchLib} {B : Boundary}
  {SP : SourcePackage B} (r : Reconciler) `{!ReconcilerContract r} (EL : ApiErrorsLaws E).

Lemma NewAggregate_forall es : NewAggregate es = None -> Forall (fun e => e = None) es.
Proof. apply NewAggregate_none. Qed.

Lemma collect_none ea es : Forall (fun e => e = None) (collect ea es) -> ea = None /\ Forall (fun e => e = None) es.
Proof. unfold collect. destruct ea; rewrite ?Forall_app, ?Forall_singleton; naive_solver. Qed.

(** A half without errors: everything was accepted, every orphan is gone. *)
Lemma half_clean cr c ms out ret ta tp :
  half cr c ms out ret None None ta tp ->
  ret = [] /\ (forall m, m ∈ ms -> EvPatch c (prepared (m_Unstructured m) (owner_value cr)) None ∈ ta).
Proof.
  intros (ms' & errs & errs' & _ & Ha & He & Hp & He').
  apply eq_sym, NewAggregate_forall in He, He'. split.
  - destruct (prune_retained _ _ _ _ _ _ _ _ Hp) as (_ & Hlen & Hne).
    destruct errs' as [|e errs']; [by apply nil_length_inv|]. inversion Hne; inversion He'; by subst.
  - intros m Hm. by eapply apply_all_clean.
Qed.

(** The same entry is never both kept and the delivery reported as clean. *)
Lemma ready_result_clean e errs :
  ready_result e errs = (mkResult requeueInterval, None) -> e = None /\ Forall (fun e => e = None) errs.
Proof.
  unfold ready_result. destruct e; [done|]. destruct (NewAggregate errs) eqn:En; [done|].
  intros _. split; [done|]. by apply NewAggregate_forall.
Qed.

Lemma not_ready_result_zero e : snd (not_ready_result 0 e) ≠ None.
Proof. by destruct e. Qed.

(** A delivery without errors. *)
Lemma post_deliver_clean cr seed shoot :
  post (deliver r cr seed shoot) (fun res t => res = (mkResult requeueInterval, None) ->
    exists tc cfg seedOut shootOut ts,
      t = (tc ++ ts)%list /\
      status_write cr seedOut shootOut (ready_condition cr seedOut shootOut) None ts /\
      length seedOut = length seed /\ length shootOut = length shoot /\
      (forall m, m ∈ seed -> EvPatch SeedClient (prepared (m_Unstructured m) (owner_value cr)) None ∈ tc) /\
      (forall m, m ∈ shoot -> EvPatch (ShootClient cfg) (prepared (m_Unstructured m) (owner_value cr)) None ∈ tc)).
Proof.
  eapply post_mono; [by apply post_deliver|].
  intros res t (tc & ts & so & sho & cond & e & -> & Hw & Hd) Hres.
  assert (forall ea' ea ep ep', Forall (fun e => e = None) (collect ea' (collect ea []) ++ [NewAggregate [ep'; ep]]) ->
    ea' = None /\ ea = None /\ ep = None /\ ep' = None) as Hall.
  { intros ea' ea ep ep' H. apply Forall_app in H as [[-> [-> _]%collect_none]%collect_none H].
    apply Forall_singleton, NewAggregate_forall in H. inversion H as [|? ? H1 H2]; inversion H2; by subst. }
  destruct Hd as [? ? ? ? ? _ _ Hp|? ? ? ? ? ? ? ? ? ? ? _ _ Hp _|? ? ? ? ? ? ? ? ? ? ? _ _ _ _ _
                 |tb cfg ta ta' tp tp' out out' ret ret' ea ea' ep ep' e _ _ Hh _ Hh'
                 |tb cfg ta ta' tp tp' out out' ret ret' ea ea' ep ep' e _ _ Hh Hh'].
  1,2: destruct Hp as [[_ ->]|[_ ->]]; by destruct e.
  1: by destruct e.
  all: apply ready_result_clean in Hres as [-> (-> & -> & -> & ->)%Hall].
  all: destruct (half_clean _ _ _ _ _ _ _ Hh) as [-> Hin], (half_clean _ _ _ _ _ _ _ Hh') as [-> Hin'].
  all: eexists _, cfg, _, _, ts; (split; [reflexivity|]); (split; [exact Hw|]).
  all: rewrite !app_nil_r, (half_length _ _ _ _ _ _ _ _ _ Hh), (half_length _ _ _ _ _ _ _ _ _ Hh').
  all: rewrite !SortForApply_length; split_and!; [done..| |];
    intros m Hm%elem_of_SortForApply; [apply Hin' in Hm|apply Hin in Hm]; in_goal.
Qed.

(** The ten-minute requeue without an error means the delivery converged: the
    status was written, every object of both renders was accepted by its
    cluster, nothing is left to prune, and the Ready condition written is the one
    computed from the health of exactly the rendered objects. *)
Theorem deliver_success_means_converged cr seed shoot :
  post (deliver r cr seed shoot) (fun res t => res = (mkResult requeueInterval, None) ->
    exists tc cfg seedOut shootOut ts,
      t = (tc ++ ts)%list /\
      status_write cr seedOut shootOut (ready_condition cr seedOut shootOut) None ts /\
      length seedOut = length seed /\ length shootOut = length shoot /\
      (forall m, m ∈ seed -> EvPatch SeedClient (prepared (m_Unstructured m) (owner_value cr)) None ∈ tc) /\
      (forall m, m ∈ shoot -> EvPatch (ShootClient cfg) (prepared (m_Unstructured m) (owner_value cr)) None ∈ tc)).
Proof. apply post_deliver_clean. Qed.

(** A delivery is always followed up: it returns an error (which the
    controller runtime retries) or asks for a requeue after a positive time. *)
Theorem deliver_always_requeues cr seed shoot :
  post (deliver r cr seed shoot) (fun res _ => snd res ≠ None \/ (0 < RequeueAfter (fst res))%Z).
Proof.
  eapply post_mono; [by apply post_deliver|].
  intros res t (tc & ts & so & sho & cond & e & -> & _ & Hd).
  assert (forall reason b e, unreachable_phase reason b ->
    snd (not_ready_result b e) ≠ None \/ (0 < RequeueAfter (fst (not_ready_result b e)))%Z) as Hn.
  { intros reason b [?|] [[_ ->]|[_ ->]]; cbn; auto. by right. }
  assert (forall e errs, snd (ready_result e errs) ≠ None \/ (0 < RequeueAfter (fst (ready_result e errs)))%Z) as Hr.
  { intros [?|] errs; cbn; [by left|]. destruct (NewAggregate errs); [by left|by right]. }
  destruct Hd as [? ? ? ? ? _ _ Hp|? ? ? ? ? ? ? ? ? ? ? _ _ Hp _|? ? ? ? ? ? ? ? ep ? ? _ _ _ _ _| |];
    [by eapply Hn|by eapply Hn| |apply Hr|apply Hr].
  left. cbn [snd]. intros Hnone%NewAggregate_forall. inversion Hnone as [|? ? Hnone' _].
  by apply not_ready_result_zero in Hnone'.
Qed.
End Results.

(** ** Witnesses *)

Import RefInstances.
#[local] Instance wit_source : SourcePackage sim_Boundary := fixed_source s_seed s_shoot.
Abbreviation wit_r := (production_reconciler sim_Boundary).
Abbreviation wit_deliver := (deliver wit_r s_live_cr s_seed s_shoot).

Definition well_formedb (m : Manifest) : bool :=
  well_typedb (m_Unstructured m) &&
  match ParseGroupVersion (GetAPIVersion (m_Unstructured m)) with (_, None) => true | _ => false end.

Lemma well_formedb_sound ms : forallb well_formedb ms = true -> Forall well_formed ms.
Proof.
  rewrite forallb_forall, Forall_forall. intros H m Hm. apply list_elem_of_In, H, andb_true_iff in Hm as [Ht Hp].
  split; [by apply well_typedb_sound|]. unfold parseable. destruct (ParseGroupVersion _) as [gv [e|]]; [done|by exists gv].
Qed.

Lemma s_seed_well_formed : Forall well_formed s_seed.
Proof. apply well_formedb_sound. by vm_compute. Qed.

Lemma s_shoot_well_formed : Forall well_formed s_shoot.
Proof. apply well_formedb_sound. by vm_compute. Qed.

Lemma seed_waits_for_shoot_witness :
  spec_ApplyOrder (cr_Spec s_live_cr) ≠ "SeedFirst" /\
  post wit_deliver (fun _ t => forall t1 ev t2,
    t = (t1 ++ ev :: t2)%list -> write_client ev = Some SeedClient ->
    exists cfg, forall m, m ∈ s_shoot ->
      EvPatch (ShootClient cfg) (prepared (m_Unstructured m) (owner_value s_live_cr)) None ∈ t1) /\
  map write_client (List.filter (fun ev => is_patch ev || is_delete ev) (calls_of (wit_deliver s_live_world))) =
    let shoot := Some (ShootClient (mkRESTConfig "https://kube-apiserver" "abc" "pem" 30)) in
    [shoot; shoot; Some SeedClient; Some SeedClient; Some SeedClient].
Proof.
  split; [done|]. split; [by apply (seed_waits_for_shoot wit_r s_live_cr s_seed s_shoot)|]. by vm_compute.
Defined.

Lemma deliver_keeps_inventory_witness :
  Forall well_formed s_seed /\
  post wit_deliver (fun _ t => exists tc seedOut shootOut cond e ts,
    t = (tc ++ ts)%list /\ status_write s_live_cr seedOut shootOut cond e ts /\
    inventories_kept s_live_cr tc seedOut shootOut).
Proof.
  split; [apply s_seed_well_formed|].
  exact (deliver_keeps_inventory wit_r _ _ s_live_cr s_seed s_shoot s_seed_well_formed s_shoot_well_formed).
Defined.

Lemma deliver_deletes_only_orphans_witness :
  post wit_deliver (fun _ t => forall c u e, EvDelete c u e ∈ t ->
    orphan s_live_cr c (if on_seed c then s_seed else s_shoot) u) /\
  count is_delete (calls_of (wit_deliver s_live_world)) = 1.
Proof.
  split; [|by vm_compute].
  exact (deliver_deletes_only_orphans wit_r _ _ s_live_cr s_seed s_shoot s_seed_well_formed s_shoot_well_formed).
Defined.

Lemma deliver_success_means_converged_witness :
  post wit_deliver (fun res t => res = (mkResult requeueInterval, None) ->
    exists tc cfg seedOut shootOut ts,
      t = (tc ++ ts)%list /\
      status_write s_live_cr seedOut shootOut (ready_condition s_live_cr seedOut shootOut) None ts /\
      length seedOut = length s_seed /\ length shootOut = length s_shoot /\
      (forall m, m ∈ s_seed -> EvPatch SeedClient (prepared (m_Unstructured m) (owner_value s_live_cr)) None ∈ tc) /\
      (forall m, m ∈ s_shoot -> EvPatch (ShootClient cfg) (prepared (m_Unstructured m) (owner_value s_live_cr)) None ∈ tc)) /\
  result_of (wit_deliver s_live_world) = (mkResult requeueInterval, None).
Proof.
  split; [|by vm_compute]. exact (deliver_success_means_converged wit_r _ s_live_cr s_seed s_shoot).
Defined.

(** With the access Secret missing the same delivery asks to be retried. *)
Lemma deliver_always_requeues_witness :
  post wit_deliver (fun res _ => snd res ≠ None \/ (0 < RequeueAfter (fst res))%Z) /\
  snd (result_of (wit_deliver (mkWorld (w_seed s_live_world) (w_shoot s_live_world) (w_cr s_live_world) ∅ 0))) ≠ None.
Proof.
  split; [exact (deliver_always_requeues wit_r _ s_live_cr s_seed s_shoot)|by vm_compute].
Defined.
