(* ===== verification/Readiness.v ===== *)
(** What the Ready condition tells whoever waits for it: the condition a delivery
    writes is True only when both clusters took the whole render and every object
    was then found healthy. *)

From S2P Require Import Prelude Value Apimachinery Types Clients Manifest Order Boundary Applier Transform Controller Outcomes Safety ApplierProps Deliver Reference Simulator ReconcileProps DeliverProps.

#[local] Opaque IsClusterScoped computeHealth prepared OwnedByValue.

(** [t] contains the accepted apply of [u] and, as the next call, a GET of the same
    object that was answered with a healthy one. *)
Definition found_healthy {U : Unstructured} (c : client) (u : obj) (t : list event) : Prop :=
  exists t1 live t2,
    t = (t1 ++ EvPatch c u None :: EvGet c (GetGroupVersionKind u) (ObjectKeyFromObject u) (Ok live) :: t2)%list /\
    computeHealth (Some live) = HealthHealthy.

Definition settled (rs : ResourceStatus) : Prop :=
  rs_Health rs ∉ [HealthDegraded; HealthProgressing; HealthUnknown].

Section Readiness.
Context {U : Unstructured} {E : ApiErrors} {B : Boundary}.

Lemma found_healthy_app_l c u t t' : found_healthy c u t -> found_healthy c u (t ++ t').
Proof.
  intros (t1 & live & t2 & -> & H). exists t1, live, (t2 ++ t')%list. by rewrite <- app_assoc.
Qed.

Lemma found_healthy_app_r c u t t' : found_healthy c u t' -> found_healthy c u (t ++ t').
Proof.
  intros (t1 & live & t2 & -> & H). exists (t ++ t1)%list, live, t2. by rewrite app_assoc.
Qed.

Lemma settled_health u : computeHealth (Some u) ∉ [HealthDegraded; HealthProgressing; HealthUnknown] ->
  computeHealth (Some u) = HealthHealthy.
Proof.
  intros Hn. destruct (computeHealth_cases u) as [Hin|Hin]; [done|].
  destruct Hn. rewrite Hin. by repeat constructor.
Qed.

Context `{!FaithfulServer B}.

Lemma apply_outcome_healthy c u ob err h t :
  apply_outcome c u ob err h t -> h ∉ [HealthDegraded; HealthProgressing; HealthUnknown] -> found_healthy c u t.
Proof.
  destruct 1 as [e|live e|pre e|pre h u' r Hg (f & s & ->) ->]; intros Hs;
    try (destruct Hs; by repeat constructor).
  destruct r as [live|e]; [|destruct Hs; by repeat constructor].
  destruct (patch_identity c f u s) as (Hk & Hns & Hn). rewrite Hk.
  unfold ObjectKeyFromObject at 1. rewrite Hns, Hn.
  exists pre, live, []. split; [done|]. by apply settled_health.
Qed.

Lemma apply_all_healthy c ob ms out errs t m :
  apply_all_outcome c ob ms out errs t -> Forall settled out -> m ∈ ms ->
  found_healthy c (prepared (m_Unstructured m) ob) t.
Proof.
  induction 1 as [|m' ms st out err errs t ts [_ Ho] _ IH]; [intros; in_list|].
  intros [Hs Hall]%Forall_cons [->|Hm]%elem_of_cons;
    [by eapply found_healthy_app_l, apply_outcome_healthy|by apply found_healthy_app_r, IH].
Qed.

Lemma half_healthy cr c ms out ret ea ep ta tp m :
  half cr c ms out ret ea ep ta tp -> Forall settled out -> m ∈ ms ->
  found_healthy c (prepared (m_Unstructured m) (owner_value cr)) ta.
Proof. intros (ms' & errs & errs' & _ & Ha & _). by eapply apply_all_healthy. Qed.

Lemma ready_condition_true cr seed shoot :
  c_Status (ready_condition cr seed shoot) = ConditionTrue -> Forall settled (seed ++ shoot).
Proof.
  intros Hc. apply Forall_forall. by apply (ready_condition_is_worst seed shoot).
Qed.
End Readiness.

(** The status is written after all other calls of a delivery. *)
Lemma delivery_writes_status_last {U : Unstructured} {E : ApiErrors} {L : MetaLib} {B : Boundary}
  cr seed shoot res tc so sho cond e ev t1 cr' left_ e' t2 :
  deliver_outcome cr seed shoot res tc so sho cond e ->
  (tc ++ [ev])%list = (t1 ++ EvStatusUpdate cr' left_ e' :: t2)%list ->
  t1 = tc /\ ev = EvStatusUpdate cr' left_ e'.
Proof.
  intros Hd Ht.
  assert (forall x, x ∈ tc -> status_written x = None) as Hno.
  { intros x Hx. destruct (deliver_outcome_calls _ _ _ _ _ _ _ _ _ _ Hd Hx)
      as [(_ & _ & Hq & _)|(c & ms & out & ret & ea & ep & ta & tp & _ & Hh & Hin)]; [done|].
    apply half_client, on_client_no_cr in Hh. rewrite Forall_forall in Hh. by apply Hh. }
  apply app_eq_inv in Ht as [(k & Hk & Hk')|(k & -> & Hk)].
  - destruct k as [|x k]; [rewrite app_nil_r in Hk; by injection Hk' as <-|].
    injection Hk' as <- _. discriminate (Hno (EvStatusUpdate cr' left_ e')).
    rewrite Hk, elem_of_app, elem_of_cons. by right; left.
  - destruct k as [|x k]; [rewrite app_nil_r; by injection Hk as <-|]. by destruct k.
Qed.

Section Claim.
Context {U : Unstructured} {E : ApiErrors} {L : MetaLib} {P : PatchLib} {B : Boundary}
  {SP : SourcePackage B} (r : Reconciler) `{!ReconcilerContract r} (LL : MetaLibLaws L) (FS : FaithfulServer B).

(** What a Ready=True in the CR [cr'] written says of the calls [t] before it. *)
Definition ready_means (cr cr' : DualDeploymentOperator) (seed shoot : list Manifest) (t : list event) : Prop :=
  (exists cfg,
    (forall m, m ∈ seed -> found_healthy SeedClient (prepared (m_Unstructured m) (owner_value cr)) t) /\
    (forall m, m ∈ shoot -> found_healthy (ShootClient cfg) (prepared (m_Unstructured m) (owner_value cr)) t)) /\
  Forall settled (status_SeedResources (cr_Status cr') ++ status_ShootResources (cr_Status cr')).

Lemma two_halves_healthy cr cfg seed shoot out out' ret ret' ea ea' ep ep' ta ta' tp tp' t :
  half cr (ShootClient cfg) (SortForApply shoot) out ret ea ep ta tp ->
  half cr SeedClient (SortForApply seed) out' ret' ea' ep' ta' tp' ->
  Forall settled ((out' ++ ret') ++ (out ++ ret)) ->
  (forall c u, found_healthy c u ta \/ found_healthy c u ta' -> found_healthy c u t) ->
  exists cfg,
    (forall m, m ∈ seed -> found_healthy SeedClient (prepared (m_Unstructured m) (owner_value cr)) t) /\
    (forall m, m ∈ shoot -> found_healthy (ShootClient cfg) (prepared (m_Unstructured m) (owner_value cr)) t).
Proof.
  rewrite !Forall_app. intros Hh Hh' [[Hs _] [Hs' _]] Ht. exists cfg.
  split; intros m Hm%elem_of_SortForApply; apply Ht; [right|left]; by eapply half_healthy.
Qed.

(** C6: Ready=True is truthful. Whenever the status a delivery writes carries a Ready
    condition with status True, the condition is for the generation that was
    delivered, each object of both renders was accepted by its cluster in this run
    and answered the very next GET as healthy, and no entry of the inventories
    written is Degraded, Progressing or Unknown. In particular Ready is never True
    while the shoot is out of reach or the seed is held back. *)
Theorem ready_means_delivered cr seed shoot :
  post (deliver r cr seed shoot) (fun _ t => forall t1 cr' left_ e t2 c,
    t = (t1 ++ EvStatusUpdate cr' left_ e :: t2)%list ->
    find_condition "Ready" (status_Conditions (cr_Status cr')) = Some c -> c_Status c = ConditionTrue ->
    c_ObservedGeneration c = meta_Generation (cr_meta cr) /\ ready_means cr cr' seed shoot t1).
Proof.
  eapply post_mono; [by apply post_deliver|].
  intros res t (tc & ts & so & sho & cond & e & -> & (now & now' & lf & ->) & Hd) t1 cr' left_ e' t2 c Ht Hc Htrue.
  destruct (delivery_writes_status_last _ _ _ _ _ _ _ _ _ _ _ _ _ _ _ Hd Ht) as [-> [= <- _ _]]. clear Ht.
  assert (c_Type cond = "Ready") as Hty.
  { destruct Hd; try done; by apply ready_condition_is_worst. }
  destruct (SetStatusCondition_same now (status_Conditions (cr_Status cr)) cond) as (c' & Hc' & _ & Hst & _ & _ & Hgen).
  rewrite Hty in Hc'. cbn in Hc. rewrite Hc in Hc'. injection Hc' as <-. rewrite <- Hst in Htrue. rewrite <- Hgen.
  clear Hc Hst Hgen Hty.
  destruct Hd as [| | |tb cfg ta ta' tp tp' out out' ret ret' ea ea' ep ep' e _ _ Hh _ Hh'
                 |tb cfg ta ta' tp tp' out out' ret ret' ea ea' ep ep' e _ _ Hh Hh']; [done..| |];
    (split; [done|]); apply ready_condition_true in Htrue; (split; [|done]);
    (eapply two_halves_healthy; [exact Hh|exact Hh'|exact Htrue|]); intros c0 u [H|H];
    repeat first [exact H|apply found_healthy_app_l; exact H|apply found_healthy_app_r].
Qed.
End Claim.

(** ** Witness *)

Import RefInstances.

(** The CRD as the shoot serves it once it is established. *)
Definition s_established : obj :=
  vset s_crd ["status"; "conditions"]
    (VSlice [VMap {["type" := VString "Established"; "status" := VString "True"]}]).
Definition s_settled : list Manifest := [mkManifest s_webhook ""; mkManifest s_established ""].

#[local] Instance wit_source : SourcePackage sim_Boundary := fixed_source s_seed s_settled.
Abbreviation wit_deliver := (deliver (production_reconciler sim_Boundary) s_live_cr s_seed).

(** The reasons of the Ready conditions written. *)
Definition ready_written (t : list event) : list (option string) :=
  omap (fun ev => match status_written ev with
                  | Some cr => Some (c_Reason <$> find_condition "Ready" (status_Conditions (cr_Status cr)))
                  | None => None
                  end) t.

Lemma ready_means_delivered_witness :
  post (wit_deliver s_settled) (fun _ t => forall t1 cr' left_ e t2 c,
    t = (t1 ++ EvStatusUpdate cr' left_ e :: t2)%list ->
    find_condition "Ready" (status_Conditions (cr_Status cr')) = Some c -> c_Status c = ConditionTrue ->
    c_ObservedGeneration c = meta_Generation (cr_meta s_live_cr) /\ ready_means s_live_cr cr' s_seed s_settled t1) /\
  ready_written (calls_of (wit_deliver s_settled s_live_world)) = [Some "ReconcileSuccess"] /\
  ready_written (calls_of (wit_deliver s_shoot s_live_world)) = [Some "Progressing"].
Proof.
  split; [|split; by vm_compute]. exact (ready_means_delivered _ _ _ s_live_cr s_seed s_settled).
Defined.
