(* ===== verification/DeleteProps.v ===== *)
(** Properties of reconcileDelete: what is torn down, in which order, and when the
    finalizer is released. *)

From S2P Require Import Prelude Value Apimachinery Types Clients Manifest Order Boundary Applier Transform Controller Outcomes Safety Deliver Reference Cluster Simulator.

#[local] Opaque IsClusterScoped computeHealth prepared OwnedByValue.

(** The operator's consent to orphan shoot resources. *)
Definition force_delete (cr : DualDeploymentOperator) : bool :=
  bool_decide (default "" (meta_Annotations (cr_meta cr) !! ForceDeleteAnnotation) = "true").

(** A call that neither touches cluster objects nor writes the CR's metadata. *)
Definition passive (ev : event) : Prop :=
  write_client ev = None /\ cr_written ev = None /\ forall c, ~ on_client c ev.

Lemma quiet_passive t : Forall quiet t -> Forall passive t.
Proof. intros H. eapply Forall_impl; [exact H|]. intros ev (H1 & H2 & _ & H3). done. Qed.

(** Same object, other status. *)
Definition same_but_status (cr cr' : DualDeploymentOperator) : Prop :=
  cr_meta cr' = cr_meta cr /\ cr_Spec cr' = cr_Spec cr /\
  inventory SeedClient cr' = inventory SeedClient cr /\
  status_ShootResources (cr_Status cr') = status_ShootResources (cr_Status cr).

Section Finish.
Context {U : Unstructured} {E : ApiErrors} {L : MetaLib} {P : PatchLib} {B : Boundary}
  {SP : SourcePackage B} (r : Reconciler).

Lemma post_record_event a b c : post (record_event r a b c) (fun _ t => Forall quiet t).
Proof.
  unfold record_event. destruct (r_Recorder r); [|by apply post_ret].
  eapply post_mono; [apply post_Eventf|]. intros [] t ->. by solve_quiet.
Qed.

(** A warning event and a condition. *)
Lemma post_record a b c cr cond :
  post (bind (record_event r a b c) (fun _ => set_status_condition cr cond)) (fun cr' t =>
    Forall quiet t /\ same_but_status cr cr').
Proof.
  eapply post_bind; [apply post_record_event|]. intros [] t Ht.
  eapply post_mono; [apply post_set_status_condition|]. cbn beta. intros cr' t' [-> [now ->]].
  by rewrite app_nil_r.
Qed.

(** The CR written last is [cr], or what the call's status write handed back. *)
Definition writes_back (cr sent : DualDeploymentOperator) (pre : list event) : Prop :=
  cr_key sent = cr_key cr \/
  exists st left_ e, EvStatusUpdate st left_ e ∈ pre /\ cr_key st = cr_key cr /\ cr_key sent = cr_key left_.

(** The three ways a deletion whose seed half succeeded ends: the finalizer is
    released because the shoot is clean, released by force, or kept. *)
Inductive finish_outcome (cr : DualDeploymentOperator) (shootDone : bool)
  : Result * option error -> list event -> Prop :=
| finish_released pre sent fs e :
    Forall passive pre -> shootDone = true \/ force_delete cr = true ->
    meta_Finalizers (cr_meta sent) = RemoveFinalizer fs FinalizerName -> writes_back cr sent pre ->
    finish_outcome cr shootDone (Result0, e) (pre ++ [EvCRUpdate sent e])
| finish_blocked pre res :
    Forall passive pre -> shootDone = false -> force_delete cr = false ->
    snd res ≠ None \/ res = (mkResult 30, None) ->
    finish_outcome cr shootDone res pre.

Lemma post_finish_delete cr shootDone errs :
  post (finish_delete r cr shootDone errs) (finish_outcome cr shootDone).
Proof.
  unfold finish_delete. fold (force_delete cr). destruct shootDone; [|destruct (force_delete cr) eqn:Ef].
  - eapply post_bind; [apply post_UpdateCR|]. cbn beta. intros [cr' e] t ->. apply post_ret.
    rewrite app_nil_r. apply (finish_released _ _ [] _ (meta_Finalizers (cr_meta cr))); [done|auto|done|by left].
  - eapply post_bind; [apply post_record|]. intros cr' t [Hq [Hm _]].
    eapply post_bind; [apply post_StatusUpdate|]. cbn beta. intros [cr2 e2] t2 ->.
    eapply post_bind; [apply post_UpdateCR|]. cbn beta. intros [cr3 e3] t3 ->. apply post_ret.
    rewrite app_nil_r, app_assoc. apply (finish_released _ _ _ _ (meta_Finalizers (cr_meta cr2))); [|auto|done|].
    + apply Forall_app. split; [by apply quiet_passive|by solve_quiet].
    + right. exists cr', cr2, e2. split_and!; [apply elem_of_app; right; by left| |done]. unfold cr_key. by rewrite Hm.
  - eapply post_bind; [apply post_record|]. intros cr' t [Hq _].
    eapply post_bind; [apply post_StatusUpdate|]. cbn beta. intros [cr2 e2] t2 ->.
    assert (forall e2, Forall passive (t ++ [EvStatusUpdate cr' cr2 e2])) as Hp
      by (intros; apply Forall_app; split; [by apply quiet_passive|by solve_quiet]).
    destruct e2 as [e2|]; apply post_ret; rewrite app_nil_r; apply finish_blocked; auto.
Qed.
End Finish.

Section DeleteBoth.
Context {U : Unstructured} {E : ApiErrors} {L : MetaLib} {P : PatchLib} {B : Boundary}
  {SP : SourcePackage B} (r : Reconciler) `{!ReconcilerContract r}.

Lemma delete_all_spec c ob cr cr' prev errs t :
  cr_Spec cr' = cr_Spec cr -> delete_all_outcome c ob cr' prev errs t -> delete_all_outcome c ob cr prev errs t.
Proof.
  intros Hs. assert (forall rs, crd_retained cr' rs = crd_retained cr rs) as Hc
    by (intros; unfold crd_retained; by rewrite Hs).
  induction 1; [constructor|constructor 2; [by rewrite <- Hc|done]|constructor 3; [by rewrite <- Hc|done..]].
Qed.

(** The shoot half of a deletion: nothing to delete, every deletable entry
    tried, or the shoot out of reach. *)
Inductive shoot_half (cr : DualDeploymentOperator) (ob : string) : bool -> list event -> Prop :=
| shoot_nothing : deletable cr (status_ShootResources (cr_Status cr)) = 0 -> shoot_half cr ob true []
| shoot_tried cfg errs t :
    delete_all_outcome (ShootClient cfg) ob cr (SortStatusForDelete (status_ShootResources (cr_Status cr))) errs t ->
    shoot_half cr ob (Nat.eqb (length errs) 0) t
| shoot_unreachable : deletable cr (status_ShootResources (cr_Status cr)) ≠ 0 -> shoot_half cr ob false [].

(** The calls of a deletion after the first status write. *)
Definition delete_both_outcome (cr : DualDeploymentOperator) (ob : string)
  (res : Result * option error) (t : list event) : Prop :=
  exists tb tsd tsh tf seedErrs shootDone,
    t = (tb ++ (if bool_decide (spec_ApplyOrder (cr_Spec cr) = "SeedFirst") then tsh ++ tsd else tsd ++ tsh) ++ tf)%list /\
    Forall quiet tb /\ shoot_half cr ob shootDone tsh /\
    delete_all_outcome SeedClient ob cr (SortStatusForDelete (inventory SeedClient cr)) seedErrs tsd /\
    match NewAggregate seedErrs with
    | Some agg => tf = [] /\ res = (Result0, Some agg)
    | None => finish_outcome cr shootDone res tf
    end.

(** Building the applier for the shoot half. *)
Lemma post_build_shoot cr :
  post (build_for_delete r cr (deletable cr (status_ShootResources (cr_Status cr)))) (fun '(cr', sa, be) t =>
    Forall quiet t /\ same_but_status cr cr' /\
    match sa, be with
    | Some a, None => deletable cr (status_ShootResources (cr_Status cr)) ≠ 0 /\
        exists cfg, ApplierContract a (ShootClient cfg)
    | None, Some _ => deletable cr (status_ShootResources (cr_Status cr)) ≠ 0
    | None, None => deletable cr (status_ShootResources (cr_Status cr)) = 0
    | Some _, Some _ => False
    end).
Proof.
  unfold build_for_delete. set (n := deletable _ _). destruct (Nat.ltb_spec 0 n) as [Hn|Hn].
  2:{ apply post_ret. split_and!; [done..|lia]. }
  eapply post_bind; [by apply post_buildShootApplier|]. intros [a|err] t [Hq Hc].
  - apply post_ret. rewrite app_nil_r. split_and!; [done..|lia|by apply Hc].
  - eapply post_bind; [apply post_record|]. intros cr' t' [Hq' Hs]. apply post_ret. rewrite app_nil_r.
    split_and!; [by apply Forall_app|done|lia].
Qed.

(** The shoot half, from the applier that was built. *)
Lemma post_shoot_half cr cr' ob sa (be : option error) :
  same_but_status cr cr' ->
  match sa, be with
  | Some a, None => deletable cr (status_ShootResources (cr_Status cr)) ≠ 0 /\
      exists cfg, ApplierContract a (ShootClient cfg)
  | None, Some _ => deletable cr (status_ShootResources (cr_Status cr)) ≠ 0
  | None, None => deletable cr (status_ShootResources (cr_Status cr)) = 0
  | Some _, Some _ => False
  end ->
  post (deleteRender cr' ob sa (status_ShootResources (cr_Status cr'))) (fun errs t =>
    shoot_half cr ob (Nat.eqb (deletable cr (status_ShootResources (cr_Status cr))) 0 ||
                      (negb (is_set be) && Nat.eqb (length errs) 0)) t).
Proof.
  intros (_ & Hsp & _ & Hsh) H. destruct sa as [a|], be as [e|]; try done; cbn [deleteRender is_set negb andb].
  - destruct H as [Hn [cfg Ha]]. eapply post_mono; [by apply (post_delete_loop a (ShootClient cfg))|].
    cbn beta. intros errs t Ht. apply Nat.eqb_neq in Hn. rewrite Hn. cbn [orb].
    rewrite Hsh in Ht. apply (shoot_tried _ _ cfg). by eapply delete_all_spec.
  - apply post_ret. pose proof H as Hn. apply Nat.eqb_neq in Hn. rewrite Hn. by apply shoot_unreachable.
  - apply post_ret. rewrite H. by apply shoot_nothing.
Qed.

Lemma post_delete_both cr ob : post (delete_both r cr ob) (delete_both_outcome cr ob).
Proof.
  unfold delete_both. eapply post_bind; [apply post_build_shoot|].
  intros [[cr' sa] be] tb (Hq & Hs & Hb). pose proof Hs as (Hmeta & Hsp & Hseed & Hsh).
  eapply post_bind with (P := fun '(seedErrs, shootErrs) t => exists tsd tsh,
    t = (if bool_decide (spec_ApplyOrder (cr_Spec cr) = "SeedFirst") then tsh ++ tsd else tsd ++ tsh)%list /\
    shoot_half cr ob (Nat.eqb (deletable cr (status_ShootResources (cr_Status cr))) 0 ||
                      (negb (is_set be) && Nat.eqb (length shootErrs) 0)) tsh /\
    delete_all_outcome SeedClient ob cr (SortStatusForDelete (inventory SeedClient cr)) seedErrs tsd).
  { rewrite Hsp. pose proof (post_shoot_half cr cr' ob sa be Hs Hb) as Hshoot.
    assert (post (deleteRender cr' ob (Some (r_SeedApplier r)) (status_SeedResources (cr_Status cr')))
      (fun errs t => delete_all_outcome SeedClient ob cr (SortStatusForDelete (inventory SeedClient cr)) errs t)) as Hsd.
    { eapply post_mono; [apply (post_delete_loop _ SeedClient), seed_contract|]. cbn beta. intros errs t Ht.
      rewrite <- Hseed. by eapply delete_all_spec. }
    case_bool_decide.
    - eapply post_bind; [exact Hshoot|]. intros e1 t1 H1. eapply post_bind; [exact Hsd|]. intros e2 t2 H2.
      apply post_ret. rewrite app_nil_r. by exists t2, t1.
    - eapply post_bind; [exact Hsd|]. intros e1 t1 H1. eapply post_bind; [exact Hshoot|]. intros e2 t2 H2.
      apply post_ret. rewrite app_nil_r. by exists t1, t2. }
  intros [seedErrs shootErrs] t (tsd & tsh & -> & Hshoot & Hsd).
  destruct (NewAggregate seedErrs) eqn:En.
  - apply post_ret. rewrite app_nil_r. exists tb, tsd, tsh, [], seedErrs. eexists. rewrite app_nil_r, En. by split_and!.
  - eapply post_mono; [apply post_finish_delete|]. intros res tf Hf.
    exists tb, tsd, tsh, tf, seedErrs. eexists. rewrite En, <- ?app_assoc. split_and!; [done..|].
    inversion Hf as [? ? ? ? ? Hor ? Hback|]; subst.
    + eapply finish_released; [done| |done|].
      * unfold force_delete in *. by rewrite Hmeta in Hor.
      * assert (cr_key cr' = cr_key cr) as Hk by (unfold cr_key; by rewrite Hmeta). by unfold writes_back in *; rewrite Hk in *.
    + apply finish_blocked; [done..| |done]. unfold force_delete in *. by rewrite <- Hmeta.
Qed.
End DeleteBoth.

(** ** Claims *)

Section Claims.
Context {U : Unstructured} {E : ApiErrors} {L : MetaLib} {P : PatchLib} {B : Boundary}
  {SP : SourcePackage B} (r : Reconciler) `{!ReconcilerContract r}.

Definition updates_cr (ev : event) : Prop := is_Some (cr_written ev).

Lemma passive_no_update t : Forall passive t -> Forall (fun ev => ~ updates_cr ev) t.
Proof. intros H. eapply Forall_impl; [exact H|]. intros ev (_ & Hc & _) [x Hx]. congruence. Qed.

Lemma on_client_no_update c t : Forall (on_client c) t -> Forall (fun ev => ~ updates_cr ev) t.
Proof. intros H. eapply Forall_impl; [exact H|]. intros []; intros Hc [x Hx]; done. Qed.

Lemma shoot_half_client cr ob d t : shoot_half cr ob d t -> exists cfg, Forall (on_client (ShootClient cfg)) t.
Proof.
  assert (RESTConfig) as cfg by exact (mkRESTConfig "" "" "" 0).
  destruct 1 as [|cfg' errs t Ht|]; [by exists cfg|exists cfg'; by eapply delete_all_client|by exists cfg].
Qed.

(** Both halves of a deletion leave the CR alone. *)
Lemma halves_no_update cr ob b d tb tsh tsd errs :
  Forall quiet tb -> shoot_half cr ob d tsh ->
  delete_all_outcome SeedClient ob cr (SortStatusForDelete (inventory SeedClient cr)) errs tsd ->
  Forall (fun ev => ~ updates_cr ev) (tb ++ (if b : bool then tsh ++ tsd else tsd ++ tsh)).
Proof.
  intros Hq Hsh Hsd. destruct (shoot_half_client _ _ _ _ Hsh) as [cfg Hc].
  apply on_client_no_update in Hc. apply delete_all_client, on_client_no_update in Hsd.
  apply quiet_passive, passive_no_update in Hq. destruct b; rewrite !Forall_app; tauto.
Qed.

Lemma shoot_half_done cr ob t :
  shoot_half cr ob true t ->
  exists cfg, all_cleared (ShootClient cfg) ob cr (status_ShootResources (cr_Status cr)) t.
Proof.
  inversion 1 as [Hn|cfg errs ? Ht He|]; subst.
  - exists (mkRESTConfig "" "" "" 0). intros rs Hrs Hc. exfalso. unfold deletable in Hn.
    apply nil_length_inv in Hn. assert (rs ∈ @nil ResourceStatus) as Hnil
      by (rewrite <- Hn; by apply list_elem_of_filter). by apply elem_of_nil in Hnil.
  - exists cfg. apply Nat.eqb_eq, nil_length_inv in He as ->. intros rs Hrs.
    apply (delete_all_cleared _ _ _ _ _ Ht). by apply elem_of_SortStatusForDelete.
Qed.

(** The seed half of a deletion ended without errors. *)
Lemma seed_half_done (EL : ApiErrorsLaws E) cr ob errs t :
  delete_all_outcome SeedClient ob cr (SortStatusForDelete (inventory SeedClient cr)) errs t ->
  NewAggregate errs = None -> all_cleared SeedClient ob cr (inventory SeedClient cr) t.
Proof.
  intros Ht Hn. apply NewAggregate_none in Hn. pose proof (delete_all_errs _ _ _ _ _ _ Ht) as Hne.
  destruct errs as [|e errs]; [|inversion Hn; inversion Hne; by subst].
  intros rs Hrs. apply (delete_all_cleared _ _ _ _ _ Ht). by apply elem_of_SortStatusForDelete.
Qed.

(** A CR update of a deletion: its place, and what happened before. *)
Lemma delete_both_release (EL : ApiErrorsLaws E) (LL : MetaLibLaws L) cur ob res t1 sent e t2 :
  delete_both_outcome cur ob res (t1 ++ EvCRUpdate sent e :: t2) ->
  t2 = [] /\ FinalizerName ∉ meta_Finalizers (cr_meta sent) /\ res = (Result0, e) /\
  all_cleared SeedClient ob cur (inventory SeedClient cur) t1 /\
  (force_delete cur = true \/
   exists cfg, all_cleared (ShootClient cfg) ob cur (status_ShootResources (cr_Status cur)) t1).
Proof.
  intros (tb & tsd & tsh & tf & errs & d & Ht & Hq & Hsh & Hsd & Hf).
  rewrite app_assoc in Ht. set (mid := (tb ++ _)%list) in Ht.
  pose proof (halves_no_update _ _ (bool_decide (spec_ApplyOrder (cr_Spec cur) = "SeedFirst")) _ _ _ _ _ Hq Hsh Hsd)
    as Hmid. fold mid in Hmid.
  assert (forall s e', updates_cr (EvCRUpdate s e')) as Hup by by eexists.
  destruct (after_prefix updates_cr _ _ _ _ _ (eq_sym Ht) Hmid) as (k & -> & Htf); [done|].
  destruct (NewAggregate errs) eqn:En; [destruct Hf as [-> _]; by destruct k|].
  destruct Hf as [pre sent' fs e' Hp Hor Hfin _|pre res Hp]; cycle 1.
  { exfalso. apply passive_no_update in Hp. rewrite Htf, Forall_app, Forall_cons in Hp. naive_solver. }
  destruct (after_prefix updates_cr pre _ _ _ _ Htf) as (k' & -> & Hlast); [by apply passive_no_update|done|].
  destruct k' as [|? [|? ?]]; cbn in Hlast; simplify_eq.
  assert (forall ev, ev ∈ tsd \/ ev ∈ tsh -> ev ∈ (mid ++ pre ++ [])%list) as Hsub.
  { intros ev [H|H]; unfold mid; destruct (bool_decide _); in_goal. }
  split_and!; [done| |done| |].
  - rewrite Hfin. by intros [Hne _]%RemoveFinalizer_law.
  - apply (all_cleared_mono _ _ _ _ tsd); [auto|by eapply seed_half_done].
  - destruct Hor as [->|Hfd]; [|by left]. right. destruct (shoot_half_done _ _ _ Hsh) as [cfg Hcl].
    exists cfg. apply (all_cleared_mono _ _ _ _ tsh); auto.
Qed.

(** The first status write, then the two halves, or an early return. *)
Lemma post_reconcileDelete cr :
  post (reconcileDelete r cr) (fun res t => exists sent cur e t',
    t = EvStatusUpdate sent cur e :: t' /\
    ((t' = [] /\ snd res ≠ None) \/ delete_both_outcome cur (owner_value cr) res t')).
Proof.
  unfold reconcileDelete. fold (owner_value cr).
  eapply post_bind; [apply post_set_status_condition|]. intros cr0 t [-> _].
  eapply post_bind; [apply post_StatusUpdate|]. cbn beta. intros [cur e] t ->. cbn [fst snd app].
  assert (post (delete_both r cur (owner_value cr)) (fun res t' => exists sent cur' e' t'',
    EvStatusUpdate cr0 cur e :: t' = EvStatusUpdate sent cur' e' :: t'' /\
    ((t'' = [] /\ snd res ≠ None) \/ delete_both_outcome cur' (owner_value cr) res t''))) as Hmain.
  { eapply post_mono; [by apply post_delete_both|]. intros res t' Ht'. eexists _, _, _, t'. eauto. }
  destruct e as [e|]; [|exact Hmain]. destruct (negb (IsNotFound e)); [|exact Hmain].
  apply post_ret. eexists _, _, _, []. split; [done|]. by left.
Qed.

(** The CR a deletion writes. *)
Lemma delete_both_written cur ob res t sent e :
  delete_both_outcome cur ob res t -> EvCRUpdate sent e ∈ t -> writes_back cur sent t.
Proof.
  intros (tb & tsd & tsh & tf & errs & d & -> & Hq & Hsh & Hsd & Hf) Hin.
  pose proof (halves_no_update _ _ (bool_decide (spec_ApplyOrder (cr_Spec cur) = "SeedFirst")) _ _ _ _ _ Hq Hsh Hsd) as Hno.
  rewrite app_assoc in Hin |- *. set (mid := (tb ++ _)%list) in *. apply elem_of_app in Hin as [Hin|Hin].
  { rewrite Forall_forall in Hno. exfalso. apply (Hno _ Hin). by eexists. }
  destruct (NewAggregate errs); [destruct Hf as [-> _]; by apply elem_of_nil in Hin|].
  destruct Hf as [pre sent' fs e' Hp _ _ Hback|pre res Hp].
  - assert (sent = sent') as ->.
    { apply elem_of_app in Hin as [Hin|[= -> ->]%list_elem_of_singleton]; [|done]. rewrite Forall_forall in Hp. by destruct (Hp _ Hin) as (_ & ? & _). }
    destruct Hback as [Hk|(st & l & e0 & Hst & Hk)]; [by left|]. right. exists st, l, e0. split; [in_goal|done].
  - rewrite Forall_forall in Hp. by destruct (Hp _ Hin) as (_ & ? & _).
Qed.

(** C9: the finalizer guards the teardown. A deletion writes the CR's metadata at
    most once and as its last call, dropping the finalizer; before that, every
    seed object of the inventory (as the server holds it at the start of the
    deletion; CRDs kept by policy excepted) was found absent, found not ours, or
    deleted, and so was every shoot object unless the CR carries the force-delete
    annotation. *)
Theorem finalizer_released_only_when_clean (EL : ApiErrorsLaws E) (LL : MetaLibLaws L) cr :
  post (reconcileDelete r cr) (fun _ t => forall t1 sent e t2,
    t = (t1 ++ EvCRUpdate sent e :: t2)%list ->
    t2 = [] /\ FinalizerName ∉ meta_Finalizers (cr_meta sent) /\
    exists sent0 cur e0 t1', t1 = EvStatusUpdate sent0 cur e0 :: t1' /\
      all_cleared SeedClient (owner_value cr) cur (inventory SeedClient cur) t1' /\
      (force_delete cur = true \/
       exists cfg, all_cleared (ShootClient cfg) (owner_value cr) cur (status_ShootResources (cr_Status cur)) t1')).
Proof.
  eapply post_mono; [apply post_reconcileDelete|].
  intros res t (sent0 & cur & e0 & t' & -> & Hd) t1 sent e t2 Ht.
  destruct t1 as [|ev t1]; [done|]. injection Ht as <- Ht. subst t'.
  destruct Hd as [[Hnil _]|Hd]; [by destruct t1|].
  destruct (delete_both_release EL LL _ _ _ _ _ _ _ Hd) as (-> & Hfin & _ & Hs & Hsh).
  split_and!; [done..|]. by eexists _, cur, _, t1.
Qed.

(** A deletion never stalls silently: it releases the finalizer, returns an
    error, or asks to be run again in 30 seconds. *)
Theorem deletion_is_followed_up (EL : ApiErrorsLaws E) cr :
  post (reconcileDelete r cr) (fun res t =>
    (exists sent, EvCRUpdate sent None ∈ t) \/ snd res ≠ None \/ res = (mkResult 30, None)).
Proof.
  eapply post_mono; [apply post_reconcileDelete|].
  intros res t (sent0 & cur & e0 & t' & -> & [[_ Hne]|Hd]); [auto|].
  destruct Hd as (tb & tsd & tsh & tf & errs & d & -> & _ & _ & _ & Hf).
  destruct (NewAggregate errs); [destruct Hf as [_ ->]; by right; left|].
  destruct Hf as [pre sent fs [e|] _ _ _ _|pre res _ _ _ Hr]; [by right; left| |auto].
  left. exists sent. in_goal.
Qed.

Definition deletes_on (b : bool) (ev : event) : Prop :=
  match ev with EvDelete c _ _ => on_seed c = b | _ => False end.

Lemma passive_no_delete b t : Forall passive t -> Forall (fun ev => ~ deletes_on b ev) t.
Proof. intros H. eapply Forall_impl; [exact H|]. intros [] (Hw & _); try done; by intros []. Qed.

Lemma client_deletes_on c t : Forall (on_client c) t -> Forall (fun ev => ~ deletes_on (negb (on_seed c)) ev) t.
Proof. intros H. eapply Forall_impl; [exact H|]. intros []; cbn; try tauto. intros ->. by destruct (on_seed c). Qed.

Lemma finish_no_delete cr d res t b : finish_outcome cr d res t -> Forall (fun ev => ~ deletes_on b ev) t.
Proof.
  destruct 1; [|by apply passive_no_delete]. apply Forall_app.
  split; [by apply passive_no_delete|]. repeat constructor. by intros [].
Qed.

(** Two clusters torn down one after the other. *)
Lemma deletes_in_order b pre x y post_ t1 ev t2 ev' t3 :
  Forall (fun ev => ~ deletes_on b ev) (pre ++ x) -> Forall (fun ev => ~ deletes_on (negb b) ev) (y ++ post_) ->
  (pre ++ x ++ y ++ post_)%list = (t1 ++ ev :: t2 ++ ev' :: t3)%list ->
  deletes_on b ev -> ~ deletes_on (negb b) ev'.
Proof.
  intros Hx Hy Ht Hev Hev'. rewrite app_assoc in Ht.
  destruct (after_prefix (deletes_on b) _ _ _ _ _ Ht Hx Hev) as (k & _ & Hk).
  rewrite Hk, !Forall_app, !Forall_cons, Forall_app, Forall_cons in Hy. tauto.
Qed.

(** C22: teardown runs in the reverse of the apply order: under SeedFirst no shoot
    object is deleted after a seed object, otherwise no seed object is deleted
    after a shoot object. *)
Theorem teardown_reverses_apply_order cr ob :
  post (delete_both r cr ob) (fun _ t => forall t1 c u e t2 c' u' e' t3,
    t = (t1 ++ EvDelete c u e :: t2 ++ EvDelete c' u' e' :: t3)%list ->
    if bool_decide (spec_ApplyOrder (cr_Spec cr) = "SeedFirst")
    then on_seed c = true -> on_seed c' = true
    else on_seed c = false -> on_seed c' = false).
Proof.
  eapply post_mono; [by apply post_delete_both|].
  intros res t (tb & tsd & tsh & tf & errs & d & -> & Hq & Hsh & Hsd & Hf) t1 c u e t2 c' u' e' t3 Ht.
  destruct (shoot_half_client _ _ _ _ Hsh) as [cfg Hc]. apply delete_all_client in Hsd.
  apply client_deletes_on in Hc, Hsd. apply quiet_passive in Hq.
  assert (forall b, Forall (fun ev => ~ deletes_on b ev) tf) as Htf.
  { intros b. destruct (NewAggregate errs); [destruct Hf as [-> _]; done|by eapply finish_no_delete]. }
  case_bool_decide; rewrite <- ?app_assoc in Ht; intros Hon.
  - destruct (on_seed c') eqn:Ec; [done|]. exfalso. eapply (deletes_in_order true tb tsh tsd tf); [..|exact Ht|exact Hon|exact Ec];
      apply Forall_app; split; auto using passive_no_delete.
  - destruct (on_seed c') eqn:Ec; [|done]. exfalso. eapply (deletes_in_order false tb tsd tsh tf); [..|exact Ht|exact Hon|exact Ec];
      apply Forall_app; split; auto using passive_no_delete.
Qed.

(** A GET that failed for another reason than NotFound is an error of the loop. *)
Lemma delete_all_get_failed c ob cr prev errs t g k e :
  delete_all_outcome c ob cr prev errs t -> EvGet c g k (Err e) ∈ t -> IsNotFound e = false -> errs ≠ [].
Proof.
  induction 1 as [|rs prev errs t Hc H IH|rs prev err errs td t Hc Hd H IH]; intros Hin He; in_list; auto.
  - destruct err; [done|]. inversion Hd; subst; in_list; congruence.
  - destruct err; [done|auto].
Qed.

(** C21: one seed object that cannot be read keeps the CR: if any GET on the seed
    during a deletion fails with an error other than NotFound (a NoMatch for a
    kind the server no longer serves included), the deletion returns an error and
    does not release the finalizer, with or without the force-delete annotation. *)
Theorem seed_read_error_blocks_deletion (EL : ApiErrorsLaws E) cr ob :
  post (delete_both r cr ob) (fun res t => forall g k err,
    EvGet SeedClient g k (Err err) ∈ t -> IsNotFound err = false ->
    snd res ≠ None /\ forall sent e, EvCRUpdate sent e ∉ t).
Proof.
  eapply post_mono; [by apply post_delete_both|].
  intros res t (tb & tsd & tsh & tf & errs & d & -> & Hq & Hsh & Hsd & Hf) g k err Hin He.
  assert (EvGet SeedClient g k (Err err) ∈ tsd) as Hs.
  { destruct (shoot_half_client _ _ _ _ Hsh) as [cfg Hc]. rewrite Forall_forall in Hc, Hq.
    assert (EvGet SeedClient g k (Err err) ∉ tb) as N1 by (intros Hb; by apply (Hq _ Hb) with SeedClient).
    assert (EvGet SeedClient g k (Err err) ∉ tsh) as N2 by (intros Hb; by apply Hc in Hb).
    assert (EvGet SeedClient g k (Err err) ∉ tf) as N3.
    { intros Hb. destruct (NewAggregate errs); [destruct Hf as [-> _]; in_list|].
      destruct Hf as [pre sent fs e' Hp _ _ _|pre res Hp _ _ _]; rewrite Forall_forall in Hp; in_list;
        by apply (Hp _ Hb) with SeedClient. }
    rewrite !elem_of_app in Hin. destruct (bool_decide _); rewrite elem_of_app in Hin; tauto. }
  pose proof (delete_all_get_failed _ _ _ _ _ _ _ _ _ Hsd Hs He) as Hne.
  pose proof (delete_all_errs _ _ _ _ _ _ Hsd) as Hall.
  destruct (NewAggregate errs) eqn:En.
  - destruct Hf as [-> ->]. split; [done|]. intros sent eu Hu. rewrite app_nil_r in Hu.
    pose proof (halves_no_update _ _ (bool_decide (spec_ApplyOrder (cr_Spec cr) = "SeedFirst")) _ _ _ _ _ Hq Hsh Hsd)
      as Hno. rewrite Forall_forall in Hno. apply (Hno _ Hu). by eexists.
  - apply NewAggregate_none in En. destruct errs; [done|]. inversion En; inversion Hall; by subst.
Qed.
End Claims.

(** ** Witnesses *)

Import RefInstances.
#[local] Instance wit_source : SourcePackage sim_Boundary := fixed_source [] [].
Abbreviation wit_r := (production_reconciler sim_Boundary).
Abbreviation wit_delete ann := (reconcileDelete wit_r (s_dying_cr ann)).

Lemma finalizer_released_only_when_clean_witness :
  post (wit_delete ∅) (fun _ t => forall t1 sent e t2,
    t = (t1 ++ EvCRUpdate sent e :: t2)%list ->
    t2 = [] /\ FinalizerName ∉ meta_Finalizers (cr_meta sent) /\
    exists sent0 cur e0 t1', t1 = EvStatusUpdate sent0 cur e0 :: t1' /\
      all_cleared SeedClient (owner_value (s_dying_cr ∅)) cur (inventory SeedClient cur) t1' /\
      (force_delete cur = true \/
       exists cfg, all_cleared (ShootClient cfg) (owner_value (s_dying_cr ∅)) cur
                     (status_ShootResources (cr_Status cur)) t1')) /\
  count is_update (calls_of (wit_delete ∅ (s_dying_world ∅))) = 1 /\
  count is_delete (calls_of (wit_delete ∅ (s_dying_world ∅))) = 3.
Proof.
  split; [exact (finalizer_released_only_when_clean wit_r _ _ (s_dying_cr ∅))|by vm_compute].
Defined.

(** Without the access Secret the teardown waits. *)
Definition s_lost_world (ann : gmap string string) : world :=
  let w := s_dying_world ann in mkWorld (w_seed w) (w_shoot w) (w_cr w) ∅ 0.

Lemma deletion_is_followed_up_witness :
  post (wit_delete ∅) (fun res t =>
    (exists sent, EvCRUpdate sent None ∈ t) \/ snd res ≠ None \/ res = (mkResult 30, None)) /\
  result_of (wit_delete ∅ (s_lost_world ∅)) = (mkResult 30, None).
Proof. split; [exact (deletion_is_followed_up wit_r _ (s_dying_cr ∅))|by vm_compute]. Defined.

Lemma teardown_reverses_apply_order_witness :
  post (delete_both wit_r (s_dying_cr ∅) s_owner) (fun _ t => forall t1 c u e t2 c' u' e' t3,
    t = (t1 ++ EvDelete c u e :: t2 ++ EvDelete c' u' e' :: t3)%list ->
    if bool_decide (spec_ApplyOrder (cr_Spec (s_dying_cr ∅)) = "SeedFirst")
    then on_seed c = true -> on_seed c' = true
    else on_seed c = false -> on_seed c' = false) /\
  map write_client (List.filter is_delete (calls_of (delete_both wit_r (s_dying_cr ∅) s_owner (s_dying_world ∅)))) =
    [Some SeedClient; Some SeedClient; Some (ShootClient (mkRESTConfig "https://kube-apiserver" "abc" "pem" 30))].
Proof.
  split; [exact (teardown_reverses_apply_order wit_r (s_dying_cr ∅) s_owner)|by vm_compute].
Defined.

(** The Deployment kind is not served on the seed, and the CR is to be forced. *)
Definition s_forced : gmap string string := {[ForceDeleteAnnotation := "true"]}.
Definition s_unmapped_world : world :=
  let w := s_dying_world s_forced in
  mkWorld (mkCluster (cl_objects (w_seed w)) ["Deployment"]) (w_shoot w) (w_cr w) (w_secrets w) 0.

Lemma seed_read_error_blocks_deletion_witness :
  post (delete_both wit_r (s_dying_cr s_forced) s_owner) (fun res t => forall g k err,
    EvGet SeedClient g k (Err err) ∈ t -> IsNotFound err = false ->
    snd res ≠ None /\ forall sent e, EvCRUpdate sent e ∉ t) /\
  snd (result_of (delete_both wit_r (s_dying_cr s_forced) s_owner s_unmapped_world)) ≠ None /\
  count is_update (calls_of (delete_both wit_r (s_dying_cr s_forced) s_owner s_unmapped_world)) = 0.
Proof.
  split; [exact (seed_read_error_blocks_deletion wit_r _ (s_dying_cr s_forced) s_owner)|by vm_compute].
Defined.
