(* ===== verification/Runs.v ===== *)
(** One run of Reconcile, phase by phase: the read of the CR, then a deletion, the
    finalizer, a failed render, or a delivery of the renders of that very run. *)

From S2P Require Import Prelude Value Apimachinery Types Clients Manifest Order Boundary Applier Transform Controller Outcomes Safety ApplierProps Deliver Reference Simulator ReconcileProps DeliverProps DeleteProps.
#[local] Open Scope list_scope.
#[local] Opaque IsClusterScoped computeHealth prepared OwnedByValue.

(** ** What belongs to one cluster *)

Definition render_of (side : bool) (seed shoot : list Manifest) : list Manifest := if side then seed else shoot.
Definition entries (side : bool) (cr : DualDeploymentOperator) : list ResourceStatus :=
  if side then status_SeedResources (cr_Status cr) else status_ShootResources (cr_Status cr).

(** Same object and inventories; the conditions may differ. *)
Definition same_record (cr cr' : DualDeploymentOperator) : Prop :=
  cr_meta cr' = cr_meta cr /\ cr_Spec cr' = cr_Spec cr /\ forall side, entries side cr' = entries side cr.

(** The transformed renders of this CR have typed metadata and a parseable apiVersion. *)
Definition well_rendered {U : Unstructured} {P : PatchLib} {B : Boundary} {SP : SourcePackage B}
  (cr : DualDeploymentOperator) : Prop :=
  post (render_both cr) (fun res _ => forall seed shoot,
    res = inl (seed, shoot) -> Forall well_formed seed /\ Forall well_formed shoot).

Section Sent.
Context {U : Unstructured} {E : ApiErrors} {L : MetaLib} {B : Boundary}.

Lemma half_sent cr c ms out ret ea ep ta tp c' u e :
  half cr c ms out ret ea ep ta tp -> EvPatch c' u e ∈ ta ++ tp ->
  c' = c /\ exists m, m ∈ ms /\ u = prepared (m_Unstructured m) (owner_value cr).
Proof.
  intros (ms' & errs & errs' & _ & Ha & _ & Hp & _) [Hin|Hin]%elem_of_app; [|by eapply prune_no_patch in Hin].
  split; [|by eapply apply_all_sent]. pose proof (apply_all_client _ _ _ _ _ _ Ha) as Hc.
  rewrite Forall_forall in Hc. apply (Hc _ Hin).
Qed.

(** A deletion sends nothing. *)
Lemma delete_both_patchless cr ob res t c u e :
  delete_both_outcome cr ob res t -> EvPatch c u e ∉ t.
Proof.
  intros (tb & tsd & tsh & tf & errs & d & -> & Hq & Hsh & Hsd & Hf) Hin.
  assert (forall t', Forall passive t' -> EvPatch c u e ∉ t') as Hp.
  { intros t' Ht' Hx. rewrite Forall_forall in Ht'. by destruct (Ht' _ Hx). }
  assert (EvPatch c u e ∉ tf) as Htf.
  { destruct (NewAggregate errs); [destruct Hf as [-> _]; by intros ?%elem_of_nil|].
    destruct Hf as [pre sent fs e' Hpre|pre res' Hpre]; [|by apply Hp].
    intros [Hx|Hx]%elem_of_app; [by apply (Hp pre)|by apply list_elem_of_singleton in Hx]. }
  assert (EvPatch c u e ∉ tsh) as Htsh.
  { destruct Hsh as [|cfg errs' t' Ht'|]; [by intros ?%elem_of_nil| |by intros ?%elem_of_nil].
    intros Hx. by eapply delete_all_no_patch in Hx. }
  assert (EvPatch c u e ∉ tsd) as Htsd by (intros Hx; by eapply delete_all_no_patch in Hx).
  assert (EvPatch c u e ∉ tb) as Htb by (apply Hp; by apply quiet_passive).
  destruct (bool_decide _); rewrite !elem_of_app in Hin; tauto.
Qed.

End Sent.

(** ** The phases of a run *)

Section Phases.
Context {U : Unstructured} {E : ApiErrors} {L : MetaLib} {P : PatchLib} {B : Boundary} {SP : SourcePackage B}
  {SC : SourceContract SP} {r : Reconciler}.

(** What Reconcile does after it read the CR. *)
Inductive phase (cr : DualDeploymentOperator) (s : env) (res : Result * option error) (t : list event) (s' : env) : Prop :=
| phase_delete : reconcileDelete r cr s = (res, t, s') -> phase cr s res t s'
| phase_finalizer e : ContainsFinalizer (meta_Finalizers (cr_meta cr)) FinalizerName = false ->
    t = [EvCRUpdate (with_Finalizers cr (AddFinalizer (meta_Finalizers (cr_meta cr)) FinalizerName)) e] ->
    Time_IsZero (meta_DeletionTimestamp (cr_meta cr)) = true -> res = (Result0, e) -> phase cr s res t s'
| phase_no_render t0 ts sent left_ e err : t = t0 ++ ts -> Forall quiet t0 -> ts = [EvStatusUpdate sent left_ e] ->
    same_record cr sent -> res = (Result0, Some err) -> phase cr s res t s'
| phase_deliver seed shoot t0 s1 t1 : t = t0 ++ t1 -> Forall quiet t0 ->
    ContainsFinalizer (meta_Finalizers (cr_meta cr)) FinalizerName = true ->
    render_both cr s = (inl (seed, shoot), t0, s1) -> deliver r cr seed shoot s1 = (res, t1, s') -> phase cr s res t s'.

Lemma reconcile_live_phase cr s res t s' :
  ContainsFinalizer (meta_Finalizers (cr_meta cr)) FinalizerName = true ->
  reconcile_live r cr s = (res, t, s') -> phase cr s res t s'.
Proof.
  intros Hf H. apply bind_run in H as (rendered & t0 & s1 & t1 & Hr & Hk & ->).
  pose proof (post_run _ _ _ _ _ _ (post_render_both cr) Hr) as [Hq _].
  destruct rendered as [[seed shoot]|[reason err]]; [by eapply phase_deliver|].
  unfold errStatus, setCondition in Hk. apply bind_run in Hk as (cr1 & ta & sa & tb & Ha & Hk & ->).
  pose proof (post_run _ _ _ _ _ _ (post_set_status_condition _ _) Ha) as [-> [now ->]].
  apply bind_run in Hk as (now' & tc & sc & td & Hc & Hk & ->).
  pose proof (post_run _ _ _ _ _ _ post_Now Hc) as ->.
  apply bind_run in Hk as ([left_ e] & te & se & tf & He & [= <- <- <-] & ->).
  pose proof (post_run _ _ _ _ _ _ (post_StatusUpdate _) He) as ->. rewrite app_nil_r.
  eapply phase_no_render; [done..| |done]. by split_and!; [..|intros []].
Qed.

Lemma run_phase req s res t s' :
  Reconcile r req s = (res, t, s') ->
  exists got s1 t', GetCR req s = (got, [EvCRGet req got], s1) /\ t = EvCRGet req got :: t' /\
    match got with Ok cr => phase cr s1 res t' s' | Err e => t' = [] /\ s' = s1 /\ res = (Result0, IgnoreNotFound e) end.
Proof.
  intros Hrun. apply bind_run in Hrun as (got & t1 & s1 & t2 & Hg & Hk & ->).
  pose proof (post_run _ _ _ _ _ _ (post_GetCR req) Hg) as ->. exists got, s1, t2. split_and!; [done..|].
  destruct got as [cr|e]; [|by injection Hk as <- <- <-].
  destruct (negb (Time_IsZero _)) eqn:Ed; [by apply phase_delete|].
  destruct (negb (ContainsFinalizer _ _)) eqn:Ef; [|apply reconcile_live_phase; [by apply negb_false_iff|done]].
  apply bind_run in Hk as ([? e] & t3 & s3 & t4 & Hupd & [= <- <- <-] & ->).
  pose proof (post_run _ _ _ _ _ _ (post_UpdateCR _) Hupd) as ->.
  apply (phase_finalizer _ _ _ _ _ e); [by apply negb_true_iff|done|by apply negb_false_iff|done].
Qed.

End Phases.

(** ** What a run sends *)

(** [u] is [u0] with this owner's label, without the origin annotation and without
    caBundles, and names the same object. *)
Definition marked_copy {U : Unstructured} (ownedBy : string) (u0 u : obj) : Prop :=
  (GetKind u = GetKind u0 /\ GetAPIVersion u = GetAPIVersion u0 /\
   GetNamespace u = GetNamespace u0 /\ GetName u = GetName u0) /\
  owner_of u = ownedBy /\ map_get (GetAnnotations u) OriginAnnotation = "" /\
  (is_webhook_config (GetKind u) = true -> webhooks_clean u) /\
  (GetKind u = "CustomResourceDefinition" -> conversion_clean u).

Section Claim.
Context {U : Unstructured} {E : ApiErrors} {L : MetaLib} {P : PatchLib} {B : Boundary} {SP : SourcePackage B}
  {SC : SourceContract SP} (r : Reconciler) `{!ReconcilerContract r} (UL : UnstructuredLaws U).

Lemma prepared_marked_copy ob u0 : well_typed u0 -> marked_copy ob u0 (prepared u0 ob).
Proof.
  intros Hw. destruct (prepared_spec u0 ob Hw) as (_ & Hk & Ha & Hns & Hn & Ho & Han & Hwc & Hcc).
  split_and!; try done; rewrite Hk; done.
Qed.

(** An object sent in a delivery comes from the render of its cluster. *)
Lemma delivered_from cr seed shoot :
  post (deliver r cr seed shoot) (fun _ t => forall c u e, EvPatch c u e ∈ t ->
    exists m, m ∈ render_of (on_seed c) seed shoot /\ u = prepared (m_Unstructured m) (owner_value cr)).
Proof.
  eapply post_mono; [by apply post_deliver|].
  intros res t (tc & ts & so & sho & cond & e & -> & (now & now' & lf & ->) & Hd) c u e' [Hin|Hin]%elem_of_app;
    [|by apply list_elem_of_singleton in Hin].
  destruct (deliver_outcome_calls _ _ _ _ _ _ _ _ _ _ Hd Hin)
    as [(Hq & _)|(c0 & ms & out & ret & ea & ep & ta & tp & Hc & Hh & Ht)]; [done|].
  destruct (half_sent _ _ _ _ _ _ _ _ _ _ _ _ Hh Ht) as [-> (m & Hm & ->)]. exists m. split; [|done].
  destruct Hc as [(-> & ->)|(cfg & -> & ->)]; rewrite elem_of_SortForApply in Hm; exact Hm.
Qed.

Lemma reconcileDelete_no_patch cr : post (reconcileDelete r cr) (fun _ t => forall c u e, EvPatch c u e ∉ t).
Proof.
  eapply post_mono; [apply (post_reconcileDelete r)|]. intros res t (sent & cur & e & t' & -> & Hd) c u e' Hin.
  apply elem_of_cons in Hin as [?|Hin]; [done|]. destruct Hd as [[-> _]|Hd]; [by apply elem_of_nil in Hin|].
  by apply (delete_both_patchless _ _ _ _ _ _ _ Hd) in Hin.
Qed.

Lemma quiet_not_patch t c u e : Forall quiet t -> EvPatch c u e ∉ t.
Proof. rewrite Forall_forall. intros Hq Hin. by destruct (Hq _ Hin). Qed.

(** C13: every object a run sends to a cluster is a marked copy of a rendered one: it was
    prepared from an object of this very run's transformed render for that cluster; and where
    that object has the field types of the Kubernetes API (string identity fields, string maps
    of labels and annotations), the object sent has its kind, apiVersion, namespace and name,
    carries this CR's owned-by label, keeps no operator-internal origin annotation, and ships no
    caBundle (in the webhooks of a webhook configuration or the conversion webhook of a CRD). *)
Theorem reconcile_sends_marked_objects req s res cr t s' c u e :
  Reconcile r req s = (res, EvCRGet req (Ok cr) :: t, s') -> EvPatch c u e ∈ t ->
  exists s1 seed shoot t0 s2 m,
    GetCR req s = (Ok cr, [EvCRGet req (Ok cr)], s1) /\ render_both cr s1 = (inl (seed, shoot), t0, s2) /\
    m ∈ render_of (on_seed c) seed shoot /\ u = prepared (m_Unstructured m) (owner_value cr) /\
    (well_typed (m_Unstructured m) -> marked_copy (owner_value cr) (m_Unstructured m) u).
Proof.
  intros (got & s1 & t' & Hg & [= <- <-] & Hph)%run_phase Hin.
  destruct Hph as [Hd|? _ -> _ _|t0 ts ? ? ? ? -> Hq -> _ _|seed shoot t0 s2 t1 -> Hq _ Hren Hdl].
  - by destruct (post_run _ _ _ _ _ _ (reconcileDelete_no_patch cr) Hd c u e).
  - by apply list_elem_of_singleton in Hin.
  - apply elem_of_app in Hin as [Hin|Hin]; [by destruct (quiet_not_patch _ _ _ _ Hq Hin)|by apply list_elem_of_singleton in Hin].
  - apply elem_of_app in Hin as [Hin|Hin]; [by destruct (quiet_not_patch _ _ _ _ Hq Hin)|].
    destruct (post_run _ _ _ _ _ _ (delivered_from cr seed shoot) Hdl c u e Hin) as (m & Hm & ->).
    exists s1, seed, shoot, t0, s2, m. split_and!; [done..|apply prepared_marked_copy].
Qed.
End Claim.

(** ** Witness *)

Import RefInstances.
#[local] Instance wit_source : SourcePackage sim_Boundary := fixed_source s_seed s_shoot.
Definition wit_run : (Result * option error) * list event * world :=
  Reconcile (production_reconciler sim_Boundary) s_req s_live_world.

Lemma wit_run_reads : exists t, wit_run = (result_of wit_run, EvCRGet s_req (Ok s_live_cr) :: t, snd wit_run).
Proof.
  destruct (run_phase (r := production_reconciler sim_Boundary) s_req s_live_world _ _ _ (outcome_parts wit_run))
    as (got & s1 & t & Hg & Ht & _).
  assert (GetCR (B := sim_Boundary) s_req s_live_world = (Ok s_live_cr, [EvCRGet s_req (Ok s_live_cr)], s_live_world))
    as Hg' by (vm_compute; reflexivity).
  assert (got = Ok s_live_cr) as -> by congruence. exists t. rewrite <- Ht. exact (outcome_parts wit_run).
Qed.

(** The renders of the simulated CRs, which have no transformations of their own. *)
Definition s_rendered (cr : DualDeploymentOperator) : list Manifest * list Manifest :=
  match result_of (render_both cr s_live_world) with inl p => p | inr _ => ([], []) end.

Lemma s_live_rendered s : render_both s_live_cr s = (inl (s_rendered s_live_cr), [], s).
Proof. by vm_compute. Qed.

Lemma s_live_well_rendered : well_rendered s_live_cr.
Proof.
  intros s. rewrite s_live_rendered. destruct (s_rendered s_live_cr) as [seed shoot] eqn:Hs. intros ? ? [= <- <-].
  assert (forallb well_formedb (fst (s_rendered s_live_cr)) && forallb well_formedb (snd (s_rendered s_live_cr)) = true)
    as [H1 H2]%andb_true_iff by by vm_compute.
  rewrite Hs in H1, H2. by split; apply well_formedb_sound.
Qed.

(** An object is sent to the shoot. *)
Definition sends_to_shoot (t : list event) : bool :=
  existsb (fun ev => match ev with EvPatch (ShootClient _) _ _ => true | _ => false end) t.

Lemma sends_to_shoot_run (x : (Result * option error) * list event * world) cr t :
  x = (result_of x, EvCRGet s_req (Ok cr) :: t, snd x) -> sends_to_shoot (calls_of x) = true ->
  exists cfg u e, EvPatch (ShootClient cfg) u e ∈ t.
Proof.
  intros ->. cbn [calls_of fst snd]. unfold sends_to_shoot. cbn [existsb orb].
  intros (ev & Hin%list_elem_of_In & He)%existsb_exists.
  destruct ev as [|[|cfg] u e| | | | | | | |]; try done. by exists cfg, u, e.
Qed.

Lemma reconcile_sends_marked_objects_witness :
  exists cfg u e t s1 seed shoot t0 s2 m,
    wit_run = (result_of wit_run, EvCRGet s_req (Ok s_live_cr) :: t, snd wit_run) /\
    EvPatch (ShootClient cfg) u e ∈ t /\ render_both s_live_cr s1 = (inl (seed, shoot), t0, s2) /\
    m ∈ shoot /\ marked_copy (owner_value s_live_cr) (m_Unstructured m) u.
Proof.
  destruct wit_run_reads as [t Hrun].
  assert (sends_to_shoot (calls_of wit_run) = true) as Hs by (vm_compute; reflexivity).
  destruct (sends_to_shoot_run _ _ _ Hrun Hs) as (cfg & u & e & Hin).
  destruct (reconcile_sends_marked_objects (B := sim_Boundary) _ _ _ _ _ _ _ _ _ _ _ Hrun Hin)
    as (s1 & seed & shoot & t0 & s2 & m & Hg & Hren & Hm & _ & Hmark).
  exists cfg, u, e, t, s1, seed, shoot, t0, s2, m.
  split; [exact Hrun|]. split; [exact Hin|]. split; [exact Hren|]. split; [exact Hm|]. apply Hmark.
  pose proof s_live_well_rendered as Hw. unfold well_rendered in Hw.
  destruct (post_run _ _ _ _ _ _ Hw Hren seed shoot eq_refl) as [_ Hsh].
  rewrite Forall_forall in Hsh. exact (proj1 (Hsh m Hm)).
Defined.
