(* ===== verification/Liveness.v ===== *)
(** When nothing goes wrong a run does what it is for: a delivery reports success and
    a deletion releases the finalizer, in one run. *)

From S2P Require Import Prelude Value Apimachinery Types Clients Manifest Order Boundary Applier Transform Controller Outcomes Safety ApplierProps Deliver Reference Cluster Simulator ReconcileProps DeliverProps DeleteProps.
#[local] Open Scope list_scope.
#[local] Opaque IsClusterScoped computeHealth prepared OwnedByValue.

(** ** Uneventful calls *)

Section Uneventful.
Context {U : Unstructured} {E : ApiErrors} {B : Boundary} (cr : DualDeploymentOperator).

Definition access_key : NamespacedName :=
  mkNN (meta_Namespace (cr_meta cr)) (access_SecretName (spec_ShootAccess (cr_Spec cr))).

(** The secret has the token and the CA that spec.shootAccess names. *)
Definition grants_access (secret : Secret) : Prop :=
  let ref := spec_ShootAccess (cr_Spec cr) in
  exists cfg, ShootRESTConfig secret (access_TokenKey ref) (access_CAKey ref) (access_Server ref) = Ok cfg.

(** The call was carried out and met no object of another owner; an object that is not there
    may be NotFound; the shoot access Secret is complete. *)
Definition uneventful (ev : event) : Prop :=
  match ev with
  | EvGet _ _ _ (Ok live) => owner_of live = "" \/ owner_of live = owner_value cr
  | EvGet _ _ _ (Err e) => IsNotFound e = true
  | EvDelete _ _ (Some e) => IsNotFound e = true
  | EvPatch _ _ (Some _) | EvClientNew _ (Some _) | EvCRUpdate _ (Some _) | EvStatusUpdate _ _ (Some _) => False
  | EvStatusUpdate _ left_ None => cr_Spec left_ = cr_Spec cr /\ cr_key left_ = cr_key cr
  | EvCRGet _ (Err _) => False
  | EvSecretGet k r => k = access_key -> exists secret, r = Ok secret /\ grants_access secret
  | _ => True
  end.

(** *** The loops *)

Lemma apply_uneventful c u err h t :
  apply_outcome c u (owner_value cr) err h t -> Forall uneventful t -> err = None /\ h ≠ HealthDegraded.
Proof.
  destruct 1 as [e _ Hn|live e _ Hne Hno|pre e Hg|pre h u' r Hg _ ->]; intros Ht.
  - rewrite Forall_singleton in Ht. cbn in Ht.  congruence.
  - rewrite Forall_singleton in Ht. by destruct Ht.
  - apply Forall_app in Ht as [_ Ht]. by rewrite Forall_singleton in Ht.
  - split; [done|]. destruct r as [live|e]; [apply computeHealth_not_degraded|done].
Qed.

Lemma apply_all_uneventful c ms out errs t :
  apply_all_outcome c (owner_value cr) ms out errs t -> Forall uneventful t -> errs = [] /\ anyFailed out = false.
Proof.
  induction 1 as [|m ms st out err errs t ts [_ Ho] _ IH]; intros Ht; [done|].
  apply Forall_app in Ht as [Ht Hts]. destruct (apply_uneventful _ _ _ _ _ Ho Ht) as [-> Hh].
  destruct (IH Hts) as [-> Hf]. split; [done|]. unfold anyFailed in *. cbn. by rewrite bool_decide_eq_false_2, Hf.
Qed.

Lemma delete_uneventful c u err t : delete_outcome c u (owner_value cr) err t -> Forall uneventful t -> err = None.
Proof.
  destruct 1 as [| e Hn| | |live e _ Hn]; intros Ht; try done; exfalso.
  - rewrite Forall_singleton in Ht. cbn in Ht. congruence.
  - apply Forall_cons in Ht as [_ Ht]. rewrite Forall_singleton in Ht. cbn in Ht. congruence.
Qed.

Lemma prune_uneventful c keys prev ret errs t :
  prune_outcome c (owner_value cr) cr keys prev ret errs t -> Forall uneventful t -> errs = [].
Proof.
  induction 1 as [| | | |rs e prev ret errs t _ _ Hn _ _| |rs live prev ret errs td t _ _ _ Hd _ IH
                 |rs live e prev ret errs td t _ _ _ Hd _ _]; intros Ht; auto;
    apply Forall_cons in Ht as [Hev Ht]; auto.
  - cbn in Hev. by rewrite Hev in *.
  - apply Forall_app in Ht as [_ Ht]. auto.
  - apply Forall_app in Ht as [Ht _]. by apply (delete_uneventful _ _ _ _ Hd) in Ht.
Qed.

Lemma delete_all_uneventful c cr' prev errs t :
  delete_all_outcome c (owner_value cr) cr' prev errs t -> Forall uneventful t -> errs = [].
Proof.
  induction 1 as [| |rs prev err errs td t _ Hd _ IH]; intros Ht; auto.
  apply Forall_app in Ht as [Htd Ht]. apply (delete_uneventful _ _ _ _ Hd) in Htd as ->. auto.
Qed.
End Uneventful.

(** ** Uneventful runs *)

Section Calm.
Context {B : Boundary} (F : event -> Prop).

(** What [m] returns if all its calls satisfy [F]. *)
Definition calm {A} (m : M A) (Q : A -> Prop) : Prop := post m (fun a t => Forall F t -> Q a).

Lemma calm_ret {A} (a : A) (Q : A -> Prop) : Q a -> calm (ret a) Q.
Proof. intros H. by apply post_ret. Qed.

Lemma calm_mono {A} (m : M A) (P Q : A -> Prop) : calm m P -> (forall a, P a -> Q a) -> calm m Q.
Proof. intros Hm H. eapply post_mono; [exact Hm|]. cbn. auto. Qed.

Lemma calm_bind {A C} (m : M A) (k : A -> M C) (P : A -> Prop) (Q : C -> Prop) :
  calm m P -> (forall a, P a -> calm (k a) Q) -> calm (bind m k) Q.
Proof.
  intros Hm Hk s. unfold bind. specialize (Hm s). destruct (m s) as [[a t] s1].
  specialize (fun Hp => Hk a Hp s1). destruct (k a s1) as [[c t'] s2]. intros [Ht Ht']%Forall_app. auto.
Qed.

Lemma post_when {A} (m : M A) (P : Prop) (Q : A -> list event -> Prop) : (P -> post m Q) -> post m (fun a t => P -> Q a t).
Proof. intros H s. destruct (m s) as [[a t] s1] eqn:Hm. intros HP. exact (post_run _ _ _ _ _ _ (H HP) Hm). Qed.

Lemma calm_any {A} (m : M A) : calm m (fun _ => True).
Proof. by apply post_all. Qed.
End Calm.

Section Runs.
Context {U : Unstructured} {E : ApiErrors} {L : MetaLib} {P : PatchLib} {B : Boundary} {SP : SourcePackage B}
  (EL : ApiErrorsLaws E).
Abbreviation r := (production_reconciler B).

Lemma aggregate_nothing : NewAggregate [] = None.
Proof. apply NewAggregate_none. constructor. Qed.

Lemma calm_StatusUpdate cr cr' :
  calm (uneventful cr) (StatusUpdate cr') (fun '(left_, e) => e = None /\ cr_Spec left_ = cr_Spec cr /\ cr_key left_ = cr_key cr).
Proof.
  eapply post_mono; [apply post_StatusUpdate|]. cbn beta. intros [left_ e] t -> Ht. rewrite Forall_singleton in Ht.
  cbn in Ht. destruct e; [done|]. by destruct Ht.
Qed.

Lemma calm_UpdateCR cr cr' : calm (uneventful cr) (UpdateCR cr') (fun '(_, e) => e = None).
Proof.
  eapply post_mono; [apply post_UpdateCR|]. cbn beta. intros [? e] t -> Ht. rewrite Forall_singleton in Ht. by destruct e.
Qed.

(** The shoot can be reached. *)
Lemma calm_buildShootApplier cr :
  calm (uneventful cr) (buildShootApplier cr) (fun a => exists a' cfg, a = Ok a' /\ ApplierContract a' (ShootClient cfg)).
Proof.
  unfold buildShootApplier. fold (access_key cr). eapply calm_bind with (P := fun got => exists s, got = Ok s /\ grants_access cr s).
  { eapply post_mono; [apply post_GetSecret|]. cbn beta. intros got t -> Ht. rewrite Forall_singleton in Ht. by apply Ht. }
  intros ? (secret & -> & cfg & Hc). rewrite Hc. eapply calm_bind with (P := fun e => e = None).
  { eapply post_mono; [apply post_NewClient|]. cbn beta. intros [e|] t -> Ht; [|done]. by rewrite Forall_singleton in Ht. }
  intros ? ->. apply calm_ret. eexists _, cfg. split; [done|]. apply (SSA_contract (mkSSAApplier (ShootClient cfg) FieldManagerName "shoot")).
Qed.

(** Applying and pruning produce no errors. *)
Lemma calm_applyAll cr a c ms :
  ApplierContract a c -> calm (uneventful cr) (applyAll a ms (owner_value cr)) (fun '(_, out, e) => anyFailed out = false /\ e = None).
Proof.
  intros Ha. eapply post_mono; [by eapply post_applyAll|]. intros [[ms' out] e] t (errs & _ & Ho & ->) Ht.
  destruct (apply_all_uneventful _ _ _ _ _ _ Ho Ht) as [-> ?]. by rewrite aggregate_nothing.
Qed.

Lemma calm_prune cr a c prev ms :
  ApplierContract a c -> calm (uneventful cr) (prune a prev ms cr (owner_value cr)) (fun '(_, e) => e = None).
Proof.
  intros Ha. eapply post_mono; [by eapply post_prune|]. intros [ret e] t (errs & Ho & ->) Ht.
  rewrite (prune_uneventful _ _ _ _ _ _ _ Ho Ht). apply aggregate_nothing.
Qed.

Lemma aggregate_nones : NewAggregate ([] ++ [NewAggregate [None; None]]) = None.
Proof. apply NewAggregate_none. repeat constructor. apply NewAggregate_none. by repeat constructor. Qed.

Lemma calm_finish_ready cr sf a c ms1 ms2 st1 st2 :
  ApplierContract a c ->
  calm (uneventful cr) (finish_ready r cr sf a ms1 ms2 st1 st2 [] (owner_value cr)) (fun res => res = (mkResult requeueInterval, None)).
Proof.
  intros Ha. unfold finish_ready. pose proof (@seed_contract _ _ _ r _) as Hs.
  eapply calm_bind with (P := fun '(_, _, pe) => pe = [None; None]).
  { destruct sf; (eapply calm_bind; [by eapply calm_prune|intros [? ?] ->]);
      (eapply calm_bind; [by eapply calm_prune|intros [? ?] ->]); by apply calm_ret. }
  intros [[ret1 ret2] pe] ->. eapply calm_bind; [apply calm_any|intros cr' _].
  eapply calm_bind; [apply calm_any|intros now _].
  eapply calm_bind; [apply calm_StatusUpdate|intros [left_ e] (-> & _)]. rewrite aggregate_nones. by apply calm_ret.
Qed.

Lemma calm_deliver cr seed shoot :
  calm (uneventful cr) (deliver r cr seed shoot) (fun res => res = (mkResult requeueInterval, None)).
Proof.
  unfold deliver. fold (owner_value cr). eapply calm_bind; [apply calm_buildShootApplier|]. intros ? (a & cfg & -> & Ha).
  pose proof (@seed_contract _ _ _ r _) as Hs. unfold apply_ready. destruct (negb _).
  - eapply calm_bind; [by eapply calm_applyAll|intros [[ms' out] e] [Hf ->]]. rewrite Hf.
    eapply calm_bind; [by eapply calm_applyAll|intros [[ms2 out2] e2] [_ ->]]. by eapply calm_finish_ready.
  - eapply calm_bind; [by eapply calm_applyAll|intros [[ms' out] e] [_ ->]].
    eapply calm_bind; [by eapply calm_applyAll|intros [[ms2 out2] e2] [_ ->]]. by eapply calm_finish_ready.
Qed.

(** A status update that changed neither the spec nor the name changes no expectation. *)
Lemma uneventful_same cr cr' ev :
  cr_Spec cr' = cr_Spec cr -> cr_key cr' = cr_key cr -> uneventful cr ev -> uneventful cr' ev.
Proof.
  intros Hs [= Hns Hn]. unfold uneventful, access_key, grants_access, owner_value, cr_key. by rewrite Hs, Hns, Hn.
Qed.

Lemma calm_same {A} cr cr' (m : M A) Q :
  cr_Spec cr' = cr_Spec cr -> cr_key cr' = cr_key cr -> calm (uneventful cr') m Q -> calm (uneventful cr) m Q.
Proof.
  intros Hs Hk Hm. eapply post_mono; [exact Hm|]. cbn beta. intros a t Ha Ht. apply Ha.
  eapply Forall_impl; [exact Ht|]. intros ev. by apply uneventful_same.
Qed.

(** Deleting produces no errors, and the finalizer goes. *)
Lemma calm_deleteRender cr a c l :
  (forall a', a = Some a' -> ApplierContract a' c) ->
  calm (uneventful cr) (deleteRender cr (owner_value cr) a l) (fun errs => errs = []).
Proof.
  intros Ha. destruct a as [a|]; [|by apply calm_ret]. specialize (Ha a eq_refl).
  eapply post_mono; [by apply (post_delete_loop a c)|]. cbn beta. intros errs t Ho Ht.
  by eapply delete_all_uneventful.
Qed.

Lemma calm_build_for_delete cr n :
  calm (uneventful cr) (build_for_delete r cr n) (fun '(cr', a, e) =>
    cr' = cr /\ e = None /\ exists cfg, forall a', a = Some a' -> ApplierContract a' (ShootClient cfg)).
Proof.
  unfold build_for_delete. destruct (Nat.ltb 0 n).
  - eapply calm_bind; [apply calm_buildShootApplier|]. intros ? (a & cfg & -> & Ha). apply calm_ret.
    split_and!; [done..|]. exists cfg. by intros ? [= <-].
  - apply calm_ret. split_and!; [done..|]. by exists (mkRESTConfig "" "" "" 0).
Qed.

Lemma calm_delete_both cr : calm (uneventful cr) (delete_both r cr (owner_value cr)) (fun res => res = (Result0, None)).
Proof.
  unfold delete_both. eapply calm_bind; [apply calm_build_for_delete|]. intros [[cr' a] e] (-> & -> & cfg & Ha).
  assert (forall a', Some (r_SeedApplier r) = Some a' -> ApplierContract a' SeedClient) as Hs
    by (intros a' [= <-]; apply (@seed_contract _ _ _ r _)).
  eapply calm_bind with (P := fun errs => errs = ([], [])).
  { case_bool_decide; (eapply calm_bind; [by eapply calm_deleteRender|intros ? ->]);
      (eapply calm_bind; [by eapply calm_deleteRender|intros ? ->]); by apply calm_ret. }
  intros ? ->. rewrite aggregate_nothing. cbn [is_set negb length Nat.eqb andb]. rewrite orb_true_r.
  unfold finish_delete. eapply calm_bind; [apply calm_UpdateCR|]. intros [? ?] ->. by apply calm_ret.
Qed.

Lemma calm_reconcileDelete cr : calm (uneventful cr) (reconcileDelete r cr) (fun res => res = (Result0, None)).
Proof.
  unfold reconcileDelete. fold (owner_value cr). eapply calm_bind; [apply calm_any|intros cr0 _].
  eapply calm_bind; [apply calm_StatusUpdate|]. intros [cur e] (-> & Hs & Hk). eapply calm_same; [exact Hs|exact Hk|].
  replace (owner_value cr) with (owner_value cur) by (unfold cr_key in Hk; injection Hk as Hns Hn; unfold owner_value; by rewrite Hns, Hn).
  apply calm_delete_both.
Qed.

(** *** The whole run *)

(** A run reads its CR first; the rest depends on what was read. *)
Lemma Reconcile_after_read req s res t s' cr (Q : Result * option error -> list event -> Prop) :
  post (if negb (Time_IsZero (meta_DeletionTimestamp (cr_meta cr))) then reconcileDelete r cr
        else if negb (ContainsFinalizer (meta_Finalizers (cr_meta cr)) FinalizerName) then
          bind (UpdateCR (with_Finalizers cr (AddFinalizer (meta_Finalizers (cr_meta cr)) FinalizerName)))
            (fun '(_, e) => ret (Result0, e))
        else reconcile_live r cr) Q ->
  Reconcile r req s = (res, t, s') -> head t = Some (EvCRGet req (Ok cr)) ->
  exists t', t = EvCRGet req (Ok cr) :: t' /\ Q res t'.
Proof.
  intros HQ Hrun Hh. refine (post_run _ (fun res t => head t = _ -> _) _ _ _ _ _ Hrun Hh).
  unfold Reconcile. eapply post_bind; [apply post_GetCR|]. cbn beta. intros got t1 ->.
  eapply post_mono; [apply (post_when _ (got = Ok cr) Q); intros ->; exact HQ|].
  cbn beta. intros a t2 H2 [= ->]. exists t2. auto.
Qed.

(** C7: an undisturbed run succeeds. When a run reads a live CR with the finalizer, whose sources
    render and whose transformations apply, every call it makes is carried out, the objects it looks
    at belong to this CR or to nobody, and the access Secret has the token and the CA, the run
    returns no error and asks for the regular requeue. *)
Theorem undisturbed_run_succeeds req s res t s' cr :
  Reconcile r req s = (res, t, s') -> head t = Some (EvCRGet req (Ok cr)) -> Forall (uneventful cr) t ->
  Time_IsZero (meta_DeletionTimestamp (cr_meta cr)) = true -> ContainsFinalizer (meta_Finalizers (cr_meta cr)) FinalizerName = true ->
  (forall s1, exists renders, fst (fst (render_both cr s1)) = inl renders) ->
  res = (mkResult requeueInterval, None).
Proof.
  intros Hrun Hh Ht Hd Hf Hr.
  destruct (Reconcile_after_read req s res t s' cr (fun res t => Forall (uneventful cr) t -> res = (mkResult requeueInterval, None)))
    as (t' & -> & Hres); [|done|done|apply Hres; by inversion Ht].
  rewrite Hd, Hf. cbn. unfold reconcile_live. eapply calm_bind with (P := fun x => exists renders, x = inl renders).
  - intros s1. specialize (Hr s1). destruct (render_both cr s1) as [[x t1] s2]. cbn in Hr. eauto.
  - intros ? ([seed shoot] & ->). apply calm_deliver.
Qed.

(** C8: an undisturbed deletion completes. When a run reads a CR that is being deleted and nothing
    fails in that sense, the run returns without an error or a requeue and its last call is an
    accepted update of the CR without the finalizer. *)
Theorem undisturbed_deletion_completes (LL : MetaLibLaws L) req s res t s' cr :
  Reconcile r req s = (res, t, s') -> head t = Some (EvCRGet req (Ok cr)) -> Forall (uneventful cr) t ->
  Time_IsZero (meta_DeletionTimestamp (cr_meta cr)) = false ->
  res = (Result0, None) /\
  exists t1 sent, t = t1 ++ [EvCRUpdate sent None] /\ FinalizerName ∉ meta_Finalizers (cr_meta sent).
Proof.
  intros Hrun Hh Ht Hd.
  destruct (Reconcile_after_read req s res t s' cr (fun res t => Forall (uneventful cr) t -> res = (Result0, None) /\
    exists t1 sent, t = t1 ++ [EvCRUpdate sent None] /\ FinalizerName ∉ meta_Finalizers (cr_meta sent)))
    as (t' & -> & Hres); [|done|done|].
  - rewrite Hd. cbn. eapply post_mono; [apply post_and; [apply calm_reconcileDelete|apply (post_reconcileDelete r)]|].
    cbn beta. intros res0 t0 [Hok (sent0 & cur & e0 & t' & -> & Hdel)] Ht0. specialize (Hok Ht0) as ->. split; [done|].
    destruct Hdel as [[_ Hne]|(tb & tsd & tsh & tf & errs & d & -> & _ & _ & _ & Hfin)]; [done|].
    destruct (NewAggregate errs); [by destruct Hfin|]. generalize (if bool_decide (spec_ApplyOrder (cr_Spec cur) = "SeedFirst") then tsh ++ tsd else tsd ++ tsh). intros mid. inversion Hfin as [pre sent fs e _ _ Hfs _|pre res1 _ _ _ [Hne|Hne]]; subst; try done.
    exists (EvStatusUpdate sent0 cur e0 :: tb ++ mid ++ pre), sent. split; [cbn; by rewrite <- !app_assoc|]. rewrite Hfs. intros Hin. by apply RemoveFinalizer_law in Hin as [? _].
  - destruct Hres as (-> & t1 & sent & -> & Hn); [by inversion Ht|]. split; [done|]. by exists (EvCRGet req (Ok cr) :: t1), sent.
Qed.
End Runs.

(** ** Witnesses *)

(** What can be read off a concrete trace: the calls, and the specs and names that
    status updates handed back. *)
Section Decided.
Context {U : Unstructured} {E : ApiErrors} (cr : DualDeploymentOperator).

Definition uneventfulb (ev : event) : bool :=
  match ev with
  | EvGet _ _ _ (Ok live) => bool_decide (owner_of live = "") || bool_decide (owner_of live = owner_value cr)
  | EvGet _ _ _ (Err e) | EvDelete _ _ (Some e) => IsNotFound e
  | EvPatch _ _ (Some _) | EvClientNew _ (Some _) | EvCRUpdate _ (Some _) | EvStatusUpdate _ _ (Some _) | EvCRGet _ (Err _) => false
  | EvSecretGet _ (Ok secret) =>
      let ref := spec_ShootAccess (cr_Spec cr) in
      match ShootRESTConfig secret (access_TokenKey ref) (access_CAKey ref) (access_Server ref) with Ok _ => true | Err _ => false end
  | EvSecretGet _ (Err _) => false
  | _ => true
  end.

Definition handed_back (t : list event) : list (DualDeploymentOperatorSpec * NamespacedName) :=
  omap (fun ev => match ev with EvStatusUpdate _ l None => Some (cr_Spec l, cr_key l) | _ => None end) t.

Lemma uneventful_decided t n :
  forallb uneventfulb t = true -> handed_back t = replicate n (cr_Spec cr, cr_key cr) -> Forall (uneventful cr) t.
Proof.
  rewrite forallb_forall. intros Hb Hs. apply Forall_forall. intros ev Hin. pose proof (Hb ev) as Hev.
  specialize (Hev (proj1 (list_elem_of_In _ _) Hin)). destruct ev as [? ? ? [l|e]|? ? [e|]|? ? [e|]|? [?|]|? [e|]|? l [e|]|? [s|]|? [e|]| |]; try done.
  - cbn in *. apply orb_true_iff in Hev as [?%bool_decide_eq_true|?%bool_decide_eq_true]; auto.
  - assert ((cr_Spec l, cr_key l) ∈ handed_back t) as Hl by (apply list_elem_of_omap; by eexists).
    rewrite Hs in Hl. apply elem_of_replicate in Hl as [Heq _]. exact (conj (f_equal fst Heq) (f_equal snd Heq)).
  - intros _. exists s. split; [done|]. unfold grants_access. cbn in Hev. destruct (ShootRESTConfig _ _ _ _) as [cfg|]; [by exists cfg|done].
Qed.
End Decided.

Import RefInstances.
#[local] Instance calm_source : SourcePackage sim_Boundary := fixed_source s_seed s_shoot.
Abbreviation calm_run w := (Reconcile (production_reconciler sim_Boundary) s_req w).

(** The live CR of the simulation is delivered. *)
Lemma undisturbed_run_succeeds_witness :
  count is_patch (calls_of (calm_run s_live_world)) = 4 /\ result_of (calm_run s_live_world) = (mkResult requeueInterval, None).
Proof.
  split; [by vm_compute|].
  refine (undisturbed_run_succeeds _ s_req _ _ _ _ s_live_cr (outcome_parts (calm_run s_live_world)) _ _ _ _ _).
  - vm_compute. reflexivity.
  - apply (uneventful_decided _ _ 1); vm_compute; reflexivity.
  - vm_compute. reflexivity.
  - vm_compute. reflexivity.
  - intros s1. vm_compute. eexists. reflexivity.
Defined.

(** The deleted CR of the simulation is torn down. *)
Lemma undisturbed_deletion_completes_witness :
  count is_delete (calls_of (calm_run (s_dying_world ∅))) = 3 /\
  result_of (calm_run (s_dying_world ∅)) = (Result0, None) /\
  exists t1 sent, calls_of (calm_run (s_dying_world ∅)) = t1 ++ [EvCRUpdate sent None] /\ FinalizerName ∉ meta_Finalizers (cr_meta sent).
Proof.
  split; [by vm_compute|].
  refine (undisturbed_deletion_completes _ _ s_req _ _ _ _ (s_dying_cr ∅) (outcome_parts (calm_run (s_dying_world ∅))) _ _ _).
  - vm_compute. reflexivity.
  - apply (uneventful_decided _ _ 1); vm_compute; reflexivity.
  - vm_compute. reflexivity.
Defined.
