(* ===== verification/ClusterProps.v ===== *)
(** What a run leaves on the clusters: the objects of others, the render after a
    successful delivery, and the teardown. *)

From S2P Require Import Prelude Value Apimachinery Types Clients Manifest Order Boundary Applier Transform Controller Outcomes Safety ApplierProps Deliver Reference Simulator ReconcileProps DeliverProps DeleteProps Cluster Runs.
#[local] Open Scope list_scope.
#[local] Opaque IsClusterScoped computeHealth prepared OwnedByValue.

Section States.
Context {U : Unstructured} {E : ApiErrors} {ST : Storage}.

(** ** The objects of others *)

Lemma preceded_prefix need t t' : preceded need (t ++ t') -> preceded need t.
Proof. intros H t1 ev t2 P -> Hn. apply (H t1 ev (t2 ++ t') P); [by rewrite <- app_assoc|done]. Qed.

(** A lookup that was just answered agrees with the store. *)
Lemma replays_looked_up v t v' c u Q :
  replays unchanged v t v' -> (exists t' ev, t = t' ++ [ev] /\ looked_up c u Q ev) ->
  exists r, Q r /\ match r with
    | Ok live => v_store v' (on_seed c) !! obj_address u = Some live
    | Err e => IsNotFound e = true -> v_store v' (on_seed c) !! obj_address u = None
    end.
Proof.
  intros Hr (t' & ev & -> & r & -> & Hq). apply replays_app_inv in Hr as (v1 & _ & (v2 & v3 & _ & [[Hu' _] Hg] & [Hu _])%replays_one_inv).
  exists r. split; [done|]. rewrite Hu, Hu'. destruct r; [done|auto].
Qed.

(** The write that may change an object of someone else at [a]: it has no owner, or
    the kind sent is namespaced. *)
Definition takes_over (side : bool) (a : string) (o : obj) (ev : event) : Prop :=
  sends_to side a ev /\
  (owner_of o = "" \/ exists c u e, ev = EvPatch c u e /\ IsClusterScoped (GetKind u) = false).

Lemma replays_foreign v t v' ob side a o :
  replays unchanged v t v' -> preceded (ownership_need ob) t ->
  v_store v side !! a = Some o -> owner_of o ≠ ob ->
  v_store v' side !! a = Some o \/ exists ev, ev ∈ t /\ takes_over side a o ev.
Proof.
  revert v'. induction t as [|ev t IH] using rev_ind; intros v' Hr Hp Ho Hn.
  - inversion Hr as [? ? [Hu _]|]; subst. left. by rewrite Hu.
  - apply replays_app_inv in Hr as (v1 & Hr & Hlast).
    destruct (IH v1 Hr (preceded_prefix _ _ _ Hp) Ho Hn) as [Hv1|(ev' & Hin & Ht)];
      [|right; exists ev'; split; [by apply elem_of_app; left|done]].
    apply replays_one_inv in Hlast as (v2 & v3 & [Hu _] & Hs & [Hu' _]).
    assert (forall Q c u, on_seed c = side -> obj_address u = a -> ownership_need ob ev = Some (looked_up c u Q) ->
      exists r, Q r /\ match r with Ok live => live = o | Err e => IsNotFound e = false end) as Hlook.
    { intros Q c u Hc Ha Hneed. destruct (Hp t ev [] _ eq_refl Hneed) as (t' & ev' & -> & Hl).
      destruct (replays_looked_up v (t' ++ [ev']) v1 c u Q Hr) as (r & Hq & Hv); [by exists t', ev'|].
      exists r. split; [done|]. rewrite Hc, Ha, Hv1 in Hv. destruct r as [live|e]; [congruence|].
      destruct (IsNotFound e); [by discriminate Hv|done]. }
    destruct (decide (deletes_at side a ev)) as [Hd|Hd]; [|destruct (decide (sends_to side a ev)) as [Hsd|Hsd]].
    + destruct ev as [| |c u e| | | | | | |]; try done. destruct Hd as [Hc Ha].
      destruct (Hlook _ c u Hc Ha eq_refl) as (r & (live & -> & Hl) & ->). done.
    + right. exists ev. split; [apply elem_of_app; right; by left|]. split; [done|].
      destruct ev as [|c u e| | | | | | | |]; try done. destruct Hsd as [Hc Ha]. cbn in Hlook.
      destruct (IsClusterScoped (GetKind u)) eqn:Ek; [|right; by exists c, u, e].
      left. destruct (Hlook _ c u Hc Ha eq_refl) as ([live|e'] & Hq & Hr0); [|congruence].
      subst live. by destruct Hq.
    + left. rewrite Hu', (ev_step_elsewhere _ _ _ _ _ Hs Hsd Hd), Hu. done.
Qed.

(** ** What was sent *)

(** The object at [a] is what the server made of an applied [u]. *)
Definition stored_from (u : obj) (x : option obj) : Prop := exists o, x = Some o /\ stored_as u o.

Lemma unchanged_at side a v v' : unchanged v v' -> v_store v' side !! a = v_store v side !! a.
Proof. intros [Hs _]. by rewrite Hs. Qed.

(** An accepted object, or another one sent later to its address, is what is stored there in
    the end, if nobody deletes or changes anything at that address. *)
Lemma replays_sent {D} `{!PreOrder D} v t v' c u :
  (forall v v', D v v' -> v_store v' (on_seed c) !! obj_address u = v_store v (on_seed c) !! obj_address u) ->
  replays D v t v' -> EvPatch c u None ∈ t ->
  (forall ev, ev ∈ t -> ~ deletes_at (on_seed c) (obj_address u) ev) ->
  exists c' u' e, EvPatch c' u' e ∈ t /\ on_seed c' = on_seed c /\ obj_address u' = obj_address u /\
    stored_from u' (v_store v' (on_seed c) !! obj_address u).
Proof.
  intros Hstill. revert v'. induction t as [|ev t IH] using rev_ind; intros v' Hr Hin Hd; [by apply elem_of_nil in Hin|].
  apply replays_app_inv in Hr as (v1 & Hr & Hlast).
  apply replays_one_inv in Hlast as (v2 & v3 & Hu%Hstill & Hs & Hu'%Hstill). rewrite Hu'.
  assert (ev ∈ t ++ [ev]) as Hev by (apply elem_of_app; right; by left).
  assert (EvPatch c u None ∈ t -> v_store v3 (on_seed c) !! obj_address u = v_store v1 (on_seed c) !! obj_address u ->
    exists c' u' e, EvPatch c' u' e ∈ t ++ [ev] /\ on_seed c' = on_seed c /\ obj_address u' = obj_address u /\
      stored_from u' (v_store v3 (on_seed c) !! obj_address u)) as Hprev.
  { intros Hin' ->. destruct (IH v1 Hr Hin') as (c' & u' & e & Hin2 & H); [intros ev' ?; apply Hd; by apply elem_of_app; left|].
    exists c', u', e. split; [by apply elem_of_app; left|exact H]. }
  destruct (decide (sends_to (on_seed c) (obj_address u) ev)) as [Hsd|Hsd].
  - destruct ev as [|c' u' e| | | | | | | |]; try done. destruct Hsd as [Hc Ha]. destruct Hs as [_ Hs]. rewrite Hc, Ha in Hs.
    destruct Hs as [Hs|[He Hs]]; [by exists c', u', e|].
    apply Hprev; [|by rewrite Hs, Hu]. apply elem_of_app in Hin as [?|Hin]; [done|].
    apply list_elem_of_singleton in Hin. congruence.
  - apply Hprev; [|by rewrite (ev_step_elsewhere _ _ _ _ _ Hs Hsd (Hd _ Hev)), Hu].
    apply elem_of_app in Hin as [?|Hin]; [done|]. apply list_elem_of_singleton in Hin as <-. by destruct Hsd.
Qed.
End States.

(** ** A successful delivery *)

Section Delivered.
Context {U : Unstructured} {E : ApiErrors} {ST : Storage} {L : MetaLib} {P : PatchLib} {B : Boundary} {SP : SourcePackage B}
  (UL : UnstructuredLaws U) (EL : ApiErrorsLaws E) (FS : FaithfulServer B).

Lemma cleared_clears c ob rs t :
  cleared c ob rs t -> exists ev, ev ∈ t /\ clears (on_seed c) (StatusIdentityKey rs) ob ev.
Proof.
  rewrite <- (entry_address rs). intros [(e & Hin & ?)|[(live & Hin & ?)|(e & Hin & ?)]];
    (eexists; split; [exact Hin|]); cbn; auto.
Qed.

(** A recorded object that is no longer rendered, after a half without prune errors. *)
Lemma half_orphan_cleared cr c ms out ea ta tp rs :
  half cr c ms out [] ea None ta tp -> Forall well_formed ms -> rs ∈ inventory c cr -> crd_retained cr rs = false ->
  (forall m, m ∈ ms -> ManifestIdentityKey m ≠ StatusIdentityKey rs) ->
  exists ev, ev ∈ ta ++ tp /\ clears (on_seed c) (StatusIdentityKey rs) (owner_value cr) ev.
Proof.
  intros Hh Hwf Hin Hc Hk. pose proof (half_accounted _ _ _ _ _ _ _ _ _ _ Hh Hwf Hin) as Hacc.
  rewrite app_nil_r in Hacc. destruct Hacc as [(rs' & Hin' & Hkey)|[?|[Hcl|(e & ? & ?)]]]; [|congruence|by apply cleared_clears|].
  - destruct Hh as (ms' & errs & errs' & _ & Ha & _). pose proof (apply_all_statuses _ _ _ _ _ _ Ha) as Hst.
    apply list_elem_of_lookup in Hin' as [i Hi]. destruct (Forall2_lookup_r _ _ _ _ _ Hst Hi) as (m & Hm & Hs).
    rewrite Forall_forall in Hwf. apply list_elem_of_lookup_2 in Hm. destruct (Hk m Hm).
    rewrite <- Hkey, (rendered_key _ _ _ (Hwf m Hm) Hs). symmetry. by apply prepared_key, Hwf.
  - eexists. split; [eassumption|]. rewrite <- (entry_address rs). cbn. auto.
Qed.

Context (r : Reconciler) `{!ReconcilerContract r}.

Lemma half_writer cr c ms out ret ea ep ta tp ev c' :
  half cr c ms out ret ea ep ta tp -> ev ∈ ta ++ tp -> write_client ev = Some c' -> c' = c.
Proof.
  intros Hh Hin. pose proof (half_client _ _ _ _ _ _ _ _ _ Hh) as Hf. rewrite Forall_forall in Hf.
  specialize (Hf ev Hin). destruct ev; try done; cbn in *; congruence.
Qed.

(** A clean half of the delivery for one side, with all writes of that side in [t]. *)
Definition clean_half (cr : DualDeploymentOperator) (side : bool) (ms : list Manifest) (t : list event) : Prop :=
  exists c out ta tp, on_seed c = side /\ inventory c cr = entries side cr /\
    half cr c (SortForApply ms) out [] None None ta tp /\
    (forall ev, ev ∈ ta ++ tp -> ev ∈ t) /\
    (forall ev c', ev ∈ t -> write_client ev = Some c' -> on_seed c' = side -> ev ∈ ta ++ tp).

Lemma two_clean_halves cr cfg ms ms' out out' ta tp ta' tp' t :
  half cr (ShootClient cfg) (SortForApply ms) out [] None None ta tp ->
  half cr SeedClient (SortForApply ms') out' [] None None ta' tp' ->
  (forall ev, ev ∈ ta ++ tp \/ ev ∈ ta' ++ tp' -> ev ∈ t) ->
  (forall ev, ev ∈ t -> write_client ev ≠ None -> ev ∈ ta ++ tp \/ ev ∈ ta' ++ tp') ->
  forall side, clean_half cr side (render_of side ms' ms) t.
Proof.
  intros Hh Hh' Hsub Hsup [].
  - exists SeedClient, out', ta', tp'. split_and!; [done|done|done|by auto|].
    intros ev c' Hin Hw Hc. destruct (Hsup ev Hin) as [Hx|Hx]; [congruence| |done].
    rewrite (half_writer _ _ _ _ _ _ _ _ _ _ _ Hh Hx Hw) in Hc. done.
  - exists (ShootClient cfg), out, ta, tp. split_and!; [done|done|done|by auto|].
    intros ev c' Hin Hw Hc. destruct (Hsup ev Hin) as [Hx|Hx]; [congruence|done|].
    rewrite (half_writer _ _ _ _ _ _ _ _ _ _ _ Hh' Hx Hw) in Hc. done.
Qed.

(** A delivery that reports success consists of two clean halves. *)
Lemma post_deliver_halves cr seed shoot :
  post (deliver r cr seed shoot) (fun res t => res = (mkResult requeueInterval, None) ->
    forall side, clean_half cr side (render_of side seed shoot) t).
Proof.
  eapply post_mono; [by apply post_deliver|].
  intros res t (tc & ts & so & sho & cond & e & -> & (now & now' & lf & ->) & Hd) Hres.
  assert (forall ea' ea ep ep', Forall (fun e => e = None) (collect ea' (collect ea []) ++ [NewAggregate [ep'; ep]]) ->
    ea' = None /\ ea = None /\ ep = None /\ ep' = None) as Hall.
  { intros ea' ea ep ep' H. apply Forall_app in H as [[-> [-> _]%collect_none]%collect_none H].
    apply Forall_singleton, (NewAggregate_forall EL) in H. inversion H as [|? ? H1 H2]; inversion H2; by subst. }
  destruct Hd as [? ? ? ? ? _ _ Hp|? ? ? ? ? ? ? ? ? ? ? _ _ Hp _|? ? ? ? ? ? ? ? ? ? ? _ _ _ _ _
                 |tb cfg ta ta' tp tp' out out' ret ret' ea ea' ep ep' e _ Hq Hh _ Hh'
                 |tb cfg ta ta' tp tp' out out' ret ret' ea ea' ep ep' e _ Hq Hh Hh'].
  1,2: destruct Hp as [[_ ->]|[_ ->]]; by destruct e.
  1: by destruct e.
  all: apply (ready_result_clean EL) in Hres as [-> (-> & -> & -> & ->)%Hall].
  all: destruct (half_clean EL _ _ _ _ _ _ _ Hh) as [-> _], (half_clean EL _ _ _ _ _ _ _ Hh') as [-> _].
  all: apply (two_clean_halves _ _ _ _ _ _ _ _ _ _ _ Hh Hh'); [in_goal|].
  all: intros ev Hin Hw; rewrite Forall_forall in Hq; rewrite !elem_of_app in *.
  all: destruct Hin as [Hin|Hin]; [|by apply list_elem_of_singleton in Hin as ->].
  all: assert (ev ∉ tb) by (intros Htb; by destruct (Hq _ Htb)); tauto.
Qed.

(** The object prepared from a well-formed manifest has its address and our label. *)
Lemma prepared_address ob m :
  well_formed m ->
  obj_address (prepared (m_Unstructured m) ob) = ManifestIdentityKey m /\ owner_of (prepared (m_Unstructured m) ob) = ob.
Proof.
  intros Hm. split; [by apply (prepared_key UL)|]. destruct Hm as [Hw _].
  by destruct (prepared_spec (m_Unstructured m) ob Hw) as (_ & _ & _ & _ & _ & ? & _).
Qed.

(** The writes of one side of a successful delivery. *)
Lemma clean_half_writes cr side ms t :
  clean_half cr side ms t -> Forall well_formed ms ->
  (forall c u e, EvPatch c u e ∈ t -> on_seed c = side ->
     exists m, m ∈ ms /\ u = prepared (m_Unstructured m) (owner_value cr) /\ obj_address u = ManifestIdentityKey m) /\
  (forall c u e, EvDelete c u e ∈ t -> on_seed c = side ->
     forall m, m ∈ ms -> ManifestIdentityKey m ≠ obj_address u).
Proof.
  intros (c & out & ta & tp & <- & _ & Hh & _ & Hsup) Hwf. split.
  - intros c' u e Hin Hc. apply Hsup with (c' := c') in Hin; [|done..].
    destruct (half_sent _ _ _ _ _ _ _ _ _ _ _ _ Hh Hin) as [-> (m & Hm & ->)]. rewrite elem_of_SortForApply in Hm.
    rewrite Forall_forall in Hwf. destruct (prepared_address (owner_value cr) m (Hwf m Hm)) as [Ha _]. by exists m.
  - intros c' u e Hin Hc m Hm. apply Hsup with (c' := c') in Hin; [|done..].
    apply Forall_SortForApply in Hwf.
    destruct (half_orphan UL FS _ _ _ _ _ _ _ _ _ _ _ _ Hh Hwf Hin) as [-> (rs & _ & -> & _ & Hk)].
    rewrite entry_address. apply Hk. by apply elem_of_SortForApply.
Qed.

(** Of the render [ms], the object at the address of [m] is what the server made of [m], sent
    with this CR's label; of two rendered objects of one identity it is one of them. *)
Definition in_place (cr : DualDeploymentOperator) (ms : list Manifest) (m : Manifest) (x : option obj) : Prop :=
  exists m', m' ∈ ms /\ ManifestIdentityKey m' = ManifestIdentityKey m /\
    stored_from (prepared (m_Unstructured m') (owner_value cr)) x.

(** What a successful delivery leaves on one side: the render, nothing of what was
    recorded and is no longer rendered, and otherwise at most what was there. *)
Lemma clean_half_state cr side ms t v v' :
  clean_half cr side ms t -> Forall well_formed ms -> replays unchanged v t v' ->
  (forall m, m ∈ ms -> in_place cr ms m (v_store v' side !! ManifestIdentityKey m)) /\
  (forall rs, rs ∈ entries side cr -> crd_retained cr rs = false ->
     (forall m, m ∈ ms -> ManifestIdentityKey m ≠ StatusIdentityKey rs) ->
     ~ holds (owner_value cr) (v_store v' side !! StatusIdentityKey rs)) /\
  (forall a, (forall m, m ∈ ms -> ManifestIdentityKey m ≠ a) ->
     holds (owner_value cr) (v_store v' side !! a) -> holds (owner_value cr) (v_store v side !! a)).
Proof.
  intros Hc Hwf Hr. destruct (clean_half_writes _ _ _ _ Hc Hwf) as [Hp Hd].
  assert (forall a, (forall m, m ∈ ms -> ManifestIdentityKey m ≠ a) -> forall ev, ev ∈ t -> ~ sends_to side a ev) as Hns.
  { intros a Ha ev Hin Hs. destruct ev as [|c u e| | | | | | | |]; try done. destruct Hs as [Hside <-].
    destruct (Hp c u e Hin Hside) as (m & Hm & _ & He). by destruct (Ha m Hm). }
  destruct Hc as (c & out & ta & tp & <- & Hinv & Hh & Hsub & _). split_and!.
  - intros m Hm. destruct (half_clean EL _ _ _ _ _ _ _ Hh) as [_ Hall].
    assert (m ∈ SortForApply ms) as Hm' by by apply elem_of_SortForApply.
    specialize (Hall m Hm'). rewrite Forall_forall in Hwf. destruct (prepared_address (owner_value cr) m (Hwf m Hm)) as [Ha _].
    destruct (replays_sent _ _ _ c (prepared (m_Unstructured m) (owner_value cr)) (unchanged_at _ _) Hr) as (c' & u' & e & Hin & Hside & Hat & Hst).
    + apply Hsub. by apply elem_of_app; left.
    + intros ev Hin Hde. destruct ev as [| |c' u' e'| | | | | | |]; try done. destruct Hde as [Hs Hu].
      destruct (Hd _ _ _ Hin Hs m Hm). congruence.
    + destruct (Hp _ _ _ Hin Hside) as (m' & Hin' & -> & Hat'). rewrite Ha in Hst, Hat. exists m'. split_and!; [done|congruence|done].
  - intros rs Hrs Hcr Hk. rewrite <- Hinv in Hrs. apply Forall_SortForApply in Hwf.
    destruct (half_orphan_cleared _ _ _ _ _ _ _ _ Hh Hwf Hrs Hcr) as (ev & Hin & Hcl).
    { intros m Hm. apply Hk. by rewrite elem_of_SortForApply in Hm. }
    eapply (replays_cleared (D := unchanged)); [apply unchanged_keeps|exact Hr|by apply Hns|by apply Hsub|done].
  - intros a Ha. eapply (replays_held (D := unchanged)); [apply unchanged_keeps|exact Hr|by apply Hns].
Qed.
End Delivered.

(** ** Whole runs *)

Section Runs.
Context {U : Unstructured} {E : ApiErrors} {ST : Storage} {L : MetaLib} {P : PatchLib} {B : Boundary} {SP : SourcePackage B}
  {LS : LawfulServer B} {RT : RenderTracks SP} {SC : SourceContract SP}.
Abbreviation r := (production_reconciler B).

(** Nobody else wrote to the clusters or to a CR while the run lasted. *)
Definition undisturbed (s : env) (t : list event) (s' : env) : Prop := replays unchanged (view_of s) t (view_of s').

(** The CR a run reads is the stored one. *)
Lemma replays_read {D} `{!PreOrder D} (Hd : forall v v', unchanged v v' -> D v v') v req got t v' :
  replays D v (EvCRGet req got :: t) v' -> exists v0, D v v0 /\ replays D v0 t v' /\
    match got with
    | Ok cr => v_cr v0 req = Some cr /\ cr_key cr = req
    | Err e => IsNotFound e = true -> v_cr v0 req = None
    end.
Proof.
  inversion 1 as [|? v0 ? v1 ? ? Hu Hs Hr]; subst. destruct Hs as [Hu0 Hs]. exists v0. split; [done|]. split; [|done].
  eapply replays_before; [by apply Hd|done].
Qed.

(** C5: the objects of others survive every reconcile. On a lawful server, an object that
    does not carry this CR's label is exactly as before after any run, successful or not,
    during which nobody else wrote, unless the run sent an object to the same address that is of a namespaced kind, or the
    object had no owner at all. *)
Theorem others_survive req s res t s' cr side a o :
  Reconcile r req s = (res, t, s') -> undisturbed s t s' -> v_cr (view_of s) req = Some cr ->
  v_store (view_of s) side !! a = Some o -> owner_of o ≠ owner_value cr ->
  v_store (view_of s') side !! a = Some o \/
  exists c u e, EvPatch c u e ∈ t /\ on_seed c = side /\ obj_address u = a /\
    (owner_of o = "" \/ IsClusterScoped (GetKind u) = false).
Proof.
  intros Hrun Hund Hcr Ho Hn. pose proof (post_run _ _ _ _ _ _ (post_Reconcile_ownership r req) Hrun) as (got & t' & -> & Hp).
  apply replays_read in Hund as (v & Hu & Hr & Hg); [|done]. rewrite <- (proj1 Hu side) in Ho. destruct got as [cr'|e].
  - destruct Hg as [Hcr' _]. rewrite (proj2 Hu), Hcr in Hcr'. injection Hcr' as <-.
    destruct (replays_foreign _ _ _ _ _ _ _ Hr Hp Ho Hn) as [?|(ev & Hin & Hs & Ht)]; [by left|right].
    destruct ev as [|c u e| | | | | | | |]; try done. destruct Hs as [<- <-]. exists c, u, e.
    split_and!; [by right|done|done|]. destruct Ht as [?|(? & ? & ? & [= <- <- <-] & ?)]; auto.
  - subst. left. inversion Hr as [? ? [Hs _]|]; subst. by rewrite Hs.
Qed.

(** ** The phases of a run *)

Lemma quiet_replays {D} `{!PreOrder D} (Hd : forall v v', unchanged v v' -> D v v') v t v' :
  Forall quiet t -> replays D v t v' -> D v v'.
Proof.
  intros Hq. apply replays_contained; [done|done|]. intros v1 ev v2 Hin Hs. apply Hd.
  rewrite Forall_forall in Hq. destruct (Hq ev Hin) as (Hw & Hc & Hst & Hon).
  destruct ev; try done; [destruct (Hon c); done|by destruct Hs].
Qed.

(** What the first read of a run tells about the stores. *)
Lemma read_stored req cr s t s1 :
  valid s -> GetCR req s = (Ok cr, t, s1) ->
  valid s1 /\ drift (view_of s) (view_of s1) /\ v_cr (view_of s1) req = Some cr /\ cr_key cr = req.
Proof.
  intros Hv Hg. pose proof (law_CRGet req s Hv) as Hl. unfold GetCR in Hg. destruct (cr_Get req s) as [got s2].
  injection Hg as -> <- <-. destruct Hl as (Hv1 & v & Hd & Hu & Hs & Hk). split; [done|].
  split; [etrans; [exact Hd|by apply drift_unchanged]|]. by rewrite (proj2 Hu).
Qed.

Context (UL : UnstructuredLaws U) (EL : ApiErrorsLaws E).

(** ** Deletion *)

Lemma delete_both_no_patch cr ob res t ev side a :
  delete_both_outcome cr ob res t -> ev ∈ t -> ~ sends_to side a ev.
Proof. intros Hd Hin Hs. destruct ev as [|c u e| | | | | | | |]; try done. by apply (delete_both_patchless _ _ _ _ _ _ _ Hd) in Hin. Qed.

(** A deletion run: the first status write, from which the CR comes back with its name and
    its inventories, and the teardown. *)
Lemma delete_run cr s res t s' :
  valid s -> reconcileDelete r cr s = (res, t, s') ->
  exists sent cur e t', t = EvStatusUpdate sent cur e :: t' /\ same_record cr sent /\
    cr_key cur = cr_key cr /\ (forall side, entries side cur = entries side cr) /\
    replays drift (view_of s) t (view_of s') /\ ((t' = [] /\ snd res ≠ None) \/ delete_both_outcome cur (owner_value cr) res t').
Proof.
  intros Hv Hrun.
  assert (tracks (reconcileDelete r cr)) as Htr.
  { unfold reconcileDelete. pose proof tracks_delete_both. track. }
  destruct (Htr _ _ _ _ Hv Hrun) as [_ Hr].
  assert (post (reconcileDelete r cr) (fun _ t => exists cs cur e t', t = EvStatusUpdate (with_Conditions cr cs) cur e :: t')) as Hsent.
  { unfold reconcileDelete. eapply post_bind; [apply post_set_status_condition|]. intros cr0 t0 [-> [now ->]].
    eapply post_bind; [apply post_StatusUpdate|]. intros [cur e] t1 ->. apply post_all. intros a t2. by eexists _, cur, e, t2. }
  pose proof (post_run _ _ _ _ _ _ Hsent Hrun) as (cs & cur & e & t' & ->).
  pose proof (post_run _ _ _ _ _ _ (post_reconcileDelete r cr) Hrun) as (sent & cur' & e' & t'' & Heq & Hd).
  injection Heq as <- <- <- <-. exists (with_Conditions cr cs), cur, e, t'.
  assert (cr_key cur = cr_key cr /\ cr_Status cur = cr_Status (with_Conditions cr cs)) as [Hk Hst].
  { inversion Hr as [|? v0 ? v1 ? ? Hu Hs _]; subst. destruct e as [e|]; cbn in Hs; [by destruct Hs as [_ ->]|].
    by destruct Hs as (_ & old & _ & -> & _ & Hk). }
  split_and!; [done|by split_and!; [..|intros []]|done| |done|done]. intros []; unfold entries; by rewrite Hst.
Qed.

Context (LL : MetaLibLaws L) (FS : FaithfulServer B).

(** A delivery never writes the CR's metadata. *)
Lemma deliver_no_update cr seed shoot s res t s' sent e :
  deliver r cr seed shoot s = (res, t, s') -> EvCRUpdate sent e ∉ t.
Proof.
  intros Hrun Hin. pose proof (post_run _ _ _ _ _ _ (post_deliver r cr seed shoot) Hrun)
    as (tc & ts & so & sho & cond & e' & -> & (now & now' & lf & ->) & Hd).
  apply elem_of_app in Hin as [Hin|Hin]; [|by apply list_elem_of_singleton in Hin].
  destruct (deliver_outcome_calls _ _ _ _ _ _ _ _ _ _ Hd Hin)
    as [(_ & Hc & _)|(c0 & ms & out & ret & ea & ep & ta & tp & _ & Hh & Ht)]; [done|].
  apply half_client in Hh. rewrite Forall_forall in Hh. by destruct (Hh _ Ht).
Qed.

(** The release of the finalizer, from a deletion's outcome: nothing that was recorded
    is held any more. *)
Lemma release_state {D} `{!PreOrder D} cur ob res v t v' sent e :
  replays D v t v' -> delete_both_outcome cur ob res t -> EvCRUpdate sent e ∈ t ->
  forall side rs, rs ∈ entries side cur -> crd_retained cur rs = false -> side = true \/ force_delete cur = false ->
    keeps_unheld D side (StatusIdentityKey rs) ob -> ~ holds ob (v_store v' side !! StatusIdentityKey rs).
Proof.
  intros Hr Hd Hin. pose proof Hin as (t1 & t2 & Ht)%list_elem_of_split.
  rewrite Ht in Hd. destruct (delete_both_release EL LL _ _ _ _ _ _ _ Hd) as (-> & _ & _ & Hseed & Hshoot).
  rewrite <- Ht in Hd. intros side rs Hrs Hc Hf Hkeep.
  assert (exists c, on_seed c = side /\ cleared c ob rs t1) as (c & <- & Hcl).
  { destruct side.
    - exists SeedClient. split; [done|]. by apply Hseed.
    - destruct Hf as [?|Hf]; [done|]. destruct Hshoot as [?|[cfg Hshoot]]; [congruence|].
      exists (ShootClient cfg). split; [done|]. by apply Hshoot. }
  apply (cleared_clears UL) in Hcl as (ev & Hev & Hcl).
  eapply (replays_cleared (D := D)); [exact Hkeep|exact Hr| |rewrite Ht; apply elem_of_app; left; exact Hev|exact Hcl].
  intros ev' Hev'. by eapply delete_both_no_patch.
Qed.

(** When the finalizer is released the teardown is complete on the clusters: after a run
    that updated the CR of a deletion while nobody else wrote, no seed object of the inventory
    (CRDs kept by policy excepted) exists any more with this CR's label, unless the server is
    already deleting it; the same holds of the shoot unless force-delete was set. *)
Theorem released_state req s res t s' cr sent e :
  valid s -> Reconcile r req s = (res, t, s') -> undisturbed s t s' -> v_cr (view_of s) req = Some cr ->
  Time_IsZero (meta_DeletionTimestamp (cr_meta cr)) = false -> EvCRUpdate sent e ∈ t ->
  forall side rs, rs ∈ entries side cr -> crd_retained cr rs = false -> side = true \/ force_delete cr = false ->
    ~ holds (owner_value cr) (v_store (view_of s') side !! StatusIdentityKey rs).
Proof.
  intros Hv Hrun Hund Hcr Hdel Hin. destruct (run_phase _ _ _ _ _ Hrun) as (got & s1 & t' & Hg & -> & Hph).
  apply elem_of_cons in Hin as [?|Hin]; [done|]. destruct got as [cr'|err]; [|destruct Hph as [-> _]; by apply elem_of_nil in Hin].
  destruct (read_stored _ _ _ _ _ Hv Hg) as (Hv1 & _ & _ & Hk).
  apply replays_read in Hund as (v & Hu & Hr & Hread & _); [|done]. rewrite (proj2 Hu), Hcr in Hread. injection Hread as <-.
  assert (reconcileDelete r cr s1 = (res, t', s')) as Hd.
  { destruct Hph as [?|? _ _ Hz _|t0 ts ? ? ? ? Ht Hq Hts _ _|seed shoot t0 s2 t1 Ht Hq Hf Hren Hdl]; [done|congruence|..].
    - exfalso. subst. apply elem_of_app in Hin as [Hin|Hin]; [|by apply list_elem_of_singleton in Hin].
      rewrite Forall_forall in Hq. by destruct (Hq _ Hin) as (_ & ? & _).
    - exfalso. subst. apply elem_of_app in Hin as [Hin|Hin].
      { rewrite Forall_forall in Hq. by destruct (Hq _ Hin) as (_ & ? & _). }
      apply (deliver_no_update _ _ _ _ _ _ _ _ _ Hdl Hin). }
  destruct (delete_run _ _ _ _ _ Hv1 Hd) as (sent' & cur & e' & t2 & -> & (Hm & Hsp & _) & _ & Hent & _ & Hout).
  apply elem_of_cons in Hin as [?|Hin]; [done|].
  destruct Hout as [[-> _]|Hout]; [by apply elem_of_nil in Hin|].
  assert (same_record cr cur) as (Hm' & Hsp' & _).
  { inversion Hr as [|? v0 ? v1 ? ? Hu0 Hs _]; subst. destruct e' as [e'|]; cbn in Hs.
    - destruct Hs as [_ ->]. split_and!; [done..|]. by intros.
    - destruct Hs as (_ & old & Hold & -> & _). assert (cr_key sent' = cr_key cr) as Hk' by (unfold cr_key; by rewrite Hm).
      rewrite Hk', (proj2 Hu0), (proj2 Hu), Hcr in Hold. injection Hold as <-. split_and!; [done..|]. by intros. }
  inversion Hr as [|? v0 ? v1 ? ? _ _ Hr']; subst. intros side rs Hrs Hc Hf.
  eapply (release_state (D := unchanged)); [exact Hr'|exact Hout|exact Hin|by rewrite Hent| | |apply unchanged_keeps].
  - unfold crd_retained in *. by rewrite Hsp'.
  - unfold force_delete in *. by rewrite Hm'.
Qed.

(** ** Delivery *)

Lemma reconcileDelete_not_success cr :
  post (reconcileDelete r cr) (fun res _ => res ≠ (mkResult requeueInterval, None)).
Proof.
  eapply post_mono; [apply (post_reconcileDelete r)|].
  cbn beta. intros res t (sent & cur & e & t' & _ & Hd) Hres. subst res. destruct Hd as [[_ Hne]|Hd]; [done|].
  destruct Hd as (tb & tsd & tsh & tf & errs & d & _ & _ & _ & _ & Hf). destruct (NewAggregate errs); [by destruct Hf|].
  inversion Hf as [? ? ? ? _ _ _ _|? ? _ _ _ [Hx|Hx]]; done.
Qed.

(** The delivery of a run that reports success. *)
Lemma success_delivers req s t s' :
  Reconcile r req s = ((mkResult requeueInterval, None), t, s') ->
  exists cr seed shoot s1 t0 s2 t1, GetCR req s = (Ok cr, [EvCRGet req (Ok cr)], s1) /\
    render_both cr s1 = (inl (seed, shoot), t0, s2) /\ Forall quiet t0 /\
    ContainsFinalizer (meta_Finalizers (cr_meta cr)) FinalizerName = true /\
    deliver r cr seed shoot s2 = ((mkResult requeueInterval, None), t1, s') /\ t = EvCRGet req (Ok cr) :: t0 ++ t1.
Proof.
  intros Hrun. destruct (run_phase _ _ _ _ _ Hrun) as (got & s1 & t' & Hg & -> & Hph).
  destruct got as [cr|err]; [|by destruct Hph as (_ & _ & ?)].
  destruct Hph as [Hd|? _ _ _ Hres|? ? ? ? ? ? _ _ _ _ Hres|seed shoot t0 s2 t1 -> Hq Hf Hren Hdl]; [|done|done|].
  - by destruct (post_run _ _ _ _ _ _ (reconcileDelete_not_success cr) Hd).
  - by exists cr, seed, shoot, s1, t0, s2, t1.
Qed.

(** What a successful run leaves on one cluster. *)
Lemma success_state req s t s' cr :
  Reconcile r req s = ((mkResult requeueInterval, None), t, s') -> undisturbed s t s' -> v_cr (view_of s) req = Some cr ->
  well_rendered cr ->
  exists seed shoot s1 t0 s2, GetCR req s = (Ok cr, [EvCRGet req (Ok cr)], s1) /\
    render_both cr s1 = (inl (seed, shoot), t0, s2) /\
    ContainsFinalizer (meta_Finalizers (cr_meta cr)) FinalizerName = true /\
    forall side,
      (forall m, m ∈ render_of side seed shoot ->
         in_place cr (render_of side seed shoot) m (v_store (view_of s') side !! ManifestIdentityKey m)) /\
      (forall rs, rs ∈ entries side cr -> crd_retained cr rs = false ->
         (forall m, m ∈ render_of side seed shoot -> ManifestIdentityKey m ≠ StatusIdentityKey rs) ->
         ~ holds (owner_value cr) (v_store (view_of s') side !! StatusIdentityKey rs)) /\
      (forall a, (forall m, m ∈ render_of side seed shoot -> ManifestIdentityKey m ≠ a) ->
         holds (owner_value cr) (v_store (view_of s') side !! a) -> holds (owner_value cr) (v_store (view_of s) side !! a)).
Proof.
  intros Hrun Hund Hcr Hwr. destruct (success_delivers _ _ _ _ Hrun)
    as (cr' & seed & shoot & s1 & t0 & s2 & t1 & Hget & Hren & Hq & Hg & Hdl & ->).
  apply replays_read in Hund as (v & Hu & Hr & Hread & _); [|done]. rewrite (proj2 Hu), Hcr in Hread. injection Hread as <-.
  apply replays_app_inv in Hr as (v1 & Hr0%quiet_replays & Hr); [|done|done].
  exists seed, shoot, s1, t0, s2. split_and!; [done..|]. intros side.
  destruct (post_run _ _ _ _ _ _ Hwr Hren seed shoot eq_refl) as [Hw1 Hw2].
  pose proof (post_run _ _ _ _ _ _ (post_deliver_halves EL r cr seed shoot) Hdl eq_refl side) as Hc.
  assert (Forall well_formed (render_of side seed shoot)) as Hwf by by destruct side.
  destruct (clean_half_state UL EL FS _ _ _ _ _ _ Hc Hwf Hr) as (H1 & H2 & H3).
  split_and!; [done|done|]. intros a Ha Hh. rewrite <- (proj1 Hu side), <- (proj1 Hr0 side). by apply H3.
Qed.

(** Success means the clusters have the render: after a run that reports success, while
    nobody else wrote, every object of the transformed seed render is on the seed, as the
    server stores what was rendered, with this CR's label, and every object of the shoot
    render on the shoot, and an object that was
    recorded before and is no longer rendered (CRDs kept by policy excepted) is not, unless
    its server is already deleting it. *)
Theorem delivered_state req s t s' cr :
  Reconcile r req s = ((mkResult requeueInterval, None), t, s') -> undisturbed s t s' -> v_cr (view_of s) req = Some cr ->
  well_rendered cr ->
  exists seed shoot s1 t0 s2, GetCR req s = (Ok cr, [EvCRGet req (Ok cr)], s1) /\
    render_both cr s1 = (inl (seed, shoot), t0, s2) /\
    forall side,
      (forall m, m ∈ render_of side seed shoot ->
         in_place cr (render_of side seed shoot) m (v_store (view_of s') side !! ManifestIdentityKey m)) /\
      (forall rs, rs ∈ entries side cr -> crd_retained cr rs = false ->
         (forall m, m ∈ render_of side seed shoot -> ManifestIdentityKey m ≠ StatusIdentityKey rs) ->
         ~ holds (owner_value cr) (v_store (view_of s') side !! StatusIdentityKey rs)).
Proof.
  intros Hrun Hund Hcr Hwr. destruct (success_state _ _ _ _ _ Hrun Hund Hcr Hwr)
    as (seed & shoot & s1 & t0 & s2 & Hget & Hren & _ & Hst).
  exists seed, shoot, s1, t0, s2. split_and!; [done..|]. intros side. by destruct (Hst side) as (? & ? & _).
Qed.
End Runs.

(** ** Witnesses *)

Import RefInstances.
#[local] Instance cl_source : SourcePackage sim_Boundary := fixed_source s_seed s_shoot.
Abbreviation cl_r := (production_reconciler sim_Boundary).

(** The simulation has no other writers. *)
Lemma sim_undisturbed (w : world) : sim_valid w ->
  undisturbed (B := sim_Boundary) w (calls_of (Reconcile cl_r s_req w)) (snd (Reconcile cl_r s_req w)).
Proof.
  intros Hv. assert (valid (B := sim_Boundary) w) as Hv' by exact Hv.
  exact (proj2 (tracks_Reconcile (B := sim_Boundary) s_req w _ _ _ Hv' (outcome_parts (Reconcile cl_r s_req w)))).
Qed.

(** Another CR owns the ClusterRole of the seed render. *)
Definition s_contested_role : obj := own s_role "other-owner".
Definition s_contested_world : world := mk_world [own s_configmap s_owner; s_contested_role] [] s_live_cr.

Definition s_contested_run : (Result * option error) * list event * world := Reconcile cl_r s_req s_contested_world.

Lemma others_survive_witness :
  (v_store (view_of (snd s_contested_run)) true !! obj_address s_role = Some s_contested_role \/
   exists c u e, EvPatch c u e ∈ calls_of s_contested_run /\ on_seed c = true /\ obj_address u = obj_address s_role /\
     (owner_of s_contested_role = "" \/ IsClusterScoped (GetKind u) = false)) /\
  count is_patch (calls_of s_contested_run) = 3.
Proof.
  split; [|by vm_compute].
  exact (others_survive (B := sim_Boundary) s_req s_contested_world _ _ _ s_live_cr true (obj_address s_role) s_contested_role
    (outcome_parts s_contested_run) (sim_undisturbed s_contested_world (conj eq_refl eq_refl))
    (eq_refl (Some s_live_cr)) ltac:(vm_cast_no_check (eq_refl (Some s_contested_role))) ltac:(by vm_compute)).
Defined.

Definition s_dying_run : (Result * option error) * list event * world := Reconcile cl_r s_req (s_dying_world ∅).

Lemma released_state_witness :
  GetName <$> v_store (view_of (s_dying_world ∅)) false !! obj_address s_crd = Some "widgets.example.com" /\
  count is_update (calls_of s_dying_run) = 1 /\
  forall side rs, rs ∈ entries side (s_dying_cr ∅) -> crd_retained (s_dying_cr ∅) rs = false ->
    side = true \/ force_delete (s_dying_cr ∅) = false ->
    ~ holds (owner_value (s_dying_cr ∅)) (v_store (view_of (snd s_dying_run)) side !! StatusIdentityKey rs).
Proof.
  split; [by vm_compute|]. assert (count is_update (calls_of s_dying_run) = 1) as Hc by by vm_compute.
  split; [done|]. assert (count is_update (calls_of s_dying_run) ≠ 0) as Hn by by rewrite Hc.
  destruct (count_update _ Hn) as (sent & e & Hin).
  exact (released_state (B := sim_Boundary) _ _ _ s_req (s_dying_world ∅) _ _ _ (s_dying_cr ∅) sent e
    (conj eq_refl eq_refl) (outcome_parts s_dying_run) (sim_undisturbed (s_dying_world ∅) (conj eq_refl eq_refl)) ltac:(by vm_compute) eq_refl Hin).
Defined.

Definition s_live_run : (Result * option error) * list event * world := Reconcile cl_r s_req s_live_world.

Lemma s_live_run_success : s_live_run = ((mkResult requeueInterval, None), calls_of s_live_run, snd s_live_run).
Proof. rewrite (outcome_parts s_live_run) at 1. replace (result_of s_live_run) with (mkResult requeueInterval, @None error); [done|by vm_compute]. Qed.

Lemma delivered_state_witness :
  exists seed shoot s1 t0 s2, GetCR s_req s_live_world = (Ok s_live_cr, [EvCRGet s_req (Ok s_live_cr)], s1) /\
    render_both s_live_cr s1 = (inl (seed, shoot), t0, s2) /\
    forall side,
      (forall m, m ∈ render_of side seed shoot ->
         in_place s_live_cr (render_of side seed shoot) m (v_store (view_of (snd s_live_run)) side !! ManifestIdentityKey m)) /\
      (forall rs, rs ∈ entries side s_live_cr -> crd_retained s_live_cr rs = false ->
         (forall m, m ∈ render_of side seed shoot -> ManifestIdentityKey m ≠ StatusIdentityKey rs) ->
         ~ holds (owner_value s_live_cr) (v_store (view_of (snd s_live_run)) side !! StatusIdentityKey rs)).
Proof.
  exact (delivered_state (B := sim_Boundary) _ _ _ s_req s_live_world (calls_of s_live_run) (snd s_live_run) s_live_cr
    s_live_run_success (sim_undisturbed s_live_world (conj eq_refl eq_refl)) ltac:(by vm_compute) s_live_well_rendered).
Defined.
