(* ===== verification/Lifecycle.v ===== *)
(** The life of a CR: runs of the reconciler interleaved with whatever else happens
    to the clusters, as a step relation; the inventories cover what the operator
    owns in every reachable state, and nothing is left behind when the CR is gone. *)

From S2P Require Import Prelude Value Apimachinery Types Clients Manifest Order Boundary Applier Transform Controller Outcomes Safety ApplierProps Deliver Reference Simulator ReconcileProps DeliverProps DeleteProps Cluster Bystanders Runs ClusterProps.
#[local] Open Scope list_scope.
#[local] Opaque IsClusterScoped computeHealth prepared OwnedByValue.

(** ** The status writes of a deletion *)

Section Records.
Context {U : Unstructured} {E : ApiErrors} {ST : Storage} {L : MetaLib} {P : PatchLib} {B : Boundary} {SP : SourcePackage B}
  (r : Reconciler) `{!ReconcilerContract r}.

(** The call, if it is an accepted status write, changes no inventory of [cr]. *)
Definition status_kept (cr : DualDeploymentOperator) (ev : event) : Prop :=
  forall sent left_, ev = EvStatusUpdate sent left_ None -> same_but_status cr sent.

Lemma quiet_status_kept cr t : Forall quiet t -> Forall (status_kept cr) t.
Proof. intros H. eapply Forall_impl; [exact H|]. by intros ev (_ & _ & Hs & _) sent l ->. Qed.

Lemma client_status_kept c cr t : Forall (on_client c) t -> Forall (status_kept cr) t.
Proof. intros H%on_client_no_cr. eapply Forall_impl; [exact H|]. by intros ev [_ Hs] sent l ->. Qed.

Lemma status_kept_trans cr cr' t : same_but_status cr cr' -> Forall (status_kept cr') t -> Forall (status_kept cr) t.
Proof.
  intros (H1 & H2 & H3 & H4) H. eapply Forall_impl; [exact H|]. intros ev Hk sent l Hs.
  destruct (Hk sent l Hs) as (? & ? & ? & ?). split_and!; congruence.
Qed.

Lemma post_Forall_bind {A C} (m : M A) (k : A -> M C) Q (R : A -> Prop) :
  post m (fun a t => Forall Q t /\ R a) -> (forall a, R a -> post (k a) (fun _ t => Forall Q t)) ->
  post (bind m k) (fun _ t => Forall Q t).
Proof.
  intros Hm Hk. eapply post_bind; [exact Hm|]. intros a t [Ht Ha]. eapply post_mono; [by apply Hk|].
  cbn beta. intros c t' Ht'. by apply Forall_app.
Qed.

Lemma post_status_kept cr cr' :
  same_but_status cr cr' -> post (StatusUpdate cr') (fun _ t => Forall (status_kept cr) t /\ True).
Proof.
  intros Hs. eapply post_mono; [apply post_StatusUpdate|]. cbn beta. intros [? ?] t ->. split; [|done].
  apply Forall_singleton. by intros sent l [= <- _ _].
Qed.

Lemma post_update_kept cr cr' : post (UpdateCR cr') (fun _ t => Forall (status_kept cr) t /\ True).
Proof.
  eapply post_mono; [apply post_UpdateCR|]. cbn beta. intros [? ?] t ->. split; [|done].
  apply Forall_singleton. by intros sent l.
Qed.

Lemma post_finish_delete_kept cr d errs : post (finish_delete r cr d errs) (fun _ t => Forall (status_kept cr) t).
Proof.
  assert (forall a b c cond, post (bind (record_event r a b c) (fun _ => set_status_condition cr cond))
    (fun cr' t => Forall (status_kept cr) t /\ same_but_status cr cr')) as Hrec.
  { intros. eapply post_mono; [apply post_record|]. cbn beta. intros cr' t [? ?]. by split; [apply quiet_status_kept|]. }
  unfold finish_delete. destruct d; [|case_bool_decide].
  - eapply post_Forall_bind; [apply post_update_kept|]. intros [? ?] _. by apply post_ret.
  - eapply post_Forall_bind; [apply Hrec|]. intros cr' Hs.
    eapply post_Forall_bind; [by apply post_status_kept|]. intros [cr2 ?] _.
    eapply post_Forall_bind; [apply post_update_kept|]. intros [? ?] _. by apply post_ret.
  - eapply post_Forall_bind; [apply Hrec|]. intros cr' Hs.
    eapply post_Forall_bind; [by apply post_status_kept|]. intros [? [?|]] _; by apply post_ret.
Qed.

Lemma post_deleteRender_kept cr cr' ob sa l :
  (forall a, sa = Some a -> exists c, ApplierContract a c) ->
  post (deleteRender cr' ob sa l) (fun _ t => Forall (status_kept cr) t /\ True).
Proof.
  intros Ha. destruct sa as [a|]; [|by apply post_ret]. destruct (Ha a eq_refl) as [c Hc].
  eapply post_mono; [by apply (post_delete_loop a c)|]. cbn beta. intros errs t Ht%delete_all_client.
  split; [by eapply client_status_kept|done].
Qed.

Lemma post_delete_both_kept cr ob : post (delete_both r cr ob) (fun _ t => Forall (status_kept cr) t).
Proof.
  unfold delete_both. eapply post_Forall_bind with
    (R := fun '(cr', sa, _) => same_but_status cr cr' /\ forall a, sa = Some a -> exists c, ApplierContract a c).
  { eapply post_mono; [apply (post_build_shoot r)|]. intros [[cr' sa] be] t (Hq & Hs & Hb).
    split; [by apply quiet_status_kept|]. split; [done|]. intros a ->. destruct be; [done|].
    destruct Hb as [_ [cfg Hc]]. by exists (ShootClient cfg). }
  intros [[cr' sa] be] [Hs Ha].
  assert (forall l, post (deleteRender cr' ob (Some (r_SeedApplier r)) l) (fun _ t => Forall (status_kept cr) t /\ True)) as Hsd.
  { intros l. apply post_deleteRender_kept. intros a [= <-]. exists SeedClient. apply seed_contract. }
  assert (forall l, post (deleteRender cr' ob sa l) (fun _ t => Forall (status_kept cr) t /\ True)) as Hsh
    by (intros; by apply post_deleteRender_kept).
  assert (forall (m : M (list (option error) * list (option error))),
    post m (fun _ t => Forall (status_kept cr) t) -> post m (fun _ t => Forall (status_kept cr) t /\ True)) as Hw.
  { intros m Hm. eapply post_mono; [exact Hm|]. by split. }
  eapply post_Forall_bind.
  - case_bool_decide; apply Hw; eapply post_Forall_bind; [apply Hsh| |apply Hsd|]; intros ? _;
      eapply post_Forall_bind; [apply Hsd| |apply Hsh|]; intros ? _; by apply post_ret.
  - intros [se she] _. destruct (NewAggregate se); [by apply post_ret|].
    eapply post_mono; [apply post_finish_delete_kept|]. cbn beta. intros ? t. by apply status_kept_trans.
Qed.

Lemma post_reconcileDelete_kept cr :
  post (reconcileDelete r cr) (fun _ t => exists sent cur e t',
    t = EvStatusUpdate sent cur e :: t' /\ Forall (status_kept cur) t').
Proof.
  unfold reconcileDelete. eapply post_bind; [apply post_set_status_condition|]. intros cr0 t [-> _].
  eapply post_bind; [apply post_StatusUpdate|]. cbn beta. intros [cur e] t ->.
  assert (forall ob, post (delete_both r cur ob) (fun _ t => exists sent cur' e' t',
    [] ++ [EvStatusUpdate cr0 cur e] ++ t = EvStatusUpdate sent cur' e' :: t' /\ Forall (status_kept cur') t')) as Hmain.
  { intros ob. eapply post_mono; [apply post_delete_both_kept|]. intros res t' Ht'. by eexists _, cur, _, t'. }
  destruct e as [e|]; [|apply Hmain]. destruct (negb (IsNotFound e)); [|apply Hmain].
  apply post_ret. by eexists _, cur, _, [].
Qed.
End Records.

#[export] Instance NamespacedName_eq_dec : EqDecision NamespacedName.
Proof. solve_decision. Defined.

(** ** The system *)

Section System.
Context {U : Unstructured} {E : ApiErrors} {ST : Storage} {L : MetaLib} {P : PatchLib} {B : Boundary} {SP : SourcePackage B}
  {LS : LawfulServer B} {RT : RenderTracks SP} {SC : SourceContract SP}.
Abbreviation r := (production_reconciler B).

(** One CR and one of its clusters. *)
Context (key : NamespacedName) (side : bool).

Definition owner_of_key (k : NamespacedName) : string := OwnedByValue (nn_Namespace k) (nn_Name k).

(** An object of this CR at [a]: its label, not on its way out, no CRD. *)
Definition ours (v : view) (a : string) : Prop := ~ crd_address a /\ holds (owner_of_key key) (v_store v side !! a).

Definition guarded (cr : DualDeploymentOperator) : bool := ContainsFinalizer (meta_Finalizers (cr_meta cr)) FinalizerName.

(** The inventory names every object of this CR. *)
Definition covered (v : view) (cr : DualDeploymentOperator) : Prop :=
  forall a, ours v a -> exists rs, rs ∈ entries side cr /\ StatusIdentityKey rs = a.
Definition clean (v : view) : Prop := forall a, ~ ours v a.

Definition lifecycle_inv (v : view) : Prop :=
  match v_cr v key with
  | Some cr => if guarded cr then covered v cr else clean v
  | None => clean v
  end.

(** The CR is stored with the finalizer and with these entries. *)
Definition stands (v : view) (es : list ResourceStatus) : Prop :=
  exists cr, v_cr v key = Some cr /\ guarded cr = true /\ entries side cr = es.

(** What else may happen, between two calls as well as between two runs: objects come,
    change and go, but nobody else puts this CR's label on an object or takes a deletion
    back; users create, edit and delete the CR, but a CR with the finalizer keeps the
    finalizer and its inventories. *)
Definition drifts (v v' : view) : Prop :=
  (forall a, ours v' a -> ours v a) /\ (forall es, stands v es -> stands v' es).

#[export] Instance drifts_preorder : PreOrder drifts.
Proof. split; [by split|]. intros v1 v2 v3 [H1 H2] [H3 H4]. split; auto. Qed.

(** Nothing was sent whose record was then refused. *)
Definition recorded (t : list event) : Prop :=
  forall c u e sent l e', EvPatch c u e ∈ t -> EvStatusUpdate sent l (Some e') ∉ t.

(** No CR that the API server handed back asks for force-delete. *)
Definition unforced (t : list event) : Prop := forall sent l e, EvStatusUpdate sent l e ∈ t -> force_delete l = false.

(** The runs considered: renders are well formed; this CR's deliveries get their status
    written, and force-delete is not used on it when the shoot is looked at; no other CR has the
    same label. *)
Definition admissible (req : NamespacedName) (t : list event) : Prop :=
  forall cr, head t = Some (EvCRGet req (Ok cr)) -> well_rendered cr /\
    (req = key -> recorded t /\ (side = true \/ unforced t)) /\
    (req ≠ key -> owner_of_key req ≠ owner_of_key key).

Inductive step : env -> env -> Prop :=
| step_run s req res t s' : Reconcile r req s = (res, t, s') -> admissible req t -> step s s'
| step_other s s' : valid s' -> drifts (view_of s) (view_of s') -> step s s'.

Lemma clean_inv v : clean v -> lifecycle_inv v.
Proof.
  intros Hc. unfold lifecycle_inv. destruct (v_cr v key) as [cr|]; [destruct (guarded cr)|]; [|done..].
  intros a Ha. by destruct (Hc a).
Qed.

Lemma stands_covered v cr : lifecycle_inv v -> stands v (entries side cr) -> covered v cr.
Proof. unfold lifecycle_inv. intros Hi (cr' & Hc & Hg & He). rewrite Hc, Hg in Hi. intros a Ha. rewrite <- He. by apply Hi. Qed.

Lemma drifts_inv v v' : drifts v v' -> lifecycle_inv v -> lifecycle_inv v'.
Proof.
  intros [Ho Hc] Hi. assert (clean v -> lifecycle_inv v') as Hclean by (intros H; apply clean_inv; intros a Ha; by apply (H a), Ho).
  unfold lifecycle_inv in Hi. destruct (v_cr v key) as [cr|] eqn:Ec; [destruct (guarded cr) eqn:Eg|]; [|by apply Hclean..].
  destruct (Hc (entries side cr)) as (cr' & Hcr' & Hg' & He); [by exists cr|].
  unfold lifecycle_inv. rewrite Hcr', Hg'. intros a Ha. rewrite He. by apply Hi, Ho.
Qed.

Lemma unchanged_drifts v v' : unchanged v v' -> drifts v v'.
Proof.
  intros [Hs Hc]. split; [intros a; unfold ours; by rewrite Hs|]. intros es (cr & Hcr & H). exists cr. by rewrite Hc.
Qed.

(** The others keep to that between two calls. *)
Context (bystanders : forall v v', drift v v' -> drifts v v').

Lemma drift_unheld a : ~ crd_address a -> keeps_unheld drift side a (owner_of_key key).
Proof. intros Ha v v' [Ho _]%bystanders Hh. by apply (Ho a). Qed.

Lemma unsent_ours v t v' : replays drift v t v' -> (forall a ev, ev ∈ t -> ~ sends_to side a ev) -> forall a, ours v' a -> ours v a.
Proof. intros Hr Hn a [Hc Hh]. split; [done|]. eapply replays_held; [by apply drift_unheld|exact Hr|apply Hn|exact Hh]. Qed.

(** ** The stored CR during a run *)

Lemma same_record_status cr cr' : same_record cr cr' -> same_but_status cr cr'.
Proof. intros (H1 & H2 & H3). split_and!; [done|done|exact (H3 true)|exact (H3 false)]. Qed.

Lemma same_status_entries cr cr' : same_but_status cr cr' -> entries side cr' = entries side cr.
Proof. intros (_ & _ & H1 & H2). by destruct side. Qed.

(** A call that neither changes the inventories nor writes the CR's metadata leaves the CR
    standing. *)
Lemma ev_step_stands v ev v' es :
  ev_step v ev v' -> (forall sent l, ev = EvStatusUpdate sent l None -> cr_key sent = key -> entries side sent = es) ->
  (forall sent, ev = EvCRUpdate sent None -> cr_key sent ≠ key) -> stands v es -> stands v' es.
Proof.
  intros Hs Hst Hup (cr & Hc & Hg & He).
  assert (v_cr v' key = v_cr v key -> stands v' es) as Hsame by (intros Heq; exists cr; by rewrite Heq).
  destruct ev as [c g k' res|c u e|c u e|k' res|sent e|sent l e| | | |]; cbn in Hs; try (apply Hsame; apply Hs).
  - destruct e; [apply Hsame, Hs|]. destruct Hs as [[_ Ho] _]. apply Hsame, Ho. by apply not_eq_sym, Hup.
  - destruct e; [apply Hsame, (proj1 Hs)|]. destruct Hs as ([_ Ho] & old & Hold & -> & Hnew & _).
    destruct (decide (cr_key sent = key)) as [Hk|Hk]; [|by apply Hsame, Ho, not_eq_sym].
    rewrite Hk in Hold, Hnew. assert (old = cr) as -> by congruence. eexists. split; [exact Hnew|]. split; [exact Hg|].
    by apply (Hst sent _ eq_refl).
Qed.

Lemma replays_stands v t v' es :
  replays drift v t v' -> (forall sent l, EvStatusUpdate sent l None ∈ t -> cr_key sent = key -> entries side sent = es) ->
  (forall sent, EvCRUpdate sent None ∈ t -> cr_key sent ≠ key) -> stands v es -> stands v' es.
Proof.
  induction 1 as [v v' Hd|v v0 ev v1 t v' Hd Hs _ IH]; intros Hst Hup H; [by apply (bystanders v v')|].
  apply IH; [intros sent l ?; apply (Hst sent l); by right|intros sent ?; apply Hup; by right|].
  apply (ev_step_stands _ _ _ _ Hs); [| |by apply (bystanders v v0)].
  - intros sent l ->. apply (Hst sent l). by left.
  - intros sent ->. apply Hup. by left.
Qed.

(** ** Runs for this CR *)

Context (UL : UnstructuredLaws U) (EL : ApiErrorsLaws E) (LL : MetaLibLaws L) (FS : FaithfulServer B).

(** The calls of a delivery before its status write. *)
Lemma post_deliver_calls cr seed shoot :
  Forall well_formed seed -> Forall well_formed shoot ->
  post (deliver r cr seed shoot) (fun _ t => exists tc seedOut shootOut cond e ts,
    t = tc ++ ts /\ status_write cr seedOut shootOut cond e ts /\ inventories_kept cr tc seedOut shootOut /\
    forall ev, ev ∈ tc -> status_kept cr ev /\ (forall sent e, ev ≠ EvCRUpdate sent e) /\
      forall c u e, ev = EvPatch c u e -> exists m, well_formed m /\ u = prepared (m_Unstructured m) (owner_value cr)).
Proof.
  intros Hs Hsh s. destruct (deliver r cr seed shoot s) as [[res t] s'] eqn:Hrun.
  pose proof (post_run _ _ _ _ _ _ (post_deliver_inventories r UL FS cr seed shoot Hs Hsh) Hrun)
    as (tc & so & sho & cond & e & ts & -> & Hw & Hkept).
  exists tc, so, sho, cond, e, ts. split_and!; [done..|].
  pose proof (post_run _ _ _ _ _ _ (post_deliver r cr seed shoot) Hrun) as (tc' & ts' & so' & sho' & cond' & e' & Ht & Hw' & Hd).
  destruct Hw as (? & ? & ? & ->), Hw' as (? & ? & ? & ->). apply app_inj_tail in Ht as [-> _].
  intros ev Hin. destruct (deliver_outcome_calls _ _ _ _ _ _ _ _ _ _ Hd Hin)
    as [Hq|(c & ms & out & ret & ea & ep & ta & tp & Hc & Hh & Hev)].
  - destruct Hq as (Hw & Hcr & Hst & _). split_and!; [by intros ? ? ->|by intros ? ? ->|by intros ? ? ? ->].
  - pose proof (half_client _ _ _ _ _ _ _ _ _ Hh) as Hcl. rewrite Forall_forall in Hcl. specialize (Hcl ev Hev).
    split_and!; [by intros ? ? ->|by intros ? ? ->|]. intros c' u e'' ->.
    destruct (half_sent _ _ _ _ _ _ _ _ _ _ _ _ Hh Hev) as [_ (m & Hm & ->)]. exists m. split; [|done].
    apply Forall_SortForApply in Hs, Hsh. rewrite Forall_forall in Hs, Hsh.
    destruct Hc as [[_ ->]|(? & _ & ->)]; auto.
Qed.

(** A run that sends nothing with this CR's label, keeps its inventories and does not
    write its metadata. *)
Lemma kept_drifts v t v' cr :
  replays drift v t v' -> v_cr v key = Some cr ->
  (forall sent l, EvStatusUpdate sent l None ∈ t -> cr_key sent = key -> entries side sent = entries side cr) ->
  (forall sent, EvCRUpdate sent None ∈ t -> cr_key sent ≠ key) ->
  (forall a, ours v' a -> ours v a) -> drifts v v'.
Proof.
  intros Hr Hc Hst Hup Ho. split; [exact Ho|]. intros es Hs. apply (replays_stands _ _ _ _ Hr); [|done|done].
  destruct Hs as (cr0 & Hc0 & _ & <-). assert (cr0 = cr) as -> by congruence. exact Hst.
Qed.

Lemma key_owner cr : cr_key cr = key -> owner_value cr = owner_of_key key.
Proof. intros <-. done. Qed.

Lemma retained_is_crd cr rs : ~ crd_address (StatusIdentityKey rs) -> crd_retained cr rs = false.
Proof.
  intros Hn. destruct (crd_retained cr rs) eqn:Er; [|done]. exfalso. apply Hn, crd_entry_address.
  unfold crd_retained in Er. apply andb_true_iff in Er as [Er _]. by apply bool_decide_eq_true in Er.
Qed.

(** Inventories that account for the calls cover what the calls leave. *)
Lemma kept_covers cr v tc ev v' seedOut shootOut :
  cr_key cr = key -> covered v cr -> replays drift v (tc ++ [ev]) v' -> (forall a, ~ sends_to side a ev) ->
  inventories_kept cr tc seedOut shootOut ->
  (forall c u e, EvPatch c u e ∈ tc -> exists m, well_formed m /\ u = prepared (m_Unstructured m) (owner_value cr)) ->
  forall a, ours v' a -> exists rs, rs ∈ (if side then seedOut else shootOut) /\ StatusIdentityKey rs = a.
Proof.
  intros Hk Hcov Hr Hev [Hsent Hold] Hprep a [Hcrd Hh].
  destruct (decide (Exists (sends_to side a) tc)) as [(ev' & Hin & Hs)%Exists_exists|Hn].
  { destruct ev' as [|c u e| | | | | | | |]; try done. destruct Hs as [<- <-].
    destruct (Hsent c u e Hin) as (rs & Hrs & Hst). destruct (Hprep c u e Hin) as (m & Hm & ->).
    exists rs. split; [done|]. rewrite (rendered_key _ m rs Hm Hst). symmetry. apply obj_address_key. }
  assert (forall ev', ev' ∈ tc ++ [ev] -> ~ sends_to side a ev') as Hns.
  { intros ev' [Hin| ->%list_elem_of_singleton]%elem_of_app; [|by apply Hev].
    intros Hs. apply Hn, Exists_exists. by exists ev'. }
  assert (holds (owner_of_key key) (v_store v side !! a)) as Hh0
    by (eapply replays_held; [by apply drift_unheld|done..]).
  destruct (Hcov a (conj Hcrd Hh0)) as (rs & Hrs & Ha).
  assert (exists c, on_seed c = side /\ rs ∈ inventory c cr) as (c & Hcs & Hc).
  { destruct side; [by exists SeedClient|by exists (ShootClient (mkRESTConfig "" "" "" 0))]. }
  destruct (Hold c rs Hc) as (c' & Hside & [(rs' & Hin & Heq)|[Hret|Hcl]]).
  - exists rs'. rewrite <- Hcs. split; [done|congruence].
  - rewrite <- Ha in Hcrd. by rewrite (retained_is_crd cr rs Hcrd) in Hret.
  - exfalso. assert (exists ev', ev' ∈ tc /\ clears side a (owner_of_key key) ev') as (ev' & Hin & Hclr).
    { rewrite <- Hcs, <- Hside, <- Ha, <- (key_owner cr Hk). destruct Hcl as [Hcl|(e & Hin & He)]; [by apply cleared_clears|].
      eexists. split; [exact Hin|]. rewrite <- (entry_address rs). cbn. auto. }
    eapply (replays_cleared (D := drift)); [by apply drift_unheld|exact Hr|exact Hns|apply elem_of_app; left; exact Hin|exact Hclr|exact Hh].
Qed.

(** An accepted status write stores the inventories it carries. *)
Lemma status_write_stands v v' sent left_ es :
  replays drift v [EvStatusUpdate sent left_ None] v' -> cr_key sent = key -> stands v es -> stands v' (entries side sent).
Proof.
  intros (v0 & v1 & Hd0 & Hs & Hd1)%replays_one_inv Hk H. apply (bystanders _ _ Hd1).
  apply (bystanders _ _ Hd0) in H as (old & Hold & Hg & _). destruct Hs as (_ & old' & Hold' & -> & Hnew & _).
  rewrite Hk in Hold', Hnew. assert (old' = old) as -> by congruence. by eexists.
Qed.

Lemma inv_deliver cr seed shoot s res t s' :
  valid s -> cr_key cr = key -> stands (view_of s) (entries side cr) ->
  Forall well_formed seed -> Forall well_formed shoot ->
  deliver r cr seed shoot s = (res, t, s') -> recorded t -> lifecycle_inv (view_of s) -> lifecycle_inv (view_of s').
Proof.
  intros Hv Hk Hstand Hs Hsh Hrun Hrec Hi. destruct (tracks_deliver cr seed shoot _ _ _ _ Hv Hrun) as [_ Hr].
  pose proof (post_run _ _ _ _ _ _ (post_deliver_calls cr seed shoot Hs Hsh) Hrun)
    as (tc & so & sho & cond & e & ts & -> & (now & now' & left_ & ->) & Hkept & Hcalls).
  set (sent := with_LastReconcile _ _) in *.
  assert (forall a, ~ sends_to side a (EvStatusUpdate sent left_ e)) as Hns by by intros a [].
  assert (forall x l, EvStatusUpdate x l None ∈ tc -> cr_key x = key -> entries side x = entries side cr) as Hst.
  { intros x l Hin _. apply same_status_entries. by apply (proj1 (Hcalls _ Hin) x l). }
  assert (forall x, EvCRUpdate x None ∈ tc -> cr_key x ≠ key) as Hup by (intros x Hin; by destruct (Hcalls _ Hin) as (_ & Hne & _); destruct (Hne x None)).
  destruct e as [e|].
  - pose proof Hstand as (cr0 & Hc0 & Hg0 & He0). apply (drifts_inv (view_of s)); [|done]. apply (kept_drifts _ _ _ cr0 Hr Hc0).
    + intros x l [Hin|Hin%list_elem_of_singleton]%elem_of_app; [|done]. rewrite He0. by apply (Hst x l).
    + intros x [Hin|Hin%list_elem_of_singleton]%elem_of_app; [by apply Hup in Hin|done].
    + apply (unsent_ours _ _ _ Hr). intros a ev [Hin| ->%list_elem_of_singleton]%elem_of_app Hse; [|done].
      destruct ev as [|c u e'| | | | | | | |]; try done. apply (Hrec c u e' sent left_ e); [by apply elem_of_app; left|].
      apply elem_of_app. right. by left.
  - pose proof (kept_covers cr _ _ _ _ so sho Hk (stands_covered _ _ Hi Hstand) Hr Hns Hkept) as Hnew.
    apply replays_app_inv in Hr as (v1 & Hr1 & Hr2).
    apply (replays_stands _ _ _ (entries side cr) Hr1 Hst Hup) in Hstand.
    apply (status_write_stands _ _ _ _ _ Hr2) in Hstand as (cr' & Hc' & Hg' & He'); [|exact Hk].
    unfold lifecycle_inv. rewrite Hc', Hg'. intros a Ha.
    destruct (Hnew (fun c u e Hin => proj2 (proj2 (Hcalls _ Hin)) c u e eq_refl) a Ha) as (rs & Hrs & Hkey).
    exists rs. split; [|done]. rewrite He'. by destruct side.
Qed.

Lemma inv_delete cr s res t s' :
  valid s -> cr_key cr = key -> v_cr (view_of s) key = Some cr -> side = true \/ unforced t ->
  reconcileDelete r cr s = (res, t, s') -> lifecycle_inv (view_of s) -> lifecycle_inv (view_of s').
Proof.
  intros Hv Hk Hc Hforce Hrun Hi.
  destruct (delete_run cr _ _ _ _ Hv Hrun) as (sent0 & cur & e0 & t' & -> & Hs0 & Hkcur & Hent & Hr & Hout).
  pose proof (post_run _ _ _ _ _ _ (post_reconcileDelete_kept r cr) Hrun) as (? & ? & ? & ? & [= <- <- <- <-] & Hst).
  assert (forall a ev, ev ∈ EvStatusUpdate sent0 cur e0 :: t' -> ~ sends_to side a ev) as Hns.
  { intros a ev [->|Hin]%elem_of_cons; [by intros []|]. destruct Hout as [[-> _]|Hout]; [by apply elem_of_nil in Hin|].
    by eapply delete_both_no_patch. }
  pose proof (unsent_ours _ _ _ Hr Hns) as Hours.
  destruct (decide (Exists updates_cr t')) as [(ev & Hin & [x Hx])%Exists_exists|Hn].
  - destruct ev as [| | | |sent e| | | | |]; try done.
    destruct Hout as [[-> _]|Hout]; [by apply elem_of_nil in Hin|].
    inversion Hr as [|? v0 ? v1 ? ? _ _ Hr']; subst. apply clean_inv. intros a Ha.
    unfold lifecycle_inv in Hi. rewrite Hc in Hi. destruct (guarded cr); [|by apply (Hi a), Hours].
    destruct (Hi a (Hours a Ha)) as (rs & Hrs & <-). destruct Ha as [Hcrd Hh].
    apply (release_state UL EL LL _ _ _ _ _ _ _ _ Hr' Hout Hin side rs).
    + by rewrite Hent.
    + by apply retained_is_crd.
    + destruct Hforce as [?|Hf]; [by left|right]. apply (Hf sent0 cur e0). by left.
    + change (owner_value cr) with (owner_of_key (cr_key cr)). rewrite Hk. by apply drift_unheld.
    + change (owner_value cr) with (owner_of_key (cr_key cr)). by rewrite Hk.
  - apply (drifts_inv (view_of s)); [|done]. apply (kept_drifts _ _ _ cr Hr Hc); [| |exact Hours].
    + intros sent l [[= -> _ _]|Hin]%elem_of_cons _; [by apply same_status_entries, same_record_status|].
      rewrite Forall_forall in Hst. rewrite <- Hent. apply same_status_entries. by apply (Hst _ Hin sent l).
    + intros sent [?|Hin]%elem_of_cons Heq; [done|]. apply Hn, Exists_exists. exists (EvCRUpdate sent None).
      split; [done|]. by eexists.
Qed.

(** Every run for this CR. *)
Lemma inv_own_run s res t s' :
  valid s -> Reconcile r key s = (res, t, s') -> admissible key t -> lifecycle_inv (view_of s) -> lifecycle_inv (view_of s').
Proof.
  intros Hv Hrun Hadm Hi. destruct (tracks_Reconcile key _ _ _ _ Hv Hrun) as [_ Hr].
  destruct (run_phase _ _ _ _ _ Hrun) as (got & s1 & t' & Hget & -> & Hph).
  apply replays_read in Hr as (v & Hd & Hr & Hread); [|apply drift_unchanged].
  pose proof (drifts_inv _ _ (bystanders _ _ Hd) Hi) as Hiv. destruct got as [cr|err].
  2:{ destruct Hph as (-> & _). inversion Hr; subst. eapply drifts_inv; [apply bystanders|]; eassumption. }
  destruct (Hadm cr eq_refl) as (Hwr & Hown & _). destruct (Hown eq_refl) as [Hrec Hforce]. destruct Hread as [Hcv _].
  destruct (read_stored _ _ _ _ _ Hv Hget) as (Hv1 & Hd1 & Hc & Hk). pose proof (drifts_inv _ _ (bystanders _ _ Hd1) Hi) as Hi1.
  destruct Hph as [Hdel|e Hf -> _ _|t0 ts sent left_ e err -> Hq -> Hsame _|seed shoot t0 s2 t1 -> Hq Hf Hren Hdl].
  - eapply inv_delete; [exact Hv1|done|done| |exact Hdel|done]. destruct Hforce as [?|Hf]; [by left|right].
    intros sent l e Hin. apply (Hf sent l e). by right.
  - apply clean_inv. unfold lifecycle_inv in Hiv. rewrite Hcv in Hiv. unfold guarded in Hiv. rewrite Hf in Hiv.
    intros a Ha. apply (Hiv a). revert a Ha. apply (unsent_ours _ _ _ Hr).
    intros a ev ->%list_elem_of_singleton. by intros [].
  - eapply drifts_inv; [|exact Hiv]. apply (kept_drifts _ _ _ cr Hr Hcv).
    + intros x l [Hin|[= -> _ _]%list_elem_of_singleton]%elem_of_app _; [|by apply same_status_entries, same_record_status].
      rewrite Forall_forall in Hq. by destruct (Hq _ Hin) as (_ & _ & ? & _).
    + intros x [Hin|Hin%list_elem_of_singleton]%elem_of_app; [|done]. rewrite Forall_forall in Hq. by destruct (Hq _ Hin) as (_ & ? & _).
    + apply (unsent_ours _ _ _ Hr). intros a ev [Hin| ->%list_elem_of_singleton]%elem_of_app; [|by intros []].
      rewrite Forall_forall in Hq. destruct (Hq _ Hin) as (Hw & _). intros Hs. by destruct ev.
  - destruct (tracks_render_both cr _ _ _ _ Hv1 Hren) as [Hv2 Hr2].
    apply (quiet_replays drift_unchanged _ _ _ Hq), bystanders in Hr2.
    destruct (post_run _ _ _ _ _ _ Hwr Hren seed shoot eq_refl) as [Hw1 Hw2].
    eapply inv_deliver; [exact Hv2|exact Hk| |exact Hw1|exact Hw2|exact Hdl| |by eapply drifts_inv].
    + apply (proj2 Hr2). by exists cr.
    + intros c u e sent l e' Hin Hin'. apply (Hrec c u e sent l e'); right; apply elem_of_app; by right.
Qed.

(** ** Runs for other CRs *)

Lemma same_status_key cr sent : same_but_status cr sent -> cr_key sent = cr_key cr.
Proof. intros (H & _). unfold cr_key. by rewrite H. Qed.

(** A write of the CR [k], or of an object with its label. *)
Definition writes_for (k : NamespacedName) (ev : event) : Prop :=
  match ev with
  | EvPatch _ u _ => owner_of u = owner_of_key k
  | EvCRUpdate sent None => cr_key sent = k
  | EvStatusUpdate sent _ None => cr_key sent = k
  | _ => True
  end.

Lemma quiet_writes_for k t : Forall quiet t -> Forall (writes_for k) t.
Proof. intros H. eapply Forall_impl; [exact H|]. intros ev (Hw & Hcr & Hst & _). by destruct ev as [| | | |? []|? ? []| | | |]. Qed.

Lemma status_kept_writes k cr sent l e : cr_key cr = k -> status_kept cr (EvStatusUpdate sent l e) -> writes_for k (EvStatusUpdate sent l e).
Proof. intros <- H. destruct e; [done|]. by apply same_status_key, (H sent l). Qed.

Lemma delete_writes_for cr s res t s' :
  valid s -> reconcileDelete r cr s = (res, t, s') -> Forall (writes_for (cr_key cr)) t.
Proof.
  intros Hv Hrun. destruct (delete_run cr _ _ _ _ Hv Hrun) as (sent0 & cur & e0 & t' & -> & Hs0 & Hkey & _ & Hr & Hout).
  pose proof (post_run _ _ _ _ _ _ (post_reconcileDelete_kept r cr) Hrun) as (? & ? & ? & ? & [= <- <- <- <-] & Hst).
  apply Forall_cons. split; [destruct e0; [done|]; by apply same_status_key, same_record_status|].
  rewrite Forall_forall in Hst |- *. intros ev Hin. destruct Hout as [[-> _]|Hout]; [by apply elem_of_nil in Hin|].
  destruct ev as [|c u e|c u e| |sent e|sent l e| | | |]; try done.
  - exfalso. by apply (delete_both_no_patch _ _ _ _ _ (on_seed c) (obj_address u) Hout Hin).
  - destruct e; [done|]. cbn. rewrite <- Hkey. destruct (delete_both_written _ _ _ _ _ _ Hout Hin) as [?|(st & l & e & Hst' & Hk & ->)]; [done|].
    rewrite <- Hk. eapply replays_left; [exact Hr|]. right. exact Hst'.
  - by apply (status_kept_writes _ cur), Hst.
Qed.

Lemma run_writes req s res t s' :
  valid s -> Reconcile r req s = (res, t, s') ->
  (forall cr, head t = Some (EvCRGet req (Ok cr)) -> well_rendered cr) -> Forall (writes_for req) t.
Proof.
  intros Hv Hrun Hwr. destruct (run_phase _ _ _ _ _ Hrun) as (got & s1 & t' & Hget & -> & Hph).
  apply Forall_cons. split; [done|]. destruct got as [cr|err]; [|by destruct Hph as (-> & _)].
  destruct (read_stored _ _ _ _ _ Hv Hget) as (Hv1 & _ & Hc & Hk). specialize (Hwr cr eq_refl).
  destruct Hph as [Hd|e _ -> _ _|t0 ts sent left_ e err -> Hq -> Hsame _|seed shoot t0 s2 t1 -> Hq Hf Hren Hdl].
  - rewrite <- Hk. by eapply delete_writes_for.
  - apply Forall_singleton. by destruct e.
  - apply Forall_app. split; [by apply quiet_writes_for|]. apply Forall_singleton. destruct e; [done|].
    rewrite <- Hk. by apply same_status_key, same_record_status.
  - apply Forall_app. split; [by apply quiet_writes_for|]. destruct (post_run _ _ _ _ _ _ Hwr Hren seed shoot eq_refl) as [Hw1 Hw2].
    pose proof (post_run _ _ _ _ _ _ (post_deliver_calls cr seed shoot Hw1 Hw2) Hdl)
      as (tc & so & sho & cond & e & ts & -> & (now & now' & left_ & ->) & _ & Hcalls).
    apply Forall_app. split; [|apply Forall_singleton; by destruct e].
    rewrite Forall_forall. intros ev Hin. destruct (Hcalls ev Hin) as (Hst & Hup & Hp).
    destruct ev as [|c u e'| | |x e'|x l e'| | | |]; try done.
    + destruct (Hp c u e' eq_refl) as (m & Hm & ->). cbn. rewrite <- Hk. by apply prepared_address.
    + by destruct (Hup x e').
    + by apply (status_kept_writes _ cr).
Qed.

(** A run for another CR is part of what else may happen. *)
Lemma other_run_drifts req s res t s' :
  valid s -> Reconcile r req s = (res, t, s') -> admissible req t -> req ≠ key -> drifts (view_of s) (view_of s').
Proof.
  intros Hv Hrun Hadm Hne. assert (Forall (writes_for req) t) as Hw
    by (apply (run_writes _ _ _ _ _ Hv Hrun); intros cr Hcr; exact (proj1 (Hadm cr Hcr))).
  destruct (run_phase _ _ _ _ _ Hrun) as (got & s1 & t' & _ & -> & Hph). destruct (tracks_Reconcile req _ _ _ _ Hv Hrun) as [_ Hr].
  rewrite Forall_forall in Hw. revert Hr. apply replays_contained; [apply drifts_preorder|exact bystanders|]. intros v ev v' Hin Hs. specialize (Hw _ Hin).
  destruct got as [cr|err].
  - destruct (Hadm cr eq_refl) as (_ & _ & Hother). split.
    + intros a [Hcrd Hh]. split; [done|]. eapply ev_step_other_label; [exact Hs| |exact Hh].
      intros c u e ->. rewrite Hw. by apply Hother.
    + intros es. apply (ev_step_stands _ _ _ _ Hs).
      * intros sent l -> Hk. cbn in Hw. congruence.
      * intros sent -> Hk. cbn in Hw. congruence.
  - destruct Hph as (-> & _). apply list_elem_of_singleton in Hin as ->. destruct Hs as [Hu _]. by apply unchanged_drifts.
Qed.

(** ** Reachable states *)

Lemma step_valid s s' : valid s -> step s s' -> valid s'.
Proof. intros Hv. destruct 1 as [s req res t s' Hrun _|]; [|done]. by destruct (tracks_Reconcile req _ _ _ _ Hv Hrun). Qed.

Lemma step_inv s s' : valid s -> step s s' -> lifecycle_inv (view_of s) -> lifecycle_inv (view_of s').
Proof.
  intros Hv. destruct 1 as [s req res t s' Hrun Hadm|s s' _ Hd]; [|by apply drifts_inv].
  destruct (decide (req = key)) as [->|Hne]; [by eapply inv_own_run|]. by apply drifts_inv, (other_run_drifts _ _ _ _ _ Hv Hrun Hadm).
Qed.

Lemma reachable_inv s s' :
  valid s -> rtc step s s' -> lifecycle_inv (view_of s) -> valid s' /\ lifecycle_inv (view_of s').
Proof.
  intros Hv. induction 1 as [|s1 s2 s3 Hs _ IH]; [done|]. intros Hi. apply IH; [by eapply step_valid|by eapply step_inv].
Qed.

(** Before anything of this CR exists. *)
Definition initial (s : env) : Prop := valid s /\ v_cr (view_of s) key = None /\ clean (view_of s).

Lemma initial_inv s : initial s -> lifecycle_inv (view_of s).
Proof. intros (_ & Hn & Hc). unfold lifecycle_inv. by rewrite Hn. Qed.

(** C3: the inventory is complete. From a state without the CR and without objects of
    its own, whatever sequence of reconciles, for this CR and for others, of failures
    and of outside changes follows, between the runs and in the middle of them: as long as the CR has the finalizer, every object with its label on the
    cluster (CRDs and objects already being deleted aside) is named by the inventory
    of that cluster. *)
Theorem inventory_complete s0 s cr :
  initial s0 -> rtc step s0 s -> v_cr (view_of s) key = Some cr -> guarded cr = true ->
  forall a o, v_store (view_of s) side !! a = Some o -> owner_of o = owner_value cr -> ~ dying o -> ~ crd_address a ->
    exists rs, rs ∈ entries side cr /\ StatusIdentityKey rs = a.
Proof.
  intros Hi Hr Hc Hg a o Ho Hob Hd Hcrd. pose proof Hi as (Hv & _). apply initial_inv in Hi.
  destruct (reachable_inv _ _ Hv Hr Hi) as [Hv' Hinv]. unfold lifecycle_inv in Hinv. rewrite Hc, Hg in Hinv.
  apply Hinv. split; [done|]. exists o. by rewrite <- (law_key _ _ _ Hv' Hc).
Qed.

Lemma dying_dec o : dying o \/ ~ dying o.
Proof.
  unfold dying. destruct (vget o _) as [v| | |]; [destruct v; try (left; eexists; by split)|..];
    right; intros (v' & Heq & Hne); congruence.
Qed.

(** C2: nothing is left behind. In every state reached that way in which the CR is gone, the
    objects that still carry its label on the cluster, CRDs aside, are being deleted by the
    server; on the shoot this is said for lives without force-delete. *)
Theorem nothing_left_behind s0 s :
  initial s0 -> rtc step s0 s -> v_cr (view_of s) key = None ->
  forall a o, v_store (view_of s) side !! a = Some o -> owner_of o = owner_of_key key -> ~ crd_address a -> dying o.
Proof.
  intros Hi Hr Hc a o Ho Hob Hcrd. pose proof Hi as (Hv & _). apply initial_inv in Hi.
  destruct (reachable_inv _ _ Hv Hr Hi) as [_ Hinv]. unfold lifecycle_inv in Hinv. rewrite Hc in Hinv.
  destruct (dying_dec o) as [Hd|Hd]; [done|]. destruct (Hinv a). split; [done|]. by exists o.
Qed.

(** C4: convergence is exact. In a reachable state a run that reports success, while nobody
    else writes, leaves at the address of every object of its own transformed render what the
    server makes of that object sent with this CR's label (of two rendered objects of one
    identity, of one of them), and any other object with this CR's label on the cluster is a
    CRD or is being deleted. *)
Theorem success_is_exact s0 s t s' cr :
  initial s0 -> rtc step s0 s -> v_cr (view_of s) key = Some cr -> well_rendered cr ->
  Reconcile r key s = ((mkResult requeueInterval, None), t, s') -> undisturbed s t s' ->
  exists seed shoot s1 t0 s2, GetCR key s = (Ok cr, [EvCRGet key (Ok cr)], s1) /\
    render_both cr s1 = (inl (seed, shoot), t0, s2) /\
    (forall m, m ∈ render_of side seed shoot ->
       in_place cr (render_of side seed shoot) m (v_store (view_of s') side !! ManifestIdentityKey m)) /\
    (forall a o, v_store (view_of s') side !! a = Some o -> owner_of o = owner_value cr -> ~ dying o -> ~ crd_address a ->
       exists m, m ∈ render_of side seed shoot /\ ManifestIdentityKey m = a).
Proof.
  intros Hi Hr Hc Hwr Hrun Hund. pose proof Hi as (Hv & _). apply initial_inv in Hi.
  destruct (reachable_inv _ _ Hv Hr Hi) as [Hv' Hinv]. pose proof (law_key _ _ _ Hv' Hc) as Hk.
  destruct (success_state UL EL FS _ _ _ _ _ Hrun Hund Hc Hwr) as (seed & shoot & s1 & t0 & s2 & Hget & Hren & Hg & Hst).
  destruct (Hst side) as (H1 & H2 & H3).
  exists seed, shoot, s1, t0, s2. split_and!; [done..|]. intros a o Ho Hob Hd Hcrd.
  destruct (decide (Exists (fun m => ManifestIdentityKey m = a) (render_of side seed shoot))) as [Hex|Hn];
    [by apply Exists_exists in Hex|exfalso].
  assert (forall m, m ∈ render_of side seed shoot -> ManifestIdentityKey m ≠ a) as Hne
    by (intros m Hm Heq; apply Hn, Exists_exists; by exists m).
  assert (holds (owner_value cr) (v_store (view_of s') side !! a)) as Hh by by exists o.
  unfold lifecycle_inv in Hinv. rewrite Hc in Hinv. unfold guarded in Hinv. rewrite Hg in Hinv.
  destruct (Hinv a) as (rs & Hrs & <-); [split; [done|]; rewrite <- (key_owner cr Hk); by apply H3|].
  apply (H2 rs Hrs); [by apply (retained_is_crd cr rs)|done|done].
Qed.
(** No status write of the trace is refused or hands back a CR to be forced. *)
Definition all_recorded (t : list event) : bool :=
  forallb (fun ev => match ev with EvStatusUpdate _ l e => negb (is_set e) && negb (force_delete l) | _ => true end) t.

Lemma all_recorded_sound t : all_recorded t = true -> recorded t /\ unforced t.
Proof.
  unfold all_recorded. rewrite forallb_forall. intros H. split.
  - intros c u e sent l e' _ Hin. apply list_elem_of_In in Hin. by apply H in Hin.
  - intros sent l e Hin. apply list_elem_of_In, H, andb_true_iff in Hin as [_ Hf]. by apply negb_true_iff in Hf.
Qed.

(** A run for this CR is a step if what it reads renders well and its trace is that. *)
Lemma own_step s res t s' :
  Reconcile r key s = (res, t, s') -> (forall cr t1 s1, GetCR key s = (Ok cr, t1, s1) -> well_rendered cr) ->
  all_recorded t = true -> step s s'.
Proof.
  intros Hrun Hwr Hrec. eapply step_run; [exact Hrun|]. intros cr Hhead.
  destruct (run_phase _ _ _ _ _ Hrun) as (got & s1 & t' & Hget & -> & _). injection Hhead as ->.
  apply all_recorded_sound in Hrec as [Hrec Hf]. split; [by eapply Hwr|].
  split; [by auto|intros Hne; by destruct (Hne eq_refl)].
Qed.
End System.

(** ** A life *)

Import RefInstances.
#[local] Instance life_source : SourcePackage sim_Boundary := fixed_source s_seed s_shoot.
Abbreviation life_run w := (Reconcile (production_reconciler sim_Boundary) s_req w).

Lemma s_well_rendered cr :
  cr_Spec cr = cr_Spec s_live_cr -> meta_Namespace (cr_meta cr) = "shoot--demo" -> well_rendered cr.
Proof.
  intros Hs Hn s. pose proof (s_live_well_rendered s) as H. unfold render_both in *. rewrite Hs, Hn. exact H.
Qed.

(** The CR as its user wrote it. *)
Definition life_stamp (cr : DualDeploymentOperator) : DualDeploymentOperatorSpec * string :=
  (cr_Spec cr, meta_Namespace (cr_meta cr)).

Definition as_written (w : world) : Prop := life_stamp <$> w_cr w = Some (cr_Spec s_live_cr, "shoot--demo").

Lemma as_written_well_rendered w cr : as_written w -> stored_cr w s_req = Some cr -> well_rendered cr.
Proof. unfold as_written. intros Hw [_ Hcr]%stored_cr_key. rewrite Hcr in Hw. injection Hw as Hspec Hns. by apply s_well_rendered. Qed.

Lemma life_step side w :
  as_written w -> all_recorded (calls_of (life_run w)) = true -> step (B := sim_Boundary) s_req side w (snd (life_run w)).
Proof.
  intros Hw. apply (own_step (B := sim_Boundary) s_req side w _ _ _ (outcome_parts (life_run w))).
  intros cr t1 s1 Hget. cbn in Hget. destruct (stored_cr w s_req) as [cr'|] eqn:Hcr; [|done].
  injection Hget as -> _ _. by apply (as_written_well_rendered w).
Qed.

Definition deleted_at (now : Time) (cr : DualDeploymentOperator) : DualDeploymentOperator :=
  let m := cr_meta cr in
  mkDDO (mkObjectMeta (meta_Namespace m) (meta_Name m) (meta_Generation m) (Some now) (meta_Finalizers m) (meta_Annotations m))
    (cr_Spec cr) (cr_Status cr).

(** *** Undisturbed: nothing; the CR is created; it gets the finalizer; it is delivered. *)
Definition life0 : world := mkWorld (mkCluster ∅ []) (mkCluster ∅ []) None s_secrets 1000.
Definition life1 : world := with_cr life0 (Some (mk_cr "ShootFirst" "Retain" None [] ∅ [] [])).
Definition life2 : world := snd (life_run life1).
Definition life3 : world := snd (life_run life2).

Lemma no_object_initial side : clean s_req side (sim_view life0).
Proof. intros a [_ (o & Ho & _)]. destruct side; cbn in Ho; by rewrite lookup_empty in Ho. Qed.

(** Creating the CR. *)
Lemma create_drifts side : drifts s_req side (sim_view life0) (sim_view life1).
Proof. split; [exact (fun a H => H)|by intros es (cr & ? & _)]. Qed.

Lemma life_delivered side : rtc (step (B := sim_Boundary) s_req side) life0 life2.
Proof.
  eapply rtc_l; [|eapply rtc_l; [|apply rtc_refl]].
  - apply (step_other (B := sim_Boundary) s_req side life0 life1); [by split|apply create_drifts].
  - apply life_step; by vm_compute.
Qed.

(** The CR is stored: told from the shape of the store alone. *)
Lemma stored_default w key cr0 :
  match stored_cr w key with Some _ => true | None => false end = true -> v_cr (sim_view w) key = Some (default cr0 (w_cr w)).
Proof.
  intros H. change (stored_cr w key = Some (default cr0 (w_cr w))). destruct (stored_cr w key) as [cr|] eqn:E; [|done].
  by apply stored_cr_key in E as [_ ->].
Qed.

Definition life2_cr : DualDeploymentOperator := default s_live_cr (w_cr life2).

Lemma life2_stored : v_cr (sim_view life2) s_req = Some life2_cr.
Proof. apply stored_default. vm_compute. reflexivity. Qed.

Lemma life_success :
  life_run life2 = ((mkResult requeueInterval, None), calls_of (life_run life2), life3).
Proof.
  rewrite (outcome_parts (life_run life2)) at 1. fold life3.
  replace (result_of (life_run life2)) with (mkResult requeueInterval, @None error); [done|vm_compute; reflexivity].
Qed.

Lemma life_undisturbed : undisturbed (B := sim_Boundary) life2 (calls_of (life_run life2)) life3.
Proof.
  assert (sim_valid life2) as Hv by (split; vm_compute; reflexivity).
  exact (proj2 (tracks_Reconcile (B := sim_Boundary) s_req life2 _ _ _ Hv (outcome_parts (life_run life2)))).
Qed.

Lemma success_is_exact_witness :
  exists seed shoot s1 t0 s2, GetCR s_req life2 = (Ok life2_cr, [EvCRGet s_req (Ok life2_cr)], s1) /\
    render_both life2_cr s1 = (inl (seed, shoot), t0, s2) /\
    (forall m, m ∈ render_of true seed shoot ->
       in_place life2_cr (render_of true seed shoot) m (v_store (view_of life3) true !! ManifestIdentityKey m)) /\
    (forall a o, v_store (view_of life3) true !! a = Some o -> owner_of o = owner_value life2_cr -> ~ dying o -> ~ crd_address a ->
       exists m, m ∈ render_of true seed shoot /\ ManifestIdentityKey m = a).
Proof.
  assert (well_rendered life2_cr) as Hwr by (apply s_well_rendered; vm_compute; reflexivity).
  exact (success_is_exact (B := sim_Boundary) s_req true (unchanged_drifts s_req true) _ _ _ _ life0 life2 _ life3 life2_cr
    (conj (conj eq_refl eq_refl) (conj eq_refl (no_object_initial true))) (life_delivered true) life2_stored Hwr life_success life_undisturbed).
Defined.

(** *** Among others: the CR is created; it gets the finalizer; it is delivered; it is
    deleted; it is torn down; before every call somebody else writes. *)
Definition busy_source : SourcePackage busy_Boundary := fixed_source s_seed s_shoot.
#[local] Instance busy_contract : SourceContract busy_source := fixed_source_contract s_seed s_shoot.
#[local] Instance busy_tracks : RenderTracks busy_source := fixed_source_tracks s_seed s_shoot.
Definition busy_run (w : world) : (Result * option error) * list event * world :=
  @Reconcile _ _ _ _ busy_Boundary busy_source (production_reconciler busy_Boundary) s_req w.

Definition busy2 : world := snd (busy_run life1).
Definition busy3 : world := snd (busy_run busy2).
Definition busy4 : world := with_cr busy3 (deleted_at 1010 <$> w_cr busy3).
Definition busy5 : world := snd (busy_run busy4).

(** What the others do is allowed. *)
Lemma meddles_drifts side v v' : meddles v v' -> drifts s_req side v v'.
Proof.
  intros [Hs Hc]. split.
  - intros a [Hcrd (o & Ho & Hob & Hd)]. split; [done|]. destruct (Hs side a) as [Heq|[Hn|(o' & Ho' & Hob')]].
    + exists o. by rewrite <- Heq.
    + congruence.
    + exfalso. assert (o' = o) as -> by congruence. rewrite Hob' in Hob. by vm_compute in Hob.
  - intros es (cr & Hcr & Hg & He). specialize (Hc s_req). rewrite Hcr in Hc.
    destruct (v_cr v' s_req) as [cr'|] eqn:Hcr'; [|done]. destruct Hc as (_ & Hf & Hst). exists cr'.
    split; [done|]. unfold guarded, entries in *. by rewrite Hf, Hst.
Qed.

Lemma busy_step side w :
  as_written w -> all_recorded (calls_of (busy_run w)) = true ->
  step (B := busy_Boundary) (SP := busy_source) s_req side w (snd (busy_run w)).
Proof.
  intros Hw. apply (own_step (B := busy_Boundary) (SP := busy_source) s_req side w _ _ _ (outcome_parts (busy_run w))).
  intros cr t1 s1 Hget s. assert (stored_cr (stir w) s_req = Some cr) as Hcr.
  { cbn in Hget. destruct (stored_cr (stir w) s_req); [by injection Hget as -> _ _|done]. }
  assert (as_written (stir w)) as Hw'.
  { unfold as_written in *. cbn. destruct (w_cr w); [|done]. exact Hw. }
  apply (as_written_well_rendered (stir w) cr Hw' Hcr s).
Qed.

(** The user asks for the deletion. *)
Lemma delete_drifts side w now : drifts s_req side (sim_view w) (sim_view (with_cr w (deleted_at now <$> w_cr w))).
Proof.
  split; [exact (fun a H => H)|]. intros es (cr & [Hk Hcr]%stored_cr_key & Hg & He). exists (deleted_at now cr).
  split_and!; [|done|by destruct side]. cbn. unfold stored_cr. cbn. rewrite Hcr. cbn.
  by rewrite (proj2 (same_name_key s_req (deleted_at now cr)) Hk).
Qed.

Lemma busy_delivered side : rtc (step (B := busy_Boundary) (SP := busy_source) s_req side) life0 busy3.
Proof.
  eapply (rtc_l _ life0 life1), (rtc_l _ life1 busy2), (rtc_l _ busy2 busy3), rtc_refl.
  - apply (step_other (B := busy_Boundary) s_req side life0 life1); [by split|apply create_drifts].
  - apply (busy_step side life1); vm_compute; reflexivity.
  - apply (busy_step side busy2); vm_compute; reflexivity.
Qed.

Lemma busy_over side : rtc (step (B := busy_Boundary) (SP := busy_source) s_req side) life0 busy5.
Proof.
  etrans; [apply busy_delivered|]. eapply (rtc_l _ busy3 busy4), (rtc_l _ busy4 busy5), rtc_refl.
  - apply (step_other (B := busy_Boundary) s_req side busy3 busy4); [|apply delete_drifts]. split; vm_compute; reflexivity.
  - apply (busy_step side busy4); vm_compute; reflexivity.
Qed.

Definition busy3_cr : DualDeploymentOperator := default s_live_cr (w_cr busy3).

Lemma busy3_stored : v_cr (sim_view busy3) s_req = Some busy3_cr.
Proof. apply stored_default. vm_compute. reflexivity. Qed.

Lemma busy3_guarded : guarded busy3_cr = true.
Proof. vm_compute. reflexivity. Qed.

Lemma inventory_complete_witness :
  count is_patch (calls_of (busy_run busy2)) = 4 /\
  forall a o, v_store (sim_view busy3) true !! a = Some o -> owner_of o = owner_value busy3_cr -> ~ dying o -> ~ crd_address a ->
    exists rs, rs ∈ entries true busy3_cr /\ StatusIdentityKey rs = a.
Proof.
  split; [by vm_compute|].
  exact (inventory_complete (B := busy_Boundary) (SP := busy_source) s_req true (meddles_drifts true) _ _ _ _ life0 busy3 busy3_cr
    (conj (conj eq_refl eq_refl) (conj eq_refl (no_object_initial true))) (busy_delivered true) busy3_stored busy3_guarded).
Defined.

Lemma nothing_left_behind_witness :
  count is_delete (calls_of (busy_run busy4)) = 2 /\ w_cr busy5 = None /\
  forall a o, v_store (sim_view busy5) false !! a = Some o -> owner_of o = owner_of_key s_req -> ~ crd_address a -> dying o.
Proof.
  split; [by vm_compute|]. assert (w_cr busy5 = None) as Hn by (vm_compute; reflexivity). split; [exact Hn|].
  assert (v_cr (sim_view busy5) s_req = None) as Hnone by (cbn; unfold stored_cr; by rewrite Hn).
  exact (nothing_left_behind (B := busy_Boundary) (SP := busy_source) s_req false (meddles_drifts false) _ _ _ _ life0 busy5
    (conj (conj eq_refl eq_refl) (conj eq_refl (no_object_initial false))) (busy_over false) Hnone).
Defined.
