(* ===== verification/Lost.v ===== *)
(** An object the operator loses track of: what a run writes is rendered or recorded, so
    an object that was applied while the status write was refused, and that leaves the
    render before the next run, is never touched again. *)

From S2P Require Import Prelude Value Apimachinery Types Clients Manifest Order Boundary Applier Transform Controller Outcomes Safety ApplierProps Deliver Reference Simulator ReconcileProps DeliverProps DeleteProps Cluster Runs ClusterProps Lifecycle.
#[local] Open Scope list_scope.
#[local] Opaque IsClusterScoped computeHealth prepared OwnedByValue.

(** ** What a run writes *)

Section Writes.
Context {U : Unstructured} {E : ApiErrors} {L : MetaLib} {P : PatchLib} {B : Boundary} {SP : SourcePackage B}
  (UL : UnstructuredLaws U) (EL : ApiErrorsLaws E).

(** The entries a half leaves are of rendered or of previously recorded objects. *)
Lemma half_names cr c ms out ret ea ep ta tp rs :
  half cr c ms out ret ea ep ta tp -> Forall well_formed ms -> rs ∈ out ++ ret ->
  rs ∈ inventory c cr \/ exists m, m ∈ ms /\ StatusIdentityKey rs = ManifestIdentityKey m.
Proof.
  intros (ms' & errs & errs' & _ & Ha & _ & Hp & _) Hwf [Hin|Hin]%elem_of_app.
  - right. apply list_elem_of_lookup in Hin as [i Hi].
    destruct (Forall2_lookup_r _ _ _ _ _ (apply_all_statuses _ _ _ _ _ _ Ha) Hi) as (m & Hm%list_elem_of_lookup_2 & Hs).
    rewrite Forall_forall in Hwf. exists m. split; [done|].
    rewrite (rendered_key _ _ _ (Hwf m Hm) Hs). by apply prepared_key, Hwf.
  - left. rewrite <- elem_of_SortStatusForDelete. by apply (proj1 (prune_retained _ _ _ _ _ _ _ _ Hp)).
Qed.

Context (r : Reconciler) `{!ReconcilerContract r}.

(** The entries [es] are those of [cr] on this side or of the render. *)
Definition known (cr : DualDeploymentOperator) (side : bool) (ms : list Manifest) (es : list ResourceStatus) : Prop :=
  forall rs, rs ∈ es -> rs ∈ entries side cr \/ exists m, m ∈ ms /\ StatusIdentityKey rs = ManifestIdentityKey m.

Lemma deliver_outcome_known cr seed shoot res tc so sho cond e side :
  deliver_outcome cr (SortForApply seed) (SortForApply shoot) res tc so sho cond e ->
  Forall well_formed seed -> Forall well_formed shoot ->
  known cr side (render_of side seed shoot) (if side then so else sho).
Proof.
  intros Hd Hs%Forall_SortForApply Hsh%Forall_SortForApply.
  assert (forall c ms out ret ea ep ta tp, half cr c (SortForApply ms) out ret ea ep ta tp ->
    Forall well_formed (SortForApply ms) -> known cr (on_seed c) ms (out ++ ret)) as Hk.
  { intros c ms out ret ea ep ta tp Hh Hwf rs Hrs.
    destruct (half_names _ _ _ _ _ _ _ _ _ _ Hh Hwf Hrs) as [?|(m & Hm & ?)]; [left; by destruct c|right].
    exists m. by rewrite elem_of_SortForApply in Hm. }
  assert (forall ms, known cr side ms (entries side cr)) as Hold by (intros ms rs ?; by left).
  destruct Hd as [? ? ? ? ? _ _ _|? ? ? ? ? ? ? ? ? ? ? _ _ _ Hh|? ? ? ? ? ? ? ? ? ? ? _ _ Hh _ _
                 |? ? ? ? ? ? ? ? ? ? ? ? ? ? ? _ _ Hh _ Hh'|? ? ? ? ? ? ? ? ? ? ? ? ? ? ? _ _ Hh Hh'];
    destruct side; try apply Hold; solve [apply (Hk _ _ _ _ _ _ _ _ Hh); done|apply (Hk _ _ _ _ _ _ _ _ Hh'); done].
Qed.

(** A refused status write fails the run. *)
Lemma deliver_outcome_refused cr seed shoot res tc so sho cond e :
  deliver_outcome cr seed shoot res tc so sho cond (Some e) -> snd res ≠ None.
Proof.
  intros Hd. inversion Hd; subst; try done. cbn [snd]. intros Hn%(NewAggregate_forall EL).
  by apply Forall_cons in Hn as [? _].
Qed.

(** A write of a delivery: an object of the render, prepared, or the deletion of a recorded one. *)
Definition delivery_write (cr : DualDeploymentOperator) (seed shoot : list Manifest) (ev : event) : Prop :=
  match ev with
  | EvPatch c u _ => exists m, m ∈ render_of (on_seed c) seed shoot /\ obj_address u = ManifestIdentityKey m /\
      owner_of u = owner_value cr
  | EvDelete c u _ => exists rs, rs ∈ entries (on_seed c) cr /\ obj_address u = StatusIdentityKey rs
  | EvStatusUpdate _ _ _ => False
  | _ => True
  end.

(** A delivery: its writes on the clusters, then the one status write. *)
Lemma post_deliver_writes cr seed shoot :
  Forall well_formed seed -> Forall well_formed shoot ->
  post (deliver r cr seed shoot) (fun res t => exists tc sent left_ e,
    t = tc ++ [EvStatusUpdate sent left_ e] /\ Forall (delivery_write cr seed shoot) tc /\
    (forall side, known cr side (render_of side seed shoot) (entries side sent)) /\ (e ≠ None -> snd res ≠ None)).
Proof.
  intros Hs Hsh. eapply post_mono; [by apply (post_deliver r)|].
  intros res t (tc & ts & so & sho & cond & e & -> & (now & now' & left_ & ->) & Hd).
  eexists tc, _, left_, e. split; [done|]. split_and!.
  - apply Forall_forall. intros ev Hin. destruct (deliver_outcome_calls _ _ _ _ _ _ _ _ _ _ Hd Hin)
      as [(Hw & _ & Hst & _)|(c & ms & out & ret & ea & ep & ta & tp & Hc & Hh & Hev)]; [by destruct ev|].
    assert (render_of (on_seed c) seed shoot ⊆ ms /\ ms ⊆ render_of (on_seed c) seed shoot) as [Hsub Hsub'].
    { destruct Hc as [[-> ->]|(cfg & -> & ->)]; split; intros m; by rewrite elem_of_SortForApply. }
    assert (Forall well_formed ms) as Hwf
      by (destruct Hc as [[_ ->]|(cfg & _ & ->)]; by apply Forall_SortForApply).
    pose proof (half_client _ _ _ _ _ _ _ _ _ Hh) as Hcl. rewrite Forall_forall in Hcl. specialize (Hcl ev Hev).
    destruct ev as [|c' u e'|c' u e'| | | | | | |]; try done.
    + destruct (half_sent _ _ _ _ _ _ _ _ _ _ _ _ Hh Hev) as [-> (m & Hm & ->)]. rewrite Forall_forall in Hwf.
      destruct (prepared_address UL (owner_value cr) m (Hwf m Hm)). exists m. auto.
    + destruct (half_deletes _ _ _ _ _ _ _ _ _ _ _ _ Hh Hev) as [-> (rs & ms' & Hrs & -> & _)].
      exists rs. split; [by destruct c|apply entry_address].
  - intros side. pose proof (deliver_outcome_known _ _ _ _ _ _ _ _ _ side Hd Hs Hsh) as Hk. by destruct side.
  - destruct e as [e|]; [|done]. intros _. by eapply deliver_outcome_refused.
Qed.

(** A deletion deletes what is recorded. *)
Lemma delete_all_deletes c ob cr prev errs t c' u e :
  delete_all_outcome c ob cr prev errs t -> EvDelete c' u e ∈ t ->
  c' = c /\ exists rs, rs ∈ prev /\ obj_address u = StatusIdentityKey rs.
Proof.
  intros Hd Hin. split.
  { pose proof (delete_all_client _ _ _ _ _ _ Hd) as Hc. rewrite Forall_forall in Hc. apply (Hc _ Hin). }
  induction Hd as [|rs prev errs t _ _ IH|rs prev err errs td t _ Ho _ IH]; [by apply elem_of_nil in Hin|..].
  - destruct (IH Hin) as (rs' & ? & ?). exists rs'. split; [by right|done].
  - apply elem_of_app in Hin as [Hin|Hin].
    + exists rs. split; [by left|]. rewrite <- (entry_address rs). destruct Ho; in_list; done.
    + destruct (IH Hin) as (rs' & ? & ?). exists rs'. split; [by right|done].
Qed.

Lemma delete_both_deletes cr ob res t c u e :
  delete_both_outcome cr ob res t -> EvDelete c u e ∈ t ->
  exists rs, rs ∈ entries (on_seed c) cr /\ obj_address u = StatusIdentityKey rs.
Proof.
  intros (tb & tsd & tsh & tf & errs & d & -> & Hq & Hsh & Hsd & Hf) Hin.
  assert (forall c0 l errs0 t0, delete_all_outcome c0 ob cr (SortStatusForDelete l) errs0 t0 -> l = entries (on_seed c0) cr ->
    EvDelete c u e ∈ t0 -> exists rs, rs ∈ entries (on_seed c) cr /\ obj_address u = StatusIdentityKey rs) as Hone.
  { intros c0 l errs0 t0 Ho -> Hx. destruct (delete_all_deletes _ _ _ _ _ _ _ _ _ Ho Hx) as [-> (rs & Hrs & ?)].
    exists rs. by rewrite elem_of_SortStatusForDelete in Hrs. }
  assert (EvDelete c u e ∉ tf) as Htf.
  { destruct (NewAggregate errs); [destruct Hf as [-> _]; by intros ?%elem_of_nil|].
    apply (finish_no_delete _ _ _ _ (on_seed c)) in Hf. rewrite Forall_forall in Hf. intros Hx. by apply (Hf _ Hx). }
  assert (EvDelete c u e ∉ tb) as Htb by (rewrite Forall_forall in Hq; intros Hx; by destruct (Hq _ Hx)).
  assert (EvDelete c u e ∈ tsd \/ EvDelete c u e ∈ tsh) as [Hx|Hx]
    by (destruct (bool_decide _); rewrite !elem_of_app in Hin; tauto).
  - by apply (Hone _ _ _ _ Hsd).
  - destruct Hsh as [|cfg errs' t' Ht'|]; [by apply elem_of_nil in Hx|by apply (Hone _ _ _ _ Ht')|by apply elem_of_nil in Hx].
Qed.
End Writes.

(** ** Where the operator does not look *)

Section Blind.
Context {U : Unstructured} {E : ApiErrors} {ST : Storage} {L : MetaLib} {P : PatchLib} {B : Boundary} {SP : SourcePackage B}
  {LS : LawfulServer B} {RT : RenderTracks SP} {SC : SourceContract SP}.
Abbreviation r := (production_reconciler B).

(** A CR, and a place on one of its clusters. *)
Context (key : NamespacedName) (side : bool) (a : string).

(** No entry names the object at [a]; the stored CR has no such entry. *)
Definition unnamed (es : list ResourceStatus) : Prop := forall rs, rs ∈ es -> StatusIdentityKey rs ≠ a.
Definition unaware (v : view) : Prop := forall cr, v_cr v key = Some cr -> unnamed (entries side cr).

(** The object at [a] stays as it is, and the CR does not learn of it. *)
Definition spares (v v' : view) : Prop :=
  v_store v' side !! a = v_store v side !! a /\ (unaware v -> unaware v').

#[export] Instance spares_preorder : PreOrder spares.
Proof. split; [by split|]. intros v1 v2 v3 [H1 H2] [H3 H4]. split; [congruence|auto]. Qed.

Lemma unchanged_spares v v' : unchanged v v' -> spares v v'.
Proof. intros [Hs Hc]. split; [by rewrite Hs|]. intros H cr. rewrite Hc. apply H. Qed.

(** The others leave the object alone as well. *)
Context (bystanders : forall v v', drift v v' -> spares v v').

(** An accepted status write that does not name the object. *)
Definition names_not (ev : event) : Prop :=
  forall sent left_, ev = EvStatusUpdate sent left_ None -> unnamed (entries side sent).

Lemma ev_step_unaware v ev v' : ev_step v ev v' -> names_not ev -> unaware v -> unaware v'.
Proof.
  intros Hs Hn Hu. assert (v_cr v' key = v_cr v key -> unaware v') as Hsame by (intros Heq cr; rewrite Heq; apply Hu).
  destruct ev as [c g k res|c u e|c u e|k res|sent e|sent l e| | | |]; cbn in Hs; try (apply Hsame; apply Hs).
  - destruct e; [apply Hsame, Hs|]. destruct Hs as [[_ Ho] (old & new & Hold & _ & Hst & _ & _ & Hnew)].
    destruct (decide (cr_key sent = key)) as [Hk|Hk]; [|by apply Hsame, Ho, not_eq_sym].
    rewrite Hk in Hold, Hnew. intros cr Hcr. destruct Hnew as [Hnew|[Hnew _]]; [|congruence].
    assert (new = cr) as -> by congruence. unfold entries. rewrite Hst. by apply (Hu old).
  - destruct e; [apply Hsame, (proj1 Hs)|]. destruct Hs as ([_ Ho] & old & _ & -> & Hnew & _).
    destruct (decide (cr_key sent = key)) as [Hk|Hk]; [|by apply Hsame, Ho, not_eq_sym].
    rewrite Hk in Hnew. intros cr Hcr. rewrite Hnew in Hcr. injection Hcr as <-. by apply (Hn sent _ eq_refl).
Qed.

Lemma replays_unaware v t v' : replays drift v t v' -> Forall names_not t -> unaware v -> unaware v'.
Proof.
  induction 1 as [v v' Hd|v v0 ev v1 t v' Hd Hs _ IH]; intros Hn Hu; [by apply (bystanders _ _ Hd)|].
  apply Forall_cons in Hn as [Hev Hn]. apply IH; [done|]. apply (ev_step_unaware _ _ _ Hs Hev). by apply (bystanders _ _ Hd).
Qed.

(** A call that neither writes at [a] nor records it. *)
Definition passes_by (ev : event) : Prop := ~ sends_to side a ev /\ ~ deletes_at side a ev /\ names_not ev.

Lemma replays_spares v t v' : replays drift v t v' -> Forall passes_by t -> spares v v'.
Proof.
  intros Hr Hp. revert Hr. apply replays_contained; [apply spares_preorder|exact bystanders|]. intros v1 ev v2 Hin Hs.
  rewrite Forall_forall in Hp. destruct (Hp ev Hin) as (H1 & H2 & H3).
  split; [by apply (ev_step_elsewhere _ ev)|by apply (ev_step_unaware _ ev)].
Qed.

Lemma quiet_passes_by t : Forall quiet t -> Forall passes_by t.
Proof.
  intros H. eapply Forall_impl; [exact H|]. intros ev (Hw & _ & Hst & _).
  split_and!; [intros Hs; by destruct ev|intros Hs; by destruct ev|by intros ? ? ->].
Qed.

Lemma same_record_unnamed cr sent l e :
  same_record cr sent -> unnamed (entries side cr) -> passes_by (EvStatusUpdate sent l e).
Proof. intros (_ & _ & Hs) Hu. split_and!; [by intros []|by intros []|]. intros ? ? [= <- _ _]. by rewrite Hs. Qed.

Context (UL : UnstructuredLaws U) (EL : ApiErrorsLaws E).

(** The render that a run would deliver has no object at [a]. *)
Definition renders_elsewhere (s : env) : Prop :=
  forall cr t s1 seed shoot t0 s2, GetCR key s = (Ok cr, t, s1) -> render_both cr s1 = (inl (seed, shoot), t0, s2) ->
    Forall well_formed seed /\ Forall well_formed shoot /\
    forall m, m ∈ render_of side seed shoot -> ManifestIdentityKey m ≠ a.

Lemma deliver_passes_by cr seed shoot s res t s' :
  Forall well_formed seed -> Forall well_formed shoot -> unnamed (entries side cr) ->
  (forall m, m ∈ render_of side seed shoot -> ManifestIdentityKey m ≠ a) ->
  deliver r cr seed shoot s = (res, t, s') -> Forall passes_by t.
Proof.
  intros Hs Hsh Hu Hne Hrun.
  destruct (post_run _ _ _ _ _ _ (post_deliver_writes UL EL r cr seed shoot Hs Hsh) Hrun)
    as (tc & sent & left_ & e & -> & Htc & Hkn & _).
  apply Forall_app. split.
  - eapply Forall_impl; [exact Htc|]. intros ev Hw. split_and!.
    + intros Hx. destruct ev; try done. destruct Hx as [Hx1 Hx2], Hw as (m & Hm & Hk & _). rewrite Hx1 in Hm. apply (Hne m Hm). congruence.
    + intros Hx. destruct ev; try done. destruct Hx as [Hx1 Hx2], Hw as (rs & Hrs & Hk). rewrite Hx1 in Hrs. apply (Hu rs Hrs). congruence.
    + by intros ? ? ->.
  - apply Forall_singleton. split_and!; [by intros []|by intros []|]. intros ? ? [= <- _ _] rs Hrs.
    destruct (Hkn side rs Hrs) as [Hin|(m & Hm & ->)]; [by apply Hu|by apply Hne].
Qed.

Lemma delete_passes_by cr s res t s' :
  valid s -> unnamed (entries side cr) -> reconcileDelete r cr s = (res, t, s') -> Forall passes_by t.
Proof.
  intros Hv Hu Hrun. destruct (delete_run cr _ _ _ _ Hv Hrun) as (sent0 & cur & e0 & t' & -> & Hs0 & _ & Hent & _ & Hout).
  pose proof (post_run _ _ _ _ _ _ (post_reconcileDelete_kept r cr) Hrun) as (? & ? & ? & ? & [= <- <- <- <-] & Hst).
  apply Forall_cons. split; [by eapply same_record_unnamed|].
  rewrite Forall_forall in Hst |- *. intros ev Hin. destruct Hout as [[-> _]|Hout]; [by apply elem_of_nil in Hin|]. split_and!.
  - by eapply delete_both_no_patch.
  - intros Hx. destruct ev as [| |c u e| | | | | | |]; try done. destruct Hx as [Hx1 Hx2].
    destruct (delete_both_deletes UL _ _ _ _ _ _ _ Hout Hin) as (rs & Hrs & Hk). rewrite Hent, Hx1 in Hrs.
    apply (Hu rs Hrs). congruence.
  - intros sent l ->. rewrite (same_status_entries side cur sent), Hent; [done|]. by apply (Hst _ Hin sent l).
Qed.

(** A run of a CR that does not know the object, with a render elsewhere. *)
Lemma blind_run s res t s' :
  valid s -> Reconcile r key s = (res, t, s') -> unaware (view_of s) -> renders_elsewhere s ->
  spares (view_of s) (view_of s').
Proof.
  intros Hv Hrun Hu Hre. destruct (tracks_Reconcile key _ _ _ _ Hv Hrun) as [_ Hr]. apply (replays_spares _ _ _ Hr).
  destruct (run_phase _ _ _ _ _ Hrun) as (got & s1 & t' & Hget & -> & Hph).
  apply Forall_cons. split; [by split_and!; [intros []|intros []|]|].
  destruct got as [cr|err]; [|by destruct Hph as [-> _]].
  destruct (read_stored _ _ _ _ _ Hv Hget) as (Hv1 & [_ Hd]%bystanders & Hc & _).
  assert (unnamed (entries side cr)) as Hn by by apply (Hd Hu).
  destruct Hph as [Hdel|e _ -> _ _|t0 ts sent left_ e err -> Hq -> Hsame _|seed shoot t0 s2 t1 -> Hq _ Hren Hdl].
  - exact (delete_passes_by _ _ _ _ _ Hv1 Hn Hdel).
  - apply Forall_singleton. by split_and!; [intros []|intros []|].
  - apply Forall_app. split; [by apply quiet_passes_by|]. apply Forall_singleton. by eapply same_record_unnamed.
  - apply Forall_app. split; [by apply quiet_passes_by|]. destruct (Hre _ _ _ _ _ _ _ Hget Hren) as (H1 & H2 & H3).
    exact (deliver_passes_by _ _ _ _ _ _ _ H1 H2 Hn H3 Hdl).
Qed.

(** What may happen later: runs for the CR whose renders have no object at [a], and anything
    else that leaves the object alone: edits and the deletion of the CR, runs for other CRs,
    writes of others elsewhere. *)
Inductive later : env -> env -> Prop :=
| later_run s res t s' : Reconcile r key s = (res, t, s') -> renders_elsewhere s -> later s s'
| later_other s s' : valid s' -> spares (view_of s) (view_of s') -> later s s'.

Lemma later_blind s s' :
  valid s -> unaware (view_of s) -> rtc later s s' -> v_store (view_of s') side !! a = v_store (view_of s) side !! a.
Proof.
  intros Hv Hu Hl. revert Hv Hu. induction Hl as [|s1 s2 s3 Hs _ IH]; [done|]. intros Hv Hu.
  assert (valid s2 /\ spares (view_of s1) (view_of s2)) as (Hv2 & Heq & Hu2).
  { destruct Hs as [s1 res t s2 Hrun Hre|]; [|done]. split; [by destruct (tracks_Reconcile key _ _ _ _ Hv Hrun)|by eapply blind_run]. }
  rewrite <- Heq. auto.
Qed.

(** C37: a lost status write leaves the object behind for good. A run applies an object that
    no inventory of the CR names, and its status write is refused: the run returns an error, but
    the object is on the cluster with this CR's label. If the object leaves the render
    before the next run, then it stays exactly as it is through all later runs for the
    CR, successful or not, through the deletion of the CR and beyond: nothing of the
    operator ever deletes it. *)
Theorem refused_status_write_leaks s res t s' cr c u sent left_ e :
  valid s -> Reconcile r key s = (res, EvCRGet key (Ok cr) :: t, s') -> well_rendered cr ->
  unnamed (entries side cr) -> EvPatch c u None ∈ t -> on_seed c = side -> obj_address u = a ->
  EvStatusUpdate sent left_ (Some e) ∈ t ->
  snd res ≠ None /\
  exists o, v_store (view_of s') side !! a = Some o /\ owner_of o = owner_value cr /\
    forall s'', rtc later s' s'' -> v_store (view_of s'') side !! a = Some o.
Proof.
  intros Hv Hrun Hwr Hu Hin Hc Ha Hst. destruct (tracks_Reconcile key _ _ _ _ Hv Hrun) as [Hv' _].
  destruct (run_phase _ _ _ _ _ Hrun) as (got & s1 & t' & Hget & [= <- <-] & Hph).
  destruct (read_stored _ _ _ _ _ Hv Hget) as (Hv1 & _ & Hcr & _).
  destruct Hph as [Hdel|e1 _ -> _ _|t0 ts ? ? ? ? -> Hq -> _ _|seed shoot t0 s2 t1 -> Hq _ Hren Hdl].
  { by destruct (post_run _ _ _ _ _ _ (reconcileDelete_no_patch r cr) Hdel c u None). }
  { by apply list_elem_of_singleton in Hin. }
  { apply elem_of_app in Hin as [Hin|Hin]; [by apply quiet_not_patch in Hin|by apply list_elem_of_singleton in Hin]. }
  destruct (tracks_render_both cr _ _ _ _ Hv1 Hren) as [Hv2 Hr2].
  destruct (tracks_deliver cr seed shoot _ _ _ _ Hv2 Hdl) as [_ Hr].
  destruct (post_run _ _ _ _ _ _ Hwr Hren seed shoot eq_refl) as [Hw1 Hw2].
  destruct (post_run _ _ _ _ _ _ (post_deliver_writes UL EL r cr seed shoot Hw1 Hw2) Hdl)
    as (tc & sent' & left' & e' & -> & Htc & _ & Herr).
  rewrite Forall_forall in Htc.
  assert (e' = Some e) as ->.
  { apply elem_of_app in Hst as [Hst|[Hst|[= _ _ ->]%list_elem_of_singleton]%elem_of_app]; [|by destruct (Htc _ Hst)|done].
    rewrite Forall_forall in Hq. by destruct (Hq _ Hst) as (_ & _ & ? & _). }
  assert (EvPatch c u None ∈ tc) as Hin'.
  { apply elem_of_app in Hin as [Hin|[Hin|Hin]%elem_of_app]; [by apply quiet_not_patch in Hin|done|by apply list_elem_of_singleton in Hin]. }
  split; [by apply Herr|].
  assert (forall v v', drift v v' -> v_store v' (on_seed c) !! obj_address u = v_store v (on_seed c) !! obj_address u) as Hstill
    by (intros v v' Hd; rewrite Hc, Ha; by apply bystanders).
  destruct (replays_sent _ _ _ c u Hstill Hr) as (c' & u' & e' & Hin2 & Hside & _ & o & Ho & Hso).
  - by apply elem_of_app; left.
  - intros ev [Hev|Hev%list_elem_of_singleton]%elem_of_app Hd; [|by subst]. destruct ev as [| |c2 u2 e2| | | | | | |]; try done.
    destruct Hd as [Hd1 Hd2], (Htc _ Hev) as (rs & Hrs & Hk). rewrite Hd1, Hc in Hrs. apply (Hu rs Hrs). congruence.
  - rewrite Hc, Ha in Ho. exists o. split; [done|]. split.
    + apply elem_of_app in Hin2 as [Hin2|Hin2]; [|by apply list_elem_of_singleton in Hin2].
      destruct (Htc _ Hin2) as (_ & _ & _ & <-). by apply stored_label.
    + intros s'' Hl. rewrite <- Ho. apply later_blind; [done| |done]. apply (replays_unaware _ _ _ Hr).
      * apply Forall_app. split; [|by apply Forall_singleton]. apply Forall_forall. intros ev Hev.
        intros ? ? ->. by destruct (Htc _ Hev).
      * apply (replays_unaware _ _ _ Hr2); [|intros cr0 Hcr0; by assert (cr0 = cr) as -> by congruence].
        eapply Forall_impl; [by apply quiet_passes_by|]. by intros ev (_ & _ & ?).
Qed.
End Blind.

(** ** A lost object *)

Import RefInstances.

(** The simulation, with an API server that refuses status writes before the time 1010. *)
Definition outage_StatusUpdate (cr : DualDeploymentOperator) (w : world) : (DualDeploymentOperator * option error) * world :=
  if (w_clock w <? 1010)%Z then ((cr, Some (EExt "Conflict" "the object has been modified")), w) else sim_StatusUpdate cr w.

Definition outage_Boundary : Boundary := {|
  env := world;
  client_Get := client_Get (Boundary := sim_Boundary);
  client_Patch := client_Patch (Boundary := sim_Boundary);
  client_Delete := client_Delete (Boundary := sim_Boundary);
  cr_Get := cr_Get (Boundary := sim_Boundary);
  cr_Update := cr_Update (Boundary := sim_Boundary);
  cr_StatusUpdate := outage_StatusUpdate;
  secret_Get := secret_Get (Boundary := sim_Boundary);
  client_New := client_New (Boundary := sim_Boundary);
  recorder_Eventf := recorder_Eventf (Boundary := sim_Boundary);
  time_Now := time_Now (Boundary := sim_Boundary);
|}.

#[local] Instance outage_LawfulServer : LawfulServer outage_Boundary.
Proof.
  refine {| valid := sim_valid : @env outage_Boundary -> Prop; view_of := sim_view : @env outage_Boundary -> view; drift := unchanged |};
    try done.
  - intros v1 v2 v3 H1 H2. by etrans.
  - intros w k cr _ Hc. apply (stored_cr_key _ _ _ Hc).
  - exact (law_Get (B := sim_Boundary)).
  - exact (law_Patch (B := sim_Boundary)).
  - exact (law_Delete (B := sim_Boundary)).
  - exact (law_CRGet (B := sim_Boundary)).
  - exact (law_CRUpdate (B := sim_Boundary)).
  - intros cr w Hv. cbn. unfold outage_StatusUpdate. destruct (w_clock w <? 1010)%Z; [|exact (law_StatusUpdate (B := sim_Boundary) cr w Hv)].
    split; [done|]. exists (sim_view w). by split_and!.
Defined.

(** A source whose seed render follows the version in the spec: version 1 has a ConfigMap. *)
Definition versioned (seed : string) : DualDeploymentOperatorSpec :=
  mkSpec (mkSource None (Some (mkKustomizeSource "https://git.example.com/op" seed "shoot" None))) s_access "widgets-system" []
    (mkRetentionPolicy "Retain") "ShootFirst".

Definition seed_path (src : Source) : string :=
  match source_Kustomize src with Some k => kustomize_SeedPath k | None => "" end.

Definition versioned_render (src : Source) (mode : Mode) : list Manifest :=
  match mode with
  | ModeSeed => if bool_decide (seed_path src = "v1") then [mkManifest s_configmap ""] else []
  | ModeShoot => []
  end.

#[local] Instance versioned_source : SourcePackage outage_Boundary := {|
  source_From src _ := Ok (mkSourceI _ (fun mode _ => ret (Ok (versioned_render src mode))));
|}.
#[local] Instance versioned_contract : SourceContract versioned_source.
Proof. split. intros spec ns src mode n [= <-]. by apply post_ret. Qed.
#[local] Instance versioned_tracks : RenderTracks versioned_source.
Proof. split. intros spec ns src mode n [= <-]. apply tracks_ret. Qed.
#[local] Instance outage_FaithfulServer : FaithfulServer outage_Boundary.
Proof. split. exact (patch_identity (B := sim_Boundary)). Qed.

Definition lost_run (w : world) : (Result * option error) * list event * world :=
  @Reconcile _ _ _ _ outage_Boundary versioned_source (production_reconciler outage_Boundary) s_req w.

Definition lost_cr (seed : string) (deleted : option Time) : DualDeploymentOperator :=
  mkDDO (mkObjectMeta "shoot--demo" "widgets" 3 deleted [FinalizerName] ∅) (versioned seed) (mkStatus [] [] [] None).

(** The CR as the next user finds it: with another spec, or with a deletion time; some time passes. *)
Definition at_clock (w : world) (now : Z) (cr : option DualDeploymentOperator) : world :=
  mkWorld (w_seed w) (w_shoot w) cr (w_secrets w) now.

(** Version 1 is delivered, but the status write is refused; the user moves to version 2, which is
    delivered; the user deletes the CR, which is torn down. *)
Definition lost1 : world := mk_world [] [] (lost_cr "v1" None).
Definition lost2 : world := snd (lost_run lost1).
Definition lost3 : world := at_clock lost2 1020 (Some (lost_cr "v2" None)).
Definition lost4 : world := snd (lost_run lost3).
Definition lost5 : world := at_clock lost4 1030 (deleted_at 1030 <$> w_cr lost4).
Definition lost6 : world := snd (lost_run lost5).

(** Version 1 renders the ConfigMap, version 2 nothing. *)
Lemma v1_rendered (s : @env outage_Boundary) : exists ms, render_both (B := outage_Boundary) (lost_cr "v1" None) s = (inl (ms, []), [], s) /\ Forall well_formed ms.
Proof.
  exists (match result_of (render_both (B := outage_Boundary) (lost_cr "v1" None) lost1) with inl (seed, _) => seed | inr _ => [] end).
  split; [by vm_compute|]. apply well_formedb_sound. by vm_compute.
Qed.

Lemma v2_rendered cr (s : @env outage_Boundary) : cr_Spec cr = versioned "v2" -> meta_Namespace (cr_meta cr) = "shoot--demo" -> render_both (B := outage_Boundary) cr s = (inl ([], []), [], s).
Proof. intros Hs Hn. unfold render_both. rewrite Hs, Hn. by vm_compute. Qed.

Lemma v1_well_rendered : well_rendered (B := outage_Boundary) (lost_cr "v1" None).
Proof. intros s. destruct (v1_rendered s) as (ms & -> & Hms). intros ? ? [= <- <-]. by split. Qed.

Lemma v2_elsewhere w a :
  (cr_Spec <$> w_cr w) = Some (versioned "v2") -> (fun cr => meta_Namespace (cr_meta cr)) <$> w_cr w = Some "shoot--demo" ->
  renders_elsewhere (B := outage_Boundary) s_req true a w.
Proof.
  intros Hs Hn cr t s1 seed shoot t0 s2 Hget Hren. cbn in Hget.
  destruct (stored_cr w s_req) as [cr'|] eqn:Hcr; [|done]. injection Hget as -> _ _. apply stored_cr_key in Hcr as [_ Hcr].
  rewrite Hcr in Hs, Hn. injection Hs as Hs. injection Hn as Hn. rewrite (v2_rendered cr s1 Hs Hn) in Hren.
  injection Hren as <- <- _ _. split_and!; [done..|]. by intros m ?%elem_of_nil.
Qed.

(** An edit of the CR that leaves its inventory empty. *)
Lemma edit_spares w now x a :
  (status_SeedResources ∘ cr_Status) <$> x = Some [] -> spares s_req true a (sim_view w) (sim_view (at_clock w now x)).
Proof.
  intros Hx. split; [done|]. intros _ cr [_ Hcr]%stored_cr_key. cbn in Hcr. rewrite Hcr in Hx. injection Hx as Hx.
  intros rs Hrs. cbn in Hrs. rewrite Hx in Hrs. by apply elem_of_nil in Hrs.
Qed.

Lemma lost_later a : rtc (later (B := outage_Boundary) s_req true a) lost2 lost6.
Proof.
  eapply (rtc_l _ lost2 lost3), (rtc_l _ lost3 lost4), (rtc_l _ lost4 lost5), (rtc_l _ lost5 lost6), rtc_refl.
  - apply (later_other (B := outage_Boundary) s_req true a lost2 lost3); [split; vm_compute; reflexivity|].
    apply edit_spares. vm_compute. reflexivity.
  - apply (later_run (B := outage_Boundary) s_req true a lost3 _ _ lost4 (outcome_parts (lost_run lost3))).
    apply v2_elsewhere; vm_compute; reflexivity.
  - apply (later_other (B := outage_Boundary) s_req true a lost4 lost5); [split; vm_compute; reflexivity|].
    apply edit_spares. vm_compute. reflexivity.
  - apply (later_run (B := outage_Boundary) s_req true a lost5 _ _ lost6 (outcome_parts (lost_run lost5))).
    apply v2_elsewhere; vm_compute; reflexivity.
Qed.

(** The object sent to the seed at [a], and the refusal, found in a trace. *)
Definition took (a : string) (t : list event) : bool :=
  existsb (fun ev => match ev with EvPatch SeedClient u None => bool_decide (obj_address u = a) | _ => false end) t.
Definition refused (t : list event) : bool :=
  existsb (fun ev => match ev with EvStatusUpdate _ _ (Some _) => true | _ => false end) t.

Lemma took_patch a t : took a t = true -> exists u, EvPatch SeedClient u None ∈ t /\ obj_address u = a.
Proof.
  intros (ev & Hin%list_elem_of_In & He)%existsb_exists. destruct ev as [|[|cfg] u [e|]| | | | | | | |]; try done.
  exists u. split; [done|]. by apply bool_decide_eq_true in He.
Qed.

Lemma refused_write t : refused t = true -> exists sent l e, EvStatusUpdate sent l (Some e) ∈ t.
Proof.
  intros (ev & Hin%list_elem_of_In & He)%existsb_exists. destruct ev as [| | | | |sent l [e|]| | | |]; try done. by exists sent, l, e.
Qed.

Lemma lost_run_reads :
  lost_run lost1 = (result_of (lost_run lost1), EvCRGet s_req (Ok (lost_cr "v1" None)) :: tail (calls_of (lost_run lost1)), lost2).
Proof.
  destruct (run_phase (B := outage_Boundary) (r := production_reconciler outage_Boundary) s_req lost1 _ _ _ (outcome_parts (lost_run lost1)))
    as (got & s1 & t & Hg & Ht & _).
  assert (GetCR (B := outage_Boundary) s_req lost1 = (Ok (lost_cr "v1" None), [EvCRGet s_req (Ok (lost_cr "v1" None))], lost1))
    as Hg' by (vm_compute; reflexivity).
  assert (got = Ok (lost_cr "v1" None)) as -> by congruence. rewrite (outcome_parts (lost_run lost1)) at 1. by rewrite Ht.
Qed.

Lemma refused_status_write_leaks_witness :
  snd (result_of (lost_run lost1)) ≠ None /\ result_of (lost_run lost3) = (mkResult requeueInterval, None) /\
  result_of (lost_run lost5) = (Result0, None) /\ w_cr lost6 = None /\
  exists o, v_store (sim_view lost6) true !! obj_address s_configmap = Some o /\ owner_of o = s_owner.
Proof.
  assert (took (obj_address s_configmap) (tail (calls_of (lost_run lost1))) = true) as (u & Hu & Ha)%took_patch
    by (vm_compute; reflexivity).
  assert (refused (tail (calls_of (lost_run lost1))) = true) as (sent & l & e & Hr)%refused_write by (vm_compute; reflexivity).
  destruct (refused_status_write_leaks (B := outage_Boundary) (LS := outage_LawfulServer) s_req true (obj_address s_configmap) (unchanged_spares _ _ _)
    _ _ lost1 _ _ lost2 (lost_cr "v1" None) SeedClient u sent l e (conj eq_refl eq_refl) lost_run_reads v1_well_rendered
    (fun rs H => match proj1 (elem_of_nil rs) H with end) Hu eq_refl Ha Hr) as (Herr & o & _ & Ho & Hlater).
  split; [exact Herr|]. split; [vm_compute; reflexivity|]. split; [vm_compute; reflexivity|]. split; [vm_compute; reflexivity|].
  exists o. split; [exact (Hlater lost6 (lost_later _))|exact Ho].
Defined.
