(* ===== verification/Main.v ===== *)
(** cmd/main.go: the flags, the options of the servers and of the manager, and the
    order in which the manager is put together and started.

    controller-runtime is a parameter: a call to it changes an abstract state and
    may fail.  Log lines and the zap and kubeconfig flags are left out. *)

From S2P Require Import Prelude Value Apimachinery Boundary Applier Controller.
#[local] Open Scope list_scope.

(** ** Flags and environment *)

Record Flags := mkFlags {
  metricsAddr : string; metricsCertPath : string; metricsCertName : string; metricsCertKey : string;
  webhookCertPath : string; webhookCertName : string; webhookCertKey : string;
  enableLeaderElection : bool; probeAddr : string; secureMetrics : bool; enableHTTP2 : bool;
  sourceScratchDir : string;
}.

(** The values of the flags when the command line sets none. *)
Definition default_flags : Flags :=
  mkFlags "0" "" "tls.crt" "tls.key" "" "tls.crt" "tls.key" false ":8081" true false "".

(** ** Options *)

(** [tls.Config] as far as the options touch it. *)
Record TLSConfig := mkTLSConfig { NextProtos : list string }.
Definition disableHTTP2 (c : TLSConfig) : TLSConfig := mkTLSConfig ["http/1.1"].

Definition tls_opts (f : Flags) : list (TLSConfig -> TLSConfig) :=
  if negb (enableHTTP2 f) then [disableHTTP2] else [].

Record WebhookOptions := mkWebhookOptions {
  wh_TLSOpts : list (TLSConfig -> TLSConfig); wh_CertDir : string; wh_CertName : string; wh_KeyName : string }.

Definition webhook_options (f : Flags) : WebhookOptions :=
  if negb (bool_decide (webhookCertPath f = ""))
  then mkWebhookOptions (tls_opts f) (webhookCertPath f) (webhookCertName f) (webhookCertKey f)
  else mkWebhookOptions (tls_opts f) "" "" "".

Inductive FilterProvider := WithAuthenticationAndAuthorization.

Record MetricsOptions := mkMetricsOptions {
  BindAddress : string; SecureServing : bool; mx_TLSOpts : list (TLSConfig -> TLSConfig);
  mx_FilterProvider : option FilterProvider; mx_CertDir : string; mx_CertName : string; mx_KeyName : string }.

Definition metrics_options (f : Flags) : MetricsOptions :=
  let filter := if secureMetrics f then Some WithAuthenticationAndAuthorization else None in
  if negb (bool_decide (metricsCertPath f = ""))
  then mkMetricsOptions (metricsAddr f) (secureMetrics f) (tls_opts f) filter
         (metricsCertPath f) (metricsCertName f) (metricsCertKey f)
  else mkMetricsOptions (metricsAddr f) (secureMetrics f) (tls_opts f) filter "" "" "".

(** [cache.Options.DefaultNamespaces]: nil watches all namespaces. *)
Definition cache_namespaces (podNamespace : string) : option (list string) :=
  if negb (bool_decide (podNamespace = "")) then Some [podNamespace] else None.

Record ManagerOptions := mkManagerOptions {
  Metrics : MetricsOptions; WebhookServer : WebhookOptions; Cache : option (list string);
  HealthProbeBindAddress : string; LeaderElection : bool; LeaderElectionID : string;
  LeaderElectionReleaseOnCancel : bool }.

Definition manager_options (f : Flags) (podNamespace : string) : ManagerOptions :=
  mkManagerOptions (metrics_options f) (webhook_options f) (cache_namespaces podNamespace) (probeAddr f)
    (enableLeaderElection f) "9ca8e82a.cc.sap" true.

(** ** The reconciler *)

(** What main puts into the reconciler, told by the call that makes it. *)
Inductive part :=
| mgr_GetClient
| mgr_GetScheme
| mgr_GetEventRecorder (name : string)
| source_NewHelmLoader (scratchDir : string)
| source_NewGitResolver
| source_NewRenderCache.

(** [source.Deps] as main fills it; what it leaves out is nil. *)
Record SourceDeps := mkSourceDeps {
  ChartLoader : option part; RootResolver : option part; CredentialResolver : option part; RenderCache : option part }.

(** The reconciler with its applier for the seed, whose client is the manager's. *)
Record DualDeploymentOperatorReconciler := mkDualDeploymentOperatorReconciler {
  Client : part; Scheme : part; Recorder : part;
  SeedApplier : SSAApplier; SeedApplier_Client : part;
  Deps : SourceDeps; shootApplierFor : option part }.

Definition reconciler (f : Flags) : DualDeploymentOperatorReconciler :=
  mkDualDeploymentOperatorReconciler mgr_GetClient mgr_GetScheme (mgr_GetEventRecorder "dual-deployment-operator")
    (mkSSAApplier SeedClient FieldManagerName "seed") mgr_GetClient
    (mkSourceDeps (Some (source_NewHelmLoader (sourceScratchDir f))) (Some source_NewGitResolver) None (Some source_NewRenderCache))
    None.

(** ** Putting the manager together *)

Inductive setup_call :=
| GetConfigOrDie
| NewManager (opts : ManagerOptions)
| SetupController (r : DualDeploymentOperatorReconciler)
| SetupWebhook
| AddHealthzCheck (name : string)
| AddReadyzCheck (name : string)
| Start.

Section Main.
Context {State : Type} (lib : setup_call -> State -> option error * State).

Definition setup (A : Type) : Type := State -> A * list setup_call * State.

(** [if err := call; err != nil { os.Exit(1) }], and then the rest. *)
Definition or_exit (c : setup_call) (k : setup Z) : setup Z := fun s =>
  let '(err, s') := lib c s in
  match err with
  | Some _ => (1%Z, [c], s')
  | None => let '(code, calls, s'') := k s' in (code, c :: calls, s'')
  end.

(** [main], after flag.Parse: its exit code and its calls. [getenv] is os.Getenv. *)
Definition main (f : Flags) (getenv : string -> string) : setup Z :=
  or_exit GetConfigOrDie
  (or_exit (NewManager (manager_options f (getenv "POD_NAMESPACE")))
  (or_exit (SetupController (reconciler f))
  (let finish :=
     or_exit (AddHealthzCheck "healthz")
     (or_exit (AddReadyzCheck "readyz")
     (or_exit Start (fun s => (0%Z, [], s)))) in
   if negb (bool_decide (getenv "ENABLE_WEBHOOKS" = "false")) then or_exit SetupWebhook finish else finish))).

(** ** What it does *)

(** The calls before Start, and those of a start that goes through. *)
Definition wiring (f : Flags) (getenv : string -> string) : list setup_call :=
  [GetConfigOrDie; NewManager (manager_options f (getenv "POD_NAMESPACE"));
   SetupController (reconciler f)] ++
  (if bool_decide (getenv "ENABLE_WEBHOOKS" = "false") then [] else [SetupWebhook]) ++
  [AddHealthzCheck "healthz"; AddReadyzCheck "readyz"].

Definition full_start (f : Flags) (getenv : string -> string) : list setup_call := wiring f getenv ++ [Start].

(** Running [plan] from [s] ends after [calls], of which the last failed or which are all. *)
Inductive runs : list setup_call -> State -> list setup_call -> Z -> State -> Prop :=
| runs_end s : runs [] s [] 0 s
| runs_fail c plan s e s' : lib c s = (Some e, s') -> runs (c :: plan) s [c] 1 s'
| runs_go c plan s s' calls code s'' :
    lib c s = (None, s') -> runs plan s' calls code s'' -> runs (c :: plan) s (c :: calls) code s''.

Definition follows (m : setup Z) (plan : list setup_call) : Prop :=
  forall s code calls s', m s = (code, calls, s') -> runs plan s calls code s'.

Lemma follows_end : follows (fun s => (0%Z, [], s)) [].
Proof. intros s code calls s' [= <- <- <-]. constructor. Qed.

Lemma follows_or_exit c k plan : follows k plan -> follows (or_exit c k) (c :: plan).
Proof.
  intros Hk s code calls s'. unfold or_exit. destruct (lib c s) as [[e|] s1] eqn:E.
  - intros [= <- <- <-]. by econstructor.
  - destruct (k s1) as [[code1 calls1] s2] eqn:Ek. intros [= <- <- <-]. econstructor; [done|by apply Hk].
Qed.

Lemma main_follows f getenv : follows (main f getenv) (full_start f getenv).
Proof.
  unfold main, full_start, wiring. cbn [app]. do 3 apply follows_or_exit. case_bool_decide; cbn [negb app];
    repeat apply follows_or_exit; apply follows_end.
Qed.

Lemma runs_prefix plan s calls code s' :
  runs plan s calls code s' -> (code = 0%Z /\ calls = plan) \/ (code = 1%Z /\ calls `prefix_of` plan).
Proof.
  induction 1 as [s|c plan s e s' H|c plan s s' calls code s'' H _ IH]; [by left| |].
  - right. split; [done|]. by exists plan.
  - destruct IH as [[-> ->]|[-> [rest ->]]]; [by left|right]. split; [done|by exists rest].
Qed.

(** Whatever came before a call that was made succeeded. *)
Lemma runs_before plan s pre c rest code s' :
  runs plan s (pre ++ c :: rest) code s' -> exists s1, runs pre s pre 0 s1.
Proof.
  revert plan s. induction pre as [|x pre IH]; intros plan s H; [by exists s; constructor|].
  inversion H as [|? ? ? ? ? ? Hl|? ? ? s1 ? ? ? Hlib Hr]; subst; [by destruct pre|].
  apply IH in Hr as [s2 Hr]. exists s2. by econstructor.
Qed.

Lemma start_not_wiring f getenv : Start ∉ wiring f getenv.
Proof. unfold wiring. case_bool_decide; cbn [app]; rewrite !elem_of_cons, elem_of_nil; intuition discriminate. Qed.

Lemma prefix_of_start f getenv calls :
  calls `prefix_of` full_start f getenv -> Start ∈ calls -> calls = wiring f getenv ++ [Start].
Proof.
  pose proof (start_not_wiring f getenv) as Hn. unfold full_start. intros Hp Hin.
  destruct calls as [|c calls _] using rev_ind; [by apply elem_of_nil in Hin|].
  destruct Hp as [rest Hr]. destruct rest as [|x rest _] using rev_ind; [by rewrite app_nil_r in Hr|].
  rewrite app_assoc in Hr. apply app_inj_tail in Hr as [Hr _]. destruct Hn. rewrite Hr. apply elem_of_app. by left.
Qed.

(** The servers refuse HTTP/2 unless it was asked for, the metrics endpoint checks its
    callers unless that was turned off, and the cache watches the pod's namespace only. *)
Definition guarded (f : Flags) (podNamespace : string) (opts : ManagerOptions) : Prop :=
  (enableHTTP2 f = false -> forall c,
     NextProtos (foldl (fun c o => o c) c (wh_TLSOpts (WebhookServer opts))) = ["http/1.1"] /\
     NextProtos (foldl (fun c o => o c) c (mx_TLSOpts (Metrics opts))) = ["http/1.1"]) /\
  (secureMetrics f = true -> SecureServing (Metrics opts) = true /\
     mx_FilterProvider (Metrics opts) = Some WithAuthenticationAndAuthorization) /\
  (podNamespace ≠ "" -> Cache opts = Some [podNamespace]).

Lemma manager_options_guarded f ns : guarded f ns (manager_options f ns).
Proof.
  unfold guarded, manager_options, metrics_options, webhook_options, cache_namespaces, tls_opts; cbn.
  split_and!.
  - intros -> c. by repeat case_bool_decide.
  - intros ->. by repeat case_bool_decide.
  - intros. by rewrite bool_decide_eq_false_2.
Qed.

(** Everything a reconcile uses is there: clients, scheme and recorder of the manager, the
    seed applier under the operator's field manager, both source loaders and the render
    cache, the chart loader in the scratch directory of the flags; credentials are resolved
    and shoot appliers built in the regular way, without an override. *)
Definition equipped (f : Flags) (r : DualDeploymentOperatorReconciler) : Prop :=
  (Client r = mgr_GetClient /\ Scheme r = mgr_GetScheme /\ SeedApplier_Client r = Client r /\
   exists name, Recorder r = mgr_GetEventRecorder name) /\
  (ssa_FieldManager (SeedApplier r) = FieldManagerName /\ ssa_Client (SeedApplier r) = SeedClient) /\
  ChartLoader (Deps r) = Some (source_NewHelmLoader (sourceScratchDir f)) /\
  RootResolver (Deps r) = Some source_NewGitResolver /\ RenderCache (Deps r) = Some source_NewRenderCache /\
  CredentialResolver (Deps r) = None /\ shootApplierFor r = None.

Lemma reconciler_equipped f : equipped f (reconciler f).
Proof. split_and!; try done. by eexists. Qed.

(** C40: the process starts fully wired or not at all: main makes a prefix of one fixed
    sequence of calls and exits with 1 at the first that fails; the manager is started
    only after the controller with a fully equipped reconciler, the admission webhook unless disabled, and both probes were
    registered without error; and a manager is only ever built with HTTP/2 off unless
    asked for, authenticated metrics unless turned off, and a cache of the pod's
    namespace where it is known. *)
Theorem main_starts_fully_wired f getenv s code calls s' :
  main f getenv s = (code, calls, s') ->
  ((code = 0%Z /\ calls = full_start f getenv) \/ (code = 1%Z /\ calls `prefix_of` full_start f getenv)) /\
  (Start ∈ calls -> exists before s1, calls = before ++ [Start] /\ runs before s before 0 s1 /\
     (exists r, SetupController r ∈ before /\ equipped f r) /\
     AddHealthzCheck "healthz" ∈ before /\ AddReadyzCheck "readyz" ∈ before /\
     (getenv "ENABLE_WEBHOOKS" ≠ "false" -> SetupWebhook ∈ before)) /\
  (forall opts, NewManager opts ∈ calls -> guarded f (getenv "POD_NAMESPACE") opts).
Proof.
  intros H%main_follows. apply runs_prefix in H as Hp.
  assert (calls `prefix_of` full_start f getenv) as Hpre by (destruct Hp as [[_ ->]|[_ ?]]; done).
  split_and!; [done| |].
  - intros Hin. apply (prefix_of_start f getenv calls Hpre) in Hin as ->. apply runs_before in H as [s1 H].
    exists (wiring f getenv), s1. split_and!; [done|done|unfold wiring..].
    { exists (reconciler f). split; [|apply reconciler_equipped]. rewrite !elem_of_app, !elem_of_cons; tauto. }
    1-2: rewrite !elem_of_app, !elem_of_cons; tauto.
    intros Hw. rewrite bool_decide_eq_false_2 by done. rewrite !elem_of_app, !elem_of_cons. tauto.
  - intros opts Hin. assert (NewManager opts ∈ full_start f getenv) as Hf by (destruct Hpre as [r ->]; apply elem_of_app; by left).
    assert (opts = manager_options f (getenv "POD_NAMESPACE")) as ->; [|apply manager_options_guarded].
    unfold full_start, wiring in Hf. case_bool_decide; cbn [app] in Hf; rewrite !elem_of_cons, elem_of_nil in Hf;
      intuition congruence.
Qed.
End Main.

Lemma main_starts_fully_wired_witness :
  main (fun _ (_ : unit) => (None, tt)) default_flags (fun _ => "") tt = (0%Z, full_start default_flags (fun _ => ""), tt) /\
  exists before s1, full_start default_flags (fun _ => "") = before ++ [Start] /\
    runs (fun _ (_ : unit) => (None, tt)) before tt before 0 s1 /\ SetupWebhook ∈ before.
Proof.
  assert (main (fun _ (_ : unit) => (None, tt)) default_flags (fun _ => "") tt =
    (0%Z, full_start default_flags (fun _ => ""), tt)) as E by reflexivity.
  split; [exact E|].
  destruct (main_starts_fully_wired (fun _ (_ : unit) => (None, tt)) default_flags (fun _ => "") tt 0 _ tt E) as (_ & Hs & _).
  destruct Hs as (before & s1 & H1 & H2 & _ & _ & _ & H3).
  - apply elem_of_app. right. constructor.
  - exists before, s1. split; [exact H1|]. split; [exact H2|]. apply H3. discriminate.
Defined.
